(* ===== verification/_CoqProject ===== *)
-Q . S2P
Prelude.v
Clock.v
Text.v
Random.v
FastRng.v
Codec.v
Keys.v
Lfsr.v
Amnezia.v
Cps.v
Config.v
Packet.v
Ip.v
AllowedIps.v
Session.v
Handshake.v
RateLimiter.v
Timers.v
Tunnel.v
Loss.v
TunnelSafe.v
TunnelDelivery.v
TunnelConnect.v
TunnelTimers.v
TunnelIdentity.v
EventPoll.v
EventGuards.v
Kqueue.v
DevLock.v
Device.v
DeviceInv.v
DeviceData.v
EventLoop.v
DeviceLife.v
DeviceStrip.v
DeviceRoute.v
DeviceDelivery.v
DeviceSafe.v
DeviceServe.v
DeviceSteps.v
DeviceWorkers.v
DeviceSpec.v
DeviceApi.v
Tun.v
Privileges.v
Cli.v
DeviceStart.v
DeviceSample.v
DeviceTalk.v
Ffi.v
FfiSafe.v
Jni.v
Phobos.v
PhobosCodec.v
