(* ===== verification/Prelude.v ===== *)
(** * A verification development for awgtun (WireGuard with AmneziaWG framing)

    ** The program

    [awgtun] is a userspace WireGuard tunnel that speaks the AmneziaWG 2.0, 3.0
    and 3.1 dialects: random prefixes before every message (S1-S4), message type
    values drawn from configured ranges (H1-H4), junk and signature packets
    before a handshake, ChaCha20 header protection, content padding and random
    trailers.  Its parts, and the files that model them:

    - [awgtun/src/amnezia.rs], the configuration and the framing primitives.
      [Random] and [FastRng]: the [RandomSource] trait (a class) and the
      per-thread generator [FastRandom] that implements it.  [Amnezia]: header
      ranges, paddings, junk, AWG 3.0 ranges, header protection.  [Cps]: the tag
      chains of the I1-I5 packets.  [Config]: [Amnezia2Config],
      [Amnezia3Config], the UAPI block parser and printer.  [Codec] holds the
      two text codecs these call (base64, hexadecimal) as classes with an
      instance each, [Text] the string functions of [std] they use.
    - [awgtun/src/noise/mod.rs], first half: [Packet], the classifier that finds
      a message inside a padded datagram, and the parser.
    - [awgtun/src/noise/session.rs]: [Session], the transport keys, the sending
      counter and the 1024-bit replay window.
    - [awgtun/src/noise/handshake.rs]: [Handshake], the Noise IKpsk2 exchange,
      TAI64N stamps, session indices, cookies.
    - [awgtun/src/noise/rate_limiter.rs]: [RateLimiter].
    - [awgtun/src/noise/timers.rs]: [Timers], the timer table; the methods of
      [Tunn] in that file are in [Tunnel].
    - [awgtun/src/noise/mod.rs], second half: [Tunnel], the type [Tunn] with
      every method that changes it, down to [encapsulate], [decapsulate] and
      [update_timers]; [Loss], the figures it reports, with the arithmetic of
      [f32].  [TunnelSafe], [TunnelDelivery], [TunnelConnect] and [TunnelTimers]
      hold the theorems about tunnels.
    - [awgtun/src/sleepyinstant]: [Clock].
    - [awgtun/src/phobos/mod.rs], an outer obfuscation layer for plain
      WireGuard messages: [Phobos], its configuration and payload encoding;
      [PhobosCodec], the STUN and RTP frames and the codec object.
    - [awgtun/src/serialization.rs]: [Keys], the two text forms of a key.
    - [awgtun/src/device]: the interface that owns the tunnels of many peers.
      [Lfsr] is the generator of 24-bit peer indices of [mod.rs]; [Ip] the
      textual addresses of [std::net] and [AllowedIP] of [peer.rs];
      [AllowedIps] the routing table of [allowed_ips.rs].  [EventPoll] is the
      registry of handlers by descriptor of [epoll.rs], [EventGuards] the
      addresses that it, the kernel and the workers hold, [Kqueue] the registry
      of [kqueue.rs]; [DevLock] the lock of [dev_lock.rs] with its threads, and
      [EventLoop] the workers of [DeviceHandle::event_loop] over it.  [Device] is
      the control plane of [mod.rs] and the [Peer] of [peer.rs] (peers, keys,
      configuration, sockets), [DeviceData] the handlers that move packets and
      run the timers, [DeviceApi] the configuration protocol of [api.rs],
      [DeviceStart] the building of a device with all its registrations and the
      clean-up at its end.  [DeviceSteps] splits the handlers at their locks.
      [Tun] is the interface of [tun_linux.rs] and [tun_darwin.rs], [Privileges]
      the [drop_privileges.rs].  [TunnelIdentity] (what a tunnel never changes
      about itself), [DeviceInv], [DeviceLife], [DeviceStrip], [DeviceRoute],
      [DeviceDelivery], [DeviceSafe], [DeviceServe], [DeviceSteps], [DeviceWorkers] and
      [DeviceSpec]
      hold the theorems about devices; [DeviceSample] and [DeviceTalk] are a device, and
      two devices that talk to each other, on which these are instantiated.
    - [awgtun-cli/src/main.rs]: [Cli], the command line program.
    - [awgtun-ffi/src/lib.rs] and [jni.rs], the C and Java interfaces of a single
      tunnel: [Ffi] and [Jni], with [FfiSafe] for the theorems about the former.

    ** Conventions

    A Rust function returns a [result]: [Ok], [Err], or [Panic] for an
    unwinding panic (slice out of range, failed [expect], subtraction below
    zero).  A method on [&mut self] that can fail is a body of the state monad
    [ST]; what it did before an error stays done.  [runs] is the total
    correctness of such a body: no panic, and a postcondition.  A byte is a [Z]
    in 0..255, a [w]-bit integer a [Z] with its wrap-around written out (release
    arithmetic); sizes and buffer lengths are [nat].  A destination buffer is
    its length, the slice returned is the bytes written.  Time is in
    nanoseconds; the clock, the ephemeral secret of a handshake and the OS
    generator's bytes are arguments ([Env], constructor arguments), so a run is
    a function of them.  The [Mutex] and the atomics of the session and the
    limiter are plain fields, and each method is one step on them.

    A device's [Arc<Mutex<Peer>>] is an identifier into a heap of peers, so the
    three maps and the registered handlers share a peer the way the source does;
    the same holds for a limiter shared between the device and its tunnels.  What
    a device call learns from outside (the order of a [HashMap] walk, clocks,
    keys, the outcome of every system call) is its [Host].  The table crate
    [ip_network_table] is the class [IpNetworkTable] with an instance on finite
    maps ([PrefixMap.trie]).  The parts of the kernel that programs rely on by
    their manual are classes too, with an instance each: [EventFd] (a notifier's
    counter), [Epoll] and [Kernel] (the interest lists of epoll and kqueue),
    [Credentials] (setuid and setgid).  Every other system call is an argument:
    what it returns.

    Concurrency is interleaving: a schedule says which worker takes its next step,
    and the theorems of [DevLock], [EventLoop], [DeviceSteps] and [DeviceWorkers]
    hold for every schedule.  A handler is one step in the theorems about the lock;
    in [DeviceSteps] it is a sequence of them, one for each stretch under a peer's
    mutex or at the rate limiter.  A call of a registry in [EventGuards] is one
    step.

    The cryptography is abstract: [ChaCha20] (a keystream byte per key, nonce
    and position), [Aead] (ring's ChaCha20-Poly1305: lengths and
    open-after-seal), [NoiseCrypto] (BLAKE2s, HMAC, X25519, XChaCha20-Poly1305:
    lengths, commutativity of Diffie-Hellman, open-after-seal).  Nothing is
    assumed about secrecy or collision resistance.  Each class has a toy
    instance ([sum_stream], [ToyAead.cipher], [ToyNoise.crypto]) on which the
    witnesses run.

    Loops are structural on a counter: a [while] loop's counter is the number of
    iterations it can make at most ([clear_skipped]: the distance to the new
    counter; the CPS parser: the length of the text; [fill]: the bytes asked
    for), and the theorems about them hold for the functions with that bound
    built in, so none is conditional on enough fuel.  The loop that flushes a
    tunnel's queue has no bound in the source; its model takes two turns more
    than there are queued packets and panics when they are not enough, and
    [flush_terminates] shows that they always are.

    ** What is shown

    The theorems about tunnels and devices are for configurations that are accepted
    and [usable]: validation takes an I-packet with a length tag [<dz n>] for any n,
    and generating one with n above 8 panics ([cps_datasize_panics]).  Devices need
    [serviceable] ones, in which the content padding also leaves room for a
    keepalive in a datagram ([response_keepalive_panics] is what happens otherwise).
    Each statement names what else it needs: buffers, a key, open sockets, system
    calls that succeed.

    - Tunnel.  [tunnel_never_panics]: from the constructor on, over any sequence
      of public calls and any received bytes, no call panics and outputs fit
      their buffers ([TunnelSafe]; every method has its contract there).
      [tunnel_delivery]: what [encapsulate] writes at one end, [decapsulate]
      turns back into the same IP packet at the other, once.  [tunnels_connect]:
      two tunnels configured for each other, given each other's datagrams, complete
      a handshake and then deliver every packet of any exchange, in both directions.
      [loss_is_a_share]: the loss that a tunnel reports is a number between 0 and
      1, whatever was received in whatever order.  [TunnelTimers]:
      session expiry, giving up, retransmission, restarting, and
      [response_keepalive_panics], the case the no-panic theorem excludes.
    - Sessions.  The replay bitmap refines a set of received counters; a counter
      is accepted at most once; the nonces given to the cipher are never reused;
      near 2^64 the window fails open ([replay_window_wraps]).
    - Handshake.  Two ends configured for each other agree on keys and indices;
      replayed initiations are refused; stamps are monotone; delayed responses
      complete the right handshake.
    - Limiter.  What the handshake formats is admitted; a cookie reply gives the
      sender the cookie that admits its next message; the load threshold is
      exact.
    - Framing.  Header validation is unambiguity of the type field; the
      classifier finds the message kind when sizes differ or paddings agree;
      parsing inverts the wire layout; header protection is an involution.
    - Configuration.  Parsing yields valid configurations, and printing one
      parses back to it; the same for CPS chains, whose generator emits one
      segment per tag.  [cps_datasize_panics] and [cps_hex_panics] are the two
      ways it panics.
    - Phobos.  [phobos_delivery]: what [wrap] makes of a message [unwrap] turns
      back into it, but for two named coincidences; [unwrap] never panics; RTP
      frames are numbered in order; the Binding exchange reports the source
      address; the keystream is the documented one; [set] keeps a configuration
      valid.  The repository's conformance vectors are checked as examples.
    - Randomness.  The buffered generator hands out the keystream in order,
      never twice, and reseeds after a fork.
    - Device.  [device_stays_consistent]: in every state reached through any
      requests, traffic and timers the three maps name the same peers and every
      tunnel has the device's keys and configuration;
      [inbound_reaches_its_peer]: so messages find the tunnel they are meant
      for; adding and removing a peer do what they say; indices are distinct
      until the generator has run through all of them.
    - Traffic.  [traffic_never_panics]: whatever arrives, the handlers of a
      configured device return.  [interface_writes_are_admitted]: what they write
      to the interface comes from one of the datagrams received, was decrypted by
      a session that the peer of its index has at that point, with a counter that
      the session's window takes, and has a source that this peer is allowed; [interface_reads_are_routed]: what leaves
      the interface goes to the endpoint of the peer its destination selects, and
      nowhere else.  [device_delivery]: a packet read from the interface of one
      device is written to the interface of the other.
      [device_strips_as_tunnel]: the device and the tunnel strip a datagram alike.
    - Workers.  [workers_serve]: any number of workers on one device serve its
      traffic in every interleaving of their handlers; whoever has a guard finds the
      device's invariant, whatever panicked before.
      [prog_is_handler]: the handlers are what their stretches between locks
      make one after the other; [handlers_interleave]: interleaved at these locks
      they still keep the device consistent, and none of them panics.
      [writer_gets_in]: a handler that asks for write access gets it as
      the others make way, and nobody overtakes it; [shutdown_completes]: the exit
      notice ends every worker, within a bounded number of steps;
      [guarded_pointers_live]: no address of the registry dangles as long as
      nothing is registered over a held guard, and
      [registering_over_a_guard_dangles] what happens otherwise;
      [started_device_is_wired]: a device that starts has its handlers where they
      belong; only the yield notice makes a worker yield.
    - Routing.  The table of allowed IPs refines a list of networks searched for
      the longest prefix; text that parses as an allowed IP is well formed.
    - Requests.  Whatever a [set] request holds, the device stays consistent and
      the status is one of four; a block of AmneziaWG lines is applied as a whole
      or not at all.  [set_existing_peer_panics], [remove_applies_to_next_peer],
      [read_error_drops_block] and [listen_port_change_keeps_old_listener] are
      the cases in which the device does not do what it is asked.
    - Lock.  Under every interleaving an upgrade is atomic ([upgrade_is_atomic]:
      from the announcement to the write no other thread writes, announces itself or
      gets a guard) and the lock does not deadlock; after a panic inside it nobody
      reads again ([panic_shuts_lock]).
    - System.  The registry of kqueue agrees with the kernel ([kqueue_agrees]; not
      when a descriptor is registered over, [registering_over_loses_event]);
      setting up the interface accounts for its descriptors, and packets cross it
      unchanged; dropped privileges stay dropped ([privileges_stay_dropped]),
      supplementary groups apart ([groups_are_kept]); the parent process reports
      what became of the daemon ([parent_reports_device]).
    - Keys.  The hexadecimal and base64 forms of a key parse back to it.
    - Bindings.  [ffi_calls_return]: over any sequence of C calls within the
      caller's contract no panic and no bad pointer is reached and sizes fit
      their buffers; a struct of zeros is standard WireGuard;
      [jni_packet_contract]: a Java call either has no effect or does what the C
      call does inside its buffer.  [poll_drops_packet] and
      [inverted_header_accepted] are where the C interface departs from its
      header.

    ** What is not modelled

    Logging; making and owning the directory of the API socket; the file that
    macOS writes the interface name to; the text of operating system errors; the
    buffers of a worker, of which the handlers use the part they have just
    written; [block_signal], which nothing calls; the [EIO] that [api_set] would return
    if [try_writeable] returned nothing, which it never does.  Inside one call on a session the
    loads and stores of its atomics are not interleaved.  The tests and benchmarks
    of the repository are not part of the program. *)

From Stdlib Require Import ZArith Lia Ascii.
From stdpp Require Import base list option strings tactics.

Declare Scope awg_scope.
Delimit Scope awg_scope with awg.
#[global] Arguments reverse {A} _ : simpl never.
Open Scope Z_scope.

(** ** Outcomes of a Rust call

    [Ok] and [Err] are the two variants of [Result]; [Panic] is an unwinding
    panic (slice out of bounds, failed [assert!], [expect] on [None]).  A
    function of the source that returns a plain value but can panic has type
    [result E A] for an [E] it never uses. *)
Inductive result (E A : Type) : Type :=
  | Ok (a : A)
  | Err (e : E)
  | Panic.
Arguments Ok {E A} a.
Arguments Err {E A} e.
Arguments Panic {E A}.

#[export] Instance result_eq_dec {E A} `{EqDecision E, EqDecision A} :
  EqDecision (result E A).
Proof. solve_decision. Defined.

(** The [?] operator: errors and panics short-circuit. *)
#[export] Instance result_ret {E} : MRet (result E) := λ A a, Ok a.
#[export] Instance result_bind {E} : MBind (result E) := λ A B f r,
  match r with
  | Ok a => f a
  | Err e => Err e
  | Panic => Panic
  end.

Definition map_err {E F A} (f : E → F) (r : result E A) : result F A :=
  match r with
  | Ok a => Ok a
  | Err e => Err (f e)
  | Panic => Panic
  end.

Definition ok_or {E A} (e : E) (o : option A) : result E A :=
  match o with
  | Some a => Ok a
  | None => Err e
  end.

(** [Option::expect], or arithmetic that panics instead of leaving its type. *)
Definition ok_or_panic {E A} (o : option A) : result E A :=
  match o with
  | Some a => Ok a
  | None => Panic
  end.

Definition is_ok {E A} (r : result E A) : bool :=
  match r with Ok _ => true | _ => false end.

Definition is_panic {E A} (r : result E A) : bool :=
  match r with Panic => true | _ => false end.

(** Injectivity that leaves the terms as they are. *)
Lemma Ok_inj {E A} (a b : A) : @Ok E A a = Ok b → a = b.
Proof. by intros [= ->]. Qed.

Lemma bind_ok {E A B} (r : result E A) (f : A → result E B) b :
  r ≫= f = Ok b ↔ ∃ a, r = Ok a ∧ f a = Ok b.
Proof. destruct r; cbn; naive_solver. Qed.

Lemma bind_err {E A B} (r : result E A) (f : A → result E B) e :
  r ≫= f = Err e ↔ r = Err e ∨ ∃ a, r = Ok a ∧ f a = Err e.
Proof. destruct r; cbn; naive_solver. Qed.

Lemma map_err_ok {E F A} (f : E → F) (r : result E A) a :
  map_err f r = Ok a ↔ r = Ok a.
Proof. destruct r; cbn; naive_solver. Qed.

(** ** Methods on [&mut self]

    A method body: it reads and updates a state and may fail; the updates made
    before an error stay, as they do when [?] leaves a [&mut self] method. *)
Definition ST (S E A : Type) : Type := S → result E A * S.

#[export] Instance ST_ret {S E} : MRet (ST S E) := λ A a s, (Ok a, s).
#[export] Instance ST_bind {S E} : MBind (ST S E) := λ A B f m s,
  match m s with
  | (Ok a, s) => f a s
  | (Err e, s) => (Err e, s)
  | (Panic, s) => (Panic, s)
  end.

Definition gets {S E A} (f : S → A) : ST S E A := λ s, (Ok (f s), s).
Definition modify {S E} (f : S → S) : ST S E () := λ s, (Ok tt, f s).
Definition throw {S E A} (e : E) : ST S E A := λ s, (Err e, s).
Definition panic {S E A} : ST S E A := λ s, (Panic, s).
Definition lift {S E A} (r : result E A) : ST S E A := λ s, (r, s).
(** Run a method body to a value, keeping its error as a value too. *)
Definition attempt {S E A} (m : ST S E A) : ST S E (result E A) := λ s,
  match m s with
  | (Panic, s) => (Panic, s)
  | (r, s) => (Ok r, s)
  end.

(** [runs m s X Q]: from [s], [m] does not panic; a value and final state
    satisfy [Q], and the state left by an error satisfies [X]. *)
Definition runs {S E A} (m : ST S E A) (s : S) (X : S → Prop) (Q : A → S → Prop) : Prop :=
  match m s with
  | (Ok a, s) => Q a s
  | (Err _, s) => X s
  | (Panic, _) => False
  end.

Section runs_rules.
Context {S E : Type} (X : S → Prop).
Implicit Types s : S.

Lemma runs_mono {A} (m : ST S E A) s (Q Q' : A → S → Prop) :
  runs m s X Q → (∀ a s', Q a s' → Q' a s') → runs m s X Q'.
Proof. unfold runs. destruct (m s) as [[a|e|] s']; auto. Qed.

Lemma runs_bind {A B} (m : ST S E A) (f : A → ST S E B) s Q :
  runs m s X (λ a s', runs (f a) s' X Q) → runs (m ≫= f) s X Q.
Proof. unfold runs, mbind, ST_bind. by destruct (m s) as [[a|e|] s']. Qed.

(** The usual step: a method with a known contract, then the continuation. *)
Lemma runs_seq {A B} (m : ST S E A) (f : A → ST S E B) s (P : A → S → Prop) Q :
  runs m s X P → (∀ a s', P a s' → runs (f a) s' X Q) → runs (m ≫= f) s X Q.
Proof. intros Hm Hf. apply runs_bind. by eapply runs_mono. Qed.

Lemma runs_ret {A} (a : A) s (Q : A → S → Prop) : Q a s → runs (mret a : ST S E A) s X Q.
Proof. done. Qed.
Lemma runs_throw {A} e s (Q : A → S → Prop) : X s → runs (throw e : ST S E A) s X Q.
Proof. done. Qed.
Lemma runs_gets {A} (f : S → A) s Q : Q (f s) s → runs (gets f : ST S E A) s X Q.
Proof. done. Qed.
Lemma runs_modify (f : S → S) s Q : Q tt (f s) → runs (modify f : ST S E ()) s X Q.
Proof. done. Qed.

Lemma runs_lift {A} (r : result E A) s Q :
  (∀ e, r = Err e → X s) → r ≠ Panic → (∀ a, r = Ok a → Q a s) → runs (lift r) s X Q.
Proof. unfold runs, lift. destruct r; [auto|eauto|done]. Qed.

Lemma runs_attempt {A} (m : ST S E A) s (Y : S → Prop) (P : A → S → Prop)
    (Q : result E A → S → Prop) :
  runs m s Y P → (∀ a s', P a s' → Q (Ok a) s') → (∀ e s', Y s' → Q (Err e) s') →
  runs (attempt m) s X Q.
Proof. unfold runs, attempt. destruct (m s) as [[a|e|] s']; auto. Qed.
End runs_rules.

(** ** Machine integers

    An unsigned [w]-bit integer is a [Z] in [[0, 2^w)]; arithmetic that can
    leave the range is reduced explicitly. *)
Definition u_ok (w : Z) (x : Z) : Prop := 0 ≤ x < 2 ^ w.
Definition u8_ok (x : Z) : Prop := u_ok 8 x.
Definition u16_ok (x : Z) : Prop := u_ok 16 x.
Definition u32_ok (x : Z) : Prop := u_ok 32 x.
Definition u64_ok (x : Z) : Prop := u_ok 64 x.
Definition wrap (w : Z) (x : Z) : Z := x mod 2 ^ w.

Definition u8_max : Z := 255.
Definition u16_max : Z := 65535.
Definition u32_max : Z := 4294967295.
Definition u64_max : Z := 18446744073709551615.

(** [checked_sub] and [saturating_sub] on lengths. *)
Definition checked_sub (a b : nat) : option nat :=
  if decide (b ≤ a)%nat then Some (a - b)%nat else None.

Ltac widths :=
  unfold u8_ok, u16_ok, u32_ok, u64_ok, u_ok, wrap,
    u8_max, u16_max, u32_max, u64_max in *;
  change (2 ^ 8) with 256 in *;
  change (2 ^ 16) with 65536 in *;
  change (2 ^ 32) with 4294967296 in *;
  change (2 ^ 64) with 18446744073709551616 in *.
Ltac width_lia := widths; lia.

(** Decide the integer tests of the goal's conditionals with [lia]. *)
Ltac ifs_lia :=
  repeat match goal with
  | |- context [if ?b then _ else _] =>
      first [ replace b with true by lia | replace b with false by lia ]
  end.

#[export] Instance u_ok_dec w x : Decision (u_ok w x).
Proof. unfold u_ok. apply _. Defined.

Lemma wrap_range w x : 0 ≤ w → u_ok w (wrap w x).
Proof. intros. unfold u_ok, wrap. apply Z.mod_pos_bound. lia. Qed.

Lemma wrap_small w x : u_ok w x → wrap w x = x.
Proof. unfold u_ok, wrap. intros. by apply Z.mod_small. Qed.

(** ** Bits *)
Lemma testbit_high w x i : u_ok w x → 0 ≤ w ≤ i → Z.testbit x i = false.
Proof.
  intros [Hx0 Hx1] Hi. destruct (decide (x = 0)) as [->|]; [apply Z.bits_0|].
  apply Z.bits_above_log2; [lia|].
  apply Z.log2_lt_pow2; [lia|]. eapply Z.lt_le_trans; [done|].
  apply Z.pow_le_mono_r; lia.
Qed.

Lemma bits_bound w x :
  0 ≤ w → 0 ≤ x → (∀ i, w ≤ i → Z.testbit x i = false) → u_ok w x.
Proof.
  intros Hw Hx Hb. split; [done|].
  assert (x = x mod 2 ^ w) as ->; [|apply Z.mod_pos_bound; lia].
  apply Z.bits_inj'. intros i Hi.
  destruct (decide (i < w)).
  - by rewrite Z.mod_pow2_bits_low by lia.
  - rewrite Z.mod_pow2_bits_high by lia. apply Hb; lia.
Qed.

Section bitops.
Context (w : Z) (Hw : 0 ≤ w).

Lemma lxor_ok a b : u_ok w a → u_ok w b → u_ok w (Z.lxor a b).
Proof.
  intros Ha Hb. pose proof Ha as [Ha0 _]. pose proof Hb as [Hb0 _].
  apply bits_bound; [done| |].
  - apply Z.lxor_nonneg. lia.
  - intros i Hi. rewrite Z.lxor_spec.
    by rewrite !(testbit_high w) by (done || lia).
Qed.

Lemma lor_ok a b : u_ok w a → u_ok w b → u_ok w (Z.lor a b).
Proof.
  intros Ha Hb. pose proof Ha as [Ha0 _]. pose proof Hb as [Hb0 _].
  apply bits_bound; [done| |].
  - by apply Z.lor_nonneg.
  - intros i Hi. rewrite Z.lor_spec.
    by rewrite !(testbit_high w) by (done || lia).
Qed.

Lemma land_ok a b : u_ok w a → 0 ≤ b → u_ok w (Z.land a b).
Proof.
  intros Ha Hb. pose proof Ha as [Ha0 _]. apply bits_bound; [done| |].
  - apply Z.land_nonneg. by left.
  - intros i Hi. rewrite Z.land_spec.
    by rewrite (testbit_high w) by (done || lia).
Qed.
End bitops.

Lemma lxor_cancel a b : Z.lxor (Z.lxor a b) b = a.
Proof. by rewrite Z.lxor_assoc, Z.lxor_nilpotent, Z.lxor_0_r. Qed.

(** ** Byte strings

    [&[u8]], [Vec<u8>] and (UTF-8) [&str] are lists of byte values. *)
Abbreviation bytes := (list Z).

Definition bytes_ok (l : bytes) : Prop := Forall u8_ok l.

#[export] Instance bytes_ok_dec l : Decision (bytes_ok l).
Proof. unfold bytes_ok, u8_ok. apply _. Defined.

(** A string literal as its bytes. *)
Fixpoint bs (s : string) : bytes :=
  match s with
  | EmptyString => []
  | String c s' => Z.of_N (N_of_ascii c) :: bs s'
  end.

(** [l[i..j]] for indices already known to be in bounds, and the checked form
    that panics like the source does. *)
Definition slice {A} (l : list A) (i j : nat) : list A := take (j - i) (drop i l).
Notation "l .[ i , j ]" := (slice l i j)
  (at level 1, i at level 200, j at level 200, left associativity,
   format "l .[ i ,  j ]") : awg_scope.
Open Scope awg_scope.

Definition slice_chk {E A} (l : list A) (i j : nat) : result E (list A) :=
  if decide (i ≤ j ∧ j ≤ length l)%nat then Ok (slice l i j) else Panic.

Lemma length_slice {A} (l : list A) i j :
  (j ≤ length l)%nat → length (slice l i j) = (j - i)%nat.
Proof. intros. unfold slice. rewrite length_take, length_drop. lia. Qed.

Lemma bytes_ok_take n l : bytes_ok l → bytes_ok (take n l).
Proof. apply Forall_take. Qed.
Lemma bytes_ok_drop n l : bytes_ok l → bytes_ok (drop n l).
Proof. apply Forall_drop. Qed.
Lemma bytes_ok_slice l i j : bytes_ok l → bytes_ok (slice l i j).
Proof. intros. by apply bytes_ok_take, bytes_ok_drop. Qed.
Lemma bytes_ok_app l k : bytes_ok (l ++ k) ↔ bytes_ok l ∧ bytes_ok k.
Proof. apply Forall_app. Qed.
Lemma bytes_ok_bs s : bytes_ok (bs s).
Proof.
  induction s as [|c s IH]; cbn; constructor; [|done].
  pose proof (N_ascii_bounded c). widths. lia.
Qed.
Lemma bytes_ok_replicate n x : u8_ok x → bytes_ok (replicate n x).
Proof. intros. by apply Forall_replicate. Qed.

Create HintDb awg discriminated.
#[export] Hint Resolve bytes_ok_take bytes_ok_drop bytes_ok_slice bytes_ok_bs
  bytes_ok_replicate : awg.

(** ** Little- and big-endian encodings *)
Fixpoint to_le (n : nat) (v : Z) : bytes :=
  match n with
  | O => []
  | S n' => v mod 256 :: to_le n' (v / 256)
  end.

Fixpoint from_le (l : bytes) : Z :=
  match l with
  | [] => 0
  | b :: l' => b + 256 * from_le l'
  end.

Definition to_be (n : nat) (v : Z) : bytes := reverse (to_le n v).
Definition from_be (l : bytes) : Z := from_le (reverse l).

Lemma length_to_le n v : length (to_le n v) = n.
Proof. revert v. induction n; intros; cbn; auto. Qed.

Lemma length_to_be n v : length (to_be n v) = n.
Proof. unfold to_be. by rewrite length_reverse, length_to_le. Qed.

Lemma bytes_ok_to_le n v : bytes_ok (to_le n v).
Proof.
  revert v. induction n as [|n IH]; intros; cbn; constructor; [|apply IH].
  widths. apply Z.mod_pos_bound. lia.
Qed.

Lemma bytes_ok_to_be n v : bytes_ok (to_be n v).
Proof. unfold to_be. apply Forall_reverse, bytes_ok_to_le. Qed.

Lemma from_to_le n v : from_le (to_le n v) = v mod 256 ^ Z.of_nat n.
Proof.
  revert v. induction n as [|n IH]; intros v; cbn [to_le from_le].
  - by rewrite Z.mod_1_r.
  - rewrite IH, Nat2Z.inj_succ, Z.pow_succ_r by lia.
    rewrite Z.rem_mul_r by lia. lia.
Qed.

Lemma from_to_be n v : from_be (to_be n v) = v mod 256 ^ Z.of_nat n.
Proof. unfold from_be, to_be. by rewrite reverse_involutive, from_to_le. Qed.

Lemma from_le_range l : bytes_ok l → 0 ≤ from_le l < 256 ^ Z.of_nat (length l).
Proof.
  induction 1 as [|b l Hb Hl IH]; cbn [from_le length].
  - cbn. lia.
  - rewrite Nat2Z.inj_succ, Z.pow_succ_r by lia. widths. lia.
Qed.

Lemma to_from_le l : bytes_ok l → to_le (length l) (from_le l) = l.
Proof.
  induction 1 as [|b l Hb Hl IH]; [done|]. cbn [to_le from_le length].
  widths.
  replace ((b + 256 * from_le l) mod 256) with b by (
    rewrite (Z.mul_comm 256), Z.mod_add, Z.mod_small; lia).
  replace ((b + 256 * from_le l) / 256) with (from_le l) by (
    rewrite (Z.mul_comm 256), Z.div_add, Z.div_small; lia).
  by rewrite IH.
Qed.

Lemma from_to_le32 v : u32_ok v → from_le (to_le 4 v) = v.
Proof. intros. rewrite from_to_le. apply Z.mod_small. by widths. Qed.
Lemma from_to_le64 v : u64_ok v → from_le (to_le 8 v) = v.
Proof. intros. rewrite from_to_le. apply Z.mod_small. by widths. Qed.
Lemma from_to_le16 v : u16_ok v → from_le (to_le 2 v) = v.
Proof. intros. rewrite from_to_le. apply Z.mod_small. by widths. Qed.
Lemma from_to_be16 v : u16_ok v → from_be (to_be 2 v) = v.
Proof. intros. rewrite from_to_be. apply Z.mod_small. by widths. Qed.

#[export] Hint Resolve bytes_ok_to_le bytes_ok_to_be : awg.
Create Rewrite HintDb len.
#[export] Hint Rewrite length_to_le length_to_be @length_app @length_take
  @length_drop @length_replicate @length_reverse @length_insert @length_cons : len.
Ltac len := autorewrite with len in *; cbn [length] in *.

(** ** XOR with a mask

    [for (byte, m) in buf.iter_mut().zip(mask) { *byte ^= m }]: bytes past the
    end of the mask keep their value. *)
Fixpoint xor_into (buf mask : bytes) : bytes :=
  match buf, mask with
  | b :: buf', m :: mask' => Z.lxor b m :: xor_into buf' mask'
  | _, _ => buf
  end.

Lemma xor_into_nil_r buf : xor_into buf [] = buf.
Proof. by destruct buf. Qed.

Lemma xor_into_cons b buf m mask :
  xor_into (b :: buf) (m :: mask) = Z.lxor b m :: xor_into buf mask.
Proof. done. Qed.

Lemma length_xor_into buf mask : length (xor_into buf mask) = length buf.
Proof.
  revert mask. induction buf; intros [|m mask]; cbn; auto.
Qed.

Lemma xor_into_involutive buf mask : xor_into (xor_into buf mask) mask = buf.
Proof.
  revert mask. induction buf as [|b buf IH]; intros [|m mask]; cbn; try done.
  by rewrite lxor_cancel, IH.
Qed.

Lemma xor_into_lookup buf mask i b m :
  buf !! i = Some b → mask !! i = Some m → xor_into buf mask !! i = Some (Z.lxor b m).
Proof.
  revert mask i. induction buf as [|x buf IH]; intros mask i Hb Hm; [done|].
  destruct mask as [|y mask]; [done|]. rewrite xor_into_cons.
  destruct i; cbn in *; [congruence|]. by apply IH.
Qed.

Lemma bytes_ok_xor_into buf mask :
  bytes_ok buf → bytes_ok mask → bytes_ok (xor_into buf mask).
Proof.
  intros Hb. revert mask. induction Hb as [|b buf Hb Hbuf IH];
    intros [|m mask] Hm; cbn; try by constructor.
  inversion Hm; subst. constructor; [by apply lxor_ok|by apply IH].
Qed.

Lemma xor_into_app buf1 buf2 mask :
  xor_into (buf1 ++ buf2) mask =
  xor_into buf1 mask ++ xor_into buf2 (drop (length buf1) mask).
Proof.
  revert mask. induction buf1 as [|b buf1 IH]; intros [|m mask]; cbn; try done.
  - by rewrite xor_into_nil_r.
  - by rewrite IH.
Qed.

Lemma take_xor_into n buf mask :
  take n (xor_into buf mask) = xor_into (take n buf) (take n mask).
Proof.
  revert buf mask. induction n as [|n IH]; intros [|b buf] [|m mask]; cbn; try done.
  by rewrite IH.
Qed.

(** A mask longer than the buffer acts through its prefix only. *)
Lemma xor_into_take_mask buf mask n :
  (length buf ≤ n)%nat → xor_into buf (take n mask) = xor_into buf mask.
Proof.
  revert mask n. induction buf as [|b buf IH]; intros [|m mask] [|n] Hn;
    cbn in *; try done; try lia. by rewrite IH by lia.
Qed.

#[export] Hint Resolve bytes_ok_xor_into : awg.
#[export] Hint Rewrite length_xor_into : len.

(** ** Generic list facts *)
Lemma take_app_exact {A} (l k : list A) n :
  n = length l → take n (l ++ k) = l.
Proof. intros ->. by rewrite take_app_length. Qed.
Lemma drop_app_exact {A} (l k : list A) n :
  n = length l → drop n (l ++ k) = k.
Proof. intros ->. by rewrite drop_app_length. Qed.

Lemma slice_app_mid {A} (l k r : list A) i j :
  i = length l → j = (length l + length k)%nat → slice (l ++ k ++ r) i j = k.
Proof.
  intros -> ->. unfold slice. rewrite drop_app_length.
  apply take_app_exact. lia.
Qed.

Lemma list_split_eq {A} (l1 l2 k1 k2 : list A) :
  length l1 = length k1 → l1 ++ l2 = k1 ++ k2 → l1 = k1 ∧ l2 = k2.
Proof. apply app_inj_1. Qed.

(** The low-order end of a big-endian encoding is the shorter encoding. *)
Lemma to_le_add a b v : to_le (a + b) v = to_le a v ++ to_le b (v / 256 ^ Z.of_nat a).
Proof.
  revert v. induction a as [|a IH]; intros v; cbn [to_le plus app].
  - by rewrite Z.pow_0_r, Z.div_1_r.
  - rewrite IH, Nat2Z.inj_succ, Z.pow_succ_r, Z.div_div by lia. done.
Qed.

Lemma drop_to_be k n v : (k ≤ n)%nat → drop k (to_be n v) = to_be (n - k) v.
Proof.
  intros Hk. unfold to_be. replace n with ((n - k) + k)%nat at 1 by lia.
  rewrite to_le_add, reverse_app. apply drop_app_exact.
  by rewrite length_reverse, length_to_le.
Qed.

(** [out[offset..offset + src.len()].copy_from_slice(src)]. *)
Definition write_at {E A} (out : list A) (offset : nat) (src : list A) : result E (list A) :=
  if decide (offset + length src ≤ length out)%nat
  then Ok (take offset out ++ src ++ drop (offset + length src) out)
  else Panic.

Lemma write_at_app {E A} (l k r src : list A) n :
  n = length l → length src = length k →
  write_at (E := E) (l ++ k ++ r) n src = Ok (l ++ src ++ r).
Proof.
  intros -> Hs. unfold write_at. rewrite decide_True by (len; lia).
  rewrite take_app_length. do 3 f_equal.
  rewrite app_assoc. apply drop_app_exact. len. lia.
Qed.

(** Writing fields one after the other. *)
Lemma write_at_next {E A} (done_ rest src : list A) n :
  n = length done_ → (length src ≤ length rest)%nat →
  write_at (E := E) (done_ ++ rest) n src = Ok ((done_ ++ src) ++ drop (length src) rest).
Proof.
  intros Hn Hs. rewrite <- (take_drop (length src) rest) at 1.
  rewrite write_at_app, app_assoc by (len; lia). done.
Qed.

#[global] Arguments to_le : simpl never.
#[global] Arguments from_le : simpl never.
#[global] Arguments xor_into : simpl never.
#[global] Arguments slice : simpl never.
#[global] Arguments u_ok : simpl never.
#[global] Arguments wrap : simpl never.
