(* ===== verification/Clock.v ===== *)
(** * Clock: instants and the durations between them

    Models [awgtun/src/sleepyinstant]: an instant is the [timespec] the clock
    returned, and [duration_since] saturates at zero.  The rest of the
    development keeps an instant as one number of nanoseconds; [elapsed_ns] is
    that arithmetic, and [duration_since_ns] shows that the source's borrow
    between the two fields computes it. *)

From Stdlib Require Import ZArith Lia.
From stdpp Require Import base list option strings sets tactics.
From S2P Require Import Prelude.
Open Scope Z_scope.

Definition NANOSECOND : Z := 1000000000.

Record Instant := mkInstant { tv_sec : Z; tv_nsec : Z }.
Record Duration := mkDuration { d_secs : Z; d_nanos : Z }.

Definition checked_duration_since (self earlier : Instant) : option Duration :=
  let '(sec, nsec) :=
    if tv_nsec self <? tv_nsec earlier
    then (tv_sec self - tv_sec earlier - 1, tv_nsec self - tv_nsec earlier + NANOSECOND)
    else (tv_sec self - tv_sec earlier, tv_nsec self - tv_nsec earlier) in
  if sec <? 0 then None else Some (mkDuration sec nsec).

Definition Instant_duration_since (self earlier : Instant) : Duration :=
  default (mkDuration 0 0) (checked_duration_since self earlier).

(** The two readings of a [timespec] and of a [Duration] in nanoseconds. *)
Definition instant_ns (i : Instant) : Z := tv_sec i * NANOSECOND + tv_nsec i.
Definition duration_ns (d : Duration) : Z := d_secs d * NANOSECOND + d_nanos d.

(** [now.duration_since(earlier)] on instants in nanoseconds. *)
Definition elapsed_ns (now earlier : Z) : Z := Z.max 0 (now - earlier).

Lemma elapsed_ns_pos now earlier : 0 ≤ elapsed_ns now earlier.
Proof. unfold elapsed_ns. lia. Qed.

Lemma elapsed_ns_mono now now' earlier :
  now ≤ now' → elapsed_ns now earlier ≤ elapsed_ns now' earlier.
Proof. unfold elapsed_ns. lia. Qed.

Definition instant_ok (i : Instant) : Prop := 0 ≤ tv_nsec i < NANOSECOND.

(** Between two clock readings, [duration_since] is the number of
    nanoseconds from the earlier to the later one, zero when the clock has gone
    backwards, and the duration it builds has its nanosecond field in range. *)
Lemma duration_since_ns a b :
  instant_ok a → instant_ok b →
  duration_ns (Instant_duration_since a b) = elapsed_ns (instant_ns a) (instant_ns b) ∧
  0 ≤ d_secs (Instant_duration_since a b) ∧ 0 ≤ d_nanos (Instant_duration_since a b) < NANOSECOND.
Proof.
  unfold instant_ok, Instant_duration_since, checked_duration_since, elapsed_ns, instant_ns,
    duration_ns, NANOSECOND.
  destruct a as [s n], b as [s' n']. cbn. intros Ha Hb.
  destruct (Z.ltb_spec n n'); cbn;
    match goal with |- context [?x <? 0] => destruct (Z.ltb_spec x 0) end; cbn; lia.
Qed.

