(* ===== verification/Text.v ===== *)
(** * Text: the string operations of the Rust standard library that awgtun uses

    A [&str] is its UTF-8 byte sequence.  Whitespace is Unicode [White_Space],
    matched on its UTF-8 encoding, as [str::trim] and [str::split_whitespace]
    do; [u8::is_ascii_whitespace] is the ASCII test of the CPS parser.  Integer
    parsing follows [from_str_radix]: an optional sign, digits left to right,
    the error kind of the first offending position. *)

From Stdlib Require Import ZArith Lia.
From stdpp Require Import base list option strings sets tactics.
From S2P Require Import Prelude.
Open Scope Z_scope.

(** ** Whitespace *)
Definition white1 (b : Z) : bool := ((9 <=? b) && (b <=? 13)) || (b =? 32).
Definition white2 (b0 b1 : Z) : bool :=
  (b0 =? 0xC2) && ((b1 =? 0x85) || (b1 =? 0xA0)).
Definition white3 (b0 b1 b2 : Z) : bool :=
  ((b0 =? 0xE1) && (b1 =? 0x9A) && (b2 =? 0x80))
  || ((b0 =? 0xE2) && (b1 =? 0x80) &&
      (((0x80 <=? b2) && (b2 <=? 0x8A)) || (b2 =? 0xA8) || (b2 =? 0xA9) || (b2 =? 0xAF)))
  || ((b0 =? 0xE2) && (b1 =? 0x81) && (b2 =? 0x9F))
  || ((b0 =? 0xE3) && (b1 =? 0x80) && (b2 =? 0x80)).

Definition is_ascii_whitespace (b : Z) : bool :=
  (b =? 32) || (b =? 9) || (b =? 10) || (b =? 12) || (b =? 13).

Fixpoint trim_start (s : bytes) : bytes :=
  match s with
  | [] => []
  | b0 :: r0 =>
      if white1 b0 then trim_start r0 else
      match r0 with
      | [] => s
      | b1 :: r1 =>
          if white2 b0 b1 then trim_start r1 else
          match r1 with
          | [] => s
          | b2 :: r2 => if white3 b0 b1 b2 then trim_start r2 else s
          end
      end
  end.

(** [trim_start] read from the other end of the string. *)
Fixpoint trim_back (s : bytes) : bytes :=
  match s with
  | [] => []
  | b0 :: r0 =>
      if white1 b0 then trim_back r0 else
      match r0 with
      | [] => s
      | b1 :: r1 =>
          if white2 b1 b0 then trim_back r1 else
          match r1 with
          | [] => s
          | b2 :: r2 => if white3 b2 b1 b0 then trim_back r2 else s
          end
      end
  end.

Definition trim_end (s : bytes) : bytes := reverse (trim_back (reverse s)).
Definition trim (s : bytes) : bytes := trim_end (trim_start s).

(** [str::split_whitespace]: maximal runs without whitespace. *)
Definition flush (cur : bytes) : list bytes :=
  match cur with [] => [] | _ => [reverse cur] end.

Fixpoint split_white (cur s : bytes) : list bytes :=
  match s with
  | [] => flush cur
  | b0 :: r0 =>
      if white1 b0 then flush cur ++ split_white [] r0 else
      match r0 with
      | [] => flush (b0 :: cur)
      | b1 :: r1 =>
          if white2 b0 b1 then flush cur ++ split_white [] r1 else
          match r1 with
          | [] => split_white (b0 :: cur) r0
          | b2 :: r2 =>
              if white3 b0 b1 b2 then flush cur ++ split_white [] r2
              else split_white (b0 :: cur) r0
          end
      end
  end.
Definition split_whitespace (s : bytes) : list bytes := split_white [] s.

(** ** Splitting on a byte *)
Fixpoint split (c : Z) (s : bytes) : list bytes :=
  match s with
  | [] => [[]]
  | b :: s' =>
      if b =? c then [] :: split c s' else
      match split c s' with
      | [] => [[b]]
      | p :: ps => (b :: p) :: ps
      end
  end.

Fixpoint split_once (c : Z) (s : bytes) : option (bytes * bytes) :=
  match s with
  | [] => None
  | b :: s' =>
      if b =? c then Some ([], s') else
      match split_once c s' with
      | Some (p, q) => Some (b :: p, q)
      | None => None
      end
  end.

Fixpoint find (c : Z) (s : bytes) : option nat :=
  match s with
  | [] => None
  | b :: s' => if b =? c then Some O else S <$> find c s'
  end.

Definition strip_prefix (p s : bytes) : option bytes :=
  if decide (take (length p) s = p) then Some (drop (length p) s) else None.

(** [str::lines]: ['\n'] terminates a line and takes one preceding ['\r'] with
    it; text after the last ['\n'] is a line when not empty. *)
Definition strip_cr (cur : bytes) : bytes :=
  match cur with b :: cur' => if b =? 13 then cur' else cur | [] => [] end.

Fixpoint lines_go (cur s : bytes) : list bytes :=
  match s with
  | [] => flush cur
  | b :: s' =>
      if b =? 10 then reverse (strip_cr cur) :: lines_go [] s'
      else lines_go (b :: cur) s'
  end.
Definition lines (s : bytes) : list bytes := lines_go [] s.

(** ** Case *)
Definition to_ascii_lower1 (b : Z) : Z := if (65 <=? b) && (b <=? 90) then b + 32 else b.
Definition to_ascii_lowercase (s : bytes) : bytes := to_ascii_lower1 <$> s.

(** ** Integer parsing *)
Inductive IntErrorKind := IntEmpty | InvalidDigit | PosOverflow | NegOverflow.

#[export] Instance IntErrorKind_eq_dec : EqDecision IntErrorKind.
Proof. solve_decision. Defined.

Definition to_digit (radix b : Z) : option Z :=
  let d :=
    if (48 <=? b) && (b <=? 57) then b - 48
    else if (97 <=? b) && (b <=? 122) then b - 87
    else if (65 <=? b) && (b <=? 90) then b - 55
    else 99 in
  if d <? radix then Some d else None.

Fixpoint digits_go (radix max acc : Z) (s : bytes) : result IntErrorKind Z :=
  match s with
  | [] => Ok acc
  | b :: s' =>
      match to_digit radix b with
      | None => Err InvalidDigit
      | Some d =>
          if max <? acc * radix then Err PosOverflow
          else if max <? acc * radix + d then Err PosOverflow
          else digits_go radix max (acc * radix + d) s'
      end
  end.

(** [uN::from_str_radix]; [str::parse::<uN>] is the radix-10 case. *)
Definition from_str_radix (radix max : Z) (s : bytes) : result IntErrorKind Z :=
  match s with
  | [] => Err IntEmpty
  | [b] =>
      if (b =? 43) || (b =? 45) then Err InvalidDigit
      else digits_go radix max 0 s
  | b :: s' =>
      if b =? 43 then digits_go radix max 0 s' else digits_go radix max 0 s
  end.
Definition parse_u16 : bytes → result IntErrorKind Z := from_str_radix 10 u16_max.
Definition parse_u32 : bytes → result IntErrorKind Z := from_str_radix 10 u32_max.
Definition parse_u64 : bytes → result IntErrorKind Z := from_str_radix 10 u64_max.
Definition parse_u8 : bytes → result IntErrorKind Z := from_str_radix 10 u8_max.

Fixpoint neg_digits_go (min acc : Z) (s : bytes) : result IntErrorKind Z :=
  match s with
  | [] => Ok acc
  | b :: s' =>
      match to_digit 10 b with
      | None => Err InvalidDigit
      | Some d =>
          if acc * 10 <? min then Err NegOverflow
          else if acc * 10 - d <? min then Err NegOverflow
          else neg_digits_go min (acc * 10 - d) s'
      end
  end.

(** [str::parse::<iN>], with one bit less than the width. *)
Definition parse_signed (bits : Z) (s : bytes) : result IntErrorKind Z :=
  match s with
  | [] => Err IntEmpty
  | [b] =>
      if (b =? 43) || (b =? 45) then Err InvalidDigit
      else digits_go 10 (2 ^ bits - 1) 0 s
  | b :: s' =>
      if b =? 43 then digits_go 10 (2 ^ bits - 1) 0 s'
      else if b =? 45 then neg_digits_go (- 2 ^ bits) 0 s'
      else digits_go 10 (2 ^ bits - 1) 0 s
  end.
Definition parse_i32 : bytes → result IntErrorKind Z := parse_signed 31.
Definition parse_i64 : bytes → result IntErrorKind Z := parse_signed 63.

Definition parse_bool (s : bytes) : option bool :=
  if decide (s = bs "true") then Some true
  else if decide (s = bs "false") then Some false
  else None.

(** ** Formatting *)
Fixpoint dec_go (fuel : nat) (n : Z) (acc : bytes) : bytes :=
  match fuel with
  | O => acc
  | S fuel' =>
      let acc' := (48 + n mod 10) :: acc in
      if n <? 10 then acc' else dec_go fuel' (n / 10) acc'
  end.
(** [{}] on an unsigned integer; 20 digits hold every [u64]. *)
Definition print_dec (n : Z) : bytes := dec_go 20 n [].
#[global] Arguments print_dec : simpl never.

Definition hex_digit (d : Z) : Z := if d <? 10 then 48 + d else 87 + d.
(** [{:02x}] on a [u8]. *)
Definition print_hex2 (b : Z) : bytes := [hex_digit (b / 16); hex_digit (b mod 16)].
Definition print_hex (l : bytes) : bytes := flat_map print_hex2 l.

(** [str::is_char_boundary], on UTF-8 text: not inside a multi-byte character. *)
Definition is_char_boundary (s : bytes) (i : nat) : bool :=
  match decide (i = length s) with
  | left _ => true
  | right _ =>
      match s !! i with
      | Some b => negb (Z.land b 0xC0 =? 0x80)
      | None => false
      end
  end.

(** [&s[i..j]] on a [str]: also panics off a character boundary. *)
Definition str_slice {E} (s : bytes) (i j : nat) : result E bytes :=
  if is_char_boundary s i && is_char_boundary s j then slice_chk s i j else Panic.

(** ** Facts *)

(** Visible ASCII: neither whitespace nor part of a multi-byte character. *)
Definition graphic (b : Z) : bool := (33 <=? b) && (b <=? 126).

Lemma graphic_white1 b : graphic b = true → white1 b = false.
Proof. unfold graphic, white1. lia. Qed.
Lemma graphic_white2_l b c : graphic b = true → white2 b c = false.
Proof. unfold graphic, white2. lia. Qed.
Lemma graphic_white2_r b c : graphic b = true → white2 c b = false.
Proof. unfold graphic, white2. lia. Qed.
Lemma graphic_white3_l b c d : graphic b = true → white3 b c d = false.
Proof. unfold graphic, white3. lia. Qed.
Lemma graphic_white3_r b c d : graphic b = true → white3 d c b = false.
Proof. unfold graphic, white3. lia. Qed.

Lemma trim_start_graphic b s : graphic b = true → trim_start (b :: s) = b :: s.
Proof.
  intros H. cbn. rewrite graphic_white1 by done.
  destruct s as [|c [|d s]]; [done|by rewrite graphic_white2_l|].
  by rewrite graphic_white2_l, graphic_white3_l.
Qed.

Lemma trim_back_graphic b s : graphic b = true → trim_back (b :: s) = b :: s.
Proof.
  intros H. cbn. rewrite graphic_white1 by done.
  destruct s as [|c [|d s]]; [done|by rewrite graphic_white2_r|].
  by rewrite graphic_white2_r, graphic_white3_r.
Qed.

Lemma trim_end_graphic b s : graphic b = true → trim_end (s ++ [b]) = s ++ [b].
Proof.
  intros H. unfold trim_end. rewrite reverse_snoc.
  rewrite trim_back_graphic by done. by rewrite reverse_cons, reverse_involutive.
Qed.

(** Text that is visible ASCII throughout is unchanged by [trim]. *)
Definition all_graphic (s : bytes) : Prop := Forall (λ b, graphic b = true) s.

Lemma trim_all_graphic s : all_graphic s → trim s = s.
Proof.
  intros H. unfold trim. destruct s as [|b s]; [done|].
  rewrite trim_start_graphic by (by inversion H).
  destruct (exists_last (l := b :: s)) as (l & c & E); [done|].
  rewrite E in H |- *. apply trim_end_graphic. apply Forall_app in H as [_ H]. by inversion H.
Qed.

(** Only the two ends matter. *)
Lemma trim_graphic_ends b s c :
  graphic b = true → graphic c = true → trim (b :: s ++ [c]) = b :: s ++ [c].
Proof.
  intros Hb Hc. unfold trim. rewrite trim_start_graphic by done.
  by rewrite app_comm_cons, trim_end_graphic.
Qed.

Lemma split_app c p s : c ∉ p → split c (p ++ c :: s) = p :: split c s.
Proof.
  induction p as [|b p IH]; cbn; intros Hc.
  - by rewrite Z.eqb_refl.
  - apply not_elem_of_cons in Hc as [Hb Hp].
    rewrite (proj2 (Z.eqb_neq b c)) by congruence. by rewrite IH.
Qed.

Lemma split_none c p : c ∉ p → split c p = [p].
Proof.
  induction p as [|b p IH]; cbn; intros Hc; [done|].
  apply not_elem_of_cons in Hc as [Hb Hp].
  rewrite (proj2 (Z.eqb_neq b c)) by congruence. by rewrite IH.
Qed.

Lemma split_once_app c p s : c ∉ p → split_once c (p ++ c :: s) = Some (p, s).
Proof.
  induction p as [|b p IH]; cbn; intros Hc.
  - by rewrite Z.eqb_refl.
  - apply not_elem_of_cons in Hc as [Hb Hp].
    rewrite (proj2 (Z.eqb_neq b c)) by congruence. by rewrite IH.
Qed.

Lemma find_app c p s : c ∉ p → find c (p ++ c :: s) = Some (length p).
Proof.
  induction p as [|b p IH]; cbn; intros Hc.
  - by rewrite Z.eqb_refl.
  - apply not_elem_of_cons in Hc as [Hb Hp].
    rewrite (proj2 (Z.eqb_neq b c)) by congruence. by rewrite IH.
Qed.

Lemma find_Some c s i :
  find c s = Some i → s !! i = Some c ∧ c ∉ take i s.
Proof.
  revert i. induction s as [|b s IH]; intros i; cbn; [done|].
  destruct (Z.eqb_spec b c) as [->|Hne].
  - intros [= <-]. split; [done|]. apply not_elem_of_nil.
  - destruct (find c s) as [j|] eqn:E; cbn; [|done]. intros [= <-].
    destruct (IH j eq_refl). split; [done|]. cbn. set_solver.
Qed.

(** A line the writer produced: no newline inside, no carriage return last. *)
Definition line_ok (l : bytes) : Prop := (10 ∉ l) ∧ list.last l ≠ Some 13.

Lemma lines_go_line cur l s :
  10 ∉ l → lines_go cur (l ++ 10 :: s) =
           reverse (strip_cr (reverse l ++ cur)) :: lines_go [] s.
Proof.
  revert cur. induction l as [|b l IH]; intros cur Hl; cbn; [done|].
  apply not_elem_of_cons in Hl as [Hb Hl].
  rewrite (proj2 (Z.eqb_neq b 10)) by congruence.
  by rewrite IH, reverse_cons, <- app_assoc.
Qed.

Lemma lines_cons l s : line_ok l → lines (l ++ 10 :: s) = l :: lines s.
Proof.
  intros [Hn Hl]. unfold lines. rewrite lines_go_line by done.
  rewrite app_nil_r. f_equal.
  destruct (reverse l) as [|b r] eqn:E; cbn.
  - by rewrite <- (reverse_involutive l), E.
  - assert (l = reverse r ++ [b]) as ->
      by (by rewrite <- (reverse_involutive l), E, reverse_cons).
    rewrite last_snoc in Hl.
    rewrite (proj2 (Z.eqb_neq b 13)) by congruence. by rewrite reverse_cons.
Qed.

Definition unlines (ls : list bytes) : bytes := flat_map (λ l, l ++ [10]) ls.

Lemma unlines_cons l ls : unlines (l :: ls) = l ++ 10 :: unlines ls.
Proof. unfold unlines. cbn. by rewrite <- app_assoc. Qed.

Lemma unlines_app ls ks : unlines (ls ++ ks) = unlines ls ++ unlines ks.
Proof. apply flat_map_app. Qed.

Lemma lines_unlines ls s :
  Forall line_ok ls → lines (unlines ls ++ s) = ls ++ lines s.
Proof.
  induction 1 as [|l ls Hl Hls IH]; [done|].
  rewrite unlines_cons, <- app_assoc. cbn [app].
  rewrite lines_cons by done. by rewrite IH.
Qed.

(** ** Decimal round trip *)
Definition is_digit (b : Z) : Prop := 48 ≤ b ≤ 57.

Lemma dec_go_acc fuel n acc : dec_go fuel n acc = dec_go fuel n [] ++ acc.
Proof.
  revert n acc. induction fuel as [|fuel IH]; intros n acc; cbn; [done|].
  destruct (n <? 10); [done|].
  rewrite IH, (IH _ [_]), <- app_assoc. done.
Qed.

Lemma dec_go_digits fuel n : 0 ≤ n → Forall is_digit (dec_go fuel n []).
Proof.
  revert n. induction fuel as [|fuel IH]; intros n Hn; cbn; [constructor|].
  assert (is_digit (48 + n mod 10)).
  { unfold is_digit. pose proof (Z.mod_pos_bound n 10). lia. }
  destruct (n <? 10); [by apply Forall_singleton|].
  rewrite dec_go_acc. apply Forall_app. split; [|by apply Forall_singleton].
  apply IH. apply Z.div_pos; lia.
Qed.

Lemma print_dec_digits n : 0 ≤ n → Forall is_digit (print_dec n).
Proof. apply dec_go_digits. Qed.

Lemma print_dec_nonempty n : print_dec n ≠ [].
Proof.
  unfold print_dec. change 20%nat with (S 19). generalize 19%nat as k; intros k. cbn [dec_go].
  destruct (n <? 10); [done|]. rewrite dec_go_acc. by destruct (dec_go k _ _).
Qed.

Lemma to_digit_dec d : 0 ≤ d < 10 → to_digit 10 (48 + d) = Some d.
Proof.
  intros. unfold to_digit.
  replace ((48 <=? 48 + d) && (48 + d <=? 57)) with true by lia.
  replace (48 + d - 48) with d by lia. by replace (d <? 10) with true by lia.
Qed.

Lemma digits_go_app max acc s t a :
  digits_go 10 max acc s = Ok a →
  digits_go 10 max acc (s ++ t) = digits_go 10 max a t.
Proof.
  revert acc. induction s as [|b s IH]; intros acc; cbn.
  - by intros [= ->].
  - destruct (to_digit 10 b); [|done].
    destruct (max <? acc * 10); [done|]. destruct (max <? _); [done|]. apply IH.
Qed.

Lemma digits_go_print fuel n max :
  0 ≤ n ≤ max → n < 10 ^ Z.of_nat fuel →
  digits_go 10 max 0 (dec_go fuel n []) = Ok n.
Proof.
  revert n. induction fuel as [|fuel IH]; intros n Hn Hf.
  - cbn in *. replace n with 0 by lia. done.
  - cbn [dec_go].
    assert (0 ≤ n mod 10 < 10) by (apply Z.mod_pos_bound; lia).
    destruct (Z.ltb_spec n 10).
    + cbn. rewrite to_digit_dec by done. rewrite Z.mod_small by lia.
      ifs_lia; f_equal; lia.
    + rewrite dec_go_acc.
      rewrite (digits_go_app _ _ _ _ (n / 10)).
      * cbn. rewrite to_digit_dec by done.
        pose proof (Z.div_mod n 10). ifs_lia; f_equal; lia.
      * apply IH.
        -- split; [apply Z.div_pos; lia|]. pose proof (Z.div_le_upper_bound n 10 n). lia.
        -- apply Z.div_lt_upper_bound; [lia|].
           rewrite Nat2Z.inj_succ, Z.pow_succ_r in Hf by lia. lia.
Qed.

Lemma from_str_radix_digits max s :
  s ≠ [] → Forall is_digit s → from_str_radix 10 max s = digits_go 10 max 0 s.
Proof.
  intros Hs Hd. destruct s as [|b [|c s]]; [done| |]; cbn [from_str_radix];
    inversion Hd as [|? ? Hb]; subst; unfold is_digit in Hb.
  - by replace ((b =? 43) || (b =? 45)) with false by lia.
  - by replace (b =? 43) with false by lia.
Qed.

(** Parsing what [{}] printed gives the number back. *)
Lemma from_str_radix_print max n :
  0 ≤ n ≤ max → n < 10 ^ 20 → from_str_radix 10 max (print_dec n) = Ok n.
Proof.
  intros. rewrite from_str_radix_digits.
  - by apply digits_go_print.
  - apply print_dec_nonempty.
  - apply print_dec_digits; lia.
Qed.

Lemma parse_u16_print n : u16_ok n → parse_u16 (print_dec n) = Ok n.
Proof. intros. apply from_str_radix_print; width_lia. Qed.
Lemma parse_u32_print n : u32_ok n → parse_u32 (print_dec n) = Ok n.
Proof. intros. apply from_str_radix_print; width_lia. Qed.

(** Whatever parses fits the type. *)
Lemma digits_go_range radix max acc s n :
  0 ≤ acc ≤ max → 0 ≤ radix → digits_go radix max acc s = Ok n → 0 ≤ n ≤ max.
Proof.
  revert acc. induction s as [|b s IH]; intros acc Ha Hr; cbn.
  - by intros [= <-].
  - destruct (to_digit radix b) as [d|] eqn:E; [|done].
    destruct (Z.ltb_spec max (acc * radix)); [done|].
    destruct (Z.ltb_spec max (acc * radix + d)); [done|].
    apply IH; [|done]. split; [|done].
    assert (0 ≤ d); [|nia].
    unfold to_digit in E. repeat case_match; simplify_eq; lia.
Qed.

Lemma from_str_radix_range radix max s n :
  0 ≤ max → 0 ≤ radix → from_str_radix radix max s = Ok n → 0 ≤ n ≤ max.
Proof.
  intros Hm Hr. destruct s as [|b [|c s]]; cbn [from_str_radix]; [done| |].
  - destruct (_ || _); [done|]. apply digits_go_range; lia.
  - destruct (b =? 43); apply digits_go_range; lia.
Qed.

Lemma from_str_radix_no_panic radix max s : is_panic (from_str_radix radix max s) = false.
Proof.
  assert (∀ acc t, is_panic (digits_go radix max acc t) = false) as Hgo.
  { intros acc t. revert acc. induction t as [|b t IH]; intros acc; cbn; [done|].
    repeat case_match; try done; apply IH. }
  destruct s as [|b [|c s]]; cbn [from_str_radix]; [done| |];
    repeat case_match; try done; apply Hgo.
Qed.

Lemma parse_signed_no_panic bits s : is_panic (parse_signed bits s) = false.
Proof.
  assert (∀ min acc t, is_panic (neg_digits_go min acc t) = false) as Hneg.
  { intros min acc t. revert acc. induction t as [|b t IH]; intros acc; cbn; [done|].
    repeat case_match; try done; apply IH. }
  assert (∀ max acc t, is_panic (digits_go 10 max acc t) = false) as Hgo.
  { intros max acc t. revert acc. induction t as [|b t IH]; intros acc; cbn; [done|].
    repeat case_match; try done; apply IH. }
  destruct s as [|b [|c s]]; cbn [parse_signed]; [done| |];
    repeat case_match; try done; first [apply Hgo | apply Hneg].
Qed.
Lemma parse_i64_no_panic s : is_panic (parse_i64 s) = false.
Proof. apply parse_signed_no_panic. Qed.

(** Trimming keeps a part of the string. *)
Lemma trim_start_suffix s : trim_start s `suffix_of` s.
Proof.
  induction s as [s IH] using (induction_ltof1 _ length); unfold ltof in IH.
  destruct s as [|b0 r0]; [done|]. cbn [trim_start].
  repeat case_match; subst; try done;
    (etrans; [apply IH; cbn; lia|]); repeat (apply suffix_cons_r); done.
Qed.
Lemma trim_back_suffix s : trim_back s `suffix_of` s.
Proof.
  induction s as [s IH] using (induction_ltof1 _ length); unfold ltof in IH.
  destruct s as [|b0 r0]; [done|]. cbn [trim_back].
  repeat case_match; subst; try done;
    (etrans; [apply IH; cbn; lia|]); repeat (apply suffix_cons_r); done.
Qed.
Lemma Forall_trim (P : Z → Prop) s : Forall P s → Forall P (trim s).
Proof.
  assert (∀ a b : bytes, a `suffix_of` b → Forall P b → Forall P a) as Hs.
  { intros a b [k ->]. rewrite Forall_app. by intros []. }
  intros H. unfold trim, trim_end. apply Forall_reverse.
  eapply Hs; [apply trim_back_suffix|]. apply Forall_reverse.
  by eapply Hs; [apply trim_start_suffix|].
Qed.

(** Visible characters of printed numbers. *)
Lemma is_digit_graphic b : is_digit b → graphic b = true.
Proof. unfold is_digit, graphic. lia. Qed.

Lemma print_dec_graphic n : 0 ≤ n → all_graphic (print_dec n).
Proof.
  intros. eapply Forall_impl; [apply is_digit_graphic|by apply print_dec_digits].
Qed.

Lemma digits_not_elem s c : Forall is_digit s → ¬ is_digit c → c ∉ s.
Proof. intros Hs Hc Hin. rewrite list.Forall_forall in Hs. by apply Hc, Hs. Qed.

(** ** Hexadecimal *)
Lemma to_digit_hex d : 0 ≤ d < 16 → to_digit 16 (hex_digit d) = Some d.
Proof.
  intros. unfold to_digit, hex_digit. destruct (Z.ltb_spec d 10).
  - replace ((48 <=? 48 + d) && (48 + d <=? 57)) with true by lia.
    replace (48 + d - 48) with d by lia. by replace (d <? 16) with true by lia.
  - replace ((48 <=? 87 + d) && (87 + d <=? 57)) with false by lia.
    replace ((97 <=? 87 + d) && (87 + d <=? 122)) with true by lia.
    replace (87 + d - 87) with d by lia. by replace (d <? 16) with true by lia.
Qed.

Lemma hex_digit_graphic d : 0 ≤ d < 16 → graphic (hex_digit d) = true.
Proof. intros. unfold graphic, hex_digit. destruct (Z.ltb_spec d 10); lia. Qed.

Lemma hex_digit_range d : 0 ≤ d < 16 → is_digit (hex_digit d) ∨ 97 ≤ hex_digit d ≤ 102.
Proof. intros. unfold is_digit, hex_digit. destruct (Z.ltb_spec d 10); lia. Qed.

Lemma u8_nibbles b : u8_ok b → 0 ≤ b / 16 < 16 ∧ 0 ≤ b mod 16 < 16.
Proof.
  intros. widths. pose proof (Z.div_mod b 16). pose proof (Z.mod_pos_bound b 16). lia.
Qed.

Lemma parse_hex2 b : u8_ok b → from_str_radix 16 u8_max (print_hex2 b) = Ok b.
Proof.
  intros Hb. pose proof (u8_nibbles b Hb) as [H1 H2]. widths.
  pose proof (hex_digit_range _ H1). unfold is_digit in *.
  unfold print_hex2. cbn [from_str_radix].
  replace (hex_digit (b / 16) =? 43) with false by lia.
  cbn [digits_go]. rewrite !to_digit_hex by done.
  pose proof (Z.div_mod b 16). ifs_lia; f_equal; lia.
Qed.

(** ** Printed text is split and sliced the way it was put together *)
Lemma split_white_graphic b s cur :
  graphic b = true → split_white cur (b :: s) = split_white (b :: cur) s.
Proof.
  intros H. cbn [split_white]. rewrite graphic_white1 by done.
  destruct s as [|c [|d s]]; [done|by rewrite graphic_white2_l|].
  by rewrite graphic_white2_l, graphic_white3_l.
Qed.

Lemma split_white_all_graphic p s cur :
  all_graphic p → split_white cur (p ++ s) = split_white (reverse p ++ cur) s.
Proof.
  intros Hp. revert cur. induction Hp as [|b p Hb Hp IH]; intros cur; [done|].
  cbn [app]. rewrite split_white_graphic by done.
  by rewrite IH, reverse_cons, <- app_assoc.
Qed.

Lemma flush_reverse p : p ≠ [] → flush (reverse p) = [p].
Proof.
  intros Hp. unfold flush. destruct (reverse p) as [|b r] eqn:E.
  - by rewrite <- (reverse_involutive p), E in Hp.
  - by rewrite <- E, reverse_involutive.
Qed.

Lemma split_whitespace_single p : all_graphic p → p ≠ [] → split_whitespace p = [p].
Proof.
  intros Hp Hn. unfold split_whitespace. rewrite <- (app_nil_r p) at 1.
  rewrite split_white_all_graphic, app_nil_r by done. by apply flush_reverse.
Qed.

Lemma split_whitespace_pair p q :
  all_graphic p → p ≠ [] → all_graphic q → q ≠ [] →
  split_whitespace (p ++ 32 :: q) = [p; q].
Proof.
  intros Hp Hn Hq Hm. unfold split_whitespace.
  rewrite split_white_all_graphic, app_nil_r by done. cbn [split_white].
  replace (white1 32) with true by done. rewrite flush_reverse by done.
  cbn [app]. f_equal. by apply split_whitespace_single.
Qed.

Lemma char_boundary_graphic s i :
  all_graphic s → (i ≤ length s)%nat → is_char_boundary s i = true.
Proof.
  intros Hs Hi. unfold is_char_boundary. destruct (decide _); [done|].
  destruct (s !! i) as [b|] eqn:E; [|apply lookup_ge_None in E; lia].
  eapply Forall_lookup_1 in Hs; [|done]. unfold graphic in Hs.
  destruct (Z.eqb_spec (Z.land b 192) 128) as [Hl|]; [|done].
  assert (Z.testbit (Z.land b 192) 7 = true) as Hb by by rewrite Hl.
  rewrite Z.land_spec, (testbit_high 7) in Hb; [done| |lia]. split; lia.
Qed.

Lemma str_slice_graphic {E} s i j :
  all_graphic s → (i ≤ j ≤ length s)%nat → str_slice (E := E) s i j = Ok (slice s i j).
Proof.
  intros. unfold str_slice, slice_chk.
  rewrite !char_boundary_graphic by (done || lia). by rewrite decide_True.
Qed.

Lemma print_hex_graphic l : bytes_ok l → all_graphic (print_hex l).
Proof.
  induction 1 as [|b l Hb Hl IH]; [constructor|]. cbn.
  destruct (u8_nibbles b Hb). repeat constructor; auto using hex_digit_graphic.
Qed.

Lemma length_print_hex l : length (print_hex l) = (2 * length l)%nat.
Proof.
  induction l as [|b l IH]; [done|]. unfold print_hex in *. cbn [flat_map].
  rewrite length_app, IH. cbn [print_hex2 length]. lia.
Qed.
