(* ===== verification/Random.v ===== *)
(** * Random: [RandomSource], ranged draws, and the buffered ChaCha20 generator

    Models [awgtun/src/amnezia.rs], the [RandomSource] trait with its default
    methods, and [FastRngState], the per-thread keystream buffer behind
    [FastRandom].  The trait is the class [RandomSource]; every component that
    draws randomness is proved against the class, and [FastRng] discharges it.

    ChaCha20 (crate [chacha20]) is the class [ChaCha20]: a keystream byte for
    each key, nonce and position.  The OS generator (crate [getrandom]) is
    another [RandomSource]. *)

From Stdlib Require Import ZArith Lia.
From stdpp Require Import base list option strings sets tactics.
From S2P Require Import Prelude.
Open Scope Z_scope.

(** ** The trait

    [rng_ok] is the representation invariant of an implementation; [fill_bytes]
    overwrites a slice of the given length. *)
Class RandomSource (R : Type) := {
  rng_ok : R → Prop;
  fill_bytes : nat → R → bytes * R;
  fill_bytes_length n r : rng_ok r → length (fill_bytes n r).1 = n;
  fill_bytes_ok n r : rng_ok r → bytes_ok (fill_bytes n r).1;
  fill_bytes_inv n r : rng_ok r → rng_ok (fill_bytes n r).2
}.

(** [RandomSource::gen_range_u32]. *)
Definition gen_range_u32 `{RandomSource R} (start end_ : Z) (r : R) : Z * R :=
  if end_ <=? start then (start, r)
  else
    let '(buf, r) := fill_bytes 4 r in
    let raw := from_le buf in
    let range := end_ - start + 1 in
    if range <=? u32_max then (start + raw mod range, r) else (raw, r).

(** [RandomSource::gen_range_u16]. *)
Definition gen_range_u16 `{RandomSource R} (start end_ : Z) (r : R) : Z * R :=
  let '(v, r) := gen_range_u32 start end_ r in (wrap 16 v, r).

(** A replayable source: hands out a fixed byte pattern.  The witnesses draw
    from it. *)
Record Pattern := { pat_pos : nat; pat_byte : nat → Z }.
#[export, refine] Instance Pattern_source : RandomSource Pattern := {
  rng_ok p := ∀ i, u8_ok (pat_byte p i);
  fill_bytes n p :=
    (pat_byte p <$> seq (pat_pos p) n,
     {| pat_pos := pat_pos p + n; pat_byte := pat_byte p |})
}.
Proof.
  - intros n p _. cbn. by rewrite length_fmap, length_seq.
  - intros n p Hp. cbn. apply Forall_fmap, Forall_true. intros. apply Hp.
  - intros n p Hp. done.
Defined.

Definition counting_bytes : Pattern :=
  {| pat_pos := 0; pat_byte := λ i, Z.of_nat i mod 256 |}.
Lemma counting_bytes_ok : rng_ok counting_bytes.
Proof. intros i. widths. apply Z.mod_pos_bound. lia. Qed.

Section draws.
Context `{RS : RandomSource R}.

Lemma draw_range n r :
  rng_ok r → 0 ≤ from_le (fill_bytes n r).1 < 256 ^ Z.of_nat n.
Proof.
  intros Hr. pose proof (from_le_range _ (fill_bytes_ok n r Hr)) as H.
  by rewrite fill_bytes_length in H.
Qed.

Lemma gen_range_u32_inv s e r : rng_ok r → rng_ok (gen_range_u32 s e r).2.
Proof.
  intros Hr. unfold gen_range_u32. destruct (e <=? s); [done|].
  pose proof (fill_bytes_inv 4 r Hr). destruct (fill_bytes 4 r) as [b r'].
  by destruct (_ <=? _).
Qed.

Lemma gen_range_u32_in s e r :
  rng_ok r → u32_ok s → u32_ok e → s ≤ e → s ≤ (gen_range_u32 s e r).1 ≤ e.
Proof.
  intros Hr Hs He Hse. unfold gen_range_u32.
  destruct (Z.leb_spec e s); cbn; [lia|].
  pose proof (draw_range 4 r Hr) as Hd. destruct (fill_bytes 4 r) as [b r'].
  cbn in Hd |- *. change (Z.pow_pos 256 4) with 4294967296 in Hd.
  destruct (Z.leb_spec (e - s + 1) u32_max); cbn.
  - pose proof (Z.mod_pos_bound (from_le b) (e - s + 1)). lia.
  - width_lia.
Qed.

Lemma gen_range_u16_in s e r :
  rng_ok r → u16_ok s → u16_ok e → s ≤ e → s ≤ (gen_range_u16 s e r).1 ≤ e.
Proof.
  intros Hr Hs He Hse. unfold gen_range_u16.
  pose proof (gen_range_u32_in s e r Hr) as H. widths.
  destruct (gen_range_u32 s e r) as [v r']. cbn in *.
  rewrite Z.mod_small by lia. lia.
Qed.

Lemma gen_range_u16_inv s e r : rng_ok r → rng_ok (gen_range_u16 s e r).2.
Proof.
  intros Hr. unfold gen_range_u16. pose proof (gen_range_u32_inv s e r Hr).
  by destruct (gen_range_u32 s e r).
Qed.
End draws.
#[export] Hint Resolve fill_bytes_inv gen_range_u32_inv gen_range_u16_inv : awg.

(** ** ChaCha20 *)
Class ChaCha20 := {
  chacha_byte : bytes → bytes → nat → Z;
  chacha_byte_ok key nonce i : u8_ok (chacha_byte key nonce i)
}.

(** The first [n] keystream bytes for a key and nonce, block counter 0. *)
Definition chacha_keystream `{ChaCha20} (key nonce : bytes) (n : nat) : bytes :=
  chacha_byte key nonce <$> seq 0 n.

Lemma length_chacha_keystream `{ChaCha20} k v n : length (chacha_keystream k v n) = n.
Proof. unfold chacha_keystream. by rewrite length_fmap, length_seq. Qed.

Lemma bytes_ok_chacha_keystream `{ChaCha20} k v n : bytes_ok (chacha_keystream k v n).
Proof. apply Forall_fmap, Forall_true. intros. apply chacha_byte_ok. Qed.

Lemma take_chacha_keystream `{ChaCha20} k v n m :
  (n ≤ m)%nat → take n (chacha_keystream k v m) = chacha_keystream k v n.
Proof.
  intros. unfold chacha_keystream. rewrite <- fmap_take. f_equal.
  rewrite take_seq. f_equal. lia.
Qed.

Lemma lookup_chacha_keystream `{ChaCha20} k v n i :
  (i < n)%nat → chacha_keystream k v n !! i = Some (chacha_byte k v i).
Proof.
  intros. unfold chacha_keystream. rewrite list_lookup_fmap.
  by rewrite lookup_seq_lt by lia.
Qed.

#[global] Arguments chacha_keystream : simpl never.
#[export] Hint Resolve bytes_ok_chacha_keystream : awg.
#[export] Hint Rewrite @length_chacha_keystream : len.

(** A stream that depends on key, nonce and position, for concrete runs. *)
Definition sum_stream : ChaCha20 := {|
  chacha_byte key nonce i := (Z.of_nat i + from_le key + from_le nonce) mod 256;
  chacha_byte_ok _ _ _ := ltac:(widths; apply Z.mod_pos_bound; lia)
|}.
