(* ===== verification/FastRng.v ===== *)
(** * FastRng: the per-thread buffered ChaCha20 generator of [amnezia.rs]

    [Thread] is what one thread sees: its [FastRngState], the OS generator it
    reseeds from, and the process-wide [FORK_GENERATION] counter that
    [note_fork] bumps in a forked child.  Shown here: [fill] hands out exactly
    the bytes that were asked for and keeps the buffer well formed (so
    [FastRandom] is a [RandomSource]); it is the byte-at-a-time keystream
    however the draws are sized; and after a fork nothing that was buffered
    before it can come out. *)

From Stdlib Require Import ZArith Lia.
From stdpp Require Import base list option strings sets tactics.
From S2P Require Import Prelude Random.
Open Scope Z_scope.

Module FastRng.

Definition FAST_RNG_BUFFER_SIZE : nat := 256.
Definition FAST_RNG_RESEED_INTERVAL : Z := Z.shiftl 1 20.
#[global] Arguments FAST_RNG_BUFFER_SIZE : simpl never.
#[global] Arguments FAST_RNG_RESEED_INTERVAL : simpl never.

Record FastRngState := mkState {
  key : bytes;
  block : Z;
  buffer : bytes;
  used : nat;
  since_reseed : Z;
  generation : Z
}.

Section with_os.
Context `{CC : ChaCha20} `{RS : RandomSource Os}.

Record Thread := mkThread {
  rng : FastRngState;
  os : Os;
  FORK_GENERATION : Z
}.

(** [note_fork], the [pthread_atfork] child handler. *)
Definition note_fork (t : Thread) : Thread :=
  mkThread (rng t) (os t) (wrap 64 (FORK_GENERATION t + 1)).

(** [FastRngState::reseed]. *)
Definition reseed (t : Thread) : Thread :=
  let '(k, os') := fill_bytes 32 (os t) in
  mkThread
    (mkState k 0 (buffer (rng t)) FAST_RNG_BUFFER_SIZE 0 (FORK_GENERATION t))
    os' (FORK_GENERATION t).

(** [FastRngState::new]. *)
Definition new (o : Os) (fork_generation : Z) : Thread :=
  reseed (mkThread
    (mkState (replicate 32 0) 0 (replicate FAST_RNG_BUFFER_SIZE 0)
       FAST_RNG_BUFFER_SIZE FAST_RNG_RESEED_INTERVAL 0)
    o fork_generation).

Definition block_nonce (b : Z) : bytes := to_le 8 b ++ replicate 4 0.

(** [FastRngState::refill]. *)
Definition refill (t : Thread) : Thread :=
  let t :=
    if FAST_RNG_RESEED_INTERVAL <=? since_reseed (rng t) then reseed t else t in
  let s := rng t in
  let buf :=
    xor_into (replicate FAST_RNG_BUFFER_SIZE 0)
      (chacha_keystream (key s) (block_nonce (block s)) FAST_RNG_BUFFER_SIZE) in
  mkThread
    (mkState (key s) (wrap 64 (block s + 1)) buf 0
       (since_reseed s + Z.of_nat FAST_RNG_BUFFER_SIZE) (generation s))
    (os t) (FORK_GENERATION t).

Definition consume (t : Thread) (n : nat) : Thread :=
  let s := rng t in
  mkThread
    (mkState (key s) (block s) (buffer s) (used s + n) (since_reseed s) (generation s))
    (os t) (FORK_GENERATION t).

(** The [while written < out.len()] loop of [FastRngState::fill].  Every
    iteration writes at least one byte, so [out.len()] iterations suffice. *)
Fixpoint fill_loop (fuel remaining : nat) (t : Thread) : bytes * Thread :=
  match fuel with
  | O => ([], t)
  | S fuel' =>
      if decide (remaining = O) then ([], t) else
      let t := if decide (used (rng t) = FAST_RNG_BUFFER_SIZE) then refill t else t in
      let n := (remaining `min` (FAST_RNG_BUFFER_SIZE - used (rng t)))%nat in
      let out := slice (buffer (rng t)) (used (rng t)) (used (rng t) + n) in
      let '(rest, t') := fill_loop fuel' (remaining - n) (consume t n) in
      (out ++ rest, t')
  end.

(** [FastRngState::fill]. *)
Definition fill (n : nat) (t : Thread) : bytes * Thread :=
  let t := if decide (generation (rng t) = FORK_GENERATION t) then t else reseed t in
  fill_loop n n t.

(** ** Representation invariant *)
Record thread_ok (t : Thread) : Prop := {
  ok_buffer : length (buffer (rng t)) = FAST_RNG_BUFFER_SIZE;
  ok_bytes : bytes_ok (buffer (rng t));
  ok_used : (used (rng t) ≤ FAST_RNG_BUFFER_SIZE)%nat;
  ok_reseed : 0 ≤ since_reseed (rng t) ≤ FAST_RNG_RESEED_INTERVAL;
  ok_block : since_reseed (rng t) = 256 * block (rng t);
  ok_os : rng_ok (os t)
}.

Lemma reseed_ok t : thread_ok t → thread_ok (reseed t).
Proof.
  intros []. unfold reseed.
  pose proof (fill_bytes_inv 32 (os t) ok_os0). destruct (fill_bytes 32 (os t)).
  split; cbn in *; try done; unfold FAST_RNG_RESEED_INTERVAL; cbn; lia.
Qed.

Lemma xor_zeros n l : length l = n → xor_into (replicate n 0) l = l.
Proof.
  intros <-. induction l as [|b l IH]; [done|]. cbn [length replicate].
  by rewrite xor_into_cons, Z.lxor_0_l, IH.
Qed.

Lemma refill_buffer t :
  let t0 := if FAST_RNG_RESEED_INTERVAL <=? since_reseed (rng t) then reseed t else t in
  buffer (rng (refill t)) =
    chacha_keystream (key (rng t0)) (block_nonce (block (rng t0))) FAST_RNG_BUFFER_SIZE.
Proof. intros t0. unfold refill. cbn. apply xor_zeros. by len. Qed.

Lemma refill_ok t : thread_ok t → thread_ok (refill t) ∧ used (rng (refill t)) = O.
Proof.
  intros Ht. split; [|done].
  set (t0 := if FAST_RNG_RESEED_INTERVAL <=? since_reseed (rng t)
             then reseed t else t).
  assert (thread_ok t0 ∧ since_reseed (rng t0) < FAST_RNG_RESEED_INTERVAL) as [H0 Hlt].
  { unfold t0. destruct (Z.leb_spec FAST_RNG_RESEED_INTERVAL (since_reseed (rng t))).
    - split; [by apply reseed_ok|]. unfold reseed. by destruct (fill_bytes 32 (os t)).
    - done. }
  destruct H0. pose proof (refill_buffer t) as Hb. cbn zeta in Hb. fold t0 in Hb.
  split; rewrite ?Hb; try (by auto with awg).
  - cbn. unfold FAST_RNG_BUFFER_SIZE. lia.
  - change (since_reseed (rng (refill t))) with (since_reseed (rng t0) + 256).
    assert (FAST_RNG_RESEED_INTERVAL = 256 * 4096) as E by done. lia.
  - change (since_reseed (rng (refill t))) with (since_reseed (rng t0) + 256).
    change (block (rng (refill t))) with (wrap 64 (block (rng t0) + 1)).
    assert (FAST_RNG_RESEED_INTERVAL = 256 * 4096) as E by done.
    rewrite wrap_small; [lia|]. widths. lia.
Qed.

Lemma consume_ok t n :
  thread_ok t → (used (rng t) + n ≤ FAST_RNG_BUFFER_SIZE)%nat → thread_ok (consume t n).
Proof. intros [] Hn. split; cbn; try done; lia. Qed.

Lemma fill_loop_ok fuel n t :
  thread_ok t → (n ≤ fuel)%nat →
  length (fill_loop fuel n t).1 = n ∧ bytes_ok (fill_loop fuel n t).1 ∧
  thread_ok (fill_loop fuel n t).2.
Proof.
  revert n t. induction fuel as [|fuel IH]; intros n t Ht Hn; cbn [fill_loop].
  - split_and!; [cbn; lia|by constructor|done].
  - destruct (decide (n = O)) as [->|Hn0]; [split_and!; [done|by constructor|done]|].
    set (t1 := if decide _ then refill t else t).
    assert (thread_ok t1 ∧ (used (rng t1) < FAST_RNG_BUFFER_SIZE)%nat) as [H1 Hu].
    { unfold t1. destruct (decide _) as [E|E].
      - destruct (refill_ok t Ht) as [? ->]. split; [done|].
        unfold FAST_RNG_BUFFER_SIZE. lia.
      - split; [done|]. pose proof (ok_used t Ht). lia. }
    set (m := (n `min` (FAST_RNG_BUFFER_SIZE - used (rng t1)))%nat).
    pose proof (consume_ok t1 m H1 ltac:(lia)) as H2.
    destruct (IH (n - m)%nat (consume t1 m) H2 ltac:(lia)) as (Hl & Hb & Ho).
    destruct (fill_loop fuel (n - m) (consume t1 m)) as [rest t'].
    cbn in *. destruct H1. split_and!; [| |done].
    + rewrite length_app, length_slice by (rewrite ok_buffer0; lia). lia.
    + apply bytes_ok_app. split; [by apply bytes_ok_slice|done].
Qed.

Lemma fill_ok n t :
  thread_ok t → length (fill n t).1 = n ∧ bytes_ok (fill n t).1 ∧ thread_ok (fill n t).2.
Proof.
  intros Ht. unfold fill. apply fill_loop_ok; [|done].
  destruct (decide _); [done|]. by apply reseed_ok.
Qed.

Lemma new_ok o g : rng_ok o → thread_ok (new o g).
Proof.
  intros Ho. unfold new, reseed.
  pose proof (fill_bytes_inv 32 o Ho). cbn. destruct (fill_bytes 32 o).
  split; cbn in *; try done; unfold FAST_RNG_RESEED_INTERVAL; cbn; try lia.
  by apply bytes_ok_replicate.
Qed.
End with_os.
Arguments Thread Os : clear implicits.

(** [impl RandomSource for FastRandom]. *)
#[export, refine] Instance FastRandom `{ChaCha20} `{RandomSource Os} :
  RandomSource (Thread Os) := {
  rng_ok := thread_ok;
  fill_bytes := fill
}.
Proof. all: intros n t Ht; apply (fill_ok n t Ht). Defined.

(** ** The keystream specification

    Under one key the generator is the infinite byte sequence [stream_byte]:
    256 bytes per block, the block number as the nonce.  [position] says how
    much of it has been handed out. *)
Section stream.
Context `{CC : ChaCha20} `{RS : RandomSource Os}.
Implicit Types t : Thread Os.

Definition stream_byte (k : bytes) (i : nat) : Z :=
  chacha_byte k (block_nonce (Z.of_nat (i / 256))) (i mod 256).

Definition position t : Z := 256 * block (rng t) - (256 - Z.of_nat (used (rng t))).

(** A buffer that is not used up is the last block generated. *)
Definition in_stream t : Prop :=
  (used (rng t) < FAST_RNG_BUFFER_SIZE)%nat →
  1 ≤ block (rng t) ∧
  buffer (rng t) =
    chacha_keystream (key (rng t)) (block_nonce (block (rng t) - 1)) FAST_RNG_BUFFER_SIZE.

Lemma slice_keystream k v n i j :
  (j ≤ n)%nat → slice (chacha_keystream k v n) i j = chacha_byte k v <$> seq i (j - i).
Proof.
  intros Hj. unfold slice, chacha_keystream.
  rewrite <- fmap_drop, <- fmap_take, drop_seq, take_seq. do 2 f_equal; lia.
Qed.

Lemma chunk_stream k (b u m p : nat) :
  (u + m ≤ 256)%nat → (1 ≤ b)%nat → p = (256 * (b - 1) + u)%nat →
  chacha_byte k (block_nonce (Z.of_nat b - 1)) <$> seq u m = stream_byte k <$> seq p m.
Proof.
  intros Hu Hb Hp. revert u p Hu Hp. induction m as [|m IH]; intros u p Hu Hp; [done|].
  cbn [seq fmap list_fmap]. f_equal; [|apply IH; lia]. unfold stream_byte.
  assert (p / 256 = b - 1)%nat as ->.
  { rewrite Hp, Nat.mul_comm, Nat.div_add_l, Nat.div_small by lia. lia. }
  assert (p mod 256 = u)%nat as ->.
  { rewrite Hp, Nat.mul_comm, Nat.add_comm, Nat.Div0.mod_add. apply Nat.mod_small. lia. }
  do 2 f_equal. lia.
Qed.

(** A refill inside the reseed interval moves to the next block. *)
Lemma refill_stream t :
  thread_ok t → used (rng t) = FAST_RNG_BUFFER_SIZE →
  position t < FAST_RNG_RESEED_INTERVAL →
  key (rng (refill t)) = key (rng t) ∧ position (refill t) = position t ∧
  in_stream (refill t) ∧ used (rng (refill t)) = O.
Proof.
  intros [] Hu Hp. pose proof (refill_buffer t) as Hb. cbn zeta in Hb.
  unfold position in *. rewrite Hu in Hp. unfold FAST_RNG_BUFFER_SIZE in Hp.
  assert ((FAST_RNG_RESEED_INTERVAL <=? since_reseed (rng t)) = false) as E by lia.
  rewrite E in Hb.
  assert (FAST_RNG_RESEED_INTERVAL = 256 * 4096) as EI by done.
  assert (block (rng (refill t)) = block (rng t) + 1) as Hbl.
  { unfold refill. rewrite E. cbn. apply wrap_small. widths. lia. }
  assert (key (rng (refill t)) = key (rng t)) as Hk by (unfold refill; by rewrite E).
  assert (used (rng (refill t)) = O) as Hz by done.
  split_and!; [done| |intros _; split|done].
  - rewrite Hbl, Hz, Hu. unfold FAST_RNG_BUFFER_SIZE. lia.
  - lia.
  - rewrite Hb, Hbl, Hk. do 2 f_equal. lia.
Qed.

Lemma chunk_fits n u :
  (u < FAST_RNG_BUFFER_SIZE)%nat →
  (u + n `min` (FAST_RNG_BUFFER_SIZE - u) ≤ 256)%nat.
Proof. unfold FAST_RNG_BUFFER_SIZE. lia. Qed.

Lemma fill_loop_stream fuel n t :
  thread_ok t → in_stream t → (n ≤ fuel)%nat → 0 ≤ position t →
  position t + Z.of_nat n ≤ FAST_RNG_RESEED_INTERVAL →
  (fill_loop fuel n t).1 = stream_byte (key (rng t)) <$> seq (Z.to_nat (position t)) n.
Proof.
  revert n t. induction fuel as [|fuel IH]; intros n t Ht Hs Hn Hp0 Hp; cbn [fill_loop].
  - by replace n with O by lia.
  - destruct (decide (n = O)) as [->|Hn0]; [done|].
    set (t1 := if decide _ then refill t else t).
    assert (thread_ok t1 ∧ (used (rng t1) < FAST_RNG_BUFFER_SIZE)%nat ∧ in_stream t1 ∧
            key (rng t1) = key (rng t) ∧ position t1 = position t)
      as (H1 & Hu & Hs1 & Hk1 & Hp1).
    { unfold t1. destruct (decide _) as [E|E].
      - destruct (refill_ok t Ht) as [? _].
        destruct (refill_stream t Ht E ltac:(lia)) as (? & ? & ? & ->).
        split_and!; try done. unfold FAST_RNG_BUFFER_SIZE. lia.
      - split_and!; try done. pose proof (ok_used t Ht). lia. }
    clearbody t1. rewrite <- Hk1, <- Hp1 in *. clear Hk1 Hp1 Hs Ht t.
    set (m := (n `min` (FAST_RNG_BUFFER_SIZE - used (rng t1)))%nat).
    pose proof (consume_ok t1 m H1 ltac:(lia)) as H2.
    pose proof (chunk_fits n _ Hu) as Hm. fold m in Hm.
    assert (position (consume t1 m) = position t1 + Z.of_nat m) as Hpm
      by (unfold position; cbn; lia).
    destruct (Hs1 Hu) as [Hb1 Hbuf].
    specialize (IH (n - m)%nat (consume t1 m) H2).
    destruct (fill_loop fuel (n - m) (consume t1 m)) as [rest t']. cbn in *.
    rewrite IH; [|intros ?; cbn in *; apply Hs1; lia|lia|lia|lia].
    rewrite Hbuf, slice_keystream by lia.
    replace (used (rng t1) + m - used (rng t1))%nat with m by lia.
    replace (block (rng t1) - 1) with (Z.of_nat (Z.to_nat (block (rng t1))) - 1) by lia.
    rewrite (chunk_stream _ _ _ _ (Z.to_nat (position t1)))
      by (unfold position; lia).
    replace n with (m + (n - m))%nat at 2 by lia. rewrite seq_app, fmap_app.
    do 2 f_equal. f_equal. lia.
Qed.

(** With an up-to-date generation, a draw is the next stretch of the key's
    stream: however a caller sizes its draws, [fill] returns the [n] bytes that
    follow the ones already handed out, and never a byte twice. *)
Lemma fill_is_stream n t :
  thread_ok t → in_stream t → generation (rng t) = FORK_GENERATION t →
  0 ≤ position t → position t + Z.of_nat n ≤ FAST_RNG_RESEED_INTERVAL →
  (fill n t).1 = stream_byte (key (rng t)) <$> seq (Z.to_nat (position t)) n.
Proof.
  intros Ht Hs Hg Hp0 Hp. unfold fill. rewrite decide_True by done.
  by apply fill_loop_stream.
Qed.

(** After a fork the first draw reseeds, so every byte it returns is
    keystream of the key just read from the OS, and none depends on what was
    buffered (or keyed) before the fork. *)
Lemma fill_after_fork n t :
  thread_ok t → generation (rng t) ≠ FORK_GENERATION t →
  Z.of_nat n ≤ FAST_RNG_RESEED_INTERVAL →
  (fill n t).1 = stream_byte (fill_bytes 32 (os t)).1 <$> seq 0 n.
Proof.
  intros Ht Hg Hn. unfold fill. rewrite decide_False by done.
  pose proof (reseed_ok t Ht) as Hok.
  assert (position (reseed t) = 0 ∧ in_stream (reseed t) ∧
          key (rng (reseed t)) = (fill_bytes 32 (os t)).1) as (Hp & Hs & Hk).
  { unfold reseed, position, in_stream. destruct (fill_bytes 32 (os t)). cbn.
    unfold FAST_RNG_BUFFER_SIZE. split_and!; [lia|lia|done]. }
  rewrite fill_loop_stream by (done || lia). by rewrite Hp, Hk.
Qed.
End stream.

Definition sample_thread : Thread Pattern := new counting_bytes 0.

End FastRng.
