(* ===== verification/Codec.v ===== *)
(** * Codec: the interfaces of the [base64] and [hex] crates, with instances

    [Base64] states what awgtun relies on of
    [base64::engine::general_purpose::STANDARD]: the length of the padded
    encoding, that decoding inverts encoding, and that only padded text (a
    multiple of four characters) decodes.  [Hex] does the same for
    [hex::decode].  [Rfc4648] and [HexDecode] are concrete engines (the standard
    alphabet with canonical padding; pairs of digits of either case) that
    satisfy them. *)

From Stdlib Require Import ZArith Lia.
From stdpp Require Import base list option strings sets tactics.
From S2P Require Import Prelude Text.
Open Scope Z_scope.

(** [usize::div_ceil(3) * 4]: the length of padded base64. *)
Definition base64_len (n : nat) : nat := ((n + 2) / 3 * 4)%nat.

(** [base64::engine::general_purpose::STANDARD]. *)
Class Base64 := {
  b64_encode : bytes → bytes;
  b64_decode : bytes → option bytes;
  b64_encode_length l : length (b64_encode l) = base64_len (length l);
  b64_encode_ok l : bytes_ok (b64_encode l);
  b64_decode_encode l : bytes_ok l → b64_decode (b64_encode l) = Some l;
  b64_decode_ok s l : b64_decode s = Some l → bytes_ok l;
  b64_decode_padded s l : b64_decode s = Some l → (length s mod 4 = 0)%nat
}.

Module Rfc4648.

Definition alphabet : bytes :=
  bs "ABCDEFGHIJKLMNOPQRSTUVWXYZabcdefghijklmnopqrstuvwxyz0123456789+/".
Definition enc6 (v : Z) : Z := nth (Z.to_nat v) alphabet 0.

#[global] Arguments enc6 : simpl never.

Definition dec6 (c : Z) : option Z :=
  if (65 <=? c) && (c <=? 90) then Some (c - 65)
  else if (97 <=? c) && (c <=? 122) then Some (c - 71)
  else if (48 <=? c) && (c <=? 57) then Some (c + 4)
  else if c =? 43 then Some 62
  else if c =? 47 then Some 63
  else None.

Fixpoint encode (l : bytes) : bytes :=
  match l with
  | [] => []
  | [a] => [enc6 (a / 4 mod 64); enc6 (a mod 4 * 16); 61; 61]
  | [a; b] => [enc6 (a / 4 mod 64); enc6 (a mod 4 * 16 + b / 16 mod 16); enc6 (b mod 16 * 4); 61]
  | a :: b :: c :: l' =>
      enc6 (a / 4 mod 64) :: enc6 (a mod 4 * 16 + b / 16 mod 16) ::
      enc6 (b mod 16 * 4 + c / 64 mod 4) :: enc6 (c mod 64) :: encode l'
  end.

(** A final quantum of two or three characters, with zero trailing bits. *)
Definition decode_last (s t u v : Z) : option bytes :=
  x ← dec6 s; y ← dec6 t;
  if (u =? 61) && (v =? 61) then
    if y mod 16 =? 0 then Some [x * 4 + y / 16] else None
  else
    z ← dec6 u;
    if v =? 61 then
      if z mod 4 =? 0 then Some [x * 4 + y / 16; y mod 16 * 16 + z / 4] else None
    else
      w ← dec6 v;
      Some [x * 4 + y / 16; y mod 16 * 16 + z / 4; z mod 4 * 64 + w].

Fixpoint decode (l : bytes) : option bytes :=
  match l with
  | [] => Some []
  | s :: t :: u :: v :: l' =>
      match l' with
      | [] => decode_last s t u v
      | _ =>
          x ← dec6 s; y ← dec6 t; z ← dec6 u; w ← dec6 v;
          rest ← decode l';
          Some (x * 4 + y / 16 :: y mod 16 * 16 + z / 4 :: z mod 4 * 64 + w :: rest)
      end
  | _ => None
  end.

(** The 64 symbols, checked one by one. *)
Lemma alphabet_check :
  forallb (λ v, (match dec6 (enc6 v) with Some w => w =? v | None => false end)
                && negb (enc6 v =? 61) && (0 <=? enc6 v) && (enc6 v <? 256))
    (seqZ 0 64) = true.
Proof. vm_compute. reflexivity. Qed.

Lemma enc6_facts v :
  0 ≤ v < 64 → dec6 (enc6 v) = Some v ∧ enc6 v ≠ 61 ∧ 0 ≤ enc6 v < 256.
Proof.
  intros Hv. pose proof alphabet_check as H. rewrite forallb_forall in H.
  specialize (H v). rewrite <- list_elem_of_In, elem_of_seqZ in H.
  specialize (H ltac:(lia)). rewrite !andb_true_iff in H.
  destruct H as [[[Hd He] H0] H1].
  destruct (dec6 (enc6 v)) as [w|]; [|done]. apply Z.eqb_eq in Hd as ->.
  split; [done|]. split; lia.
Qed.

Lemma enc6_range v : 0 ≤ enc6 v < 256.
Proof.
  destruct (decide (0 ≤ v < 64)) as [Hv|Hv]; [by apply enc6_facts|].
  unfold enc6. destruct (decide (v < 0)).
  - replace (Z.to_nat v) with O by lia. vm_compute. split; [|done]. discriminate.
  - rewrite nth_overflow; [lia|]. change (length alphabet) with 64%nat. lia.
Qed.

(** Induction in steps of one quantum. *)
Lemma quantum_ind (P : bytes → Prop) :
  P [] → (∀ a, P [a]) → (∀ a b, P [a; b]) →
  (∀ a b c l, P l → P (a :: b :: c :: l)) → ∀ l, P l.
Proof.
  intros H0 H1 H2 H3.
  assert (∀ n l, (length l ≤ n)%nat → P l) as H; [|intros l; by apply (H (length l))].
  induction n as [|n IH]; intros [|a [|b [|c l]]] Hl; cbn in Hl; try done; try lia.
  apply H3, IH. lia.
Qed.

Lemma length_encode l : length (encode l) = base64_len (length l).
Proof.
  induction l as [| | |a b c l IH] using quantum_ind; try done.
  cbn [encode length]. rewrite IH. unfold base64_len.
  replace (S (S (S (length l))) + 2)%nat with ((length l + 2) + 1 * 3)%nat by lia.
  rewrite Nat.div_add by lia. lia.
Qed.

Lemma encode_ok l : bytes_ok (encode l).
Proof.
  induction l using quantum_ind; cbn [encode]; repeat constructor; try done;
    apply enc6_range || (widths; lia).
Qed.

Ltac sextet := widths; Z.to_euclidean_division_equations; lia.
Ltac quantum := apply f_equal; repeat (apply (f_equal2 cons); [sextet|]); reflexivity.

Lemma encode_nil l : encode l = [] → l = [].
Proof. by destruct l as [|a [|b [|c l]]]. Qed.

Lemma decode_encode l : bytes_ok l → decode (encode l) = Some l.
Proof.
  induction l as [|a|a b|a b c l IH] using quantum_ind; intros Hl; [done|..].
  - apply Forall_cons_iff in Hl as [Ha _]. cbn [encode decode]. unfold decode_last.
    destruct (enc6_facts (a / 4 mod 64)) as (-> & _); [sextet|].
    destruct (enc6_facts (a mod 4 * 16)) as (-> & _); [sextet|]. cbn.
    replace (_ =? 0) with true by sextet. quantum.
  - apply Forall_cons_iff in Hl as [Ha [Hb _]%Forall_cons_iff].
    cbn [encode decode]. unfold decode_last.
    destruct (enc6_facts (a / 4 mod 64)) as (-> & _); [sextet|].
    destruct (enc6_facts (a mod 4 * 16 + b / 16 mod 16)) as (-> & _); [sextet|].
    destruct (enc6_facts (b mod 16 * 4)) as (-> & Hn & _); [sextet|]. cbn.
    rewrite (proj2 (Z.eqb_neq _ _) Hn). cbn.
    replace (_ =? 0) with true by sextet. quantum.
  - unfold bytes_ok in Hl. rewrite !Forall_cons_iff in Hl. destruct Hl as (Ha & Hb & Hc & Hl).
    specialize (IH Hl). cbn [encode decode]. unfold decode_last.
    destruct (enc6_facts (a / 4 mod 64)) as (-> & _); [sextet|].
    destruct (enc6_facts (a mod 4 * 16 + b / 16 mod 16)) as (-> & _); [sextet|].
    destruct (enc6_facts (b mod 16 * 4 + c / 64 mod 4)) as (-> & Hn & _); [sextet|].
    destruct (enc6_facts (c mod 64)) as (-> & Hn' & _); [sextet|].
    destruct (encode l) as [|e el] eqn:El.
    + apply encode_nil in El as ->. cbn.
      rewrite (proj2 (Z.eqb_neq _ _) Hn), (proj2 (Z.eqb_neq _ _) Hn'). cbn.
      quantum.
    + cbn [mbind option_bind]. rewrite IH. cbn.
      quantum.
Qed.

Lemma dec6_range c v : dec6 c = Some v → 0 ≤ v < 64.
Proof. unfold dec6. intros H. repeat case_match; simplify_eq; lia. Qed.

Ltac sextets :=
  repeat match goal with
  | H : _ ≫= _ = Some _ |- _ => apply bind_Some in H as (? & ?%dec6_range & H)
  end.

Ltac octets := repeat (apply List.Forall_cons; [sextet|]); try apply List.Forall_nil.

Lemma decode_last_ok s t u v l : decode_last s t u v = Some l → bytes_ok l.
Proof.
  unfold decode_last. intros H. sextets.
  repeat (case_match; sextets); simplify_eq; octets.
Qed.

Lemma decode_ok s : ∀ l, decode s = Some l → bytes_ok l.
Proof.
  assert (∀ n s l, (length s ≤ n)%nat → decode s = Some l → bytes_ok l) as H;
    [|intros l; by apply (H (length s))].
  clear s. induction n as [|n IH]; intros s l Hn.
  { destruct s; [|cbn in Hn; lia]. intros [= <-]. constructor. }
  destruct s as [|s [|t [|u [|v r]]]]; cbn [decode]; try done.
  { intros [= <-]. constructor. }
  destruct r as [|r0 r]; [apply decode_last_ok|]. intros H.
  apply bind_Some in H as (x & Hx%dec6_range & H).
  apply bind_Some in H as (y & Hy%dec6_range & H).
  apply bind_Some in H as (z & Hz%dec6_range & H).
  apply bind_Some in H as (w & Hw%dec6_range & H).
  apply bind_Some in H as (rest & Hr & [= <-]).
  apply IH in Hr; [|cbn in *; lia].
  by octets.
Qed.

Lemma decode_padded s : ∀ l, decode s = Some l → (length s mod 4 = 0)%nat.
Proof.
  assert (∀ n s l, (length s ≤ n)%nat → decode s = Some l → (length s mod 4 = 0)%nat) as H;
    [|intros l; by apply (H (length s))].
  clear s. induction n as [|n IH]; intros s l Hn.
  { by destruct s; [|cbn in Hn; lia]. }
  destruct s as [|s [|t [|u [|v r]]]]; cbn [decode]; try done.
  destruct r as [|r0 r]; [done|]. intros H.
  do 4 (apply bind_Some in H as (? & _ & H)).
  apply bind_Some in H as (rest & Hr & _).
  apply IH in Hr; [|cbn in *; lia].
  change (length (s :: t :: u :: v :: r0 :: r)) with (4 + length (r0 :: r))%nat.
  by rewrite <- Nat.Div0.add_mod_idemp_l, Nat.add_0_l.
Qed.

Definition engine : Base64 := {|
  b64_encode := encode;
  b64_decode := decode;
  b64_encode_length := length_encode;
  b64_encode_ok := encode_ok;
  b64_decode_encode := decode_encode;
  b64_decode_ok s l := decode_ok s l;
  b64_decode_padded s l := decode_padded s l
|}.

Example engine_kat : encode (bs "Mango") = bs "TWFuZ28=" ∧ decode (bs "TQ==") = Some (bs "M")
  ∧ decode (bs "TR==") = None.
Proof. vm_compute. auto. Qed.

End Rfc4648.

(** ** Hexadecimal *)

(** [hex::decode]. *)
Class Hex := {
  hex_decode : bytes → option bytes;
  hex_decode_print l : bytes_ok l → hex_decode (print_hex l) = Some l;
  hex_decode_ok s l : hex_decode s = Some l → bytes_ok l ∧ length s = (2 * length l)%nat
}.

Module HexDecode.

Fixpoint decode (s : bytes) : option bytes :=
  match s with
  | [] => Some []
  | h :: l :: s' =>
      x ← to_digit 16 h; y ← to_digit 16 l;
      rest ← decode s'; Some (16 * x + y :: rest)
  | _ => None
  end.

Lemma decode_print l : bytes_ok l → decode (print_hex l) = Some l.
Proof.
  induction 1 as [|b l Hb Hl IH]; [done|].
  cbn [print_hex flat_map print_hex2 app decode]. fold (print_hex l).
  destruct (u8_nibbles b Hb). rewrite !to_digit_hex by done. cbn [mbind option_bind].
  rewrite IH. cbn. do 2 f_equal. pose proof (Z.div_mod b 16). lia.
Qed.

Lemma to_digit_range r c d : to_digit r c = Some d → 0 ≤ d < r.
Proof. unfold to_digit. intros H. repeat case_match; simplify_eq; lia. Qed.

Lemma hex_pairs_ok s : ∀ l, decode s = Some l → bytes_ok l ∧ length s = (2 * length l)%nat.
Proof.
  assert (∀ n s l, (length s ≤ n)%nat → decode s = Some l →
    bytes_ok l ∧ length s = (2 * length l)%nat) as H; [|intros l; by apply (H (length s))].
  clear s. induction n as [|n IH]; intros [|h [|c s]] l Hn; cbn [decode]; try done;
    try (intros [= <-]; split; [constructor|done]); cbn in Hn; [lia|].
  intros (x & Hx%to_digit_range & H)%bind_Some.
  apply bind_Some in H as (y & Hy%to_digit_range & H).
  apply bind_Some in H as (r & Hr & [= <-]).
  apply IH in Hr as [Hr Hl]; [|lia]. split; [|cbn in *; lia].
  constructor; [widths; lia|done].
Qed.

Definition engine : Hex := {|
  hex_decode := decode;
  hex_decode_print := decode_print;
  hex_decode_ok s l := hex_pairs_ok s l
|}.

End HexDecode.
