(* ===== verification/Keys.v ===== *)
(** * Keys: the text form of a WireGuard key

    Models [awgtun/src/serialization.rs]: [KeyBytes::from_str], which the UAPI
    socket and the bindings use for every key they read.  The value is the
    32-byte array; a [str] is its UTF-8 bytes, so slicing it can panic. *)

From Stdlib Require Import ZArith Lia.
From stdpp Require Import base list option strings sets tactics.
From S2P Require Import Prelude Text Codec.
Open Scope Z_scope.

Definition KEY_SIZE : nat := 32.

(** The [for i in 0..32] of the hexadecimal branch: [n] iterations left. *)
Fixpoint hex_key_loop (n i : nat) (s : bytes) : result string bytes :=
  match n with
  | O => Ok []
  | S n' =>
      pair ← str_slice s (i * 2) (i * 2 + 1 + 1);
      b ← map_err (λ _, "Illegal character in key"%string) (from_str_radix 16 u8_max pair);
      rest ← hex_key_loop n' (i + 1) s;
      Ok (b :: rest)
  end.

Definition KeyBytes_from_str `{Base64} (s : bytes) : result string bytes :=
  let internal := replicate KEY_SIZE 0 in
  if decide (length s = 64)%nat then hex_key_loop KEY_SIZE 0 s
  else if decide (length s = 43 ∨ length s = 44)%nat then
    match b64_decode s with
    | Some decoded_key =>
        if decide (length decoded_key = length internal) then Ok decoded_key
        else Err "Illegal character in key"%string
    | None => Ok internal
    end
  else Err "Illegal key size"%string.

(** ** What a key is *)
Definition key_bytes (k : bytes) : Prop := length k = KEY_SIZE ∧ bytes_ok k.
#[export] Instance key_bytes_dec k : Decision (key_bytes k).
Proof. unfold key_bytes. apply _. Defined.

(** The pair at [2 i] of the printed key is the byte at [i]. *)
Lemma slice_print_hex l i b :
  l !! i = Some b → slice (print_hex l) (i * 2) (i * 2 + 1 + 1) = print_hex2 b.
Proof.
  intros Hi. rewrite <- (take_drop_middle l i b Hi) at 1.
  unfold print_hex. rewrite flat_map_app. cbn [flat_map].
  pose proof (lookup_lt_Some _ _ _ Hi).
  apply slice_app_mid; fold (print_hex (take i l)); rewrite length_print_hex; len; cbn; lia.
Qed.

Lemma hex_key_loop_print l n i :
  bytes_ok l → (i + n = length l)%nat → hex_key_loop n i (print_hex l) = Ok (drop i l).
Proof.
  intros Hl. revert i. induction n as [|n IH]; intros i Hi; cbn [hex_key_loop].
  { by rewrite drop_ge by lia. }
  destruct (lookup_lt_is_Some_2 l i) as [b Hb]; [lia|].
  rewrite str_slice_graphic by (try apply print_hex_graphic; try rewrite length_print_hex; done || lia).
  cbn [mbind result_bind]. rewrite (slice_print_hex _ _ _ Hb), parse_hex2 by (by eapply Forall_lookup_1).
  cbn [map_err mbind result_bind]. rewrite IH by lia. cbn [mbind result_bind].
  rewrite (drop_S _ _ _ Hb). by rewrite Nat.add_1_r.
Qed.

Lemma hex_key_loop_key n i s k :
  hex_key_loop n i s = Ok k → length k = n ∧ bytes_ok k.
Proof.
  revert i k. induction n as [|n IH]; intros i k; cbn [hex_key_loop].
  { intros <-%Ok_inj. split; [done|constructor]. }
  intros (pair & _ & H)%bind_ok. apply bind_ok in H as (b & Hb%map_err_ok & H).
  apply bind_ok in H as (rest & Hr%IH & <-%Ok_inj). destruct Hr as [<- Hr].
  apply from_str_radix_range in Hb; [|width_lia..]. split; [done|].
  constructor; [width_lia|done].
Qed.

(** Whatever it accepts is 32 bytes. *)
Lemma KeyBytes_from_str_key `{Base64} s k : KeyBytes_from_str s = Ok k → key_bytes k.
Proof.
  unfold KeyBytes_from_str. case_decide; [apply hex_key_loop_key|].
  case_decide; [|done]. destruct (b64_decode s) as [d|] eqn:E.
  - case_decide as Hl; [|done]. intros <-%Ok_inj. split; [done|by eapply b64_decode_ok].
  - intros <-%Ok_inj. split; [done|]. by apply (bool_decide_unpack _); vm_compute.
Qed.

Lemma KeyBytes_print `{Base64} k : key_bytes k → KeyBytes_from_str (print_hex k) = Ok k.
Proof.
  intros [Hl Hk]. unfold KeyBytes_from_str. rewrite decide_True by (by rewrite length_print_hex, Hl).
  rewrite hex_key_loop_print by done. by rewrite drop_0.
Qed.

(** A key survives being written out: its 64-digit hexadecimal form (what
    the UAPI prints) and its padded base64 form (what a configuration file
    holds) both parse back to it, and whatever text [KeyBytes::from_str]
    accepts, the result is 32 bytes. *)
Lemma key_text_roundtrip `{Base64} k :
  key_bytes k →
  KeyBytes_from_str (print_hex k) = Ok k
  ∧ KeyBytes_from_str (b64_encode k) = Ok k
  ∧ ∀ s k', KeyBytes_from_str s = Ok k' → key_bytes k'.
Proof.
  intros Hkey. split; [by apply KeyBytes_print|]. destruct Hkey as [Hl Hk].
  split; [|intros s k'; apply KeyBytes_from_str_key].
  - unfold KeyBytes_from_str. pose proof (b64_encode_length k) as He. rewrite Hl in He.
    change (base64_len KEY_SIZE) with 44%nat in He.
    rewrite decide_False by lia. rewrite decide_True by lia.
    rewrite b64_decode_encode by done. by rewrite decide_True.
Qed.

(** Text that is not base64 is accepted as the all-zero key: when the 43 or
    44 characters do not decode, the error is dropped and the array is returned
    as it was initialised.  That includes every 43-character text, and so the
    unpadded base64 the documentation of [KeyBytes] says it takes. *)
Lemma invalid_key_is_zero `{Base64} s :
  (length s = 44 → b64_decode s = None)%nat → (length s = 43 ∨ length s = 44)%nat →
  KeyBytes_from_str s = Ok (replicate KEY_SIZE 0).
Proof.
  intros Hd Hl. unfold KeyBytes_from_str.
  rewrite decide_False by lia. rewrite decide_True by done.
  destruct (b64_decode s) as [d|] eqn:E; [|done].
  destruct Hl as [Hl|Hl]; [|by specialize (Hd Hl)].
  apply b64_decode_padded in E. by rewrite Hl in E.
Qed.

