(* ===== verification/Lfsr.v ===== *)
(** * Lfsr: the generator of peer indices

    Models [IndexLfsr] of [awgtun/src/device/mod.rs], which hands out the 24-bit
    identifier of every tunnel a device builds, and shows the two things the
    device relies on: indices are pairwise different, and there are exactly
    2^24 - 2 of them before [next] panics.

    The step of the register is linear over GF(2).  Its period is found by
    exponentiating its 24 by 24 matrix, whose columns are integers. *)

From Stdlib Require Import ZArith Lia.
From stdpp Require Import base list option strings sets tactics.
From S2P Require Import Prelude.
Open Scope Z_scope.

(** ** The register *)
Definition LFSR_MAX : Z := 0xffffff.
Definition LFSR_POLY : Z := 0xd80000.

Record IndexLfsr := mkIndexLfsr {
  lfsr_initial : Z;
  lfsr : Z;
  lfsr_mask : Z
}.

(** [random_index]: masks OS draws until one is not zero.  The draws are an
    argument; [None] is a loop still waiting for the next draw. *)
Fixpoint random_index (draws : list Z) : option (Z * list Z) :=
  match draws with
  | [] => None
  | d :: draws' =>
      let i := Z.land d LFSR_MAX in
      if 0 <? i then Some (i, draws') else random_index draws'
  end.

Definition IndexLfsr_default (draws : list Z) : option IndexLfsr :=
  '(seed, draws) ← random_index draws;
  '(mask, _) ← random_index draws;
  Some (mkIndexLfsr seed seed mask).

Definition lfsr_step (x : Z) : Z :=
  Z.lxor (Z.shiftr x 1) (Z.land (wrap 32 (0 - Z.land x 1)) LFSR_POLY).

(** [next]: the register moves even when the assertion then fails. *)
Definition IndexLfsr_next {E} : ST IndexLfsr E Z := λ s,
  let value := wrap 32 (lfsr s - 1) in
  let s' := mkIndexLfsr (lfsr_initial s) (lfsr_step (lfsr s)) (lfsr_mask s) in
  if lfsr_step (lfsr s) =? lfsr_initial s then (Panic, s')
  else (Ok (Z.lxor value (lfsr_mask s)), s').

(** ** Linear maps on 24 bits

    A map is the list of the images of 1, 2, 4, ... *)
Fixpoint lin (cols : list Z) (x : Z) : Z :=
  match cols with
  | [] => 0
  | c :: cols' => Z.lxor (if Z.odd x then c else 0) (lin cols' (Z.div2 x))
  end.
Definition compose (m n : list Z) : list Z := map (lin m) n.
Definition unit_cols : list Z := map (λ i, 2 ^ Z.of_nat i) (seq 0 24).
Definition add_cols (m n : list Z) : list Z := zip_with Z.lxor m n.

Fixpoint power (m : list Z) (n : positive) : list Z :=
  match n with
  | xH => m
  | xO n' => let q := power m n' in compose q q
  | xI n' => let q := power m n' in compose m (compose q q)
  end.

Lemma lin_0 m : lin m 0 = 0.
Proof. induction m as [|c m IH]; [done|]. cbn. by rewrite IH. Qed.

Lemma lin_lxor m x y : lin m (Z.lxor x y) = Z.lxor (lin m x) (lin m y).
Proof.
  revert x y. induction m as [|c m IH]; intros x y; [done|]. cbn [lin].
  rewrite Z.div2_spec, Z.shiftr_lxor, <- !Z.div2_spec, IH.
  rewrite <- !Z.bit0_odd, Z.lxor_spec.
  destruct (Z.testbit x 0), (Z.testbit y 0); cbn [xorb]; rewrite ?Z.lxor_0_l.
  - rewrite (Z.lxor_comm c (lin m (Z.div2 y))), <- !Z.lxor_assoc.
    rewrite (Z.lxor_comm (Z.lxor (Z.lxor c _) _) c), <- !Z.lxor_assoc.
    by rewrite Z.lxor_nilpotent, Z.lxor_0_l.
  - by rewrite Z.lxor_assoc.
  - rewrite <- !Z.lxor_assoc. by rewrite (Z.lxor_comm c (lin m (Z.div2 x))).
  - done.
Qed.

Lemma lin_map m n x : lin (map (lin m) n) x = lin m (lin n x).
Proof.
  revert x. induction n as [|c n IH]; intros x; cbn; [by rewrite lin_0|].
  rewrite IH, lin_lxor. f_equal. destruct (Z.odd x); [done|by rewrite lin_0].
Qed.

Lemma lin_add m n x :
  length m = length n → lin (add_cols m n) x = Z.lxor (lin m x) (lin n x).
Proof.
  revert n x. induction m as [|a m IH]; intros [|b n] x Hl; try done; cbn in *.
  rewrite IH by lia. destruct (Z.odd x); rewrite ?Z.lxor_0_l; [|done].
  rewrite <- !Z.lxor_assoc. f_equal. rewrite !Z.lxor_assoc. f_equal. apply Z.lxor_comm.
Qed.

Lemma split_bit0 x : x = Z.lxor (Z.b2z (Z.odd x)) (Z.shiftl (Z.div2 x) 1).
Proof.
  apply Z.bits_inj'. intros n Hn. rewrite Z.lxor_spec.
  destruct (decide (n = 0)) as [->|Hn0].
  - rewrite Z.b2z_bit0, Z.shiftl_spec_low, xorb_false_r by lia. by rewrite Z.bit0_odd.
  - rewrite Z.shiftl_spec_high, Z.div2_spec, Z.shiftr_spec by lia.
    replace (n - 1 + 1) with n by lia.
    replace (Z.testbit (Z.b2z (Z.odd x)) n) with false; [done|].
    symmetry. destruct (Z.odd x); cbn [Z.b2z]; [|apply Z.bits_0].
    rewrite <- (Z.pow_0_r 2). apply Z.pow2_bits_false. lia.
Qed.

Section linear.
Context (g : Z → Z) (Hg : ∀ x y, g (Z.lxor x y) = Z.lxor (g x) (g y)).

Lemma linear_0 : g 0 = 0.
Proof.
  pose proof (Hg 0 0) as H. rewrite Z.lxor_nilpotent in H. by rewrite Z.lxor_nilpotent in H.
Qed.

Lemma lin_columns k n x :
  0 ≤ x < 2 ^ Z.of_nat n →
  lin (map (λ i, g (2 ^ Z.of_nat i)) (seq k n)) x = g (Z.shiftl x (Z.of_nat k)).
Proof.
  revert k x. induction n as [|n IH]; intros k x Hx; cbn [seq map lin].
  { cbn in Hx. replace x with 0 by lia. by rewrite Z.shiftl_0_l, linear_0. }
  rewrite IH; cycle 1.
  { rewrite Z.div2_div. rewrite Nat2Z.inj_succ, Z.pow_succ_r in Hx by lia.
    split; [apply Z.div_pos; lia|apply Z.div_lt_upper_bound; lia]. }
  rewrite (split_bit0 x) at 3. rewrite Z.shiftl_lxor, Hg. f_equal.
  - destruct (Z.odd x); cbn [Z.b2z]; [|by rewrite Z.shiftl_0_l, linear_0].
    by rewrite Z.shiftl_1_l.
  - rewrite Z.shiftl_shiftl by lia. do 2 f_equal. lia.
Qed.
End linear.

(** ** The step is linear *)
Definition reg_ok (x : Z) : Prop := 0 < x < 2 ^ 24.

Lemma lfsr_step_odd x : lfsr_step x = Z.lxor (Z.div2 x) (if Z.odd x then LFSR_POLY else 0).
Proof.
  unfold lfsr_step. rewrite <- Z.div2_spec. f_equal.
  change 1 with (Z.ones 1). rewrite Z.land_ones by lia. rewrite Z.pow_1_r.
  rewrite <- Z.bit0_mod, Z.bit0_odd. by destruct (Z.odd x).
Qed.

Lemma lfsr_step_lxor x y : lfsr_step (Z.lxor x y) = Z.lxor (lfsr_step x) (lfsr_step y).
Proof.
  rewrite !lfsr_step_odd, Z.div2_spec, Z.shiftr_lxor, <- !Z.div2_spec.
  rewrite <- !Z.bit0_odd, Z.lxor_spec. rewrite !Z.lxor_assoc. f_equal.
  rewrite (Z.lxor_comm _ (Z.lxor (Z.div2 y) _)), Z.lxor_assoc. f_equal.
  by destruct (Z.testbit x 0), (Z.testbit y 0).
Qed.

Definition step_cols : list Z := map (λ i, lfsr_step (2 ^ Z.of_nat i)) (seq 0 24).

Lemma step_matrix x : 0 ≤ x < 2 ^ 24 → lfsr_step x = lin step_cols x.
Proof.
  intros Hx. unfold step_cols. rewrite (lin_columns _ lfsr_step_lxor 0 24) by done.
  by rewrite Z.shiftl_0_r.
Qed.

Lemma unit_matrix x : 0 ≤ x < 2 ^ 24 → lin unit_cols x = x.
Proof.
  intros Hx. unfold unit_cols. rewrite (lin_columns (λ x, x) (λ x y, eq_refl) 0 24) by done.
  by rewrite Z.shiftl_0_r.
Qed.

(** The top bit of a register tells whether a bit was shifted out. *)
Lemma lfsr_step_range x : 0 ≤ x < 2 ^ 24 → 0 ≤ lfsr_step x < 2 ^ 24.
Proof.
  intros Hx. rewrite lfsr_step_odd. apply (lxor_ok 24); unfold u_ok; [lia| |].
  - rewrite Z.div2_div. split; [apply Z.div_pos; lia|apply Z.div_lt_upper_bound; lia].
  - destruct (Z.odd x); unfold LFSR_POLY; lia.
Qed.

Lemma iter_range n x : 0 ≤ x < 2 ^ 24 → 0 ≤ Nat.iter n lfsr_step x < 2 ^ 24.
Proof. intros Hx. induction n as [|n IH]; [done|]. cbn. by apply lfsr_step_range. Qed.

Lemma power_iter m n x : lin (power m n) x = Nat.iter (Pos.to_nat n) (lin m) x.
Proof.
  revert x. induction n as [n IH|n IH|]; intros x; cbn [power]; unfold compose.
  - rewrite !lin_map, !IH, <- Nat.iter_add, Pos2Nat.inj_xI.
    rewrite Nat.iter_succ. do 2 f_equal. lia.
  - rewrite !lin_map, !IH, Pos2Nat.inj_xO, <- Nat.iter_add. f_equal. lia.
  - done.
Qed.

Lemma step_power n x :
  0 ≤ x < 2 ^ 24 → Nat.iter (Pos.to_nat n) lfsr_step x = lin (power step_cols n) x.
Proof.
  intros Hx. rewrite power_iter. induction (Pos.to_nat n) as [|k IH]; [done|].
  rewrite !Nat.iter_succ, <- IH. apply step_matrix. by apply iter_range.
Qed.

(** ** The period

    2^24 - 1 = 3^2 * 5 * 7 * 13 * 17 * 241. *)
Definition PERIOD : positive := 16777215.

(** The matrix raised to the period is the identity. *)
Lemma power_period : power step_cols PERIOD = unit_cols.
Proof. vm_compute. reflexivity. Qed.

Lemma iter_period x : 0 ≤ x < 2 ^ 24 → Nat.iter (Pos.to_nat PERIOD) lfsr_step x = x.
Proof. intros Hx. by rewrite step_power, power_period, unit_matrix. Qed.

(** A matrix with a power equal to the identity kills only zero. *)
Lemma lin_injective m n x :
  power m n = unit_cols → 0 ≤ x < 2 ^ 24 → lin m x = 0 → x = 0.
Proof.
  intros Hp Hx Hm. rewrite <- (unit_matrix x Hx), <- Hp, power_iter.
  rewrite <- (Nat.succ_pred_pos (Pos.to_nat n)) by lia. rewrite Nat.iter_succ_r, Hm.
  induction (Nat.pred _) as [|k IH]; [done|]. by rewrite Nat.iter_succ, IH, lin_0.
Qed.

(** No register but zero is fixed by the period over a prime factor of it. *)
Definition factors : list positive := [3; 5; 7; 13; 17; 241]%positive.
Definition cofactor (p : positive) : positive := Z.to_pos (Z.pos PERIOD / Z.pos p).

Lemma cofactors_invertible :
  Forall (λ p, power (add_cols (power step_cols (cofactor p)) unit_cols) PERIOD = unit_cols) factors.
Proof. apply (bool_decide_unpack _). vm_compute. exact I. Qed.

Lemma length_power m n : length (power m n) = length m.
Proof. induction n; cbn; unfold compose; rewrite ?length_map; congruence. Qed.

Lemma cofactor_moves p x :
  p ∈ factors → reg_ok x → Nat.iter (Pos.to_nat (cofactor p)) lfsr_step x ≠ x.
Proof.
  intros Hp Hx Heq. assert (Hr : 0 ≤ x < 2 ^ 24) by (unfold reg_ok in Hx; lia).
  pose proof (proj1 (list.Forall_forall _ _) cofactors_invertible p Hp) as Hinv.
  apply (lin_injective _ _ x) in Hinv; [unfold reg_ok in Hx; lia|done|].
  rewrite lin_add by (by rewrite length_power).
  rewrite <- step_power, Heq, unit_matrix by done. apply Z.lxor_nilpotent.
Qed.

(** *** Divisors of the period *)
Lemma prime_check p :
  1 < p → forallb (λ n, negb (p mod n =? 0)) (seqZ 2 (p - 2)) = true → Z.prime p.
Proof.
  intros Hp Hf. split; [done|]. intros n Hn Hd%Z.mod_divide; [|lia].
  rewrite forallb_forall in Hf. specialize (Hf n). rewrite Hd in Hf. cbn in Hf.
  apply diff_false_true, Hf, list_elem_of_In, elem_of_seqZ. lia.
Qed.

Lemma factors_prime : Forall (λ p, Z.prime (Z.pos p)) factors.
Proof.
  unfold factors. repeat (apply list.Forall_cons; split; [apply prime_check; [lia|by vm_compute]|]).
  constructor.
Qed.

Lemma coprime_to_period k :
  (∀ p, p ∈ factors → ¬ (Z.pos p | k)) → Z.coprime k (Z.pos PERIOD).
Proof.
  intros Hk.
  assert (Hc : ∀ p, p ∈ factors → Z.coprime k (Z.pos p)).
  { intros p Hp. unfold Z.coprime. rewrite Z.gcd_comm. apply Z.coprime_prime_l; [|by apply Hk].
    by apply (proj1 (list.Forall_forall _ _) factors_prime). }
  change (Z.pos PERIOD) with (3 * (3 * (5 * (7 * (13 * (17 * 241)))))).
  repeat apply Z.coprime_mul_r; apply Hc; unfold factors; set_solver.
Qed.

Lemma proper_divisor g :
  0 < g < Z.pos PERIOD → (g | Z.pos PERIOD) →
  ∃ p, p ∈ factors ∧ (g | Z.pos (cofactor p)).
Proof.
  intros Hg [k Hk].
  assert (Hk1 : 1 < k) by nia.
  destruct (decide (Forall (λ p, k mod Z.pos p ≠ 0) factors)) as [Hn|Hn].
  - exfalso. assert (Hc : Z.coprime k (Z.pos PERIOD)).
    { apply coprime_to_period. intros p Hp Hd%Z.mod_divide; [|done].
      by apply (proj1 (list.Forall_forall _ _) Hn p Hp). }
    unfold Z.coprime in Hc. assert (k | 1) as Hd.
    { rewrite <- Hc. apply Z.gcd_greatest; [apply Z.divide_refl|]. exists g. lia. }
    apply Z.divide_1_r_nonneg in Hd; lia.
  - apply not_Forall_Exists in Hn; [|apply _]. apply list.Exists_exists in Hn as (p & Hp & Hd).
    apply dec_stable, Z.mod_divide in Hd as [k' ->]; [|lia]. exists p. split; [done|].
    assert (0 < k') by nia.
    exists k'. unfold cofactor. rewrite Hk.
    replace (k' * Z.pos p * g) with (k' * g * Z.pos p) by lia.
    rewrite Z.div_mul by lia. rewrite Z2Pos.id by nia. lia.
Qed.

(** *** Return times are closed under differences, so under gcd *)
Section returns.
Context (x : Z).
Definition returns (n : nat) : Prop := Nat.iter n lfsr_step x = x.

Lemma returns_mul a k : returns a → returns (k * a).
Proof.
  intros Ha. unfold returns in *. induction k as [|k IH]; [done|].
  cbn [Nat.mul]. by rewrite Nat.iter_add, IH.
Qed.
Lemma returns_sub a b : returns (a + b) → returns b → returns a.
Proof. unfold returns. intros H Hb. by rewrite Nat.iter_add, Hb in H. Qed.

Lemma returns_gcd a b : returns a → returns b → returns (Nat.gcd a b).
Proof.
  intros Ha Hb. destruct (Nat.gcd_bezout a b) as [(u & v & E)|(u & v & E)].
  - apply (returns_sub _ (v * b)); [|by apply returns_mul]. rewrite <- E. by apply returns_mul.
  - apply (returns_sub _ (v * a)); [|by apply returns_mul]. rewrite <- E. by apply returns_mul.
Qed.
End returns.

Lemma no_early_return x n :
  reg_ok x → 0 < Z.of_nat n < Z.pos PERIOD → ¬ returns x n.
Proof.
  intros Hx Hn Hr.
  assert (HP : returns x (Pos.to_nat PERIOD)) by (apply iter_period; unfold reg_ok in Hx; lia).
  pose proof (returns_gcd x _ _ Hr HP) as Hg. set (g := Nat.gcd n (Pos.to_nat PERIOD)) in *.
  destruct (Nat.gcd_divide_l n (Pos.to_nat PERIOD)) as [u Hu].
  destruct (Nat.gcd_divide_r n (Pos.to_nat PERIOD)) as [v Hv]. fold g in Hu, Hv.
  assert (Hgn : (0 < g ≤ n)%nat).
  { split; [destruct g; lia|]. apply Nat.divide_pos_le; [lia|by exists u]. }
  destruct (proper_divisor (Z.of_nat g)) as (p & Hp & [k Hk]).
  - lia.
  - exists (Z.of_nat v). lia.
  - apply (cofactor_moves p x Hp Hx).
    replace (Pos.to_nat (cofactor p)) with (Z.to_nat k * g)%nat; [by apply returns_mul|].
    assert (0 < k) by nia. nia.
Qed.

(** ** The indices a device hands out

    [draws n]: the results of [n] calls. *)
Fixpoint draws {E} (n : nat) : ST IndexLfsr E (list Z) :=
  match n with
  | O => mret []
  | S n' => i ← IndexLfsr_next; rest ← draws n'; mret (i :: rest)
  end.

Definition lfsr_ok (s : IndexLfsr) : Prop :=
  reg_ok (lfsr_initial s) ∧ 0 ≤ lfsr_mask s < 2 ^ 24 ∧
  ∃ k, lfsr s = Nat.iter k lfsr_step (lfsr_initial s) ∧ Z.of_nat k < Z.pos PERIOD.

(** The index drawn when the register has moved [k] times. *)
Definition index_at (s : IndexLfsr) (k : nat) : Z :=
  Z.lxor (Nat.iter k lfsr_step (lfsr_initial s) - 1) (lfsr_mask s).

Lemma iter_reg_ok x n : reg_ok x → reg_ok (Nat.iter n lfsr_step x).
Proof.
  intros Hx. assert (Hr : 0 ≤ x < 2 ^ 24) by (unfold reg_ok in Hx; lia).
  pose proof (iter_range n x Hr) as Hn. split; [|lia].
  destruct (decide (Nat.iter n lfsr_step x = 0)) as [E|]; [|lia]. exfalso.
  (* a register that reaches zero never comes back *)
  assert (Hz : ∀ k, Nat.iter k lfsr_step 0 = 0).
  { induction k as [|k IH]; [done|]. by rewrite Nat.iter_succ, IH. }
  pose proof (returns_mul x _ (S n) (iter_period x Hr)) as HP. unfold returns in HP.
  assert (n ≤ S n * Pos.to_nat PERIOD)%nat by (pose proof (Pos2Nat.is_pos PERIOD); nia).
  replace (S n * Pos.to_nat PERIOD)%nat
    with ((S n * Pos.to_nat PERIOD - n) + n)%nat in HP by lia.
  rewrite Nat.iter_add, E, Hz in HP. unfold reg_ok in Hx. lia.
Qed.

Lemma iter_inj x a b :
  reg_ok x → Z.of_nat a < Z.pos PERIOD → Z.of_nat b < Z.pos PERIOD →
  Nat.iter a lfsr_step x = Nat.iter b lfsr_step x → a = b.
Proof.
  intros Hx. assert (Hw : ∀ a b, (a < b)%nat → Z.of_nat b < Z.pos PERIOD →
    Nat.iter a lfsr_step x ≠ Nat.iter b lfsr_step x).
  { clear a b. intros a b Hab Hb E. replace b with ((b - a) + a)%nat in E by lia.
    rewrite Nat.iter_add in E.
    apply (no_early_return (Nat.iter a lfsr_step x) (b - a)); [by apply iter_reg_ok|lia|done]. }
  intros Ha Hb E. destruct (Nat.lt_total a b) as [Hl|[->|Hl]]; [|done|].
  - by destruct (Hw a b).
  - by destruct (Hw b a).
Qed.

Lemma index_at_inj s a b :
  lfsr_ok s → Z.of_nat a < Z.pos PERIOD → Z.of_nat b < Z.pos PERIOD →
  index_at s a = index_at s b → a = b.
Proof.
  intros (Hi & _) Ha Hb E. unfold index_at in E.
  apply (f_equal (λ v, Z.lxor v (lfsr_mask s))) in E. rewrite !lxor_cancel in E.
  apply (iter_inj (lfsr_initial s)); [done..|lia].
Qed.

Lemma index_at_range s k : lfsr_ok s → 0 ≤ index_at s k < 2 ^ 24.
Proof.
  intros (Hi & Hm & _). pose proof (iter_reg_ok _ k Hi). unfold reg_ok in *.
  apply (lxor_ok 24); unfold u_ok; lia.
Qed.

(** One call, [k] steps in. *)
Lemma next_at {E} s k :
  lfsr_ok s → lfsr s = Nat.iter k lfsr_step (lfsr_initial s) → Z.of_nat k < Z.pos PERIOD →
  let s' := mkIndexLfsr (lfsr_initial s) (Nat.iter (S k) lfsr_step (lfsr_initial s)) (lfsr_mask s) in
  IndexLfsr_next (E := E) s
  = (if Z.of_nat k + 1 =? Z.pos PERIOD then Panic else Ok (index_at s k), s').
Proof.
  intros (Hi & Hm & _) Hk Hlt. unfold IndexLfsr_next, index_at. cbv zeta. rewrite Hk.
  rewrite <- Nat.iter_succ. pose proof (iter_reg_ok _ k Hi) as Hr.
  rewrite wrap_small by (unfold reg_ok in Hr; width_lia).
  destruct (Z.eqb_spec (Z.of_nat k + 1) (Z.pos PERIOD)) as [E1|E1].
  - replace (S k) with (Pos.to_nat PERIOD) by lia.
    rewrite iter_period by (unfold reg_ok in Hi; lia). by rewrite Z.eqb_refl.
  - destruct (Z.eqb_spec (Nat.iter (S k) lfsr_step (lfsr_initial s)) (lfsr_initial s)) as [E2|]; [|done].
    exfalso. by apply (no_early_return (lfsr_initial s) (S k)); [|lia|].
Qed.

Lemma draws_at {E} s k n :
  lfsr_ok s → lfsr s = Nat.iter k lfsr_step (lfsr_initial s) →
  Z.of_nat (k + n) < Z.pos PERIOD →
  draws (E := E) n s
  = (Ok (index_at s <$> seq k n),
     mkIndexLfsr (lfsr_initial s) (Nat.iter (k + n) lfsr_step (lfsr_initial s)) (lfsr_mask s)).
Proof.
  revert s k. induction n as [|n IH]; intros s k Hs Hk Hlt; cbn [draws].
  { rewrite Nat.add_0_r, <- Hk. by destruct s. }
  unfold mbind, ST_bind. rewrite (next_at s k Hs Hk) by lia.
  rewrite (proj2 (Z.eqb_neq _ _)) by lia.
  set (s' := mkIndexLfsr _ _ _).
  assert (Hs' : lfsr_ok s').
  { destruct Hs as (Hi & Hm & _). split; [done|]. split; [done|]. exists (S k). split; [done|lia]. }
  rewrite (IH s' (S k) Hs' eq_refl) by lia.
  replace (S k + n)%nat with (k + S n)%nat by lia. done.
Qed.

Lemma draws_add {E} a b s :
  draws (E := E) (a + b) s = (l ← draws a; m ← draws b; mret (l ++ m)) s.
Proof.
  revert s. induction a as [|a IH]; intros s; cbn [draws Nat.add].
  - unfold mbind, ST_bind. cbn. by destruct (draws b s) as [[l| |] s'].
  - unfold mbind, ST_bind in *. destruct (IndexLfsr_next s) as [[i| |] s1]; [|done..].
    rewrite IH. destruct (draws a s1) as [[l| |] s2]; [|done..].
    cbn. by destruct (draws b s2) as [[m| |] s3].
Qed.

Lemma random_index_ok ds i ds' : random_index ds = Some (i, ds') → reg_ok i.
Proof.
  induction ds as [|d ds IH]; [done|]. cbn. destruct (Z.ltb_spec 0 (Z.land d LFSR_MAX)); [|done].
  intros [= <- _]. change LFSR_MAX with (Z.ones 24) in *. rewrite Z.land_ones in * by lia.
  split; [done|]. apply Z.mod_pos_bound. lia.
Qed.

Lemma IndexLfsr_default_ok ds s : IndexLfsr_default ds = Some s → lfsr_ok s ∧ lfsr s = lfsr_initial s.
Proof.
  unfold IndexLfsr_default.
  intros ([seed ds1] & H1%random_index_ok & H)%bind_Some.
  apply bind_Some in H as ([mask ds2] & H2%random_index_ok & [= <-]).
  split; [|done]. split; [done|]. split; [unfold reg_ok in H2; cbn; lia|].
  by exists 0%nat.
Qed.

(** C28: a device never gives two of its tunnels the same index: from a freshly
    seeded generator, whatever the seed, any [n] calls with [n] up to 2^24 - 2
    return [n] pairwise different 24-bit indices; the call after those panics,
    the register being back at its seed, since its feedback polynomial has the
    full period 2^24 - 1. *)
Theorem peer_indices_distinct ds s n :
  IndexLfsr_default ds = Some s →
  (Z.of_nat n ≤ 2 ^ 24 - 2 →
   ∃ l s', draws (E := ()) n s = (Ok l, s') ∧ length l = n ∧ NoDup l
     ∧ Forall (λ i, 0 ≤ i < 2 ^ 24) l)
  ∧ (Z.of_nat n = 2 ^ 24 - 1 → (draws (E := ()) n s).1 = Panic).
Proof.
  intros [Hs Hi]%IndexLfsr_default_ok. assert (HP : Z.pos PERIOD = 2 ^ 24 - 1) by done.
  split; intros Hn.
  - rewrite (draws_at s 0 n Hs Hi) by (cbn; lia). eexists _, _. split; [done|].
    rewrite length_fmap, length_seq. split; [done|]. split.
    + apply NoDup_fmap_2_strong; [|apply NoDup_seq].
      intros a b Ha%elem_of_seq Hb%elem_of_seq. apply index_at_inj; [done|lia..].
    + apply Forall_fmap, Forall_true. intros k. by apply index_at_range.
  - destruct n as [|n]; [lia|]. rewrite <- Nat.add_1_r.
    rewrite draws_add. unfold mbind, ST_bind. rewrite (draws_at s 0 n Hs Hi) by (cbn; lia).
    set (s' := mkIndexLfsr _ _ _). cbn [draws]. unfold mbind, ST_bind.
    assert (Hs' : lfsr_ok s').
    { destruct Hs as (? & ? & _). split; [done|]. split; [done|]. exists n. split; [done|lia]. }
    rewrite (next_at s' n Hs' eq_refl) by lia.
    by rewrite (proj2 (Z.eqb_eq _ _)) by lia.
Qed.

Lemma peer_indices_distinct_witness :
  ∃ s, IndexLfsr_default [0; 0x1000001; 7] = Some s ∧
  ((Z.of_nat 3 ≤ 2 ^ 24 - 2 →
   ∃ l s', draws (E := ()) 3 s = (Ok l, s') ∧ length l = 3%nat ∧ NoDup l
     ∧ Forall (λ i, 0 ≤ i < 2 ^ 24) l)
  ∧ (Z.of_nat 3 = 2 ^ 24 - 1 → (draws (E := ()) 3 s).1 = Panic)).
Proof.
  eexists. split; [reflexivity|].
  apply (peer_indices_distinct [0; 0x1000001; 7] _ 3). reflexivity.
Defined.
