(* ===== verification/Amnezia.v ===== *)
(** * Amnezia: the AmneziaWG parameters and what is derived from each of them

    Models the data of [awgtun/src/amnezia.rs]: header ranges H1-H4, padding
    S1-S4, junk, the AWG 3.0 ranges and timings, header protection and the AWG
    3.1 trailer length, with their constructors, checks, text forms and draws.
    The CPS chains are in [Cps], the aggregate configuration in [Config]. *)

From Stdlib Require Import ZArith Lia.
From stdpp Require Import base list option strings sets tactics.
From S2P Require Import Prelude Text Random.
Open Scope Z_scope.

(** ** Errors *)
Inductive HeaderKind := HInit | HResponse | HCookie | HTransport.
Inductive PaddingKind := PInit | PResponse | PCookie | PTransport.

#[export] Instance HeaderKind_eq_dec : EqDecision HeaderKind.
Proof. solve_decision. Defined.
#[export] Instance PaddingKind_eq_dec : EqDecision PaddingKind.
Proof. solve_decision. Defined.

Definition HeaderKind_display (k : HeaderKind) : bytes :=
  match k with
  | HInit => bs "H1" | HResponse => bs "H2" | HCookie => bs "H3" | HTransport => bs "H4"
  end.
Definition PaddingKind_display (k : PaddingKind) : bytes :=
  match k with
  | PInit => bs "S1" | PResponse => bs "S2" | PCookie => bs "S3" | PTransport => bs "S4"
  end.

Inductive ConfigError :=
  | InvalidHeaderRange (value : bytes) (reason : string)
  | HeaderRangesOverlap (first second : HeaderKind)
  | JunkMinExceedsMax (min max : Z)
  | JunkExceedsMtu (max_size : Z) (mtu : Z)
  | InvalidCps (reason : bytes)
  | UnsupportedCpsTag (tag : bytes)
  | CpsValueOutOfRange (tag : string) (value max : Z)
  | UnsupportedLegacyField (field : bytes)
  | InvalidRange (value : bytes) (reason : string)
  | InvalidConfigLine (line : bytes) (reason : string)
  | InvalidFieldValue (field : bytes) (reason : string)
  | HeaderProtectionPaddingTooSmall (field : PaddingKind) (value min : Z).

#[export] Instance ConfigError_eq_dec : EqDecision ConfigError.
Proof. solve_decision. Defined.

(** [impl Display for ConfigError]. *)
Definition ConfigError_display (e : ConfigError) : bytes :=
  match e with
  | InvalidHeaderRange value reason =>
      bs "invalid header range `" ++ value ++ bs "`: " ++ bs reason
  | HeaderRangesOverlap first second =>
      HeaderKind_display first ++ bs " and " ++ HeaderKind_display second
      ++ bs " header ranges overlap"
  | JunkMinExceedsMax min max =>
      bs "junk min " ++ print_dec min ++ bs " exceeds junk max " ++ print_dec max
  | JunkExceedsMtu max_size mtu =>
      bs "junk max size " ++ print_dec max_size ++ bs " exceeds effective MTU "
      ++ print_dec mtu
  | InvalidCps reason => bs "invalid CPS chain: " ++ reason
  | UnsupportedCpsTag tag => bs "unsupported AmneziaWG 2.0 CPS tag `" ++ tag ++ bs "`"
  | CpsValueOutOfRange tag value max =>
      bs "<" ++ bs tag ++ bs "> length " ++ print_dec value ++ bs " exceeds max "
      ++ print_dec max
  | UnsupportedLegacyField field =>
      bs "`" ++ field ++ bs "` is not an AmneziaWG 2.0 field"
  | InvalidRange value reason => bs "invalid range `" ++ value ++ bs "`: " ++ bs reason
  | InvalidConfigLine line reason =>
      bs "invalid config line `" ++ line ++ bs "`: " ++ bs reason
  | InvalidFieldValue field reason =>
      bs "invalid value for `" ++ field ++ bs "`: " ++ bs reason
  | HeaderProtectionPaddingTooSmall field value min =>
      PaddingKind_display field ++ bs " padding " ++ print_dec value
      ++ bs " is below the header-protection minimum " ++ print_dec min
  end.

(** ** H1-H4 *)
Record HeaderRange := mkHeaderRange { hr_start : Z; hr_end : Z }.

#[export] Instance HeaderRange_eq_dec : EqDecision HeaderRange.
Proof. solve_decision. Defined.

Definition HeaderRange_single (value : Z) : HeaderRange := mkHeaderRange value value.

Definition HeaderRange_new (start end_ : Z) : result ConfigError HeaderRange :=
  if end_ <? start then
    Err (InvalidHeaderRange (print_dec start ++ bs "-" ++ print_dec end_)
           "range end is smaller than start")
  else Ok (mkHeaderRange start end_).

Definition header_parse_error (input : bytes) (err : IntErrorKind) : ConfigError :=
  InvalidHeaderRange input
    match err with
    | PosOverflow => "value exceeds u32"
    | NegOverflow => "negative value is not allowed"
    | InvalidDigit => "expected decimal digits"
    | IntEmpty => "empty range bound"
    end.

Definition parse_u32_part (input : bytes) (part : option bytes) : result ConfigError Z :=
  let part := trim (default [] part) in
  if decide (part = []) then Err (InvalidHeaderRange input "empty range bound")
  else map_err (header_parse_error input) (parse_u32 part).

Definition HeaderRange_parse (input : bytes) : result ConfigError HeaderRange :=
  let input := trim input in
  if decide (input = []) then Err (InvalidHeaderRange input "empty value") else
  let parts := split 45 input in
  start ← parse_u32_part input (parts !! 0%nat);
  end_ ← match parts !! 1%nat with
         | Some part => parse_u32_part input (Some part)
         | None => Ok start
         end;
  match parts !! 2%nat with
  | Some _ => Err (InvalidHeaderRange input "expected `value` or `start-end`")
  | None =>
      map_err (λ _, InvalidHeaderRange input "range end is smaller than start")
        (HeaderRange_new start end_)
  end.

Definition HeaderRange_contains (r : HeaderRange) (value : Z) : bool :=
  (hr_start r <=? value) && (value <=? hr_end r).

Definition HeaderRange_overlaps (r other : HeaderRange) : bool :=
  (hr_start r <=? hr_end other) && (hr_start other <=? hr_end r).

Definition HeaderRange_generate `{RandomSource R} (r : HeaderRange) (g : R) : Z * R :=
  gen_range_u32 (hr_start r) (hr_end r) g.

Definition HeaderRange_display (r : HeaderRange) : bytes :=
  if hr_start r =? hr_end r then print_dec (hr_start r)
  else print_dec (hr_start r) ++ bs "-" ++ print_dec (hr_end r).

Record HeaderConfig := mkHeaderConfig {
  hc_init : HeaderRange;
  hc_response : HeaderRange;
  hc_cookie : HeaderRange;
  hc_transport : HeaderRange
}.

#[export] Instance HeaderConfig_eq_dec : EqDecision HeaderConfig.
Proof. solve_decision. Defined.

Definition HeaderConfig_wireguard_compatible : HeaderConfig :=
  mkHeaderConfig (HeaderRange_single 1) (HeaderRange_single 2)
    (HeaderRange_single 3) (HeaderRange_single 4).

Definition HeaderConfig_entries (c : HeaderConfig) : list (HeaderKind * HeaderRange) :=
  [(HInit, hc_init c); (HResponse, hc_response c);
   (HCookie, hc_cookie c); (HTransport, hc_transport c)].

(** The inner loop of [validate_no_overlap], [right in left + 1 ..]. *)
Fixpoint overlap_with (el : HeaderKind * HeaderRange)
    (rest : list (HeaderKind * HeaderRange)) : result ConfigError () :=
  match rest with
  | [] => Ok ()
  | er :: rest' =>
      if HeaderRange_overlaps el.2 er.2
      then Err (HeaderRangesOverlap el.1 er.1)
      else overlap_with el rest'
  end.

(** The outer loop, [left in 0 ..]. *)
Fixpoint no_overlap (entries : list (HeaderKind * HeaderRange)) : result ConfigError () :=
  match entries with
  | [] => Ok ()
  | el :: rest => _ ← overlap_with el rest; no_overlap rest
  end.

Definition HeaderConfig_validate_no_overlap (c : HeaderConfig) : result ConfigError () :=
  no_overlap (HeaderConfig_entries c).

Definition HeaderConfig_validate (c : HeaderConfig) : result ConfigError () :=
  HeaderConfig_validate_no_overlap c.

Definition HeaderConfig_new (init response cookie transport : HeaderRange)
    : result ConfigError HeaderConfig :=
  let config := mkHeaderConfig init response cookie transport in
  _ ← HeaderConfig_validate_no_overlap config; Ok config.

(** ** S1-S4 *)
Record PaddingConfig := mkPaddingConfig { s1 : Z; s2 : Z; s3 : Z; s4 : Z }.

#[export] Instance PaddingConfig_eq_dec : EqDecision PaddingConfig.
Proof. solve_decision. Defined.

Definition PaddingConfig_default : PaddingConfig := mkPaddingConfig 0 0 0 0.
Definition PaddingConfig_validate (c : PaddingConfig) : result ConfigError () := Ok ().
Definition PaddingConfig_new (a b c d : Z) : result ConfigError PaddingConfig :=
  let config := mkPaddingConfig a b c d in
  _ ← PaddingConfig_validate config; Ok config.

(** ** Junk *)
Record JunkConfig := mkJunkConfig { junk_count : Z; junk_min : Z; junk_max : Z }.

#[export] Instance JunkConfig_eq_dec : EqDecision JunkConfig.
Proof. solve_decision. Defined.

Definition JunkConfig_disabled : JunkConfig := mkJunkConfig 0 0 0.

Definition JunkConfig_validate (c : JunkConfig) : result ConfigError () :=
  if junk_count c =? 0 then Ok ()
  else if junk_max c <? junk_min c then Err (JunkMinExceedsMax (junk_min c) (junk_max c))
  else Ok ().

Definition JunkConfig_new (count min_size max_size : Z) : result ConfigError JunkConfig :=
  let config := mkJunkConfig count min_size max_size in
  _ ← JunkConfig_validate config; Ok config.

Definition JunkConfig_validate_for_mtu (c : JunkConfig) (mtu : Z) : result ConfigError () :=
  _ ← JunkConfig_validate c;
  if (0 <? junk_count c) && (mtu <? junk_max c)
  then Err (JunkExceedsMtu (junk_max c) mtu) else Ok ().

Fixpoint junk_loop `{RandomSource R} (c : JunkConfig) (n : nat) (g : R)
    : list bytes * R :=
  match n with
  | O => ([], g)
  | S n' =>
      let '(size, g) :=
        if junk_max c <=? junk_min c then (junk_min c, g)
        else gen_range_u16 (junk_min c) (junk_max c - 1) g in
      let '(buf, g) := fill_bytes (Z.to_nat size) g in
      let '(packets, g) := junk_loop c n' g in
      (buf :: packets, g)
  end.

Definition JunkConfig_generate_junk_packets `{RandomSource R} (c : JunkConfig) (g : R)
    : list bytes * R :=
  if junk_count c =? 0 then ([], g) else junk_loop c (Z.to_nat (junk_count c)) g.

(** ** AWG 3.0 ranges *)
Definition AWG3_DEFAULT_MTU : Z := 1420.
Definition AWG31_DEFAULT_UDP_WINDOW : Z := 500.
Definition HEADER_PROTECTION_MIN_PADDING : Z := 12.

Record U32Range := mkU32Range { lo : Z; hi : Z }.

#[export] Instance U32Range_eq_dec : EqDecision U32Range.
Proof. solve_decision. Defined.

Definition U32Range_zero : U32Range := mkU32Range 0 0.

Definition U32Range_new (l h : Z) : result ConfigError U32Range :=
  if h <? l then
    Err (InvalidRange (print_dec l ++ bs "-" ++ print_dec h)
           "range end is smaller than start")
  else Ok (mkU32Range l h).

Definition parse_range_part (input : bytes) (part : option bytes) : result ConfigError Z :=
  let part := trim (default [] part) in
  if decide (part = []) then Err (InvalidRange input "empty range bound")
  else map_err (λ _, InvalidRange input "expected decimal digits") (parse_u32 part).

Definition U32Range_parse (input : bytes) : result ConfigError U32Range :=
  let input := trim input in
  if decide (input = []) then Err (InvalidRange input "empty value") else
  let parts := split 45 input in
  l ← parse_range_part input (parts !! 0%nat);
  h ← match parts !! 1%nat with
      | Some part => parse_range_part input (Some part)
      | None => Ok l
      end;
  match parts !! 2%nat with
  | Some _ => Err (InvalidRange input "expected `value` or `start-end`")
  | None => U32Range_new l h
  end.

Definition U32Range_is_zero (r : U32Range) : bool := (lo r =? 0) && (hi r =? 0).

Definition U32Range_validate (r : U32Range) (field : string) : result ConfigError () :=
  if hi r <? lo r then
    Err (InvalidRange (bs field ++ bs "=" ++ print_dec (lo r) ++ bs "-" ++ print_dec (hi r))
           "range end is smaller than start")
  else Ok ().

Definition U32Range_generate `{RandomSource R} (r : U32Range) (g : R) : Z * R :=
  gen_range_u32 (lo r) (hi r) g.

Definition U32Range_pick_or `{RandomSource R} (r : U32Range) (d : Z) (g : R) : Z * R :=
  if U32Range_is_zero r then (d, g) else U32Range_generate r g.

Definition U32Range_lo_or (r : U32Range) (d : Z) : Z :=
  if U32Range_is_zero r then d else lo r.
Definition U32Range_hi_or (r : U32Range) (d : Z) : Z :=
  if U32Range_is_zero r then d else hi r.

Definition U32Range_display (r : U32Range) : bytes :=
  if lo r =? hi r then print_dec (lo r)
  else print_dec (lo r) ++ bs "-" ++ print_dec (hi r).

(** [random_trailer_len]. *)
Definition random_trailer_len `{RandomSource R} (packet_size : nat) (udp_window : Z) (g : R)
    : nat * R :=
  match checked_sub (Z.to_nat udp_window) packet_size with
  | Some space =>
      if decide (0 < space)%nat then
        let '(v, g) := gen_range_u32 0 (Z.of_nat space - 1) g in (Z.to_nat v, g)
      else (O, g)
  | None => (O, g)
  end.

Record TimingRanges := mkTimingRanges {
  rekey_after_time : U32Range;
  rekey_timeout : U32Range;
  reject_after_time : U32Range;
  keepalive_timeout : U32Range;
  max_handshake_attempts : U32Range;
  persistent_keepalive : U32Range
}.

#[export] Instance TimingRanges_eq_dec : EqDecision TimingRanges.
Proof. solve_decision. Defined.

Definition TimingRanges_default : TimingRanges :=
  mkTimingRanges U32Range_zero U32Range_zero U32Range_zero U32Range_zero
    U32Range_zero U32Range_zero.

Definition TimingRanges_validate (t : TimingRanges) : result ConfigError () :=
  _ ← U32Range_validate (rekey_after_time t) "rekey_after_time";
  _ ← U32Range_validate (rekey_timeout t) "rekey_timeout";
  _ ← U32Range_validate (reject_after_time t) "reject_after_time";
  _ ← U32Range_validate (keepalive_timeout t) "keepalive_timeout";
  _ ← U32Range_validate (max_handshake_attempts t) "max_handshake_attempts";
  U32Range_validate (persistent_keepalive t) "persistent_keepalive".

Definition TimingRanges_is_zero (t : TimingRanges) : bool :=
  U32Range_is_zero (rekey_after_time t) && U32Range_is_zero (rekey_timeout t)
  && U32Range_is_zero (reject_after_time t) && U32Range_is_zero (keepalive_timeout t)
  && U32Range_is_zero (max_handshake_attempts t)
  && U32Range_is_zero (persistent_keepalive t).

(** ** Header protection *)
Definition HEADER_PROTECTION_KEY_SIZE : nat := 32.
Definition HEADER_PROTECTION_NONCE_SIZE : nat := 12.

Record HeaderProtection := mkHeaderProtection { hp_key : bytes }.

#[export] Instance HeaderProtection_eq_dec : EqDecision HeaderProtection.
Proof. solve_decision. Defined.

(** [HeaderProtection::apply]: the nonce is [prefix[..12]]. *)
Definition HeaderProtection_apply `{ChaCha20} {E} (hp : HeaderProtection)
    (prefix message : bytes) : result E bytes :=
  nonce ← slice_chk prefix 0 HEADER_PROTECTION_NONCE_SIZE;
  Ok (xor_into message (chacha_keystream (hp_key hp) nonce (length message))).

Definition HeaderProtection_peek_type `{ChaCha20} {E} (hp : HeaderProtection)
    (prefix type_bytes : bytes) : result E Z :=
  buf ← HeaderProtection_apply hp prefix type_bytes; Ok (from_le buf).

Definition HeaderProtection_keystream `{ChaCha20} {E} (n : nat) (hp : HeaderProtection)
    (prefix : bytes) : result E bytes :=
  HeaderProtection_apply hp prefix (replicate n 0).

Definition HeaderProtection_type_mask `{ChaCha20} {E} (hp : HeaderProtection)
    (prefix : bytes) : result E bytes :=
  HeaderProtection_keystream 4 hp prefix.

(** ** Well-formed values *)
Definition range_ok (r : HeaderRange) : Prop :=
  u32_ok (hr_start r) ∧ u32_ok (hr_end r) ∧ hr_start r ≤ hr_end r.
Definition headers_ok (c : HeaderConfig) : Prop :=
  range_ok (hc_init c) ∧ range_ok (hc_response c) ∧
  range_ok (hc_cookie c) ∧ range_ok (hc_transport c).
Definition u32range_ok (r : U32Range) : Prop :=
  u32_ok (lo r) ∧ u32_ok (hi r) ∧ lo r ≤ hi r.

#[export] Instance range_ok_dec r : Decision (range_ok r).
Proof. unfold range_ok, u32_ok. apply _. Defined.
#[export] Instance headers_ok_dec c : Decision (headers_ok c).
Proof. unfold headers_ok. apply _. Defined.
#[export] Instance u32range_ok_dec r : Decision (u32range_ok r).
Proof. unfold u32range_ok, u32_ok. apply _. Defined.

(** The range a message kind uses. *)
Definition header_of (c : HeaderConfig) (k : HeaderKind) : HeaderRange :=
  match k with
  | HInit => hc_init c | HResponse => hc_response c
  | HCookie => hc_cookie c | HTransport => hc_transport c
  end.

Lemma overlaps_common r1 r2 :
  hr_start r1 ≤ hr_end r1 → hr_start r2 ≤ hr_end r2 →
  HeaderRange_overlaps r1 r2 = true ↔
  ∃ v, HeaderRange_contains r1 v = true ∧ HeaderRange_contains r2 v = true.
Proof.
  intros. unfold HeaderRange_overlaps, HeaderRange_contains. split.
  - intros. exists (hr_start r1 `max` hr_start r2). lia.
  - intros (v & ? & ?). lia.
Qed.

Lemma overlap_with_ok el rest :
  overlap_with el rest = Ok () ↔ Forall (λ er, HeaderRange_overlaps el.2 er.2 = false) rest.
Proof.
  induction rest as [|er rest IH]; cbn; [done|].
  rewrite Forall_cons_iff. destruct (HeaderRange_overlaps el.2 er.2); naive_solver.
Qed.

Lemma no_overlap_cons el rest :
  no_overlap (el :: rest) = Ok () ↔
  Forall (λ er, HeaderRange_overlaps el.2 er.2 = false) rest ∧ no_overlap rest = Ok ().
Proof.
  rewrite <- overlap_with_ok. cbn. rewrite bind_ok. split.
  - intros ([] & ? & ?). done.
  - intros [? ?]. by exists ().
Qed.

Lemma validate_headers_iff c :
  HeaderConfig_validate c = Ok () ↔
  ∀ k1 k2, k1 ≠ k2 → HeaderRange_overlaps (header_of c k1) (header_of c k2) = false.
Proof.
  assert (∀ a b, HeaderRange_overlaps a b = HeaderRange_overlaps b a) as Hsym
    by (intros; unfold HeaderRange_overlaps; apply andb_comm).
  unfold HeaderConfig_validate, HeaderConfig_validate_no_overlap, HeaderConfig_entries.
  rewrite !no_overlap_cons, !Forall_cons_iff. cbn. split.
  - intros ((?&?&?&_) & (?&?&_) & (?&_) & _) k1 k2 Hne.
    destruct k1, k2; cbn; try done; by rewrite Hsym.
  - intros H. split_and!; try done;
      first [ by apply (H HInit HResponse) | by apply (H HInit HCookie)
            | by apply (H HInit HTransport) | by apply (H HResponse HCookie)
            | by apply (H HResponse HTransport) | by apply (H HCookie HTransport) ].
Qed.

Lemma headers_unambiguous c :
  headers_ok c →
  HeaderConfig_validate c = Ok () ↔
  ∀ v k1 k2,
    HeaderRange_contains (header_of c k1) v = true →
    HeaderRange_contains (header_of c k2) v = true → k1 = k2.
Proof.
  intros Hok. rewrite validate_headers_iff.
  assert (∀ k, hr_start (header_of c k) ≤ hr_end (header_of c k)) as Hr.
  { destruct Hok as ((?&?&?)&(?&?&?)&(?&?&?)&(?&?&?)). by intros []. }
  split.
  - intros H v k1 k2 H1 H2. destruct (decide (k1 = k2)) as [|Hne]; [done|].
    specialize (H k1 k2 Hne). apply not_true_iff_false in H. exfalso. apply H.
    apply overlaps_common; eauto.
  - intros H k1 k2 Hne. apply not_true_iff_false. intros (v & ? & ?)%overlaps_common; eauto.
Qed.

Lemma header_of_ok c k : headers_ok c → range_ok (header_of c k).
Proof. intros (?&?&?&?). by destruct k. Qed.

Lemma generate_contains `{RandomSource R} r (g : R) :
  range_ok r → rng_ok g → HeaderRange_contains r (HeaderRange_generate r g).1 = true.
Proof.
  intros (?&?&?) ?. unfold HeaderRange_generate, HeaderRange_contains.
  destruct (gen_range_u32_in (hr_start r) (hr_end r) g); [done..|]. lia.
Qed.

Lemma contains_u32 r v : range_ok r → HeaderRange_contains r v = true → u32_ok v.
Proof. intros (?&?&?). unfold HeaderRange_contains. widths. lia. Qed.

(** Validation of H1-H4 is exactly unambiguity: it accepts a configuration
    iff no type value lies in the ranges of two different message kinds. *)
Lemma validate_headers_unambiguous c :
  headers_ok c →
  HeaderConfig_validate c = Ok () ↔
  ∀ v k1 k2,
    HeaderRange_contains (header_of c k1) v = true →
    HeaderRange_contains (header_of c k2) v = true → k1 = k2.
Proof. apply headers_unambiguous. Qed.

(** A type field drawn for a message kind always lies in that kind's range,
    and so, under a validated configuration, in no other kind's. *)
Lemma generated_type_identifies_kind `{RandomSource R} c k k' (g : R) :
  headers_ok c → rng_ok g → HeaderConfig_validate c = Ok () →
  let v := (HeaderRange_generate (header_of c k) g).1 in
  HeaderRange_contains (header_of c k') v = true ↔ k' = k.
Proof.
  intros Hok Hg Hv v. pose proof (generate_contains _ g (header_of_ok c k Hok) Hg).
  split; [|by intros ->].
  intros Hin'. rewrite headers_unambiguous in Hv by done. by apply (Hv v).
Qed.

(** ** Text forms of the ranges *)
Lemma range_text_facts a b :
  0 ≤ a → 0 ≤ b →
  all_graphic (print_dec a ++ bs "-" ++ print_dec b) ∧
  (45 ∉ print_dec a) ∧ (45 ∉ print_dec b).
Proof.
  intros Ha Hb. split_and!.
  - apply Forall_app. split; [by apply print_dec_graphic|].
    constructor; [done|by apply print_dec_graphic].
  - apply digits_not_elem; [by apply print_dec_digits|]. unfold is_digit. lia.
  - apply digits_not_elem; [by apply print_dec_digits|]. unfold is_digit. lia.
Qed.

Lemma parse_u32_part_print input a :
  u32_ok a → parse_u32_part input (Some (print_dec a)) = Ok a.
Proof.
  intros Ha. unfold parse_u32_part. cbn.
  rewrite trim_all_graphic by (apply print_dec_graphic; width_lia).
  rewrite decide_False by apply print_dec_nonempty. by rewrite parse_u32_print.
Qed.

Lemma parse_range_part_print input a :
  u32_ok a → parse_range_part input (Some (print_dec a)) = Ok a.
Proof.
  intros Ha. unfold parse_range_part. cbn.
  rewrite trim_all_graphic by (apply print_dec_graphic; width_lia).
  rewrite decide_False by apply print_dec_nonempty. by rewrite parse_u32_print.
Qed.

(** Both parsers trim, then split on ['-']. *)
Lemma split_single a : u32_ok a → split 45 (print_dec a) = [print_dec a].
Proof. intros. apply split_none, (range_text_facts a a); width_lia. Qed.

Lemma split_pair a b :
  u32_ok a → u32_ok b →
  split 45 (print_dec a ++ bs "-" ++ print_dec b) = [print_dec a; print_dec b].
Proof.
  intros Ha Hb. destruct (range_text_facts a b) as (_ & Hna & Hnb); [width_lia..|].
  change (bs "-" ++ print_dec b) with (45 :: print_dec b).
  by rewrite split_app, split_none.
Qed.

Lemma pair_text_nonempty a b : print_dec a ++ bs "-" ++ print_dec b ≠ [].
Proof. by destruct (print_dec a). Qed.

Lemma HeaderRange_parse_display r :
  range_ok r → HeaderRange_parse (HeaderRange_display r) = Ok r.
Proof.
  intros (Hs & He & Hle). destruct r as [a b]. cbn in *.
  unfold HeaderRange_display, HeaderRange_parse. cbn [hr_start hr_end].
  destruct (Z.eqb_spec a b) as [->|Hne].
  - rewrite trim_all_graphic by (apply print_dec_graphic; width_lia).
    rewrite decide_False by apply print_dec_nonempty.
    rewrite split_single by done. cbn [lookup list_lookup].
    rewrite parse_u32_part_print by done. cbn.
    unfold HeaderRange_new. by ifs_lia.
  - rewrite trim_all_graphic by (apply (range_text_facts a b); width_lia).
    rewrite decide_False by apply pair_text_nonempty.
    rewrite split_pair by done. cbn [lookup list_lookup].
    rewrite !parse_u32_part_print by done. cbn.
    unfold HeaderRange_new. by ifs_lia.
Qed.

Lemma U32Range_parse_display r :
  u32range_ok r → U32Range_parse (U32Range_display r) = Ok r.
Proof.
  intros (Hs & He & Hle). destruct r as [a b]. cbn in *.
  unfold U32Range_display, U32Range_parse. cbn [lo hi].
  destruct (Z.eqb_spec a b) as [->|Hne].
  - rewrite trim_all_graphic by (apply print_dec_graphic; width_lia).
    rewrite decide_False by apply print_dec_nonempty.
    rewrite split_single by done. cbn [lookup list_lookup].
    rewrite parse_range_part_print by done. cbn.
    unfold U32Range_new. by ifs_lia.
  - rewrite trim_all_graphic by (apply (range_text_facts a b); width_lia).
    rewrite decide_False by apply pair_text_nonempty.
    rewrite split_pair by done. cbn [lookup list_lookup].
    rewrite !parse_range_part_print by done. cbn.
    unfold U32Range_new. by ifs_lia.
Qed.

Lemma parse_u32_part_ok input part a : parse_u32_part input part = Ok a → u32_ok a.
Proof.
  unfold parse_u32_part. destruct (decide _); [done|].
  intros H%map_err_ok. apply from_str_radix_range in H; width_lia.
Qed.
Lemma parse_range_part_ok input part a : parse_range_part input part = Ok a → u32_ok a.
Proof.
  unfold parse_range_part. destruct (decide _); [done|].
  intros H%map_err_ok. apply from_str_radix_range in H; width_lia.
Qed.

(** Whatever the parsers accept is well formed. *)
Lemma HeaderRange_parse_ok input r : HeaderRange_parse input = Ok r → range_ok r.
Proof.
  unfold HeaderRange_parse. destruct (decide _); [done|].
  intros (a & Ha%parse_u32_part_ok & H)%bind_ok.
  apply bind_ok in H as (b & Hb & H).
  assert (u32_ok b) by (destruct (split _ _ !! 1%nat);
    [by eapply parse_u32_part_ok|by injection Hb as <-]).
  destruct (split _ _ !! 2%nat); [done|]. apply map_err_ok in H.
  unfold HeaderRange_new in H. destruct (Z.ltb_spec b a); [done|].
  injection H as <-. done.
Qed.

Lemma U32Range_parse_ok input r : U32Range_parse input = Ok r → u32range_ok r.
Proof.
  unfold U32Range_parse. destruct (decide _); [done|].
  intros (a & Ha%parse_range_part_ok & H)%bind_ok.
  apply bind_ok in H as (b & Hb & H).
  assert (u32_ok b) by (destruct (split _ _ !! 1%nat);
    [by eapply parse_range_part_ok|by injection Hb as <-]).
  destruct (split _ _ !! 2%nat); [done|].
  unfold U32Range_new in H. destruct (Z.ltb_spec b a); [done|].
  injection H as <-. done.
Qed.

(** ** Draws *)
Lemma U32Range_pick_or_in `{RandomSource R} r d (g : R) :
  u32range_ok r → rng_ok g →
  let v := (U32Range_pick_or r d g).1 in
  if U32Range_is_zero r then v = d else lo r ≤ v ≤ hi r.
Proof.
  intros (?&?&?) Hg v. unfold v, U32Range_pick_or.
  destruct (U32Range_is_zero r); [done|]. by apply gen_range_u32_in.
Qed.

Lemma U32Range_pick_or_bounds `{RandomSource R} r d (g : R) :
  u32range_ok r → rng_ok g →
  U32Range_lo_or r d ≤ (U32Range_pick_or r d g).1 ≤ U32Range_hi_or r d ∧
  rng_ok (U32Range_pick_or r d g).2.
Proof.
  intros Hr Hg. pose proof (U32Range_pick_or_in r d g Hr Hg) as Hin. cbn zeta in Hin.
  unfold U32Range_lo_or, U32Range_hi_or. unfold U32Range_pick_or in *.
  destruct (U32Range_is_zero r); cbn; [split; [lia|done]|]. split; [done|].
  by apply gen_range_u32_inv.
Qed.

Lemma junk_loop_spec `{RandomSource R} c n (g : R) :
  rng_ok g → u16_ok (junk_min c) → u16_ok (junk_max c) → junk_min c ≤ junk_max c →
  length (junk_loop c n g).1 = n ∧
  Forall (λ p, bytes_ok p ∧ junk_min c ≤ Z.of_nat (length p) ∧
               (Z.of_nat (length p) < junk_max c ∨
                junk_min c = junk_max c ∧ Z.of_nat (length p) = junk_min c))
    (junk_loop c n g).1 ∧
  rng_ok (junk_loop c n g).2.
Proof.
  intros Hg H1 H2 H3. revert g Hg. induction n as [|n IH]; intros g Hg; cbn; [done|].
  set (d := if junk_max c <=? junk_min c then _ else _).
  assert (rng_ok d.2 ∧ junk_min c ≤ d.1 ∧
          (d.1 < junk_max c ∨ junk_min c = junk_max c ∧ d.1 = junk_min c)) as (Hg1 & Hd).
  { unfold d. destruct (Z.leb_spec (junk_max c) (junk_min c)); cbn; [split; [done|lia]|].
    split; [by apply gen_range_u16_inv|].
    destruct (gen_range_u16_in (junk_min c) (junk_max c - 1) g);
      [done..|width_lia|lia|lia]. }
  destruct d as [size g1]. cbn in *.
  pose proof (fill_bytes_length (Z.to_nat size) g1 Hg1) as Hl.
  pose proof (fill_bytes_ok (Z.to_nat size) g1 Hg1) as Hb.
  pose proof (fill_bytes_inv (Z.to_nat size) g1 Hg1) as Hi.
  destruct (fill_bytes (Z.to_nat size) g1) as [buf g2]. cbn in *.
  destruct (IH g2 Hi) as (Hlen & Hall & Hinv).
  destruct (junk_loop c n g2) as [ps g3]. cbn in *.
  split_and!; [lia| |done]. constructor; [|done]. split; [done|]. widths. lia.
Qed.

(** Junk generation emits exactly [Jc] datagrams, each sized in the
    half-open range [[Jmin, Jmax)], or exactly [Jmin] when the two are equal. *)
Lemma junk_packets_sizes `{RandomSource R} c (g : R) :
  rng_ok g → u16_ok (junk_count c) → u16_ok (junk_min c) → u16_ok (junk_max c) →
  JunkConfig_validate c = Ok () →
  let packets := (JunkConfig_generate_junk_packets c g).1 in
  Z.of_nat (length packets) = junk_count c ∧
  Forall (λ p, bytes_ok p ∧ junk_min c ≤ Z.of_nat (length p) ∧
               (Z.of_nat (length p) < junk_max c ∨
                junk_min c = junk_max c ∧ Z.of_nat (length p) = junk_min c)) packets.
Proof.
  intros Hg Hc H1 H2 Hv packets. unfold packets, JunkConfig_generate_junk_packets.
  unfold JunkConfig_validate in Hv.
  destruct (Z.eqb_spec (junk_count c) 0) as [->|Hne]; [done|].
  destruct (Z.ltb_spec (junk_max c) (junk_min c)); [done|].
  destruct (junk_loop_spec c (Z.to_nat (junk_count c)) g) as (-> & ? & _); try done.
  split; [width_lia|done].
Qed.

(** An AWG 3.1 trailer never carries a datagram to the UDP window: the
    datagram with its trailer stays strictly below the window, and a datagram
    that already fills the window gets none. *)
Lemma random_trailer_bound `{RandomSource R} size window (g : R) :
  rng_ok g → u32_ok window →
  let n := (random_trailer_len size window g).1 in
  (Z.of_nat size < window ∧ Z.of_nat (size + n) < window) ∨
  (window ≤ Z.of_nat size ∧ n = O).
Proof.
  intros Hg Hw n. unfold n, random_trailer_len, checked_sub. widths.
  destruct (decide (size ≤ Z.to_nat window)%nat); [|right; cbn; lia].
  destruct (decide (0 < Z.to_nat window - size)%nat); [left|right; cbn; lia].
  pose proof (gen_range_u32_in 0 (Z.of_nat (Z.to_nat window - size) - 1) g) as H'.
  destruct (gen_range_u32 _ _ g) as [v g']. cbn in *.
  destruct H'; [done|width_lia..|]. lia.
Qed.

(** ** Header protection *)
Lemma HeaderProtection_apply_eq `{ChaCha20} {E} hp prefix message :
  (HEADER_PROTECTION_NONCE_SIZE ≤ length prefix)%nat →
  HeaderProtection_apply (E := E) hp prefix message =
  Ok (xor_into message
        (chacha_keystream (hp_key hp) (take 12 prefix) (length message))).
Proof.
  intros Hl. unfold HeaderProtection_apply, slice_chk.
  rewrite decide_True by (split; [unfold HEADER_PROTECTION_NONCE_SIZE in *; lia|done]).
  cbn. unfold slice. by rewrite drop_0.
Qed.

Lemma HeaderProtection_keystream_eq `{ChaCha20} {E} n hp prefix :
  (HEADER_PROTECTION_NONCE_SIZE ≤ length prefix)%nat →
  HeaderProtection_keystream (E := E) n hp prefix =
  Ok (chacha_keystream (hp_key hp) (take 12 prefix) n).
Proof.
  intros Hl. unfold HeaderProtection_keystream.
  rewrite HeaderProtection_apply_eq by done. rewrite length_replicate. f_equal.
  generalize (chacha_keystream (hp_key hp) (take 12 prefix) n) as l,
    (length_chacha_keystream (hp_key hp) (take 12 prefix) n).
  intros l <-. induction l as [|b l IH]; [done|]. cbn [length replicate].
  by rewrite xor_into_cons, Z.lxor_0_l, IH.
Qed.

(** Protecting a message and removing the protection with the same prefix
    are inverse; without 12 prefix bytes the call panics. *)
Lemma header_protection_involutive `{ChaCha20} (hp : HeaderProtection) prefix message :
  (x ← HeaderProtection_apply (E := ConfigError) hp prefix message;
   HeaderProtection_apply hp prefix x) =
  (if decide (12 ≤ length prefix)%nat then Ok message else Panic).
Proof.
  destruct (decide (12 ≤ length prefix)%nat).
  - rewrite HeaderProtection_apply_eq by done. cbn [mbind result_bind].
    rewrite HeaderProtection_apply_eq by done. len.
    by rewrite xor_into_involutive.
  - unfold HeaderProtection_apply, slice_chk.
    rewrite decide_False; [done|]. unfold HEADER_PROTECTION_NONCE_SIZE. lia.
Qed.
