(* ===== verification/Cps.v ===== *)
(** * Cps: custom protocol signature chains (I1-I5)

    Models the CPS part of [awgtun/src/amnezia.rs]: the tags, their lengths, the
    chain generator, the parser and the printer.  The base64 engine (crate
    [base64]) is the class [Base64] of [Codec]; the system clock is the argument [now],
    the reading each tag of the chain would take. *)

From Stdlib Require Import ZArith Lia.
From stdpp Require Import base list option strings sets tactics.
From S2P Require Import Prelude Text Random Codec Amnezia.
Open Scope Z_scope.

Definition AWG2_MAX_CPS_RANDOM_LEN : Z := u16_max.

Inductive CpsTag :=
  | Bytes (b : bytes)
  | Timestamp
  | RandomBytes (len : Z)
  | RandomChars (len : Z)
  | RandomDigits (len : Z)
  | Data
  | DataString
  | DataSize (len : Z).

#[export] Instance CpsTag_eq_dec : EqDecision CpsTag.
Proof. solve_decision. Defined.

Record CpsChain := mkChain { tags : list CpsTag }.

#[export] Instance CpsChain_eq_dec : EqDecision CpsChain.
Proof. solve_decision. Defined.

(** ** Generation *)
Definition CpsTag_encoded_len (t : CpsTag) (data_len : nat) : nat :=
  match t with
  | Bytes b => length b
  | Timestamp => 4
  | RandomBytes len | RandomChars len | RandomDigits len => Z.to_nat len
  | Data => data_len
  | DataString => if decide (data_len = O) then O else base64_len data_len
  | DataSize len => Z.to_nat len
  end.

Definition CpsChain_encoded_len (c : CpsChain) (data_len : nat) : nat :=
  sum_list (map (λ t, CpsTag_encoded_len t data_len) (tags c)).

Definition CpsChain_encoded_len_for_init (c : CpsChain) : nat := CpsChain_encoded_len c 0.

Definition ALPHA : bytes := bs "abcdefghijklmnopqrstuvwxyzABCDEFGHIJKLMNOPQRSTUVWXYZ".

Fixpoint random_chars `{RandomSource R} (n : nat) (g : R) : bytes * R :=
  match n with
  | O => ([], g)
  | S n' =>
      let '(idx, g) := gen_range_u32 0 (Z.of_nat (length ALPHA) - 1) g in
      let '(rest, g) := random_chars n' g in
      (nth (Z.to_nat idx) ALPHA 0 :: rest, g)
  end.

Fixpoint random_digits `{RandomSource R} (n : nat) (g : R) : bytes * R :=
  match n with
  | O => ([], g)
  | S n' =>
      let '(d, g) := gen_range_u32 0 9 g in
      let '(rest, g) := random_digits n' g in
      (48 + wrap 8 d :: rest, g)
  end.

Section generate.
Context `{B64 : Base64} `{RS : RandomSource R}.

(** [CpsTag::generate]: writes at [offset], returns the bytes written. *)
Definition CpsTag_generate (t : CpsTag) (now : Z) (data out : bytes) (offset : nat) (g : R)
    : result ConfigError (nat * bytes * R) :=
  match t with
  | Bytes b => out ← write_at out offset b; Ok (length b, out, g)
  | Timestamp => out ← write_at out offset (to_be 4 (wrap 32 now)); Ok (4%nat, out, g)
  | RandomBytes len =>
      let '(b, g) := fill_bytes (Z.to_nat len) g in
      out ← write_at out offset b; Ok (Z.to_nat len, out, g)
  | RandomChars len =>
      let '(b, g) := random_chars (Z.to_nat len) g in
      out ← write_at out offset b; Ok (Z.to_nat len, out, g)
  | RandomDigits len =>
      let '(b, g) := random_digits (Z.to_nat len) g in
      out ← write_at out offset b; Ok (Z.to_nat len, out, g)
  | Data => out ← write_at out offset data; Ok (length data, out, g)
  | DataString =>
      if decide (data = []) then Ok (O, out, g) else
      let b := b64_encode data in
      out ← write_at out offset b; Ok (length b, out, g)
  | DataSize len =>
      let be := to_be 8 (Z.of_nat (length data)) in
      (* [8 - len] leaves the type, or the slice its bounds *)
      start ← ok_or_panic (checked_sub 8 (Z.to_nat len));
      out ← write_at out offset (drop start be); Ok (Z.to_nat len, out, g)
  end.

Fixpoint generate_tags (ts : list CpsTag) (i : nat) (now : nat → Z) (data out : bytes)
    (offset : nat) (g : R) : result ConfigError (bytes * R) :=
  match ts with
  | [] => Ok (out, g)
  | t :: ts' =>
      '(n, out, g) ← CpsTag_generate t (now i) data out offset g;
      generate_tags ts' (S i) now data out (offset + n) g
  end.

(** [CpsChain::generate]; [now i] is the clock reading of the [i]th tag. *)
Definition CpsChain_generate (c : CpsChain) (now : nat → Z) (data : bytes) (g : R)
    : result ConfigError (bytes * R) :=
  let total := CpsChain_encoded_len c (length data) in
  generate_tags (tags c) 0 now data (replicate total 0) 0 g.

Definition CpsChain_generate_for_init (c : CpsChain) (now : nat → Z) (g : R)
    : result ConfigError (bytes * R) :=
  CpsChain_generate c now [] g.
End generate.

(** ** Parser *)
Definition reject_arg (tag : string) (arg : option bytes) : result ConfigError () :=
  match arg with
  | Some _ => Err (InvalidCps (bs "<" ++ bs tag ++ bs "> does not take an argument"))
  | None => Ok ()
  end.

(** The [for idx in (0..hex.len()).step_by(2)] loop of [parse_bytes_tag]. *)
Fixpoint parse_hex_pairs (n : nat) (hex : bytes) (idx : nat) : result ConfigError bytes :=
  match n with
  | O => Ok []
  | S n' =>
      pair ← str_slice hex idx (idx + 2);
      byte ← map_err (λ _, InvalidCps (bs "<b> contains non-hex data"))
               (from_str_radix 16 u8_max pair);
      rest ← parse_hex_pairs n' hex (idx + 2);
      Ok (byte :: rest)
  end.

Definition parse_bytes_tag (arg : option bytes) : result ConfigError CpsTag :=
  arg ← ok_or (InvalidCps (bs "<b> requires a 0x-prefixed hex argument")) arg;
  hex ← ok_or (InvalidCps (bs "<b> requires a 0x-prefixed hex argument"))
          (strip_prefix (bs "0x") arg);
  if decide (hex = []) then Err (InvalidCps (bs "<b> hex data is empty"))
  else if decide (length hex mod 2 ≠ 0)%nat
  then Err (InvalidCps (bs "<b> hex data must contain full bytes"))
  else
    b ← parse_hex_pairs (length hex / 2) hex 0; Ok (Bytes b).

Definition parse_len_tag (tag : string) (arg : option bytes) : result ConfigError Z :=
  arg ← ok_or (InvalidCps (bs "<" ++ bs tag ++ bs "> requires a length argument")) arg;
  len ← map_err (λ _, InvalidCps
                   (bs "<" ++ bs tag ++ bs "> length must be a non-negative integer"))
          (parse_u64 arg);
  if AWG2_MAX_CPS_RANDOM_LEN <? len
  then Err (CpsValueOutOfRange tag len AWG2_MAX_CPS_RANDOM_LEN)
  else Ok len.

Definition parse_cps_tag (tag : bytes) : result ConfigError CpsTag :=
  let parts := split_whitespace tag in
  name ← ok_or (InvalidCps (bs "empty tag")) (parts !! 0%nat);
  let arg := parts !! 1%nat in
  match parts !! 2%nat with
  | Some _ => Err (InvalidCps (bs "<" ++ name ++ bs "> has too many arguments"))
  | None =>
      if decide (name = bs "b") then parse_bytes_tag arg
      else if decide (name = bs "t") then _ ← reject_arg "t" arg; Ok Timestamp
      else if decide (name = bs "r") then len ← parse_len_tag "r" arg; Ok (RandomBytes len)
      else if decide (name = bs "rc") then len ← parse_len_tag "rc" arg; Ok (RandomChars len)
      else if decide (name = bs "rd") then len ← parse_len_tag "rd" arg; Ok (RandomDigits len)
      else if decide (name = bs "d") then _ ← reject_arg "d" arg; Ok Data
      else if decide (name = bs "ds") then _ ← reject_arg "ds" arg; Ok DataString
      else if decide (name = bs "dz") then len ← parse_len_tag "dz" arg; Ok (DataSize len)
      else Err (UnsupportedCpsTag name)
  end.

(** [CpsParser::skip_whitespace]: the new offset; the caller tests it against
    the input's length. *)
Fixpoint white_run (s : bytes) : nat :=
  match s with
  | b :: s' => if is_ascii_whitespace b then S (white_run s') else O
  | [] => O
  end.
Definition skip_whitespace (input : bytes) (offset : nat) : nat :=
  offset + white_run (drop offset input).

(** [CpsParser::consume_byte]. *)
Definition consume_byte (input : bytes) (offset : nat) (expected : Z)
    : result ConfigError nat :=
  match input !! offset with
  | Some actual =>
      if actual =? expected then Ok (S offset)
      else Err (InvalidCps (bs "expected `" ++ [expected] ++ bs "` at byte "
                              ++ print_dec (Z.of_nat offset)))
  | None =>
      Err (InvalidCps (bs "expected `" ++ [expected] ++ bs "` at byte "
                         ++ print_dec (Z.of_nat offset)))
  end.

(** The loop of [CpsParser::parse].  An iteration consumes at least the ['<']
    and the ['>'], so the input's length bounds the number of iterations; see
    [cps_loop_fuel]. *)
Fixpoint cps_loop (fuel : nat) (input : bytes) (offset : nat)
    : result ConfigError (list CpsTag) :=
  match fuel with
  | O => Ok []
  | S fuel' =>
      let offset := skip_whitespace input offset in
      if decide (offset < length input)%nat then
        tag_start ← consume_byte input offset 60;
        len ← ok_or (InvalidCps (bs "missing closing `>`")) (find 62 (drop tag_start input));
        let tag_end := (len + tag_start)%nat in
        tag ← parse_cps_tag (trim (slice input tag_start tag_end));
        rest ← cps_loop fuel' input (S tag_end);
        Ok (tag :: rest)
      else Ok []
  end.

(** [CpsParser::parse], which is [CpsChain::parse]. *)
Definition CpsChain_parse (input : bytes) : result ConfigError CpsChain :=
  ts ← cps_loop (S (length input)) input 0;
  match ts with
  | [] => Err (InvalidCps (bs "empty chain"))
  | _ => Ok (mkChain ts)
  end.

(** ** Printer *)
Definition CpsTag_display (t : CpsTag) : bytes :=
  match t with
  | Bytes b => bs "<b 0x" ++ print_hex b ++ bs ">"
  | Timestamp => bs "<t>"
  | RandomBytes len => bs "<r " ++ print_dec len ++ bs ">"
  | RandomChars len => bs "<rc " ++ print_dec len ++ bs ">"
  | RandomDigits len => bs "<rd " ++ print_dec len ++ bs ">"
  | Data => bs "<d>"
  | DataString => bs "<ds>"
  | DataSize len => bs "<dz " ++ print_dec len ++ bs ">"
  end.

Definition CpsChain_display (c : CpsChain) : bytes := flat_map CpsTag_display (tags c).

(** ** Well-formed chains *)
Definition tag_ok (t : CpsTag) : Prop :=
  match t with
  | Bytes b => b ≠ [] ∧ bytes_ok b
  | Timestamp | Data | DataString => True
  | RandomBytes len | RandomChars len | RandomDigits len | DataSize len =>
      0 ≤ len ≤ AWG2_MAX_CPS_RANDOM_LEN
  end.
Definition chain_ok (c : CpsChain) : Prop := tags c ≠ [] ∧ Forall tag_ok (tags c).

(** What a parser may return: the parsed value, or an error, but no panic. *)
Lemma parse_hex_pairs_ok n hex idx l :
  parse_hex_pairs n hex idx = Ok l → length l = n ∧ bytes_ok l.
Proof.
  revert idx l. induction n as [|n IH]; intros idx l; cbn.
  - intros [= <-]. by split; [|constructor].
  - intros (pr & _ & (b & Hb & (r & Hr & [= <-])%bind_ok)%bind_ok)%bind_ok.
    apply map_err_ok, from_str_radix_range in Hb; [|widths; lia..].
    apply IH in Hr as [<- Hr]. split; [done|]. constructor; [widths; lia|done].
Qed.

Lemma parse_bytes_tag_ok arg t : parse_bytes_tag arg = Ok t → tag_ok t.
Proof.
  unfold parse_bytes_tag. intros (a & _ & (hex & _ & H)%bind_ok)%bind_ok.
  destruct (decide (hex = [])) as [|Hne]; [done|].
  destruct (decide _) as [|Hev]; [done|].
  apply bind_ok in H as (b & Hb & [= <-]). apply parse_hex_pairs_ok in Hb as [Hl Hb].
  split; [|done]. intros ->. cbn [length] in Hl.
  assert (length hex ≠ 0)%nat by (by destruct hex).
  pose proof (Nat.div_mod (length hex) 2). lia.
Qed.

Lemma parse_len_tag_ok tag arg n :
  parse_len_tag tag arg = Ok n → 0 ≤ n ≤ AWG2_MAX_CPS_RANDOM_LEN.
Proof.
  unfold parse_len_tag. intros (a & _ & (m & Hm & H)%bind_ok)%bind_ok.
  apply map_err_ok, from_str_radix_range in Hm; [|widths; lia..].
  destruct (Z.ltb_spec AWG2_MAX_CPS_RANDOM_LEN m); [done|]. injection H as <-. lia.
Qed.

Lemma parse_cps_tag_ok s t : parse_cps_tag s = Ok t → tag_ok t.
Proof.
  unfold parse_cps_tag. intros (name & _ & H)%bind_ok.
  destruct (split_whitespace s !! 2%nat); [done|].
  repeat (destruct (decide _); [first
    [ by eapply parse_bytes_tag_ok
    | by apply bind_ok in H as (? & _ & [= <-])
    | apply bind_ok in H as (? & ?%parse_len_tag_ok & [= <-]); done ]|]).
  done.
Qed.

Lemma cps_loop_ok fuel input offset ts :
  cps_loop fuel input offset = Ok ts → Forall tag_ok ts.
Proof.
  revert offset ts. induction fuel as [|fuel IH]; intros offset ts; cbn [cps_loop].
  - intros [= <-]. constructor.
  - destruct (decide _); [|intros [= <-]; constructor].
    intros (st & _ & (n & _ & (t & Ht & (r & Hr & [= <-])%bind_ok)%bind_ok)%bind_ok)%bind_ok.
    constructor; [by eapply parse_cps_tag_ok|by eapply IH].
Qed.

Lemma CpsChain_parse_ok s c : CpsChain_parse s = Ok c → chain_ok c.
Proof.
  unfold CpsChain_parse. intros (ts & Hts%cps_loop_ok & H)%bind_ok.
  destruct ts as [|t ts]; [done|]. by injection H as <-.
Qed.

(** ** Fuel: any bound above the remaining input gives the same result *)
Lemma consume_byte_ok input offset c st :
  consume_byte input offset c = Ok st → st = S offset ∧ input !! offset = Some c.
Proof.
  unfold consume_byte. destruct (input !! offset) as [a|]; [|done].
  destruct (Z.eqb_spec a c) as [->|]; [|done]. by intros [= <-].
Qed.

Lemma cps_loop_fuel f1 f2 input offset :
  (length input - offset < f1)%nat → (length input - offset < f2)%nat →
  cps_loop f1 input offset = cps_loop f2 input offset.
Proof.
  revert f2 offset. induction f1 as [|f1 IH]; intros [|f2] offset H1 H2; try lia.
  cbn [cps_loop]. destruct (decide _) as [Hlt|]; [|done].
  assert (offset ≤ skip_whitespace input offset)%nat by (unfold skip_whitespace; lia).
  set (o := skip_whitespace input offset) in *.
  destruct (consume_byte input o 60) as [st|e|] eqn:Hc; [|done..].
  apply consume_byte_ok in Hc as [-> _]. cbn.
  destruct (find 62 _) as [n|] eqn:Hf; cbn; [|done].
  destruct (parse_cps_tag _) as [t|e|]; cbn; [|done..].
  by rewrite (IH f2 (S (n + S o))) by lia.
Qed.

(** ** Parsing what was printed *)
Definition tag_body (t : CpsTag) : bytes :=
  match t with
  | Bytes b => bs "b" ++ 32 :: bs "0x" ++ print_hex b
  | Timestamp => bs "t"
  | RandomBytes len => bs "r" ++ 32 :: print_dec len
  | RandomChars len => bs "rc" ++ 32 :: print_dec len
  | RandomDigits len => bs "rd" ++ 32 :: print_dec len
  | Data => bs "d"
  | DataString => bs "ds"
  | DataSize len => bs "dz" ++ 32 :: print_dec len
  end.

Lemma CpsTag_display_body t : CpsTag_display t = 60 :: tag_body t ++ [62].
Proof. destruct t; cbn; rewrite ?app_nil_r; done. Qed.

Lemma print_hex_not_elem l c :
  bytes_ok l → ¬ is_digit c → ¬ (97 ≤ c ≤ 102) → c ∉ print_hex l.
Proof.
  intros Hl Hd Hx. induction Hl as [|b l Hb Hl IH]; [apply not_elem_of_nil|].
  cbn [print_hex flat_map]. fold (print_hex l). unfold print_hex2. cbn [app].
  destruct (u8_nibbles b Hb) as [H1 H2].
  pose proof (hex_digit_range _ H1). pose proof (hex_digit_range _ H2).
  rewrite !not_elem_of_cons. unfold is_digit in *. repeat split; [lia..|done].
Qed.

Lemma literal_not_elem c s : bool_decide (c ∉ bs s) = true → c ∉ bs s.
Proof. apply bool_decide_eq_true_1. Qed.

Lemma arg_not_elem name c q :
  bool_decide (c ∉ bs name) = true → c ≠ 32 → c ∉ q → c ∉ bs name ++ 32 :: q.
Proof.
  intros Hn%literal_not_elem Hc Hq. rewrite not_elem_of_app, not_elem_of_cons. auto.
Qed.

Lemma tag_body_closed t : tag_ok t → 62 ∉ tag_body t.
Proof.
  destruct t as [b| |n|n|n| | |n]; cbn [tag_ok tag_body]; intros Ht;
    first [by apply literal_not_elem | apply arg_not_elem; [done|lia|]].
  1: { apply not_elem_of_app. split; [by apply literal_not_elem|].
       apply print_hex_not_elem; [apply Ht|unfold is_digit; lia|lia]. }
  all: apply digits_not_elem; [apply print_dec_digits; lia|unfold is_digit; lia].
Qed.

Lemma slice_cons2 {A} (l r : list A) (a b : A) :
  slice (l ++ [a; b] ++ r) (length l) (length l + 2) = [a; b].
Proof. by apply slice_app_mid. Qed.

Lemma parse_hex_pairs_print pre b :
  all_graphic pre → bytes_ok b →
  parse_hex_pairs (length b) (pre ++ print_hex b) (length pre) = Ok b.
Proof.
  intros Hp Hb. revert pre Hp. induction Hb as [|x b Hx Hb IH]; intros pre Hp; [done|].
  cbn [parse_hex_pairs length print_hex flat_map]. fold (print_hex b).
  assert (all_graphic (pre ++ print_hex2 x)) as Hp'.
  { apply Forall_app. split; [done|]. destruct (u8_nibbles x Hx).
    repeat constructor; by apply hex_digit_graphic. }
  rewrite str_slice_graphic.
  - unfold print_hex2 at 2. rewrite slice_cons2. fold (print_hex2 x). cbn [mbind result_bind].
    rewrite parse_hex2 by done. cbn [map_err].
    replace (length pre + 2)%nat with (length (pre ++ print_hex2 x)) by (len; done).
    rewrite app_assoc. cbn. by rewrite IH.
  - rewrite app_assoc. apply Forall_app. split; [done|by apply print_hex_graphic].
  - len. unfold print_hex2. cbn. lia.
Qed.

Lemma parse_bytes_tag_print b :
  b ≠ [] → bytes_ok b → parse_bytes_tag (Some (bs "0x" ++ print_hex b)) = Ok (Bytes b).
Proof.
  intros Hne Hb. unfold parse_bytes_tag. cbn [ok_or mbind result_bind].
  unfold strip_prefix. rewrite decide_True by done.
  rewrite drop_app_exact by done. cbn [ok_or mbind result_bind].
  pose proof (length_print_hex b) as Hl. rewrite Hl.
  rewrite decide_False by (intros E; rewrite E in Hl; by destruct b).
  rewrite decide_False by (rewrite Nat.mul_comm, Nat.Div0.mod_mul; lia).
  rewrite Nat.mul_comm, Nat.div_mul by lia.
  pose proof (parse_hex_pairs_print [] b) as H. cbn [app length] in H.
  by rewrite H by (done || constructor).
Qed.

Lemma parse_len_tag_print tag n :
  0 ≤ n ≤ AWG2_MAX_CPS_RANDOM_LEN → parse_len_tag tag (Some (print_dec n)) = Ok n.
Proof.
  unfold AWG2_MAX_CPS_RANDOM_LEN. intros Hn. unfold parse_len_tag. cbn [ok_or mbind result_bind].
  unfold parse_u64. rewrite from_str_radix_print by (widths; lia). cbn.
  unfold AWG2_MAX_CPS_RANDOM_LEN. by ifs_lia.
Qed.

Lemma literal_graphic s : forallb graphic (bs s) = true → all_graphic (bs s).
Proof.
  intros H%Is_true_true%forallb_True.
  eapply Forall_impl; [|exact H]. by intros ? ?%Is_true_true.
Qed.

Lemma parse_cps_tag_body t : tag_ok t → parse_cps_tag (trim (tag_body t)) = Ok t.
Proof.
  assert (∀ s q, forallb graphic (bs s) = true → bs s ≠ [] → q ≠ [] → all_graphic q →
    split_whitespace (trim (bs s ++ 32 :: q)) = [bs s; q]) as Harg.
  { intros s q Hs%literal_graphic Hn Hq Hg.
    destruct (exists_last Hq) as (q' & c & ->). destruct (bs s) as [|b p] eqn:E; [done|].
    assert (graphic b = true) by by inversion Hs.
    assert (graphic c = true) by (apply Forall_app in Hg as [_ Hg]; by inversion Hg).
    replace ((b :: p) ++ 32 :: q' ++ [c]) with (b :: (p ++ 32 :: q') ++ [c])
      by by rewrite <- app_comm_cons, <- app_assoc.
    rewrite trim_graphic_ends by done. rewrite <- app_assoc.
    by apply (split_whitespace_pair (b :: p)). }
  intros Ht. unfold parse_cps_tag. destruct t as [b| |n|n|n| | |n]; cbn [tag_ok tag_body] in *;
    try reflexivity; rewrite Harg; try done; try (by apply print_dec_nonempty);
    try (apply print_dec_graphic; lia).
  all: try (cbn [lookup list_lookup ok_or mbind result_bind];
    repeat (rewrite decide_False by done); rewrite decide_True by done;
    by rewrite parse_len_tag_print).
  - cbn [lookup list_lookup ok_or mbind result_bind]. rewrite decide_True by done.
    destruct Ht. by apply parse_bytes_tag_print.
  - apply Forall_app. destruct Ht. split; [by apply literal_graphic|by apply print_hex_graphic].
Qed.

Lemma cps_loop_display fuel pre ts :
  (length ts < fuel)%nat → Forall tag_ok ts →
  cps_loop fuel (pre ++ flat_map CpsTag_display ts) (length pre) = Ok ts.
Proof.
  revert fuel pre. induction ts as [|t ts IH]; intros [|fuel] pre Hf Hts; cbn in Hf; try lia.
  - cbn [cps_loop flat_map]. unfold skip_whitespace. rewrite app_nil_r, drop_all. cbn.
    by rewrite decide_False by lia.
  - apply Forall_cons_iff in Hts as [Ht Hts]. cbn [cps_loop flat_map].
    set (input := pre ++ CpsTag_display t ++ flat_map CpsTag_display ts).
    assert (input = pre ++ 60 :: tag_body t ++ 62 :: flat_map CpsTag_display ts) as Hin.
    { unfold input. by rewrite CpsTag_display_body, <- app_comm_cons, <- app_assoc. }
    assert (skip_whitespace input (length pre) = length pre) as ->.
    { unfold skip_whitespace. rewrite Hin, drop_app_length. cbn. lia. }
    rewrite decide_True by (rewrite Hin; len; lia).
    unfold consume_byte.
    replace (input !! length pre) with (Some 60) by by rewrite Hin, list_lookup_middle.
    cbn [mbind result_bind Z.eqb Pos.eqb].
    assert (drop (S (length pre)) input = tag_body t ++ 62 :: flat_map CpsTag_display ts) as Hd.
    { rewrite Hin, cons_middle, app_assoc. apply drop_app_exact. len. lia. }
    rewrite Hd, find_app by by apply tag_body_closed. cbn [ok_or mbind result_bind].
    unfold slice. rewrite Hd, take_app_exact by lia.
    rewrite parse_cps_tag_body by done. cbn [mbind result_bind].
    replace (S (length (tag_body t) + S (length pre)))%nat
      with (length (pre ++ CpsTag_display t)) by (rewrite CpsTag_display_body; len; lia).
    unfold input. rewrite app_assoc. by rewrite IH by (done || lia).
Qed.

Lemma length_display_tags ts : (length ts ≤ length (flat_map CpsTag_display ts))%nat.
Proof.
  induction ts as [|t ts IH]; cbn [flat_map length]; [done|].
  rewrite length_app, CpsTag_display_body. cbn [length]. lia.
Qed.

Lemma CpsChain_parse_display c : chain_ok c → CpsChain_parse (CpsChain_display c) = Ok c.
Proof.
  intros [Hne Hts]. unfold CpsChain_parse, CpsChain_display.
  rewrite (cps_loop_display _ [] (tags c)); [|pose proof (length_display_tags (tags c)); lia|done].
  cbn. destruct c as [[|t ts]]; done.
Qed.

(** The printed form of a chain parses back to that chain, for every
    chain the parser itself can return (and the parser returns only such
    chains): [CpsChain::parse] and its [Display] are inverse. *)
Lemma cps_roundtrip s c :
  CpsChain_parse s = Ok c →
  chain_ok c ∧ CpsChain_parse (CpsChain_display c) = Ok c.
Proof. intros H%CpsChain_parse_ok. split; [done|by apply CpsChain_parse_display]. Qed.

(** ** What a chain emits *)

(** The bytes [seg] are an output of tag [t] for payload [data] at time [now]. *)
Definition tag_emits (t : CpsTag) (now : Z) (data seg : bytes) : Prop :=
  match t with
  | Bytes b => seg = b
  | Timestamp => seg = to_be 4 (wrap 32 now)
  | RandomBytes len => length seg = Z.to_nat len ∧ bytes_ok seg
  | RandomChars len => length seg = Z.to_nat len ∧ Forall (.∈ ALPHA) seg
  | RandomDigits len => length seg = Z.to_nat len ∧ Forall is_digit seg
  | Data => seg = data
  | DataString => seg = [] ∧ data = [] ∨ length seg = base64_len (length data) ∧ data ≠ []
  | DataSize len =>
      length seg = Z.to_nat len ∧
      from_be seg = Z.of_nat (length data) mod 256 ^ len
  end.

(** The tags whose generation cannot leave its buffers. *)
Definition tag_sized (t : CpsTag) : Prop :=
  match t with DataSize len => 0 ≤ len ≤ 8 | _ => True end.

Lemma length_ALPHA : length ALPHA = 52%nat.
Proof. done. Qed.

Lemma random_chars_spec `{RandomSource R} n (g : R) :
  rng_ok g → length (random_chars n g).1 = n ∧
  Forall (.∈ ALPHA) (random_chars n g).1 ∧ rng_ok (random_chars n g).2.
Proof.
  revert g. induction n as [|n IH]; intros g Hg; [done|]. cbn [random_chars].
  rewrite length_ALPHA. change (Z.of_nat 52 - 1) with 51.
  pose proof (gen_range_u32_in 0 51 g) as Hin.
  pose proof (gen_range_u32_inv 0 51 g Hg) as Hinv.
  destruct (gen_range_u32 _ _ g) as [idx g']. cbn [fst snd] in *.
  specialize (IH g' Hinv) as (Hl & Hall & Hok). destruct (random_chars n g') as [r g''].
  cbn [fst snd] in *. split; [cbn; by rewrite Hl|]. split; [|done]. constructor; [|done].
  apply list_elem_of_In, nth_In. rewrite length_ALPHA. specialize (Hin Hg). widths. lia.
Qed.

Lemma random_digits_spec `{RandomSource R} n (g : R) :
  rng_ok g → length (random_digits n g).1 = n ∧
  Forall is_digit (random_digits n g).1 ∧ rng_ok (random_digits n g).2.
Proof.
  revert g. induction n as [|n IH]; intros g Hg; [done|]. cbn [random_digits].
  pose proof (gen_range_u32_in 0 9 g) as Hin.
  pose proof (gen_range_u32_inv 0 9 g Hg) as Hinv.
  destruct (gen_range_u32 _ _ g) as [d g']. cbn in *.
  specialize (IH g' Hinv) as (Hl & Hall & Hok). destruct (random_digits n g') as [r g''].
  cbn in *. split; [by rewrite Hl|]. split; [|done]. constructor; [|done].
  specialize (Hin Hg). rewrite wrap_small; unfold is_digit; widths; lia.
Qed.

Section emits.
Context `{B64 : Base64} `{RS : RandomSource R}.

Lemma CpsTag_generate_emits t now data pre suf (g : R) :
  tag_ok t → tag_sized t → rng_ok g → 
  ∃ seg g',
    CpsTag_generate t now data
      (pre ++ replicate (CpsTag_encoded_len t (length data)) 0 ++ suf) (length pre) g =
    Ok (CpsTag_encoded_len t (length data), pre ++ seg ++ suf, g') ∧
    tag_emits t now data seg ∧
    length seg = CpsTag_encoded_len t (length data) ∧ rng_ok g'.
Proof.
  intros Ht Hs Hg.
  destruct t as [b| |n|n|n| | |n]; cbn [CpsTag_generate CpsTag_encoded_len tag_emits tag_ok
    tag_sized] in *.
  - exists b, g. by rewrite write_at_app by (len; done).
  - exists (to_be 4 (wrap 32 now)), g. by rewrite write_at_app by (len; done).
  - pose proof (fill_bytes_length (Z.to_nat n) g Hg) as Hl.
    pose proof (fill_bytes_ok (Z.to_nat n) g Hg). pose proof (fill_bytes_inv (Z.to_nat n) g Hg).
    destruct (fill_bytes _ g) as [b g']. cbn [fst snd] in *. exists b, g'.
    by rewrite write_at_app by (len; done).
  - pose proof (random_chars_spec (Z.to_nat n) g Hg) as (Hl & ? & ?).
    destruct (random_chars _ g) as [b g']. cbn [fst snd] in *. exists b, g'.
    by rewrite write_at_app by (len; done).
  - pose proof (random_digits_spec (Z.to_nat n) g Hg) as (Hl & ? & ?).
    destruct (random_digits _ g) as [b g']. cbn [fst snd] in *. exists b, g'.
    by rewrite write_at_app by (len; done).
  - exists data, g. by rewrite write_at_app by (len; done).
  - destruct (decide (data = [])) as [->|Hd].
    + exists [], g. cbn. split; [done|]. split; [by left|done].
    + rewrite decide_False by by destruct data.
      exists (b64_encode data), g.
      rewrite write_at_app by (rewrite ?b64_encode_length; len; done). cbn.
      rewrite b64_encode_length. auto.
  - exists (drop (8 - Z.to_nat n) (to_be 8 (Z.of_nat (length data)))), g.
    unfold checked_sub. rewrite decide_True by lia. cbn [ok_or_panic mbind result_bind].
    rewrite drop_to_be by lia. replace (8 - (8 - Z.to_nat n))%nat with (Z.to_nat n) by lia.
    rewrite write_at_app by (len; lia). cbn. rewrite length_to_be, from_to_be, Z2Nat.id by lia.
    done.
Qed.

(** The segments of a chain, in order, one per tag. *)
Inductive chain_emits (now : nat → Z) (data : bytes) : nat → list CpsTag → bytes → Prop :=
  | emits_nil i : chain_emits now data i [] []
  | emits_cons i t ts seg rest :
      tag_emits t (now i) data seg →
      length seg = CpsTag_encoded_len t (length data) →
      chain_emits now data (S i) ts rest →
      chain_emits now data i (t :: ts) (seg ++ rest).

Lemma generate_tags_emits ts i now data pre (g : R) :
  Forall tag_ok ts → Forall tag_sized ts → rng_ok g →
  ∃ out g',
    generate_tags ts i now data
      (pre ++ replicate (sum_list (map (λ t, CpsTag_encoded_len t (length data)) ts)) 0)
      (length pre) g = Ok (pre ++ out, g') ∧
    chain_emits now data i ts out ∧ rng_ok g'.
Proof.
  intros Hok. revert i pre g. induction Hok as [|t ts Ht Hts IH]; intros i pre g Hs Hg.
  - exists [], g. cbn. split; [done|]. split; [constructor|done].
  - apply Forall_cons_iff in Hs as [Hst Hs]. cbn [map sum_list generate_tags].
    rewrite replicate_add.
    edestruct (CpsTag_generate_emits t (now i) data pre) as (seg & g1 & E & He & Hl & Hg1);
      [done..|]. rewrite E. cbn [mbind result_bind].
    destruct (IH (S i) (pre ++ seg) g1 Hs Hg1) as (out & g2 & E2 & He2 & Hg2).
    rewrite length_app, Hl, <- app_assoc in E2. rewrite E2.
    exists (seg ++ out), g2. rewrite <- app_assoc. split; [done|].
    split; [by constructor|done].
Qed.
End emits.

(** [CpsChain::generate] on a chain the parser accepted, whose [<dz>] tags
    ask for at most eight bytes, never panics: it returns the concatenation of
    one segment per tag, in tag order, each the literal bytes, the big-endian
    timestamp, random bytes, letters or digits of the requested count, the
    payload, or the payload's length in network order modulo the field. *)
Lemma cps_generate_segments `{Base64} `{RandomSource R} s c now data (g : R) :
  CpsChain_parse s = Ok c → Forall tag_sized (tags c) → rng_ok g →
  ∃ out g', CpsChain_generate c now data g = Ok (out, g') ∧
    chain_emits now data 0 (tags c) out ∧ rng_ok g'.
Proof.
  intros [_ Hc]%CpsChain_parse_ok Hs Hg. unfold CpsChain_generate.
  exact (generate_tags_emits (tags c) 0 now data [] g Hc Hs Hg).
Qed.

(** A [<dz n>] tag with [n] from 9 to 65535 is accepted by the parser, but
    generating from it always panics: [8 - len] underflows. *)
Lemma cps_datasize_panics `{Base64} `{RandomSource R} n ts now data (g : R) :
  8 < n ≤ AWG2_MAX_CPS_RANDOM_LEN →
  CpsChain_parse (CpsTag_display (DataSize n)) = Ok (mkChain [DataSize n]) ∧
  CpsChain_generate (mkChain (DataSize n :: ts)) now data g = Panic.
Proof.
  intros Hn. split.
  - pose proof (CpsChain_parse_display (mkChain [DataSize n])) as Hp.
    unfold CpsChain_display in Hp. cbn [flat_map tags] in Hp. rewrite app_nil_r in Hp.
    apply Hp. split; [done|]. repeat constructor; cbn; lia.
  - unfold CpsChain_generate. cbn [tags generate_tags CpsTag_generate].
    unfold checked_sub. by rewrite decide_False by lia.
Qed.

(** Text that is not ASCII can panic the parser instead of being rejected:
    [parse_bytes_tag] slices the argument at byte offsets, which panics inside
    a multi-byte character.  A [+] is also taken as a hexadecimal digit, as the
    sign of the pair it starts. *)
Lemma cps_hex_panics :
  CpsChain_parse (bs "<b 0x" ++ [0xE2; 0x82; 0xAC] ++ bs "a>") = Panic ∧
  CpsChain_parse (bs "<b 0x+1>") = Ok (mkChain [Bytes [1]]).
Proof. vm_compute. auto. Qed.
