(* ===== verification/Config.v ===== *)
(** * Config: the aggregate AmneziaWG configuration

    Models [InitPacketConfig], [Amnezia3Config] and [Amnezia2Config] of
    [awgtun/src/amnezia.rs]: defaults, validation, the line parser of the UAPI
    block, its printer, and the overlay that [device::api] performs with the
    two.  Shown: whatever parses is a valid configuration in canonical form;
    printing it and parsing the block gives it back; and an incremental
    [set=1] acts as the new lines applied to the live configuration. *)

From Stdlib Require Import ZArith Lia.
From stdpp Require Import base list option strings sets tactics.
From S2P Require Import Prelude Text Random Codec Amnezia Cps.
Open Scope Z_scope.

(** ** I1-I5 *)
Record InitPacketConfig := mkInitPackets {
  i1 : option CpsChain; i2 : option CpsChain; i3 : option CpsChain;
  i4 : option CpsChain; i5 : option CpsChain
}.

#[export] Instance InitPacketConfig_eq_dec : EqDecision InitPacketConfig.
Proof. solve_decision. Defined.

Definition InitPacketConfig_default : InitPacketConfig := mkInitPackets None None None None None.
Definition InitPacketConfig_validate (c : InitPacketConfig) : result ConfigError () := Ok ().
Definition InitPacketConfig_chains (c : InitPacketConfig) : list (option CpsChain) :=
  [i1 c; i2 c; i3 c; i4 c; i5 c].
Definition InitPacketConfig_active_chains (c : InitPacketConfig) : list CpsChain :=
  omap id (InitPacketConfig_chains c).

(** ** AWG 3.x *)
Record Amnezia3Config := mkConfig {
  junk : JunkConfig;
  paddings : PaddingConfig;
  headers : HeaderConfig;
  init_packets : InitPacketConfig;
  header_protection_key : option bytes;
  content_padding_addition : option U32Range;
  timing_ranges : TimingRanges;
  random_trailers : bool;
  disable_cookies : bool;
  mtu : Z
}.

#[export] Instance Amnezia3Config_eq_dec : EqDecision Amnezia3Config.
Proof. solve_decision. Defined.

Definition Amnezia3Config_default : Amnezia3Config :=
  mkConfig JunkConfig_disabled PaddingConfig_default HeaderConfig_wireguard_compatible
    InitPacketConfig_default None None TimingRanges_default false false AWG3_DEFAULT_MTU.
Definition Amnezia3Config_wireguard_compatible : Amnezia3Config := Amnezia3Config_default.

(** ** AWG 2.0 *)
Record Amnezia2Config := mkConfig2 {
  junk2 : JunkConfig;
  paddings2 : PaddingConfig;
  headers2 : HeaderConfig;
  init_packets2 : InitPacketConfig
}.

#[export] Instance Amnezia2Config_eq_dec : EqDecision Amnezia2Config.
Proof. solve_decision. Defined.

Definition Amnezia2Config_default : Amnezia2Config :=
  mkConfig2 JunkConfig_disabled PaddingConfig_default HeaderConfig_wireguard_compatible
    InitPacketConfig_default.

Definition Amnezia2Config_validate (c : Amnezia2Config) : result ConfigError () :=
  _ ← JunkConfig_validate (junk2 c);
  _ ← PaddingConfig_validate (paddings2 c);
  _ ← InitPacketConfig_validate (init_packets2 c);
  HeaderConfig_validate (headers2 c).

Definition Amnezia2Config_validate_for_mtu (c : Amnezia2Config) (effective_outer_mtu : Z)
    : result ConfigError () :=
  _ ← Amnezia2Config_validate c;
  JunkConfig_validate_for_mtu (junk2 c) effective_outer_mtu.

Definition Amnezia2Config_is_wireguard_compatible (c : Amnezia2Config) : bool :=
  bool_decide (junk2 c = JunkConfig_disabled)
  && bool_decide (paddings2 c = PaddingConfig_default)
  && bool_decide (headers2 c = HeaderConfig_wireguard_compatible)
  && bool_decide (init_packets2 c = InitPacketConfig_default).

Definition awg2_fields : list string :=
  ["jc"; "jmin"; "jmax"; "s1"; "s2"; "s3"; "s4"; "h1"; "h2"; "h3"; "h4";
   "i1"; "i2"; "i3"; "i4"; "i5"]%string.

Definition Amnezia2Config_validate_field_name (field : bytes) : result ConfigError () :=
  if decide (to_ascii_lowercase field ∈ map bs awg2_fields) then Ok ()
  else Err (UnsupportedLegacyField field).

Definition Amnezia3Config_from_amnezia2 (c : Amnezia2Config) : Amnezia3Config :=
  mkConfig (junk2 c) (paddings2 c) (headers2 c) (init_packets2 c)
    None None TimingRanges_default false false AWG3_DEFAULT_MTU.

(** ** Validation *)
Fixpoint validate_min_paddings (fields : list (PaddingKind * Z)) : result ConfigError () :=
  match fields with
  | [] => Ok ()
  | (field, value) :: rest =>
      if value <? HEADER_PROTECTION_MIN_PADDING
      then Err (HeaderProtectionPaddingTooSmall field value HEADER_PROTECTION_MIN_PADDING)
      else validate_min_paddings rest
  end.

Definition Amnezia3Config_validate (c : Amnezia3Config) : result ConfigError () :=
  _ ← JunkConfig_validate (junk c);
  _ ← PaddingConfig_validate (paddings c);
  _ ← InitPacketConfig_validate (init_packets c);
  _ ← HeaderConfig_validate (headers c);
  _ ← match content_padding_addition c with
      | Some range => U32Range_validate range "content_padding_addition"
      | None => Ok ()
      end;
  _ ← TimingRanges_validate (timing_ranges c);
  match header_protection_key c with
  | Some _ =>
      validate_min_paddings
        [(PInit, s1 (paddings c)); (PResponse, s2 (paddings c));
         (PCookie, s3 (paddings c)); (PTransport, s4 (paddings c))]
  | None => Ok ()
  end.

Definition Amnezia3Config_header_protection (c : Amnezia3Config) : option HeaderProtection :=
  mkHeaderProtection <$> header_protection_key c.

(** ** Field values *)
Definition parse_field_bool (field value : bytes) : result ConfigError bool :=
  if decide (value ∈ map bs ["1"; "t"; "T"; "true"; "TRUE"; "True"; "on"; "ON"; "On"]%string)
  then Ok true
  else if decide
    (value ∈ map bs ["0"; "f"; "F"; "false"; "FALSE"; "False"; "off"; "OFF"; "Off"]%string)
  then Ok false
  else Err (InvalidFieldValue field "expected a boolean (0/1, true/false, on/off)").

Definition parse_field_u16 (field value : bytes) : result ConfigError Z :=
  map_err (λ _, InvalidFieldValue field "expected a decimal value in 0-65535") (parse_u16 value).

Definition parse_field_u32 (field value : bytes) : result ConfigError Z :=
  map_err (λ _, InvalidFieldValue field "expected a decimal value") (parse_u32 value).

Definition parse_header_protection_key `{Hex} (value : bytes) : result ConfigError bytes :=
  key ← ok_or (InvalidFieldValue (bs "header_protection_key") "expected hex characters")
          (hex_decode value);
  if decide (length key = HEADER_PROTECTION_KEY_SIZE) then Ok key
  else Err (InvalidFieldValue (bs "header_protection_key")
              "expected exactly 32 bytes (64 hex characters)").

(** ** The line parser *)

(** The locals of [Amnezia3Config::parse] across the lines. *)
Record parse_state := mkPS {
  config : Amnezia3Config;
  ps_headers : HeaderConfig;
  saw_header : bool
}.

Definition parse_init : parse_state :=
  mkPS Amnezia3Config_default HeaderConfig_wireguard_compatible false.

Definition upd (f : Amnezia3Config → Amnezia3Config) (st : parse_state) : parse_state :=
  mkPS (f (config st)) (ps_headers st) (saw_header st).
Definition upd_headers (f : HeaderConfig → HeaderConfig) (st : parse_state) : parse_state :=
  mkPS (config st) (f (ps_headers st)) true.

Definition set_junk (f : JunkConfig → JunkConfig) (c : Amnezia3Config) : Amnezia3Config :=
  mkConfig (f (junk c)) (paddings c) (headers c) (init_packets c) (header_protection_key c)
    (content_padding_addition c) (timing_ranges c) (random_trailers c) (disable_cookies c) (mtu c).
Definition set_paddings (f : PaddingConfig → PaddingConfig) (c : Amnezia3Config) : Amnezia3Config :=
  mkConfig (junk c) (f (paddings c)) (headers c) (init_packets c) (header_protection_key c)
    (content_padding_addition c) (timing_ranges c) (random_trailers c) (disable_cookies c) (mtu c).
Definition set_headers (h : HeaderConfig) (c : Amnezia3Config) : Amnezia3Config :=
  mkConfig (junk c) (paddings c) h (init_packets c) (header_protection_key c)
    (content_padding_addition c) (timing_ranges c) (random_trailers c) (disable_cookies c) (mtu c).
Definition set_init_packets (f : InitPacketConfig → InitPacketConfig) (c : Amnezia3Config)
    : Amnezia3Config :=
  mkConfig (junk c) (paddings c) (headers c) (f (init_packets c)) (header_protection_key c)
    (content_padding_addition c) (timing_ranges c) (random_trailers c) (disable_cookies c) (mtu c).
Definition set_header_protection_key (k : option bytes) (c : Amnezia3Config) : Amnezia3Config :=
  mkConfig (junk c) (paddings c) (headers c) (init_packets c) k
    (content_padding_addition c) (timing_ranges c) (random_trailers c) (disable_cookies c) (mtu c).
Definition set_content_padding_addition (r : option U32Range) (c : Amnezia3Config)
    : Amnezia3Config :=
  mkConfig (junk c) (paddings c) (headers c) (init_packets c) (header_protection_key c)
    r (timing_ranges c) (random_trailers c) (disable_cookies c) (mtu c).
Definition set_timing_ranges (f : TimingRanges → TimingRanges) (c : Amnezia3Config)
    : Amnezia3Config :=
  mkConfig (junk c) (paddings c) (headers c) (init_packets c) (header_protection_key c)
    (content_padding_addition c) (f (timing_ranges c)) (random_trailers c) (disable_cookies c)
    (mtu c).
Definition set_random_trailers (b : bool) (c : Amnezia3Config) : Amnezia3Config :=
  mkConfig (junk c) (paddings c) (headers c) (init_packets c) (header_protection_key c)
    (content_padding_addition c) (timing_ranges c) b (disable_cookies c) (mtu c).
Definition set_disable_cookies (b : bool) (c : Amnezia3Config) : Amnezia3Config :=
  mkConfig (junk c) (paddings c) (headers c) (init_packets c) (header_protection_key c)
    (content_padding_addition c) (timing_ranges c) (random_trailers c) b (mtu c).
Definition set_mtu (m : Z) (c : Amnezia3Config) : Amnezia3Config :=
  mkConfig (junk c) (paddings c) (headers c) (init_packets c) (header_protection_key c)
    (content_padding_addition c) (timing_ranges c) (random_trailers c) (disable_cookies c) m.

(** The arms of the [match key.as_str()]. *)
Inductive config_key :=
  | Kjc | Kjmin | Kjmax | Ks1 | Ks2 | Ks3 | Ks4 | Kh1 | Kh2 | Kh3 | Kh4
  | Ki1 | Ki2 | Ki3 | Ki4 | Ki5
  | Kheader_protection_key | Kcontent_padding_addition
  | Krekey_after_time | Krekey_timeout | Kreject_after_time | Kkeepalive_timeout
  | Kmax_handshake_attempts | Kpersistent_keepalive_interval
  | Krandom_trailers | Kdisable_cookies | Kmtu.

Definition key_table : list (string * config_key) :=
  [("jc", Kjc); ("jmin", Kjmin); ("jmax", Kjmax);
   ("s1", Ks1); ("s2", Ks2); ("s3", Ks3); ("s4", Ks4);
   ("h1", Kh1); ("h2", Kh2); ("h3", Kh3); ("h4", Kh4);
   ("i1", Ki1); ("i2", Ki2); ("i3", Ki3); ("i4", Ki4); ("i5", Ki5);
   ("header_protection_key", Kheader_protection_key);
   ("content_padding_addition", Kcontent_padding_addition);
   ("rekey_after_time", Krekey_after_time); ("rekey_timeout", Krekey_timeout);
   ("reject_after_time", Kreject_after_time); ("keepalive_timeout", Kkeepalive_timeout);
   ("max_handshake_attempts", Kmax_handshake_attempts);
   ("persistent_keepalive_interval", Kpersistent_keepalive_interval);
   ("random_trailers", Krandom_trailers); ("disable_cookies", Kdisable_cookies);
   ("mtu", Kmtu)]%string.

Definition key_of (key : bytes) : option config_key :=
  snd <$> List.find (λ e, bool_decide (bs e.1 = key)) key_table.

Section parser.
Context `{HX : Hex}.

Definition parse_field (k : config_key) (key value : bytes) (st : parse_state)
    : result ConfigError parse_state :=
  match k with
  | Kjc => v ← parse_field_u16 key value;
      Ok (upd (set_junk (λ j, mkJunkConfig v (junk_min j) (junk_max j))) st)
  | Kjmin => v ← parse_field_u16 key value;
      Ok (upd (set_junk (λ j, mkJunkConfig (junk_count j) v (junk_max j))) st)
  | Kjmax => v ← parse_field_u16 key value;
      Ok (upd (set_junk (λ j, mkJunkConfig (junk_count j) (junk_min j) v)) st)
  | Ks1 => v ← parse_field_u16 key value;
      Ok (upd (set_paddings (λ p, mkPaddingConfig v (s2 p) (s3 p) (s4 p))) st)
  | Ks2 => v ← parse_field_u16 key value;
      Ok (upd (set_paddings (λ p, mkPaddingConfig (s1 p) v (s3 p) (s4 p))) st)
  | Ks3 => v ← parse_field_u16 key value;
      Ok (upd (set_paddings (λ p, mkPaddingConfig (s1 p) (s2 p) v (s4 p))) st)
  | Ks4 => v ← parse_field_u16 key value;
      Ok (upd (set_paddings (λ p, mkPaddingConfig (s1 p) (s2 p) (s3 p) v)) st)
  | Kh1 => r ← HeaderRange_parse value;
      Ok (upd_headers (λ h, mkHeaderConfig r (hc_response h) (hc_cookie h) (hc_transport h)) st)
  | Kh2 => r ← HeaderRange_parse value;
      Ok (upd_headers (λ h, mkHeaderConfig (hc_init h) r (hc_cookie h) (hc_transport h)) st)
  | Kh3 => r ← HeaderRange_parse value;
      Ok (upd_headers (λ h, mkHeaderConfig (hc_init h) (hc_response h) r (hc_transport h)) st)
  | Kh4 => r ← HeaderRange_parse value;
      Ok (upd_headers (λ h, mkHeaderConfig (hc_init h) (hc_response h) (hc_cookie h) r) st)
  | Ki1 => c ← CpsChain_parse value;
      Ok (upd (set_init_packets (λ i, mkInitPackets (Some c) (i2 i) (i3 i) (i4 i) (i5 i))) st)
  | Ki2 => c ← CpsChain_parse value;
      Ok (upd (set_init_packets (λ i, mkInitPackets (i1 i) (Some c) (i3 i) (i4 i) (i5 i))) st)
  | Ki3 => c ← CpsChain_parse value;
      Ok (upd (set_init_packets (λ i, mkInitPackets (i1 i) (i2 i) (Some c) (i4 i) (i5 i))) st)
  | Ki4 => c ← CpsChain_parse value;
      Ok (upd (set_init_packets (λ i, mkInitPackets (i1 i) (i2 i) (i3 i) (Some c) (i5 i))) st)
  | Ki5 => c ← CpsChain_parse value;
      Ok (upd (set_init_packets (λ i, mkInitPackets (i1 i) (i2 i) (i3 i) (i4 i) (Some c))) st)
  | Kheader_protection_key => k ← parse_header_protection_key value;
      (* an all-zero key means "disabled" *)
      Ok (upd (set_header_protection_key (if forallb (Z.eqb 0) k then None else Some k)) st)
  | Kcontent_padding_addition => r ← U32Range_parse value;
      Ok (upd (set_content_padding_addition (if U32Range_is_zero r then None else Some r)) st)
  | Krekey_after_time => r ← U32Range_parse value;
      Ok (upd (set_timing_ranges (λ t, mkTimingRanges r (rekey_timeout t) (reject_after_time t)
        (keepalive_timeout t) (max_handshake_attempts t) (persistent_keepalive t))) st)
  | Krekey_timeout => r ← U32Range_parse value;
      Ok (upd (set_timing_ranges (λ t, mkTimingRanges (rekey_after_time t) r (reject_after_time t)
        (keepalive_timeout t) (max_handshake_attempts t) (persistent_keepalive t))) st)
  | Kreject_after_time => r ← U32Range_parse value;
      Ok (upd (set_timing_ranges (λ t, mkTimingRanges (rekey_after_time t) (rekey_timeout t) r
        (keepalive_timeout t) (max_handshake_attempts t) (persistent_keepalive t))) st)
  | Kkeepalive_timeout => r ← U32Range_parse value;
      Ok (upd (set_timing_ranges (λ t, mkTimingRanges (rekey_after_time t) (rekey_timeout t)
        (reject_after_time t) r (max_handshake_attempts t) (persistent_keepalive t))) st)
  | Kmax_handshake_attempts => r ← U32Range_parse value;
      Ok (upd (set_timing_ranges (λ t, mkTimingRanges (rekey_after_time t) (rekey_timeout t)
        (reject_after_time t) (keepalive_timeout t) r (persistent_keepalive t))) st)
  | Kpersistent_keepalive_interval => r ← U32Range_parse value;
      Ok (upd (set_timing_ranges (λ t, mkTimingRanges (rekey_after_time t) (rekey_timeout t)
        (reject_after_time t) (keepalive_timeout t) (max_handshake_attempts t) r)) st)
  | Krandom_trailers => b ← parse_field_bool key value; Ok (upd (set_random_trailers b) st)
  | Kdisable_cookies => b ← parse_field_bool key value; Ok (upd (set_disable_cookies b) st)
  | Kmtu => m ← parse_field_u32 key value; Ok (upd (set_mtu m) st)
  end.

(** One iteration of the loop over [input.lines()]. *)
Definition parse_line (raw_line : bytes) (st : parse_state) : result ConfigError parse_state :=
  let line := trim raw_line in
  if bool_decide (line = []) || bool_decide (head line = Some 35) then Ok st else
  '(key, value) ← ok_or (InvalidConfigLine line "expected `key=value`") (split_once 61 line);
  let key := to_ascii_lowercase (trim key) in
  let value := trim value in
  match key_of key with
  | Some k => parse_field k key value st
  | None =>
      _ ← Amnezia2Config_validate_field_name key; Err (UnsupportedLegacyField key)
  end.

Fixpoint parse_lines (ls : list bytes) (st : parse_state) : result ConfigError parse_state :=
  match ls with
  | [] => Ok st
  | l :: ls' => st ← parse_line l st; parse_lines ls' st
  end.

(** What [parse] does after the loop. *)
Definition parse_finish (st : parse_state) : result ConfigError Amnezia3Config :=
  let h := ps_headers st in
  c ← (if saw_header st
       then h' ← HeaderConfig_new (hc_init h) (hc_response h) (hc_cookie h) (hc_transport h);
            Ok (set_headers h' (config st))
       else Ok (config st));
  _ ← Amnezia3Config_validate c;
  Ok c.

Definition Amnezia3Config_parse (input : bytes) : result ConfigError Amnezia3Config :=
  st ← parse_lines (lines input) parse_init; parse_finish st.
End parser.

(** ** The printer: the [writeln!]s of [to_uapi_block], in order *)
Section printer.
Context (c : Amnezia3Config).
Let d := Amnezia3Config_default.

Definition junk_lines : list (string * bytes) :=
  if decide (junk c = junk d) then [] else
  [("jc", print_dec (junk_count (junk c))); ("jmin", print_dec (junk_min (junk c)));
   ("jmax", print_dec (junk_max (junk c)))]%string.

Definition padding_lines : list (string * bytes) :=
  flat_map (λ '(key, value, fallback),
    if (value : Z) =? fallback then [] else [(key, print_dec value)])
    [("s1", s1 (paddings c), s1 (paddings d)); ("s2", s2 (paddings c), s2 (paddings d));
     ("s3", s3 (paddings c), s3 (paddings d)); ("s4", s4 (paddings c), s4 (paddings d))]%string.

Definition header_lines : list (string * bytes) :=
  if decide (headers c = headers d) then [] else
  [("h1", HeaderRange_display (hc_init (headers c)));
   ("h2", HeaderRange_display (hc_response (headers c)));
   ("h3", HeaderRange_display (hc_cookie (headers c)));
   ("h4", HeaderRange_display (hc_transport (headers c)))]%string.

Definition init_packet_lines : list (string * bytes) :=
  flat_map (λ '(key, chain),
    match chain with Some ch => [(key, CpsChain_display ch)] | None => [] end)
    [("i1", i1 (init_packets c)); ("i2", i2 (init_packets c)); ("i3", i3 (init_packets c));
     ("i4", i4 (init_packets c)); ("i5", i5 (init_packets c))]%string.

Definition key_lines : list (string * bytes) :=
  match header_protection_key c with
  | Some key => [("header_protection_key"%string, print_hex key)]
  | None => []
  end.

Definition addition_lines : list (string * bytes) :=
  match content_padding_addition c with
  | Some range => [("content_padding_addition"%string, U32Range_display range)]
  | None => []
  end.

Definition timing_lines : list (string * bytes) :=
  flat_map (λ '(key, range),
    if U32Range_is_zero range then [] else [(key, U32Range_display range)])
    [("rekey_after_time", rekey_after_time (timing_ranges c));
     ("rekey_timeout", rekey_timeout (timing_ranges c));
     ("reject_after_time", reject_after_time (timing_ranges c));
     ("keepalive_timeout", keepalive_timeout (timing_ranges c));
     ("max_handshake_attempts", max_handshake_attempts (timing_ranges c));
     ("persistent_keepalive_interval", persistent_keepalive (timing_ranges c))]%string.

Definition flag_lines : list (string * bytes) :=
  flat_map (λ '(key, value, fallback),
    if eqb value fallback then [] else [(key, print_dec (if (value : bool) then 1 else 0))])
    [("random_trailers", random_trailers c, random_trailers d);
     ("disable_cookies", disable_cookies c, disable_cookies d)]%string.

Definition mtu_lines : list (string * bytes) :=
  if mtu c =? mtu d then [] else [("mtu"%string, print_dec (mtu c))].

Definition to_uapi_lines : list (string * bytes) :=
  junk_lines ++ padding_lines ++ header_lines ++ init_packet_lines ++ key_lines
  ++ addition_lines ++ timing_lines ++ flag_lines ++ mtu_lines.
End printer.

Definition uapi_line (kv : string * bytes) : bytes := bs kv.1 ++ bs "=" ++ kv.2.

Definition to_uapi_block (c : Amnezia3Config) : bytes := unlines (map uapi_line (to_uapi_lines c)).

(** ** Canonical configurations: what the parser returns *)
Definition junk_ok (j : JunkConfig) : Prop :=
  u16_ok (junk_count j) ∧ u16_ok (junk_min j) ∧ u16_ok (junk_max j).
Definition paddings_ok (p : PaddingConfig) : Prop :=
  u16_ok (s1 p) ∧ u16_ok (s2 p) ∧ u16_ok (s3 p) ∧ u16_ok (s4 p).
Definition opt_ok {A} (P : A → Prop) (o : option A) : Prop :=
  match o with Some a => P a | None => True end.
Definition init_packets_ok (i : InitPacketConfig) : Prop :=
  Forall (opt_ok chain_ok) (InitPacketConfig_chains i).
Definition key_ok (k : bytes) : Prop :=
  length k = HEADER_PROTECTION_KEY_SIZE ∧ bytes_ok k ∧ forallb (Z.eqb 0) k = false.
Definition addition_ok (r : U32Range) : Prop := u32range_ok r ∧ U32Range_is_zero r = false.
Definition timing_ok (t : TimingRanges) : Prop :=
  u32range_ok (rekey_after_time t) ∧ u32range_ok (rekey_timeout t) ∧
  u32range_ok (reject_after_time t) ∧ u32range_ok (keepalive_timeout t) ∧
  u32range_ok (max_handshake_attempts t) ∧ u32range_ok (persistent_keepalive t).

(** Every field in its type and canonical form. *)
Record fields_ok (c : Amnezia3Config) : Prop := {
  fo_junk : junk_ok (junk c);
  fo_paddings : paddings_ok (paddings c);
  fo_headers : headers_ok (headers c);
  fo_init : init_packets_ok (init_packets c);
  fo_key : opt_ok key_ok (header_protection_key c);
  fo_addition : opt_ok addition_ok (content_padding_addition c);
  fo_timing : timing_ok (timing_ranges c);
  fo_mtu : u32_ok (mtu c)
}.

Definition config_ok (c : Amnezia3Config) : Prop :=
  fields_ok c ∧ Amnezia3Config_validate c = Ok ().

(** *** The parser establishes it *)
Definition state_ok (st : parse_state) : Prop :=
  fields_ok (config st) ∧ headers_ok (ps_headers st).

Lemma u32range_zero_ok : u32range_ok U32Range_zero.
Proof. by apply (bool_decide_eq_true_1 _). Qed.

Lemma default_headers_ok : headers_ok HeaderConfig_wireguard_compatible.
Proof. by apply (bool_decide_eq_true_1 _). Qed.

Lemma default_fields_ok : fields_ok Amnezia3Config_default.
Proof.
  split; cbn; try done. repeat constructor.
Qed.

Lemma parse_field_u16_ok f v n : parse_field_u16 f v = Ok n → u16_ok n.
Proof.
  unfold parse_field_u16. intros H%map_err_ok%from_str_radix_range; widths; lia.
Qed.
Lemma parse_field_u32_ok f v n : parse_field_u32 f v = Ok n → u32_ok n.
Proof.
  unfold parse_field_u32. intros H%map_err_ok%from_str_radix_range; widths; lia.
Qed.
Lemma parse_header_protection_key_ok `{Hex} v k :
  parse_header_protection_key v = Ok k → length k = HEADER_PROTECTION_KEY_SIZE ∧ bytes_ok k.
Proof.
  unfold parse_header_protection_key. intros (k' & Hk & Hc)%bind_ok.
  destruct (hex_decode v) as [l|] eqn:E; [|done]. injection Hk as ->.
  apply hex_decode_ok in E as [Hl _]. destruct (decide _); [|done]. by injection Hc as ->.
Qed.

Create HintDb config discriminated.
#[export] Hint Resolve parse_field_u16_ok parse_field_u32_ok HeaderRange_parse_ok
  CpsChain_parse_ok U32Range_parse_ok : config.
#[export] Hint Unfold junk_ok paddings_ok headers_ok timing_ok init_packets_ok : config.

Lemma parsed_key_ok k :
  length k = HEADER_PROTECTION_KEY_SIZE ∧ bytes_ok k →
  opt_ok key_ok (if forallb (Z.eqb 0) k then None else Some k).
Proof. intros [Hl Hk]. destruct (forallb _ k) eqn:E; [done|]. by repeat split. Qed.

Lemma parsed_addition_ok r :
  u32range_ok r → opt_ok addition_ok (if U32Range_is_zero r then None else Some r).
Proof. intros. by destruct (U32Range_is_zero r) eqn:E. Qed.

Lemma init_packets_ok_iff a b c d e :
  init_packets_ok (mkInitPackets a b c d e) ↔
  opt_ok chain_ok a ∧ opt_ok chain_ok b ∧ opt_ok chain_ok c ∧ opt_ok chain_ok d ∧ opt_ok chain_ok e.
Proof.
  unfold init_packets_ok, InitPacketConfig_chains. cbn. rewrite !Forall_cons_iff.
  intuition constructor.
Qed.

#[export] Hint Resolve parsed_key_ok parsed_addition_ok parse_header_protection_key_ok : config.

Lemma parse_field_ok `{Hex} k key value st st' :
  parse_field k key value st = Ok st' → state_ok st → state_ok st'.
Proof.
  intros Hp [Hf Hh]. destruct Hf as [(?&?&?) (?&?&?&?) Hc Hi Hk Ha (?&?&?&?&?&?) Hm].
  pose proof Hh as (?&?&?&?). destruct (init_packets (config st)) as [a b c d e] eqn:Ei.
  pose proof Hi as (?&?&?&?&?)%init_packets_ok_iff.
  destruct k; cbn [parse_field] in Hp; apply bind_ok in Hp as (v & Hv & [= <-]);
    (split; [split|]); cbn; rewrite ?Ei, ?init_packets_ok_iff; cbn; try done;
    eauto 10 with config.
Qed.

Lemma parse_line_ok `{Hex} l st st' : parse_line l st = Ok st' → state_ok st → state_ok st'.
Proof.
  unfold parse_line. destruct (_ || _); [by intros [= <-]|].
  intros ([key value] & _ & H0)%bind_ok. destruct (key_of _) as [k|].
  - by eapply parse_field_ok.
  - by apply bind_ok in H0 as (? & _ & ?).
Qed.

Lemma parse_lines_ok `{Hex} ls st st' : parse_lines ls st = Ok st' → state_ok st → state_ok st'.
Proof.
  revert st. induction ls as [|l ls IH]; intros st; cbn; [by intros [= <-]|].
  intros (st1 & H1 & H2)%bind_ok ?. eauto using parse_line_ok.
Qed.

Lemma parse_finish_ok st c : parse_finish st = Ok c → state_ok st → config_ok c.
Proof.
  unfold parse_finish. intros (c' & Hc & ([] & Hv & [= <-])%bind_ok)%bind_ok [Hf Hh].
  split; [|done]. destruct (saw_header st); [|by injection Hc as <-].
  apply bind_ok in Hc as (h & Hn & [= <-]). apply bind_ok in Hn as (? & _ & [= <-]).
  destruct Hf. by split.
Qed.

Lemma Amnezia3Config_parse_ok `{Hex} s c : Amnezia3Config_parse s = Ok c → config_ok c.
Proof.
  unfold Amnezia3Config_parse. intros (st & Hs & Hf)%bind_ok.
  eapply parse_finish_ok; [done|]. eapply parse_lines_ok; [done|].
  split; [apply default_fields_ok|apply default_headers_ok].
Qed.

(** A validated configuration with a key has room for the nonce in each prefix. *)
Lemma validate_min_paddings_ok l :
  validate_min_paddings l = Ok () ↔ Forall (λ e, HEADER_PROTECTION_MIN_PADDING ≤ e.2) l.
Proof.
  induction l as [|[f v] l IH]; cbn; [split; [constructor|done]|].
  rewrite Forall_cons_iff. cbn.
  destruct (Z.ltb_spec v HEADER_PROTECTION_MIN_PADDING); [|rewrite IH; intuition lia].
  split; [done|]. intros []. lia.
Qed.

Lemma config_ok_paddings c k :
  config_ok c → header_protection_key c = Some k →
  12 ≤ s1 (paddings c) ∧ 12 ≤ s2 (paddings c) ∧ 12 ≤ s3 (paddings c) ∧ 12 ≤ s4 (paddings c).
Proof.
  intros [_ Hv] Hk. unfold Amnezia3Config_validate in Hv.
  repeat (apply bind_ok in Hv as (? & _ & Hv)). rewrite Hk in Hv.
  apply validate_min_paddings_ok in Hv. rewrite !Forall_cons_iff in Hv.
  cbn in Hv. unfold HEADER_PROTECTION_MIN_PADDING in Hv. tauto.
Qed.

Lemma config_ok_headers c : config_ok c →
  headers_ok (headers c) ∧ HeaderConfig_validate (headers c) = Ok ().
Proof.
  intros [Hf Hv]. split; [by apply fo_headers|]. unfold Amnezia3Config_validate in Hv.
  do 3 apply bind_ok in Hv as (? & _ & Hv). by apply bind_ok in Hv as ([] & ? & _).
Qed.

(** *** Reading back what was printed *)

(** A value the printer emits: unchanged by [trim], visible at its end, on one
    line. *)
Definition value_ok (v : bytes) : Prop :=
  trim v = v ∧ (∃ l c, v = l ++ [c] ∧ graphic c = true) ∧ 10 ∉ v.

Lemma graphic_not_newline s : all_graphic s → 10 ∉ s.
Proof. intros Hs Hin. unfold all_graphic in Hs. rewrite list.Forall_forall in Hs. by apply Hs in Hin. Qed.

Lemma value_ok_graphic s : all_graphic s → s ≠ [] → value_ok s.
Proof.
  intros Hs Hne. split; [by apply trim_all_graphic|]. split; [|by apply graphic_not_newline].
  destruct (exists_last Hne) as (l & c & ->). exists l, c. split; [done|].
  apply Forall_app in Hs as [_ Hc]. by inversion Hc.
Qed.

Lemma value_ok_dec n : 0 ≤ n → value_ok (print_dec n).
Proof.
  intros. apply value_ok_graphic; [by apply print_dec_graphic|apply print_dec_nonempty].
Qed.

Lemma pair_graphic a b :
  0 ≤ a → 0 ≤ b → all_graphic (print_dec a ++ bs "-" ++ print_dec b).
Proof.
  intros. repeat (apply Forall_app; split); try by apply print_dec_graphic.
  by apply literal_graphic.
Qed.

Lemma value_ok_range a b (t : bool) :
  0 ≤ a → 0 ≤ b →
  value_ok (if t then print_dec a else print_dec a ++ bs "-" ++ print_dec b).
Proof.
  intros. destruct t; [by apply value_ok_dec|].
  apply value_ok_graphic; [by apply pair_graphic|]. by destruct (print_dec a).
Qed.

Lemma tag_body_text t : tag_ok t → Forall (λ b, 32 ≤ b) (tag_body t).
Proof.
  assert (∀ s, all_graphic s → Forall (λ b, 32 ≤ b) s) as Hg.
  { intros s Hs. eapply Forall_impl; [|exact Hs]. unfold graphic. intros; cbn in *; lia. }
  intros Ht. destruct t as [b| |n|n|n| | |n]; cbn [tag_ok tag_body] in *;
    try (apply Hg; by apply literal_graphic);
    (apply Forall_app; split; [apply Hg; by apply literal_graphic|constructor; [lia|]]).
  1: { apply Forall_app. split; [apply Hg; by apply literal_graphic|].
       apply Hg, print_hex_graphic, Ht. }
  all: apply Hg, print_dec_graphic; lia.
Qed.

Lemma value_ok_chain c : chain_ok c → value_ok (CpsChain_display c).
Proof.
  intros [Hne Hts]. unfold CpsChain_display. destruct (exists_last Hne) as (ts & t & Et).
  assert (∃ s, flat_map CpsTag_display (tags c) = 60 :: s ++ [62] ∧ Forall (λ b, 32 ≤ b) s)
    as (s & E & Hs).
  { clear Et ts t. induction Hts as [|t ts Ht Hts IH]; [done|]. cbn [flat_map].
    rewrite CpsTag_display_body. pose proof (tag_body_text t Ht) as Hb.
    destruct ts as [|t' ts]; [exists (tag_body t); by rewrite app_nil_r|].
    destruct IH as (s & E & Hs); [done|]. rewrite E.
    exists (tag_body t ++ [62] ++ 60 :: s). split.
    - rewrite <- !app_comm_cons, <- !app_assoc. done.
    - apply Forall_app. split; [done|]. repeat (constructor; [lia|]). done. }
  rewrite E. split; [by apply trim_graphic_ends|]. split; [by exists (60 :: s), 62|].
  rewrite not_elem_of_cons, not_elem_of_app. split; [done|]. split.
  - intros Hin. rewrite list.Forall_forall in Hs. apply Hs in Hin. lia.
  - by intros ?%list_elem_of_singleton.
Qed.

(** The keys, checked one by one: lower case, no [=], no leading [#]. *)
Definition key_text (k : bytes) : bool :=
  forallb (λ b, graphic b && negb (b =? 61) && negb (b =? 35) && (to_ascii_lower1 b =? b)) k
  && negb (bool_decide (k = [])).

Lemma key_text_facts k :
  key_text k = true →
  all_graphic k ∧ 61 ∉ k ∧ (∀ s, head (k ++ s) ≠ Some 35) ∧ to_ascii_lowercase k = k ∧ k ≠ [].
Proof.
  unfold key_text. rewrite andb_true_iff, negb_true_iff, bool_decide_eq_false.
  intros [Hf Hne]. apply Is_true_true, forallb_True in Hf.
  split; [|split; [|split; [|split]]]; try done.
  - eapply Forall_impl; [|exact Hf]. intros b Hb%Is_true_true. by destruct (graphic b).
  - intros Hin. rewrite list.Forall_forall in Hf. by apply Hf in Hin.
  - intros s. destruct k as [|b k]; [done|]. inversion Hf as [|? ? Hb]; subst.
    apply Is_true_true in Hb. cbn. intros [= ->]. done.
  - unfold to_ascii_lowercase. clear Hne. induction Hf as [|b k Hb Hk IH]; [done|].
    cbn. rewrite IH. f_equal.
    apply Is_true_true in Hb. rewrite !andb_true_iff in Hb. apply Z.eqb_eq, Hb.
Qed.

Section readback.
Context `{HX : Hex}.

Lemma parse_line_kv k kk v st :
  key_of (bs k) = Some kk → key_text (bs k) = true → value_ok v →
  parse_line (uapi_line (k, v)) st = parse_field kk (bs k) v st.
Proof.
  intros Hk Ht (Htrim & (l & c & -> & Hc) & _).
  destruct (key_text_facts _ Ht) as (Hg & Heq & Hhash & Hlow & Hne).
  unfold parse_line, uapi_line. cbn [fst snd]. set (key := bs k) in *.
  assert (trim (key ++ bs "=" ++ l ++ [c]) = key ++ bs "=" ++ l ++ [c]) as ->.
  { destruct key as [|b key]; [done|]. rewrite !app_assoc, <- !app_comm_cons.
    apply trim_graphic_ends; [by inversion Hg|done]. }
  rewrite !bool_decide_eq_false_2; [|apply Hhash|by destruct key].
  cbn [orb bs app]. change (Z.of_N _) with 61. rewrite split_once_app by done.
  cbn [ok_or mbind result_bind].
  by rewrite (trim_all_graphic key), Hlow, Htrim, Hk by done.
Qed.

Lemma parse_lines_app ls ks st :
  parse_lines (ls ++ ks) st = (st1 ← parse_lines ls st; parse_lines ks st1).
Proof.
  revert st. induction ls as [|l ls IH]; intros st; cbn; [done|].
  destruct (parse_line l st); cbn; auto.
Qed.

Definition read (kvs : list (string * bytes)) : parse_state → result ConfigError parse_state :=
  parse_lines (map uapi_line kvs).
#[local] Arguments read : simpl never.

Lemma read_app ls ks st st1 :
  read ls st = Ok st1 → read (ls ++ ks) st = read ks st1.
Proof. unfold read. intros H. by rewrite map_app, parse_lines_app, H. Qed.

Lemma read_cons k kk v kvs st st1 :
  key_of (bs k) = Some kk → key_text (bs k) = true → value_ok v →
  parse_field kk (bs k) v st = Ok st1 → read ((k, v) :: kvs) st = read kvs st1.
Proof. intros Hk Ht Hv Hp. unfold read. cbn [map parse_lines]. by rewrite (parse_line_kv k kk), Hp. Qed.

Lemma read_u16 f n : u16_ok n → parse_field_u16 f (print_dec n) = Ok n.
Proof. intros. unfold parse_field_u16. by rewrite parse_u16_print. Qed.
Lemma read_u32 f n : u32_ok n → parse_field_u32 f (print_dec n) = Ok n.
Proof. intros. unfold parse_field_u32. by rewrite parse_u32_print. Qed.
Lemma value_ok_u16 n : u16_ok n → value_ok (print_dec n).
Proof. intros. apply value_ok_dec. width_lia. Qed.
Lemma value_ok_u32 n : u32_ok n → value_ok (print_dec n).
Proof. intros. apply value_ok_dec. width_lia. Qed.
Lemma value_ok_header r : range_ok r → value_ok (HeaderRange_display r).
Proof. intros (?&?&?). apply value_ok_range; width_lia. Qed.
Lemma value_ok_u32range r : u32range_ok r → value_ok (U32Range_display r).
Proof. intros (?&?&?). apply value_ok_range; width_lia. Qed.

(** Read one printed line: find the key, check the value, parse it back. *)
Ltac read_line :=
  erewrite read_cons; [|reflexivity|reflexivity|
    eauto using value_ok_u16, value_ok_u32, value_ok_header, value_ok_u32range, value_ok_chain|
    cbn [parse_field fst snd];
    first [ rewrite read_u16 by done | rewrite read_u32 by done
          | rewrite HeaderRange_parse_display by done
          | rewrite U32Range_parse_display by done
          | rewrite CpsChain_parse_display by done ]; reflexivity].

Section sections.
Context (c : Amnezia3Config) (Hc : fields_ok c) (st : parse_state).

Lemma read_junk :
  junk (config st) = JunkConfig_disabled →
  read (junk_lines c) st = Ok (upd (set_junk (λ _, junk c)) st).
Proof.
  intros Hd. destruct (fo_junk c Hc) as (?&?&?). unfold junk_lines.
  destruct (decide _) as [E|E].
  - rewrite E. cbn. rewrite <- Hd. by destruct st as [[] ? ?].
  - do 3 read_line. cbn. by destruct (junk c).
Qed.

Lemma read_paddings :
  paddings (config st) = PaddingConfig_default →
  read (padding_lines c) st = Ok (upd (set_paddings (λ _, paddings c)) st).
Proof.
  intros Hd. destruct (fo_paddings c Hc) as (?&?&?&?). unfold padding_lines.
  cbn [flat_map]. destruct st as [[? p ? ? ? ? ? ? ? ?] ? ?]. cbn in Hd. subst p.
  cbn [paddings Amnezia3Config_default PaddingConfig_default s1 s2 s3 s4].
  destruct (paddings c) as [a b e f]. cbn in *.
  destruct (Z.eqb_spec a 0) as [->|], (Z.eqb_spec b 0) as [->|],
    (Z.eqb_spec e 0) as [->|], (Z.eqb_spec f 0) as [->|]; cbn [app];
    repeat read_line; reflexivity.
Qed.

Lemma read_headers :
  ps_headers st = HeaderConfig_wireguard_compatible → saw_header st = false →
  read (header_lines c) st =
  Ok (mkPS (config st) (headers c)
        (bool_decide (headers c ≠ HeaderConfig_wireguard_compatible))).
Proof.
  intros Hd Hs. destruct (fo_headers c Hc) as (?&?&?&?). unfold header_lines.
  destruct st as [cf h s]. cbn in Hd, Hs. subst h s. cbn [headers Amnezia3Config_default].
  destruct (decide _) as [E|E].
  - by rewrite E.
  - rewrite bool_decide_eq_true_2 by done. do 4 read_line. cbn. by destruct (headers c).
Qed.

Lemma read_init_packets :
  init_packets (config st) = InitPacketConfig_default →
  read (init_packet_lines c) st = Ok (upd (set_init_packets (λ _, init_packets c)) st).
Proof.
  intros Hd. pose proof (fo_init c Hc) as Hi. unfold init_packet_lines.
  destruct (init_packets c) as [o1 o2 o3 o4 o5]. apply init_packets_ok_iff in Hi as (?&?&?&?&?).
  destruct st as [[? ? ? i ? ? ? ? ? ?] ? ?]. cbn in Hd. subst i.
  cbn [flat_map i1 i2 i3 i4 i5].
  destruct o1, o2, o3, o4, o5; cbn [app opt_ok] in *; repeat read_line; reflexivity.
Qed.

Lemma read_key :
  header_protection_key (config st) = None →
  read (key_lines c) st =
  Ok (upd (set_header_protection_key (header_protection_key c)) st).
Proof.
  intros Hd. pose proof (fo_key c Hc) as Hk. unfold key_lines.
  destruct (header_protection_key c) as [k|]; cbn [opt_ok] in Hk.
  - destruct Hk as (Hl & Hb & Hz). erewrite read_cons; [|reflexivity|reflexivity| |].
    + reflexivity.
    + apply value_ok_graphic; [by apply print_hex_graphic|]. by destruct k.
    + cbn [parse_field fst snd]. unfold parse_header_protection_key.
      rewrite hex_decode_print by done. cbn [ok_or mbind result_bind].
      rewrite decide_True by done. cbn [mbind result_bind]. by rewrite Hz.
  - destruct st as [[] ? ?]. cbn in *. by subst.
Qed.

Lemma read_addition :
  content_padding_addition (config st) = None →
  read (addition_lines c) st =
  Ok (upd (set_content_padding_addition (content_padding_addition c)) st).
Proof.
  intros Hd. pose proof (fo_addition c Hc) as Hk. unfold addition_lines.
  destruct (content_padding_addition c) as [r|]; cbn [opt_ok] in Hk.
  - destruct Hk as (Hr & Hz). read_line. by rewrite Hz.
  - destruct st as [[] ? ?]. cbn in *. by subst.
Qed.

Lemma is_zero_inv r : U32Range_is_zero r = true → r = U32Range_zero.
Proof.
  unfold U32Range_is_zero. rewrite andb_true_iff, !Z.eqb_eq. destruct r; cbn.
  by intros [-> ->].
Qed.

Lemma read_timing :
  timing_ranges (config st) = TimingRanges_default →
  read (timing_lines c) st = Ok (upd (set_timing_ranges (λ _, timing_ranges c)) st).
Proof.
  intros Hd. destruct (fo_timing c Hc) as (?&?&?&?&?&?). unfold timing_lines.
  destruct (timing_ranges c) as [t1 t2 t3 t4 t5 t6].
  destruct st as [[? ? ? ? ? ? t ? ? ?] ? ?]. cbn in Hd. subst t. cbn in *.
  destruct (U32Range_is_zero t1) eqn:E1, (U32Range_is_zero t2) eqn:E2,
    (U32Range_is_zero t3) eqn:E3, (U32Range_is_zero t4) eqn:E4,
    (U32Range_is_zero t5) eqn:E5, (U32Range_is_zero t6) eqn:E6;
    repeat match goal with
    | E : U32Range_is_zero _ = true |- _ => apply is_zero_inv in E; subst
    end; cbn [app]; repeat read_line; reflexivity.
Qed.

Lemma read_flags :
  random_trailers (config st) = false → disable_cookies (config st) = false →
  read (flag_lines c) st =
  Ok (upd (λ cf, set_disable_cookies (disable_cookies c)
                   (set_random_trailers (random_trailers c) cf)) st).
Proof.
  intros Hr Hd. unfold flag_lines. destruct st as [[] ? ?]. cbn in *. subst.
  destruct (random_trailers c), (disable_cookies c); cbn [flat_map eqb app];
    repeat (erewrite read_cons; [|reflexivity|reflexivity|apply value_ok_dec; lia|reflexivity]);
    reflexivity.
Qed.

Lemma read_mtu :
  mtu (config st) = AWG3_DEFAULT_MTU →
  read (mtu_lines c) st = Ok (upd (set_mtu (mtu c)) st).
Proof.
  intros Hd. pose proof (fo_mtu c Hc). unfold mtu_lines. cbn [mtu Amnezia3Config_default].
  destruct (Z.eqb_spec (mtu c) AWG3_DEFAULT_MTU) as [->|].
  - destruct st as [[] ? ?]. cbn in *. by subst.
  - by read_line.
Qed.
End sections.

(** The parser's state after the printed block of [c]. *)
Definition state_of (c : Amnezia3Config) : parse_state :=
  mkPS (set_headers HeaderConfig_wireguard_compatible c) (headers c)
    (bool_decide (headers c ≠ HeaderConfig_wireguard_compatible)).

Lemma read_block c : fields_ok c → read (to_uapi_lines c) parse_init = Ok (state_of c).
Proof.
  intros Hc. unfold to_uapi_lines.
  erewrite read_app by by apply read_junk.
  erewrite read_app by by apply read_paddings.
  erewrite read_app by by apply read_headers.
  erewrite read_app by by apply read_init_packets.
  erewrite read_app by by apply read_key.
  erewrite read_app by by apply read_addition.
  erewrite read_app by by apply read_timing.
  erewrite read_app by by apply read_flags.
  rewrite read_mtu by done. by destruct c.
Qed.

Lemma finish_state_of c : config_ok c → parse_finish (state_of c) = Ok c.
Proof.
  intros Hc. destruct (config_ok_headers c Hc) as [_ Hh]. destruct Hc as [_ Hv].
  unfold parse_finish, state_of. cbn [saw_header ps_headers config].
  destruct (bool_decide _) eqn:E.
  - assert (HeaderConfig_new (hc_init (headers c)) (hc_response (headers c))
      (hc_cookie (headers c)) (hc_transport (headers c)) = Ok (headers c)) as ->.
    { unfold HeaderConfig_new. unfold HeaderConfig_validate in Hh.
      replace (mkHeaderConfig _ _ _ _) with (headers c) by by destruct (headers c).
      by rewrite Hh. }
    cbn [mbind result_bind].
    replace (set_headers _ _) with c by by destruct c. by rewrite Hv.
  - apply bool_decide_eq_false, dec_stable in E. rewrite <- E.
    replace (set_headers _ _) with c by by destruct c. cbn [mbind result_bind]. by rewrite Hv.
Qed.

Definition kv_ok (kv : string * bytes) : Prop := key_text (bs kv.1) = true ∧ value_ok kv.2.

Lemma kv_line_ok kv : kv_ok kv → line_ok (uapi_line kv).
Proof.
  destruct kv as [k v]. intros [Hk Hv]. cbn [fst snd] in *.
  destruct Hv as (_ & (l & c & -> & Hc) & Hn), (key_text_facts _ Hk) as (Hg & _). split.
  - unfold uapi_line. cbn [fst snd bs app]. rewrite not_elem_of_app, not_elem_of_cons.
    split; [by apply graphic_not_newline|]. by split.
  - unfold uapi_line. cbn [fst snd]. rewrite !app_assoc, last_snoc. by intros [= ->].
Qed.

Lemma to_uapi_lines_ok c : fields_ok c → Forall kv_ok (to_uapi_lines c).
Proof.
  assert (∀ k v, key_text (bs k) = true → value_ok v → kv_ok (k, v)) as Hkv by done.
  intros [(?&?&?) (?&?&?&?) (?&?&?&?) Hi Hk Ha (?&?&?&?&?&?) ?].
  destruct c as [? ? ? [] ? ? ? ? ? ?]. apply init_packets_ok_iff in Hi as (?&?&?&?&?).
  cbn [headers junk paddings init_packets timing_ranges header_protection_key
    content_padding_addition mtu] in *.
  unfold to_uapi_lines, junk_lines, padding_lines, header_lines, init_packet_lines, key_lines,
    addition_lines, timing_lines, flag_lines, mtu_lines.
  cbn [header_protection_key content_padding_addition init_packets i1 i2 i3 i4 i5].
  repeat match goal with
    | |- Forall _ (if ?b then _ else _) => destruct b
    | |- Forall _ (match ?o with Some _ => _ | None => _ end) => destruct o; cbn [opt_ok] in *
    | |- Forall _ [] => apply List.Forall_nil
    | |- Forall _ (_ :: _) => apply List.Forall_cons
    | |- Forall _ (_ ++ _) => apply Forall_app; split
    | |- kv_ok _ => apply Hkv; [reflexivity|]
    | |- _ => progress cbn
    end;
    eauto using value_ok_u16, value_ok_u32, value_ok_header, value_ok_u32range, value_ok_chain.
  - apply value_ok_graphic; [apply print_hex_graphic, Hk|]. destruct Hk. by destruct l.
  - apply value_ok_u32range, Ha.
  - apply value_ok_dec. by case_match.
  - apply value_ok_dec. by case_match.
Qed.

(** Parsing the printed block followed by more text continues from [c]. *)
Lemma parse_block_app c block :
  config_ok c →
  Amnezia3Config_parse (to_uapi_block c ++ block) =
  (st ← parse_lines (lines block) (state_of c); parse_finish st).
Proof.
  intros [Hf _]. unfold Amnezia3Config_parse, to_uapi_block.
  rewrite lines_unlines.
  - rewrite parse_lines_app. pose proof (read_block c Hf) as Hr. unfold read in Hr.
    by rewrite Hr.
  - apply Forall_map. eapply Forall_impl; [|by apply to_uapi_lines_ok]. apply kv_line_ok.
Qed.

Lemma parse_block c : config_ok c → Amnezia3Config_parse (to_uapi_block c) = Ok c.
Proof.
  intros Hc. rewrite <- (app_nil_r (to_uapi_block c)), parse_block_app by done.
  by apply finish_state_of.
Qed.
End readback.

(** C20: [Amnezia3Config::parse] returns only configurations that pass
    [validate] with every field in range and canonical, and the block
    [to_uapi_block] prints for such a configuration parses back to it. *)
Theorem config_roundtrip `{Hex} s c :
  Amnezia3Config_parse s = Ok c →
  config_ok c ∧ Amnezia3Config_parse (to_uapi_block c) = Ok c.
Proof. intros H1%Amnezia3Config_parse_ok. split; [done|by apply parse_block]. Qed.

Definition sample_block : bytes :=
  bs "# sample" ++ [10] ++ bs "Jc = 4" ++ [13; 10] ++ bs "jmin=10" ++ [10] ++ bs "jmax=50" ++ [10]
  ++ bs "s1=12" ++ [10] ++ bs "s2=13" ++ [10] ++ bs "s3=14" ++ [10] ++ bs "s4=15" ++ [10]
  ++ bs "h1=100-200" ++ [10] ++ bs "h4=7" ++ [10] ++ bs "i1=<b 0x01><r 8>" ++ [10]
  ++ bs "header_protection_key="
  ++ bs "0102030405060708090a0b0c0d0e0f101112131415161718191a1b1c1d1e1f20" ++ [10]
  ++ bs "rekey_timeout=3-7" ++ [10] ++ bs "random_trailers=on".

Definition sample_config : Amnezia3Config :=
  mkConfig (mkJunkConfig 4 10 50) (mkPaddingConfig 12 13 14 15)
    (mkHeaderConfig (mkHeaderRange 100 200) (mkHeaderRange 2 2) (mkHeaderRange 3 3)
       (mkHeaderRange 7 7))
    (mkInitPackets (Some (mkChain [Bytes [1]; RandomBytes 8])) None None None None)
    (Some (seqZ 1 32)) None
    (mkTimingRanges U32Range_zero (mkU32Range 3 7) U32Range_zero U32Range_zero U32Range_zero
       U32Range_zero)
    true false 1420.

Lemma config_roundtrip_witness :
  Amnezia3Config_parse (HX := HexDecode.engine) (to_uapi_block sample_config) = Ok sample_config.
Proof.
  refine (proj2 (config_roundtrip (H := HexDecode.engine) sample_block sample_config _)).
  vm_compute. reflexivity.
Defined.

(** With a header-protection key, a parsed configuration has every prefix
    S1-S4 long enough for the 12-byte nonce, so masking a message after a
    prefix of the configured length never panics. *)
Lemma config_prefix_holds_nonce `{Hex} `{ChaCha20} s c hp prefix message :
  Amnezia3Config_parse s = Ok c →
  Amnezia3Config_header_protection c = Some hp →
  Z.of_nat (length prefix) ∈ [s1 (paddings c); s2 (paddings c); s3 (paddings c); s4 (paddings c)] →
  ∃ masked, HeaderProtection_apply (E := ConfigError) hp prefix message = Ok masked
    ∧ length masked = length message.
Proof.
  intros Hc%Amnezia3Config_parse_ok Hhp Hin. unfold Amnezia3Config_header_protection in Hhp.
  destruct (header_protection_key c) as [k|] eqn:Hk; [|done].
  destruct (config_ok_paddings c k Hc Hk) as (?&?&?&?).
  unfold HeaderProtection_apply, slice_chk, HEADER_PROTECTION_NONCE_SIZE.
  rewrite decide_True by (set_unfold in Hin; lia). cbn. eexists. split; [done|]. by len.
Qed.

