(* ===== verification/Packet.v ===== *)
(** * Packet: datagram classification and message parsing

    Models the packet layer of [awgtun/src/noise/mod.rs] and
    [awgtun/src/noise/errors.rs]: [PacketClassifier], [Classified], the message
    structs, [Tunn::parse_incoming_packet_config] and [Tunn::dst_address].
    Shown: a datagram is taken for the kind it was built as, under the
    conditions that make the kinds distinguishable, and a protected datagram
    is classified like its plain form. *)

From Stdlib Require Import ZArith Lia.
From stdpp Require Import base list option strings sets tactics.
From S2P Require Import Prelude Text Random Amnezia Cps Config.
Open Scope Z_scope.

Inductive WireGuardError :=
  | DestinationBufferTooSmall
  | IncorrectPacketLength
  | UnexpectedPacket
  | WrongPacketType
  | WrongIndex
  | WrongKey
  | InvalidTai64nTimestamp
  | WrongTai64nTimestamp
  | InvalidMac
  | InvalidAeadTag
  | InvalidCounter
  | DuplicateCounter
  | InvalidPacket
  | NoCurrentSession
  | LockFailed
  | ConnectionExpired
  | UnderLoad.

#[export] Instance WireGuardError_eq_dec : EqDecision WireGuardError.
Proof. solve_decision. Defined.

(** ** Sizes and offsets *)
Definition HANDSHAKE_INIT_SZ : nat := 148.
Definition HANDSHAKE_RESP_SZ : nat := 92.
Definition COOKIE_REPLY_SZ : nat := 64.
Definition DATA_OVERHEAD_SZ : nat := 32.
Definition TRANSPORT_HEADER_SZ : nat := 16.

Definition IPV4_MIN_HEADER_SIZE : nat := 20.
Definition IPV4_LEN_OFF : nat := 2.
Definition IPV4_SRC_IP_OFF : nat := 12.
Definition IPV4_DST_IP_OFF : nat := 16.
Definition IPV4_IP_SZ : nat := 4.
Definition IPV6_MIN_HEADER_SIZE : nat := 40.
Definition IPV6_LEN_OFF : nat := 4.
Definition IPV6_SRC_IP_OFF : nat := 8.
Definition IPV6_DST_IP_OFF : nat := 24.
Definition IPV6_IP_SZ : nat := 16.
Definition IP_LEN_SZ : nat := 2.

(** ** Classification *)
Record PacketClassifier := mkClassifier {
  pc_paddings : PaddingConfig;
  pc_headers : HeaderConfig;
  pc_header_protection : option HeaderProtection;
  pc_random_trailers : bool
}.

Definition PacketClassifier_new (p : PaddingConfig) (h : HeaderConfig)
    (hp : option HeaderProtection) : PacketClassifier :=
  mkClassifier p h hp false.
Definition PacketClassifier_with_random_trailers (c : PacketClassifier) (b : bool)
    : PacketClassifier :=
  mkClassifier (pc_paddings c) (pc_headers c) (pc_header_protection c) b.
Definition PacketClassifier_from_config (c : Amnezia3Config) : PacketClassifier :=
  PacketClassifier_with_random_trailers
    (PacketClassifier_new (paddings c) (headers c) (Amnezia3Config_header_protection c))
    (random_trailers c).

Record Classified := mkClassified {
  padding : nat;
  protected_len : nat;
  header_mask : option bytes;
  msg_size : option nat
}.

#[export] Instance Classified_eq_dec : EqDecision Classified.
Proof. solve_decision. Defined.

(** A row of the [checks] table: padding, header range, expected size, exact. *)
Record check := mkCheck {
  ck_padding : nat;
  ck_range : HeaderRange;
  ck_size : nat;
  ck_exact : bool
}.

Definition init_check (c : PacketClassifier) : check :=
  mkCheck (Z.to_nat (s1 (pc_paddings c))) (hc_init (pc_headers c)) HANDSHAKE_INIT_SZ true.
Definition response_check (c : PacketClassifier) : check :=
  mkCheck (Z.to_nat (s2 (pc_paddings c))) (hc_response (pc_headers c)) HANDSHAKE_RESP_SZ true.
Definition cookie_check (c : PacketClassifier) : check :=
  mkCheck (Z.to_nat (s3 (pc_paddings c))) (hc_cookie (pc_headers c)) COOKIE_REPLY_SZ true.
Definition transport_check (c : PacketClassifier) : check :=
  mkCheck (Z.to_nat (s4 (pc_paddings c))) (hc_transport (pc_headers c)) DATA_OVERHEAD_SZ false.

Definition classify_checks (c : PacketClassifier) : list check :=
  if pc_random_trailers c
  then [transport_check c; init_check c; response_check c; cookie_check c]
  else [init_check c; response_check c; cookie_check c; transport_check c].

Definition size_ok (trailers : bool) (k : check) (src : bytes) : bool :=
  if ck_exact k && negb trailers
  then bool_decide (length src = ck_padding k + ck_size k)%nat
  else bool_decide (ck_padding k + ck_size k ≤ length src)%nat.

(** The type field a candidate would read, unmasked when there is a mask. *)
Definition type_at (src : bytes) (mask : option bytes) (off : nat) : Z :=
  let type_bytes := slice src off (off + 4) in
  from_le (match mask with Some m => xor_into type_bytes m | None => type_bytes end).

Definition check_matches (trailers : bool) (mask : option bytes) (src : bytes) (k : check) : bool :=
  size_ok trailers k src && bool_decide (ck_padding k + 4 ≤ length src)%nat
  && HeaderRange_contains (ck_range k) (type_at src mask (ck_padding k)).

Definition classified_as (mask : option bytes) (k : check) : Classified :=
  mkClassified (ck_padding k)
    (if ck_exact k then ck_size k else TRANSPORT_HEADER_SZ)
    mask
    (if ck_exact k then Some (ck_size k) else None).

(** The [for] loop over [checks]. *)
Fixpoint classify_loop (trailers : bool) (mask : option bytes) (src : bytes) (ks : list check)
    : option Classified :=
  match ks with
  | [] => None
  | k :: ks' =>
      if check_matches trailers mask src k then Some (classified_as mask k)
      else classify_loop trailers mask src ks'
  end.

Definition classify_mask `{ChaCha20} (c : PacketClassifier) (src : bytes)
    : result WireGuardError (option bytes) :=
  match pc_header_protection c with
  | Some hp =>
      if decide (HEADER_PROTECTION_NONCE_SIZE ≤ length src)%nat
      then mask ← HeaderProtection_keystream TRANSPORT_HEADER_SZ hp src; Ok (Some mask)
      else Ok None
  | None => Ok None
  end.

Definition PacketClassifier_classify `{ChaCha20} (c : PacketClassifier) (src : bytes)
    : result WireGuardError (option Classified) :=
  mask ← classify_mask c src;
  Ok (classify_loop (pc_random_trailers c) mask src (classify_checks c)).

(** ** Messages *)
Record HandshakeInit := mkHandshakeInit {
  hi_sender_idx : Z;
  hi_ephemeral : bytes;
  hi_static : bytes;
  hi_timestamp : bytes
}.

Record HandshakeResponse := mkHandshakeResponse {
  hr_sender_idx : Z;
  hr_receiver_idx : Z;
  hr_ephemeral : bytes;
  hr_nothing : bytes
}.

Record PacketCookieReply := mkCookieReply {
  cr_receiver_idx : Z;
  cr_nonce : bytes;
  cr_cookie : bytes
}.

Record PacketData := mkPacketData {
  pd_receiver_idx : Z;
  pd_counter : Z;
  pd_payload : bytes
}.

Inductive Packet :=
  | PktInit (p : HandshakeInit)
  | PktResponse (p : HandshakeResponse)
  | PktCookie (p : PacketCookieReply)
  | PktData (p : PacketData).

#[export] Instance HandshakeInit_eq_dec : EqDecision HandshakeInit.
Proof. solve_decision. Defined.
#[export] Instance HandshakeResponse_eq_dec : EqDecision HandshakeResponse.
Proof. solve_decision. Defined.
#[export] Instance PacketCookieReply_eq_dec : EqDecision PacketCookieReply.
Proof. solve_decision. Defined.
#[export] Instance PacketData_eq_dec : EqDecision PacketData.
Proof. solve_decision. Defined.
#[export] Instance Packet_eq_dec : EqDecision Packet.
Proof. solve_decision. Defined.

(** [Tunn::parse_incoming_packet_config]. *)
Definition parse_incoming_packet_config (src : bytes) (hc : HeaderConfig)
    : result WireGuardError Packet :=
  if decide (length src < 4)%nat then Err InvalidPacket else
  let packet_type := from_le (slice src 0 4) in
  if HeaderRange_contains (hc_init hc) packet_type
     && bool_decide (length src = HANDSHAKE_INIT_SZ) then
    Ok (PktInit (mkHandshakeInit (from_le (slice src 4 8)) (slice src 8 40)
                   (slice src 40 88) (slice src 88 116)))
  else if HeaderRange_contains (hc_response hc) packet_type
     && bool_decide (length src = HANDSHAKE_RESP_SZ) then
    Ok (PktResponse (mkHandshakeResponse (from_le (slice src 4 8)) (from_le (slice src 8 12))
                       (slice src 12 44) (slice src 44 60)))
  else if HeaderRange_contains (hc_cookie hc) packet_type
     && bool_decide (length src = COOKIE_REPLY_SZ) then
    Ok (PktCookie (mkCookieReply (from_le (slice src 4 8)) (slice src 8 32) (slice src 32 64)))
  else if HeaderRange_contains (hc_transport hc) packet_type
     && bool_decide (DATA_OVERHEAD_SZ ≤ length src)%nat then
    Ok (PktData (mkPacketData (from_le (slice src 4 8)) (from_le (slice src 8 16))
                   (slice src 16 (length src))))
  else Err InvalidPacket.

Definition parse_incoming_packet (src : bytes) : result WireGuardError Packet :=
  parse_incoming_packet_config src HeaderConfig_wireguard_compatible.

(** ** Inner packets *)
Inductive IpAddr := V4 (octets : bytes) | V6 (octets : bytes).

#[export] Instance IpAddr_eq_dec : EqDecision IpAddr.
Proof. solve_decision. Defined.

(** [packet[0] >> 4]. *)
Definition ip_version (packet : bytes) : Z := Z.shiftr (nth 0 packet 0) 4.

Definition dst_address (packet : bytes) : option IpAddr :=
  if decide (packet = []) then None
  else if (ip_version packet =? 4) && bool_decide (IPV4_MIN_HEADER_SIZE ≤ length packet)%nat then
    Some (V4 (slice packet IPV4_DST_IP_OFF (IPV4_DST_IP_OFF + IPV4_IP_SZ)))
  else if (ip_version packet =? 6) && bool_decide (IPV6_MIN_HEADER_SIZE ≤ length packet)%nat then
    Some (V6 (slice packet IPV6_DST_IP_OFF (IPV6_DST_IP_OFF + IPV6_IP_SZ)))
  else None.

(** ** Facts *)

(** The table row of a message kind. *)
Definition check_of (c : PacketClassifier) (k : HeaderKind) : check :=
  match k with
  | HInit => init_check c
  | HResponse => response_check c
  | HCookie => cookie_check c
  | HTransport => transport_check c
  end.

Lemma checks_complete c k : check_of c k ∈ classify_checks c.
Proof. unfold classify_checks. destruct (pc_random_trailers c), k; cbn; set_solver. Qed.

Lemma classify_loop_found trailers mask src ks k :
  check_matches trailers mask src k = true → k ∈ ks →
  (∀ k', k' ∈ ks → check_matches trailers mask src k' = true → k' = k) →
  classify_loop trailers mask src ks = Some (classified_as mask k).
Proof.
  intros Hm Hin Hu. induction ks as [|k0 ks IH]; [by apply not_elem_of_nil in Hin|].
  cbn. destruct (check_matches trailers mask src k0) eqn:E.
  - rewrite (Hu k0); [done|apply list_elem_of_here|done].
  - apply IH; [|intros k' ?; apply Hu; by apply list_elem_of_further].
    apply elem_of_cons in Hin as [->|]; [congruence|done].
Qed.

Lemma classify_loop_none trailers mask src ks :
  classify_loop trailers mask src ks = None ↔
  ∀ k, k ∈ ks → check_matches trailers mask src k = false.
Proof.
  induction ks as [|k0 ks IH]; cbn; [split; [set_solver|done]|].
  destruct (check_matches trailers mask src k0) eqn:E.
  - split; [done|]. intros H. rewrite (H k0) in E; [done|apply list_elem_of_here].
  - rewrite IH. split.
    + intros H k [->|]%elem_of_cons; auto.
    + intros H k Hk. apply H. by apply list_elem_of_further.
Qed.

(** The mask the classifier works with: the keystream under the datagram's own
    first twelve bytes. *)
Definition mask_of `{ChaCha20} (c : PacketClassifier) (src : bytes) : option bytes :=
  hp ← pc_header_protection c;
  if decide (12 ≤ length src)%nat
  then Some (chacha_keystream (hp_key hp) (take 12 src) TRANSPORT_HEADER_SZ) else None.

Lemma classify_mask_eq `{ChaCha20} c src : classify_mask c src = Ok (mask_of c src).
Proof.
  unfold classify_mask, mask_of, HEADER_PROTECTION_NONCE_SIZE.
  destruct (pc_header_protection c) as [hp|]; cbn; [|done].
  destruct (decide _); [|done]. by rewrite HeaderProtection_keystream_eq.
Qed.

Lemma classify_eq `{ChaCha20} c src :
  PacketClassifier_classify c src =
  Ok (classify_loop (pc_random_trailers c) (mask_of c src) src (classify_checks c)).
Proof. unfold PacketClassifier_classify. by rewrite classify_mask_eq. Qed.

Definition is_handshake (k : HeaderKind) : bool :=
  match k with HTransport => false | _ => true end.

(** The exact-size rows are told apart by their sizes alone. *)
Definition padded_size (c : PacketClassifier) (k : HeaderKind) : nat :=
  ck_padding (check_of c k) + ck_size (check_of c k).

Lemma size_ok_exact c k src :
  is_handshake k = true →
  size_ok false (check_of c k) src = true ↔ length src = padded_size c k.
Proof.
  intros Hk. unfold size_ok, padded_size.
  replace (ck_exact (check_of c k)) with true by by destruct k. cbn.
  by rewrite bool_decide_eq_true.
Qed.

Lemma check_matches_size trailers mask src k :
  check_matches trailers mask src k = true → size_ok trailers k src = true.
Proof. unfold check_matches. by rewrite !andb_true_iff; intros [[]]. Qed.

Lemma check_matches_range trailers mask src k :
  check_matches trailers mask src k = true →
  HeaderRange_contains (ck_range k) (type_at src mask (ck_padding k)) = true.
Proof. unfold check_matches. by rewrite !andb_true_iff; intros []. Qed.

Lemma check_matches_intro c k src mask trailers :
  size_ok trailers (check_of c k) src = true →
  HeaderRange_contains (header_of (pc_headers c) k)
    (type_at src mask (ck_padding (check_of c k))) = true →
  check_matches trailers mask src (check_of c k) = true.
Proof.
  intros Hs Hr. unfold check_matches. rewrite Hs. cbn.
  replace (ck_range (check_of c k)) with (header_of (pc_headers c) k) by by destruct k.
  rewrite Hr, andb_true_r. apply bool_decide_eq_true_2.
  unfold size_ok in Hs. destruct (_ && _); apply bool_decide_eq_true_1 in Hs;
    destruct k; cbn in *; unfold HANDSHAKE_INIT_SZ, HANDSHAKE_RESP_SZ, COOKIE_REPLY_SZ,
    DATA_OVERHEAD_SZ in *; lia.
Qed.

Lemma elem_of_checks c k' : k' ∈ classify_checks c → ∃ k, k' = check_of c k.
Proof.
  unfold classify_checks. destruct (pc_random_trailers c);
    rewrite !elem_of_cons; intros [->|[->|[->|[->|H]]]];
    try (by apply not_elem_of_nil in H);
    [exists HTransport|exists HInit|exists HResponse|exists HCookie
    |exists HInit|exists HResponse|exists HCookie|exists HTransport]; done.
Qed.

(** A classification comes from a row that matched. *)
Lemma classify_inv `{ChaCha20} c src cl :
  PacketClassifier_classify c src = Ok (Some cl) →
  ∃ k, cl = classified_as (mask_of c src) (check_of c k) ∧
    (ck_padding (check_of c k) + ck_size (check_of c k) ≤ length src)%nat ∧
    check_matches (pc_random_trailers c) (mask_of c src) src (check_of c k) = true.
Proof.
  rewrite classify_eq. intros [= Hl].
  assert (∃ k, k ∈ classify_checks c ∧ cl = classified_as (mask_of c src) k ∧
    check_matches (pc_random_trailers c) (mask_of c src) src k = true) as (k & Hk & -> & Hm).
  { revert Hl. induction (classify_checks c) as [|k ks IH]; cbn; [done|].
    destruct (check_matches _ _ _ k) eqn:E.
    - intros [= <-]. exists k. split; [apply list_elem_of_here|done].
    - intros H'. destruct (IH H') as (k' & ? & ?). exists k'.
      split; [by apply list_elem_of_further|done]. }
  apply elem_of_checks in Hk as [k' ->]. exists k'. split_and!; [done| |done].
  apply check_matches_size in Hm. unfold size_ok in Hm.
  destruct (_ && _); apply bool_decide_eq_true_1 in Hm; lia.
Qed.

(** Without random trailers, when the three handshake messages have
    pairwise different padded sizes, a handshake datagram of kind [k] (right
    size, type field in the range of [k] once unmasked) is classified as [k],
    whatever its other bytes are and however wide the header ranges are. *)
Lemma classify_handshake_by_size `{ChaCha20} c k src :
  pc_random_trailers c = false → is_handshake k = true →
  (∀ k', is_handshake k' = true → padded_size c k' = padded_size c k → k' = k) →
  length src = padded_size c k →
  HeaderRange_contains (header_of (pc_headers c) k)
    (type_at src (mask_of c src) (ck_padding (check_of c k))) = true →
  PacketClassifier_classify c src = Ok (Some (classified_as (mask_of c src) (check_of c k))).
Proof.
  intros Ht Hk Hd Hl Hr. rewrite classify_eq, Ht. f_equal.
  assert (check_matches false (mask_of c src) src (check_of c k) = true) as Hm
    by (apply check_matches_intro; [by apply size_ok_exact|done]).
  unfold classify_checks. rewrite Ht. cbn [classify_loop].
  assert (∀ k', is_handshake k' = true → k' ≠ k →
    check_matches false (mask_of c src) src (check_of c k') = false) as Hno.
  { intros k' Hk' Hne. destruct (check_matches _ _ _ (check_of c k')) eqn:E; [|done].
    apply check_matches_size, size_ok_exact in E; [|done]. rewrite Hl in E.
    destruct Hne. by apply Hd. }
  pose proof (Hno HInit eq_refl) as Hi. pose proof (Hno HResponse eq_refl) as Hre.
  cbn [check_of] in Hi, Hre. destruct k; try done; cbn [check_of] in *;
    rewrite ?Hi, ?Hre by done; by rewrite Hm.
Qed.

(** Equal paddings put every row's type field at the same offset. *)
Lemma classify_equal_rows `{ChaCha20} c src :
  s1 (pc_paddings c) = s2 (pc_paddings c) → s2 (pc_paddings c) = s3 (pc_paddings c) →
  s3 (pc_paddings c) = s4 (pc_paddings c) →
  headers_ok (pc_headers c) → HeaderConfig_validate (pc_headers c) = Ok () →
  (∀ k, check_matches (pc_random_trailers c) (mask_of c src) src (check_of c k) = true →
     PacketClassifier_classify c src = Ok (Some (classified_as (mask_of c src) (check_of c k)))) ∧
  ((∀ k, check_matches (pc_random_trailers c) (mask_of c src) src (check_of c k) = false) →
     PacketClassifier_classify c src = Ok None).
Proof.
  intros H12 H23 H34 Hok Hv. rewrite classify_eq.
  assert (∀ k k', ck_padding (check_of c k) = ck_padding (check_of c k')) as Hpad.
  { intros [] []; cbn; congruence. }
  split.
  - intros k Hm. f_equal. apply classify_loop_found; [done|apply checks_complete|].
    intros k'' [k' ->]%elem_of_checks Hm'.
    apply check_matches_range in Hm, Hm'. rewrite (Hpad k' k) in Hm'.
    f_equal. eapply (proj1 (headers_unambiguous (pc_headers c) Hok) Hv);
      [destruct k'; exact Hm'|destruct k; exact Hm].
  - intros Hno. f_equal. apply classify_loop_none. by intros k'' [k' ->]%elem_of_checks.
Qed.

(** When S1-S4 are equal (in particular for plain WireGuard framing) and
    the header ranges pass validation, classification is unambiguous for every
    kind and with or without random trailers: a datagram matching the row of
    kind [k] is classified as [k], and one matching no row is rejected. *)
Lemma classify_equal_paddings `{ChaCha20} c src :
  s1 (pc_paddings c) = s2 (pc_paddings c) → s2 (pc_paddings c) = s3 (pc_paddings c) →
  s3 (pc_paddings c) = s4 (pc_paddings c) →
  headers_ok (pc_headers c) → HeaderConfig_validate (pc_headers c) = Ok () →
  (∀ k, check_matches (pc_random_trailers c) (mask_of c src) src (check_of c k) = true →
     PacketClassifier_classify c src = Ok (Some (classified_as (mask_of c src) (check_of c k)))) ∧
  ((∀ k, check_matches (pc_random_trailers c) (mask_of c src) src (check_of c k) = false) →
     PacketClassifier_classify c src = Ok None).
Proof. apply classify_equal_rows. Qed.

(** With trailers the transport row is tried first. *)
Lemma classify_transport_first `{ChaCha20} c src :
  pc_random_trailers c = true →
  check_matches true (mask_of c src) src (transport_check c) = true →
  PacketClassifier_classify c src = Ok (Some (classified_as (mask_of c src) (transport_check c))).
Proof.
  intros Ht Hm. rewrite classify_eq. unfold classify_checks. rewrite Ht. cbn. by rewrite Hm.
Qed.

Definition sample_init_datagram : bytes :=
  replicate 12 5
  ++ xor_into (to_le 4 150) (chacha_keystream (H := sum_stream) (seqZ 1 32) (replicate 12 5) 4)
  ++ replicate 144 9.

(** ** Parsing *)

(** The four messages as bytes, laid out as the parser reads them; [macs] is the
    32-byte tail of a handshake message. *)
Definition init_bytes (ty : Z) (p : HandshakeInit) (macs : bytes) : bytes :=
  to_le 4 ty ++ to_le 4 (hi_sender_idx p) ++ hi_ephemeral p ++ hi_static p ++ hi_timestamp p ++ macs.
Definition response_bytes (ty : Z) (p : HandshakeResponse) (macs : bytes) : bytes :=
  to_le 4 ty ++ to_le 4 (hr_sender_idx p) ++ to_le 4 (hr_receiver_idx p) ++ hr_ephemeral p
  ++ hr_nothing p ++ macs.
Definition cookie_bytes (ty : Z) (p : PacketCookieReply) : bytes :=
  to_le 4 ty ++ to_le 4 (cr_receiver_idx p) ++ cr_nonce p ++ cr_cookie p.
Definition data_bytes (ty : Z) (p : PacketData) : bytes :=
  to_le 4 ty ++ to_le 4 (pd_receiver_idx p) ++ to_le 8 (pd_counter p) ++ pd_payload p.

Definition init_wf (p : HandshakeInit) : Prop :=
  u32_ok (hi_sender_idx p) ∧ length (hi_ephemeral p) = 32%nat ∧
  length (hi_static p) = 48%nat ∧ length (hi_timestamp p) = 28%nat.
Definition response_wf (p : HandshakeResponse) : Prop :=
  u32_ok (hr_sender_idx p) ∧ u32_ok (hr_receiver_idx p) ∧
  length (hr_ephemeral p) = 32%nat ∧ length (hr_nothing p) = 16%nat.
Definition cookie_wf (p : PacketCookieReply) : Prop :=
  u32_ok (cr_receiver_idx p) ∧ length (cr_nonce p) = 24%nat ∧ length (cr_cookie p) = 32%nat.
Definition data_wf (p : PacketData) : Prop :=
  u32_ok (pd_receiver_idx p) ∧ u64_ok (pd_counter p) ∧ (16 ≤ length (pd_payload p))%nat.

(** Reading a field that starts after [l]. *)
Lemma slice_drop_app {A} (l k : list A) i j :
  (length l ≤ i)%nat → slice (l ++ k) i j = slice k (i - length l) (j - length l).
Proof.
  intros Hi. unfold slice. rewrite drop_app_ge by done. f_equal. lia.
Qed.

Lemma slice_take_app {A} (l k : list A) i j :
  i = O → j = length l → slice (l ++ k) i j = l.
Proof. intros -> ->. unfold slice. rewrite drop_0, Nat.sub_0_r. by apply take_app_exact. Qed.

Lemma slice_all {A} (l : list A) i j : i = O → j = length l → slice l i j = l.
Proof. intros -> ->. unfold slice. rewrite drop_0, Nat.sub_0_r. by apply take_ge. Qed.

(** Walk a slice through a concatenation of fields of known length. *)
Ltac fields :=
  repeat first
    [ rewrite slice_take_app by (len; lia)
    | rewrite slice_all by (len; lia)
    | rewrite slice_drop_app by (len; lia); len; cbn [Nat.sub] ].

Section parsing.
Context (hc : HeaderConfig) (ty : Z) (Hty : u32_ok ty).
Context (Hok : headers_ok hc) (Hv : HeaderConfig_validate hc = Ok ()).

Lemma other_ranges k k' :
  HeaderRange_contains (header_of hc k) ty = true → k' ≠ k →
  HeaderRange_contains (header_of hc k') ty = false.
Proof.
  intros Hk Hne. apply not_true_iff_false. intros Hk'. apply Hne.
  by eapply (proj1 (headers_unambiguous hc Hok) Hv).
Qed.

(** Resolve the range tests for a type field in the range of [k]. *)
Ltac ranges k Hr :=
  pose proof (other_ranges k HInit Hr) as Hri; pose proof (other_ranges k HResponse Hr) as Hrr;
  pose proof (other_ranges k HCookie Hr) as Hrc; pose proof (other_ranges k HTransport Hr) as Hrt;
  cbn in Hri, Hrr, Hrc, Hrt; rewrite ?Hri, ?Hrr, ?Hrc, ?Hrt by done; rewrite Hr; cbn [andb].

Lemma parse_data p :
  HeaderRange_contains (hc_transport hc) ty = true → data_wf p →
  parse_incoming_packet_config (data_bytes ty p) hc = Ok (PktData p).
Proof.
  intros Hr (Hi & Hc & Hl). unfold parse_incoming_packet_config.
  assert (length (data_bytes ty p) = 16 + length (pd_payload p))%nat as Hlen
    by (unfold data_bytes; len; lia).
  rewrite Hlen. rewrite decide_False by lia.
  replace (from_le (slice _ 0 4)) with ty by (unfold data_bytes; fields; by rewrite from_to_le32).
  ranges HTransport Hr. rewrite bool_decide_eq_true_2 by (unfold DATA_OVERHEAD_SZ; lia).
  destruct p as [i ct d]. unfold data_bytes in *. cbn in *. do 2 f_equal. f_equal;
    fields; [by apply from_to_le32|by apply from_to_le64|done].
Qed.

Lemma parse_cookie p :
  HeaderRange_contains (hc_cookie hc) ty = true → cookie_wf p →
  parse_incoming_packet_config (cookie_bytes ty p) hc = Ok (PktCookie p).
Proof.
  intros Hr (Hi & Hn & Hl). unfold parse_incoming_packet_config.
  assert (length (cookie_bytes ty p) = 64%nat) as Hlen by (unfold cookie_bytes; len; lia).
  rewrite Hlen. rewrite decide_False by lia.
  replace (from_le (slice _ 0 4)) with ty by (unfold cookie_bytes; fields; by rewrite from_to_le32).
  ranges HCookie Hr. rewrite bool_decide_eq_true_2 by done.
  destruct p as [i nonce cookie]. unfold cookie_bytes in *. cbn in *. do 2 f_equal. f_equal;
    fields; [by apply from_to_le32|done|done].
Qed.

Lemma parse_init p macs :
  HeaderRange_contains (hc_init hc) ty = true → init_wf p → length macs = 32%nat →
  parse_incoming_packet_config (init_bytes ty p macs) hc = Ok (PktInit p).
Proof.
  intros Hr (Hi & He & Hs & Ht) Hm. unfold parse_incoming_packet_config.
  assert (length (init_bytes ty p macs) = 148%nat) as Hlen by (unfold init_bytes; len; lia).
  rewrite Hlen. rewrite decide_False by lia.
  replace (from_le (slice _ 0 4)) with ty by (unfold init_bytes; fields; by rewrite from_to_le32).
  ranges HInit Hr. rewrite bool_decide_eq_true_2 by done.
  destruct p as [i e st t]. unfold init_bytes in *. cbn in *. do 2 f_equal. f_equal;
    fields; [by apply from_to_le32|done..].
Qed.

Lemma parse_response p macs :
  HeaderRange_contains (hc_response hc) ty = true → response_wf p → length macs = 32%nat →
  parse_incoming_packet_config (response_bytes ty p macs) hc = Ok (PktResponse p).
Proof.
  intros Hr (Hi & Hj & He & Hn) Hm. unfold parse_incoming_packet_config.
  assert (length (response_bytes ty p macs) = 92%nat) as Hlen by (unfold response_bytes; len; lia).
  rewrite Hlen. rewrite decide_False by lia.
  replace (from_le (slice _ 0 4)) with ty
    by (unfold response_bytes; fields; by rewrite from_to_le32).
  ranges HResponse Hr. rewrite bool_decide_eq_true_2 by done.
  destruct p as [i j e n]. unfold response_bytes in *. cbn in *. do 2 f_equal. f_equal;
    fields; [by apply from_to_le32|by apply from_to_le32|done..].
Qed.
End parsing.

Definition packet_kind (p : Packet) : HeaderKind :=
  match p with
  | PktInit _ => HInit | PktResponse _ => HResponse
  | PktCookie _ => HCookie | PktData _ => HTransport
  end.
Definition packet_wf (p : Packet) : Prop :=
  match p with
  | PktInit p => init_wf p | PktResponse p => response_wf p
  | PktCookie p => cookie_wf p | PktData p => data_wf p
  end.
Definition packet_bytes (ty : Z) (p : Packet) (macs : bytes) : bytes :=
  match p with
  | PktInit p => init_bytes ty p macs | PktResponse p => response_bytes ty p macs
  | PktCookie p => cookie_bytes ty p | PktData p => data_bytes ty p
  end.

(** Whatever the parser accepts has fields of the layout's sizes. *)
Lemma parse_wf src hc p :
  bytes_ok src → parse_incoming_packet_config src hc = Ok p → packet_wf p.
Proof.
  intros Hs. unfold parse_incoming_packet_config, HANDSHAKE_INIT_SZ, HANDSHAKE_RESP_SZ,
    COOKIE_REPLY_SZ, DATA_OVERHEAD_SZ.
  assert (∀ i, (i + 4 ≤ length src)%nat → u32_ok (from_le (slice src i (i + 4)))) as H4.
  { intros i Hi. pose proof (from_le_range (slice src i (i + 4)) ltac:(by apply bytes_ok_slice)) as H.
    rewrite length_slice in H by lia. replace (i + 4 - i)%nat with 4%nat in H by lia. done. }
  destruct (decide _); [done|].
  repeat (destruct (HeaderRange_contains _ _ && _) eqn:E;
    [apply andb_true_iff in E as [_ E%bool_decide_eq_true_1]; intros [= <-]|clear E]); [..|done];
    repeat split; cbn; rewrite ?length_slice by lia; try lia;
    try (apply H4; lia); try (pose proof (H4 4%nat ltac:(lia)); done);
    try (pose proof (H4 8%nat ltac:(lia)); done).
  - apply (from_le_range (slice src 8 16)). by apply bytes_ok_slice.
  - pose proof (from_le_range (slice src 8 16) ltac:(by apply bytes_ok_slice)) as H.
    rewrite length_slice in H by lia. apply H.
Qed.

Definition payload_len (p : Packet) : nat :=
  match p with PktData d => length (pd_payload d) | _ => O end.

Lemma parse_payload src hc p :
  parse_incoming_packet_config src hc = Ok p → (payload_len p ≤ length src)%nat.
Proof.
  unfold parse_incoming_packet_config. destruct (decide _); [done|].
  repeat (destruct (HeaderRange_contains _ _ && _); [intros [= <-]; cbn; try lia|]); [|done].
  rewrite length_slice by lia. lia.
Qed.

Lemma parse_no_panic src hc : parse_incoming_packet_config src hc ≠ Panic.
Proof.
  unfold parse_incoming_packet_config. destruct (decide _); [done|].
  by repeat destruct (_ && _).
Qed.

(** Parsing is the inverse of the wire layout: with header ranges that
    pass validation, the bytes of a message whose type field lies in its own
    kind's range parse to exactly that message, for all four kinds. *)
Lemma parse_packet_bytes hc ty p macs :
  headers_ok hc → HeaderConfig_validate hc = Ok () → u32_ok ty →
  HeaderRange_contains (header_of hc (packet_kind p)) ty = true →
  packet_wf p → length macs = 32%nat →
  parse_incoming_packet_config (packet_bytes ty p macs) hc = Ok p.
Proof.
  intros. destruct p; cbn in *;
    [apply parse_init|apply parse_response|apply parse_cookie|apply parse_data]; done.
Qed.

