(* ===== verification/Ip.v ===== *)
(** * Ip: addresses and their text forms

    The part of [std::net] the device uses: [IpAddr] and [SocketAddr] with their
    [FromStr] and [Display], and [AllowedIP::from_str] of
    [awgtun/src/device/peer.rs].  [IpAddr] itself is declared in [Packet].

    The readers follow [core::net::parser]: a reader returns the value and the
    input left, or [None] with the input unread. *)

From Stdlib Require Import ZArith Lia.
From stdpp Require Import base list option strings sets tactics countable.
From S2P Require Import Prelude Text Packet.
Open Scope Z_scope.

(** ** Addresses *)
Definition ip_ok (ip : IpAddr) : Prop :=
  match ip with
  | V4 o => length o = 4%nat ∧ bytes_ok o
  | V6 o => length o = 16%nat ∧ bytes_ok o
  end.
#[export] Instance ip_ok_dec ip : Decision (ip_ok ip).
Proof. destruct ip; cbn; apply _. Defined.

#[export] Instance IpAddr_countable : Countable IpAddr.
Proof.
  refine (inj_countable' (λ ip, match ip with V4 o => (true, o) | V6 o => (false, o) end)
    (λ p : bool * bytes, if p.1 then V4 p.2 else V6 p.2) _).
  by intros [].
Defined.

Definition is_ipv4 (ip : IpAddr) : bool := match ip with V4 _ => true | V6 _ => false end.
(** Bits of an address of this family. *)
Definition ip_bits (ip : IpAddr) : Z := if is_ipv4 ip then 32 else 128.
Definition octets (ip : IpAddr) : bytes := match ip with V4 o | V6 o => o end.

(** [SocketAddr]; an IPv6 one also carries a flow label and a scope. *)
Inductive SocketAddr :=
  | SockV4 (ip : bytes) (port : Z)
  | SockV6 (ip : bytes) (port flowinfo scope_id : Z).

#[export] Instance SocketAddr_eq_dec : EqDecision SocketAddr.
Proof. solve_decision. Defined.

Definition sock_port (s : SocketAddr) : Z :=
  match s with SockV4 _ p | SockV6 _ p _ _ => p end.
Definition sock_ip (s : SocketAddr) : IpAddr :=
  match s with SockV4 ip _ => V4 ip | SockV6 ip _ _ _ => V6 ip end.
Definition sock_ok (s : SocketAddr) : Prop := u16_ok (sock_port s) ∧ ip_ok (sock_ip s).

(** [Ipv6Addr::to_ipv4_mapped]: ::ffff:a.b.c.d. *)
Definition to_ipv4_mapped (ip : bytes) : option bytes :=
  if decide (take 12 ip = replicate 10 0 ++ [0xff; 0xff]) then Some (drop 12 ip) else None.

(** ** Reading *)
Definition Reader (A : Type) : Type := bytes → option (A * bytes).

Definition read_given_char (c : Z) : Reader () := λ s,
  match s with b :: s' => if b =? c then Some (tt, s') else None | [] => None end.

Definition read_separator {A} (sep : Z) (index : nat) (inner : Reader A) : Reader A := λ s,
  if decide (0 < index)%nat then '(_, s) ← read_given_char sep s; inner s else inner s.

(** The digits at the front of the input. *)
Fixpoint read_digits (radix : Z) (s : bytes) : list Z * bytes :=
  match s with
  | b :: s' =>
      match to_digit radix b with
      | Some d => let '(ds, r) := read_digits radix s' in (d :: ds, r)
      | None => ([], s)
      end
  | [] => ([], [])
  end.
Definition digits_value (radix : Z) (ds : list Z) : Z := foldl (λ acc d, acc * radix + d) 0 ds.

(** [read_number]: [max] bounds the value; a limit on digits fails as soon as
    one more is read. *)
Definition read_number (radix max : Z) (max_digits : option nat) (allow_zero_prefix : bool)
    : Reader Z := λ s,
  let '(ds, r) := read_digits radix s in
  if decide (ds = []) then None
  else if match max_digits with Some m => bool_decide (m < length ds)%nat | None => false end then None
  else if negb allow_zero_prefix && bool_decide (s !! 0%nat = Some 48)
          && bool_decide (1 < length ds)%nat then None
  else if digits_value radix ds <=? max then Some (digits_value radix ds, r) else None.

Definition read_octet (i : nat) : Reader Z := read_separator 46 i (read_number 10 u8_max (Some 3%nat) false).
Definition read_ipv4_addr : Reader bytes := λ s,
  '(a, s) ← read_octet 0 s;
  '(b, s) ← read_octet 1 s;
  '(c, s) ← read_octet 2 s;
  '(d, s) ← read_octet 3 s;
  Some ([a; b; c; d], s).

(** [read_groups]: [n] slots left of [limit], at slot [i].  The groups read,
    whether the last two came from an embedded IPv4 address, and the rest. *)
Fixpoint read_groups (n i : nat) (s : bytes) : list Z * bool * bytes :=
  match n with
  | O => ([], false, s)
  | S n' =>
      match (if decide (0 < n')%nat then read_separator 58 i read_ipv4_addr s else None) with
      | Some (v4, s') => ([from_be (take 2 v4); from_be (drop 2 v4)], true, s')
      | None =>
          match read_separator 58 i (read_number 16 u16_max (Some 4%nat) true) s with
          | Some (g, s') => let '(gs, v4, r) := read_groups n' (S i) s' in (g :: gs, v4, r)
          | None => ([], false, s)
          end
      end
  end.

Definition segments_octets (gs : list Z) : bytes := gs ≫= to_be 2.

Definition read_ipv6_addr : Reader bytes := λ s,
  let '(head, head_ipv4, s) := read_groups 8 0 s in
  if decide (length head = 8)%nat then Some (segments_octets head, s)
  else if (head_ipv4 : bool) then None
  else
    '(_, s) ← read_given_char 58 s;
    '(_, s) ← read_given_char 58 s;
    let '(tail, _, s) := read_groups (8 - (length head + 1)) 0 s in
    Some (segments_octets (head ++ replicate (8 - length head - length tail) 0 ++ tail), s).

Definition read_ip_addr : Reader IpAddr := λ s,
  match read_ipv4_addr s with
  | Some (o, s) => Some (V4 o, s)
  | None => '(o, s) ← read_ipv6_addr s; Some (V6 o, s)
  end.

Definition read_port : Reader Z := λ s,
  '(_, s) ← read_given_char 58 s; read_number 10 u16_max None true s.
Definition read_scope_id : Reader Z := λ s,
  '(_, s) ← read_given_char 37 s; read_number 10 u32_max None true s.

Definition read_socket_addr_v4 : Reader SocketAddr := λ s,
  '(ip, s) ← read_ipv4_addr s; '(port, s) ← read_port s; Some (SockV4 ip port, s).
Definition read_socket_addr_v6 : Reader SocketAddr := λ s,
  '(_, s) ← read_given_char 91 s;
  '(ip, s) ← read_ipv6_addr s;
  let '(scope, s) := default (0, s) (read_scope_id s) in
  '(_, s) ← read_given_char 93 s;
  '(port, s) ← read_port s;
  Some (SockV6 ip port 0 scope, s).
Definition read_socket_addr : Reader SocketAddr := λ s,
  match read_socket_addr_v4 s with Some x => Some x | None => read_socket_addr_v6 s end.

(** [parse_with]: the whole text must be read. *)
Definition parse_with {A} (r : Reader A) (s : bytes) : option A :=
  match r s with Some (a, []) => Some a | _ => None end.
Definition parse_ip_addr : bytes → option IpAddr := parse_with read_ip_addr.
Definition parse_socket_addr : bytes → option SocketAddr := parse_with read_socket_addr.

(** ** Printing *)
Fixpoint hex_go (fuel : nat) (n : Z) (acc : bytes) : bytes :=
  match fuel with
  | O => acc
  | S f => let acc := hex_digit (n mod 16) :: acc in if n <? 16 then acc else hex_go f (n / 16) acc
  end.
(** [{:x}] of a [u16]. *)
Definition print_hex16 (n : Z) : bytes := hex_go 4 n [].

Fixpoint join (sep : Z) (l : list bytes) : bytes :=
  match l with
  | [] => []
  | [a] => a
  | a :: l' => a ++ sep :: join sep l'
  end.

Definition print_ipv4 (o : bytes) : bytes := join 46 (print_dec <$> o).

(** The first longest run of zero segments, as [(start, len)]. *)
Fixpoint longest_zeroes (i : nat) (current longest : nat * nat) (segments : list Z) : nat * nat :=
  match segments with
  | [] => longest
  | s :: rest =>
      if s =? 0 then
        let current := if decide (current.2 = 0)%nat then (i, 1%nat) else (current.1, S current.2) in
        longest_zeroes (S i) current
          (if decide (longest.2 < current.2)%nat then current else longest) rest
      else longest_zeroes (S i) (0, 0)%nat longest rest
  end.

Fixpoint segments_of (o : bytes) : list Z :=
  match o with
  | a :: b :: o' => from_be [a; b] :: segments_of o'
  | _ => []
  end.

Definition print_segments (gs : list Z) : bytes := join 58 (print_hex16 <$> gs).

Definition print_ipv6 (o : bytes) : bytes :=
  match to_ipv4_mapped o with
  | Some v4 => bs "::ffff:" ++ print_ipv4 v4
  | None =>
      let segments := segments_of o in
      let '(start, len) := longest_zeroes 0 (0, 0)%nat (0, 0)%nat segments in
      if decide (1 < len)%nat
      then print_segments (take start segments) ++ bs "::" ++ print_segments (drop (start + len) segments)
      else print_segments segments
  end.

Definition print_ip (ip : IpAddr) : bytes :=
  match ip with V4 o => print_ipv4 o | V6 o => print_ipv6 o end.
Definition print_socket_addr (a : SocketAddr) : bytes :=
  match a with
  | SockV4 o p => print_ipv4 o ++ [58] ++ print_dec p
  | SockV6 o p _ scope =>
      bs "[" ++ print_ipv6 o ++ (if scope =? 0 then [] else bs "%" ++ print_dec scope)
      ++ bs "]:" ++ print_dec p
  end.

(** ** [AllowedIP] *)
Record AllowedIP := mkAllowedIP { ai_addr : IpAddr; ai_cidr : Z }.

#[export] Instance AllowedIP_eq_dec : EqDecision AllowedIP.
Proof. solve_decision. Defined.

Definition AllowedIP_from_str (s : bytes) : result string AllowedIP :=
  match split 47 s with
  | [a; c] =>
      match parse_ip_addr a, parse_u8 c with
      | Some addr, Ok cidr =>
          if (is_ipv4 addr && (cidr <=? 32)) || (negb (is_ipv4 addr) && (cidr <=? 128))
          then Ok (mkAllowedIP addr cidr)
          else Err "Invalid IP format"%string
      | _, _ => Err "Invalid IP format"%string
      end
  | _ => Err "Invalid IP format"%string
  end.

(** ** Known addresses *)
Example parse_ip_v4 : parse_ip_addr (bs "203.0.113.9") = Some (V4 [203; 0; 113; 9]).
Proof. reflexivity. Qed.
Example parse_ip_v4_octal : parse_ip_addr (bs "010.0.0.1") = None.
Proof. reflexivity. Qed.
Example parse_ip_v6 :
  parse_ip_addr (bs "2001:db8::1") = Some (V6 [0x20; 1; 0xd; 0xb8; 0; 0; 0; 0; 0; 0; 0; 0; 0; 0; 0; 1]).
Proof. reflexivity. Qed.
Example parse_ip_mapped :
  parse_ip_addr (bs "::ffff:10.0.0.1")
  = Some (V6 (replicate 10 0 ++ [255; 255; 10; 0; 0; 1])).
Proof. reflexivity. Qed.
Example parse_socket_v6 :
  parse_socket_addr (bs "[fe80::1%3]:51820")
  = Some (SockV6 ([0xfe; 0x80] ++ replicate 13 0 ++ [1]) 51820 0 3).
Proof. reflexivity. Qed.
Example print_ip_v6 :
  print_ip (V6 [0x20; 1; 0xd; 0xb8; 0; 0; 0; 0; 0; 1; 0; 0; 0; 0; 0; 1]) = bs "2001:db8::1:0:0:1".
Proof. reflexivity. Qed.
Example allowed_ip_v6 : AllowedIP_from_str (bs "::/0") = Ok (mkAllowedIP (V6 (replicate 16 0)) 0).
Proof. reflexivity. Qed.

(** ** What is read is well formed *)
Lemma read_number_range radix max m z s n r :
  read_number radix max m z s = Some (n, r) → n ≤ max.
Proof.
  unfold read_number. destruct (read_digits radix s) as [ds t].
  repeat case_decide; try done; repeat case_match; intros; simplify_eq; lia.
Qed.

Lemma to_digit_pos radix b d : to_digit radix b = Some d → 0 ≤ d.
Proof. unfold to_digit. repeat case_match; intros; simplify_eq; lia. Qed.

Lemma read_number_pos radix max m z s n r :
  0 ≤ radix → read_number radix max m z s = Some (n, r) → 0 ≤ n.
Proof.
  intros Hr. unfold read_number. destruct (read_digits radix s) as [ds t] eqn:E.
  assert (Hpos : 0 ≤ digits_value radix ds).
  { assert (Hds : Forall (λ d, 0 ≤ d) ds).
    { revert ds t E. induction s as [|b s IH]; intros ds t E; cbn [read_digits] in E; [simplify_eq; constructor|].
      destruct (to_digit radix b) as [d|] eqn:Hd; [|simplify_eq; constructor].
      destruct (read_digits radix s) as [ds' t']. simplify_eq.
      constructor; [by eapply to_digit_pos|by eapply IH]. }
    unfold digits_value. cut (∀ acc, 0 ≤ acc → 0 ≤ foldl (λ acc d, acc * radix + d) acc ds); [intros H; by apply H|].
    clear E. induction Hds as [|d ds Hd _ IH]; intros acc Hacc; cbn [foldl]; [done|]. apply IH. nia. }
  repeat case_decide; try done; repeat case_match; intros; simplify_eq; lia.
Qed.

Lemma read_ipv4_addr_ok s o r : read_ipv4_addr s = Some (o, r) → length o = 4%nat ∧ bytes_ok o.
Proof.
  unfold read_ipv4_addr. intros H.
  assert (Hoct : ∀ i s n r, read_octet i s = Some (n, r) → u8_ok n).
  { clear. intros i s n r H. unfold read_octet, read_separator in H.
    assert (∃ s', read_number 10 u8_max (Some 3%nat) false s' = Some (n, r)) as [s' H'].
    { case_decide; [|by exists s]. apply bind_Some in H as ([[] s'] & _ & H'). by exists s'. }
    pose proof (read_number_range _ _ _ _ _ _ _ H'). apply read_number_pos in H'; [|lia]. width_lia. }
  apply bind_Some in H as ([a s1] & Ha & H). apply bind_Some in H as ([b s2] & Hb & H).
  apply bind_Some in H as ([c s3] & Hc & H). apply bind_Some in H as ([d s4] & Hd & H). simplify_eq.
  split; [done|]. repeat constructor; by eapply Hoct.
Qed.

Lemma segments_octets_ok gs : length (segments_octets gs) = (2 * length gs)%nat ∧ bytes_ok (segments_octets gs).
Proof.
  unfold segments_octets. induction gs as [|g gs [IHl IHb]]; [split; [done|constructor]|].
  rewrite bind_cons. split; [rewrite length_app, length_to_be; cbn [length]; lia|].
  apply Forall_app. split; [apply bytes_ok_to_be|done].
Qed.

Lemma read_groups_length n i s : (length (read_groups n i s).1.1 ≤ n)%nat.
Proof.
  revert i s. induction n as [|n IH]; intros i s; cbn [read_groups]; [done|].
  case_decide as Hn.
  - destruct (read_separator 58 i read_ipv4_addr s) as [[v4 s']|]; [cbn; lia|].
    destruct (read_separator _ _ _ _) as [[g s']|]; [|cbn; lia].
    specialize (IH (S i) s'). destruct (read_groups n (S i) s') as [[gs b] r]. cbn in *. lia.
  - destruct (read_separator _ _ _ _) as [[g s']|]; [|cbn; lia].
    specialize (IH (S i) s'). destruct (read_groups n (S i) s') as [[gs b] r]. cbn in *. lia.
Qed.

Lemma read_ipv6_addr_ok s o r : read_ipv6_addr s = Some (o, r) → length o = 16%nat ∧ bytes_ok o.
Proof.
  unfold read_ipv6_addr. pose proof (read_groups_length 8 0 s) as Hh.
  destruct (read_groups 8 0 s) as [[head v4] s1]. cbn [fst] in Hh.
  case_decide as H8; [intros; simplify_eq; destruct (segments_octets_ok head); split; [lia|done]|].
  destruct v4; [done|]. intros H. apply bind_Some in H as ([[] s2] & _ & H).
  apply bind_Some in H as ([[] s3] & _ & H).
  pose proof (read_groups_length (8 - (length head + 1)) 0 s3) as Ht.
  destruct (read_groups _ 0 s3) as [[tail b] s4]. cbn [fst] in Ht. simplify_eq.
  destruct (segments_octets_ok (head ++ replicate (8 - length head - length tail) 0 ++ tail)) as [Hl Hb].
  split; [|done]. rewrite Hl, !length_app, length_replicate. lia.
Qed.

Lemma parse_ip_addr_ok s ip : parse_ip_addr s = Some ip → ip_ok ip.
Proof.
  unfold parse_ip_addr, parse_with, read_ip_addr.
  destruct (read_ipv4_addr s) as [[o r]|] eqn:E4.
  - destruct r; [|done]. intros [= <-]. by apply read_ipv4_addr_ok in E4.
  - destruct (read_ipv6_addr s) as [[o r]|] eqn:E6; cbn; [|done]. destruct r; [|done].
    intros [= <-]. by apply read_ipv6_addr_ok in E6.
Qed.
