(* ===== verification/AllowedIps.v ===== *)
(** * AllowedIps: the routing table of addresses

    Models [awgtun/src/device/allowed_ips.rs].  The trie (crate
    [ip_network_table]) and the network type (crate [ip_network]) are the class
    [IpNetworkTable]: exact lookup, insertion, [retain], iteration, and that
    [longest_match] returns an entry of maximal prefix among those that contain
    the address.  [PrefixMap] is an instance: a finite map searched from the
    longest prefix down. *)

From Stdlib Require Import ZArith Lia.
From stdpp Require Import base list option strings sets tactics countable gmap fin_maps.
From S2P Require Import Prelude Text Packet Ip.
Open Scope Z_scope.

(** ** Networks *)
Record IpNetwork := mkIpNetwork { network_address : IpAddr; netmask : Z }.

#[export] Instance IpNetwork_eq_dec : EqDecision IpNetwork.
Proof. solve_decision. Defined.
#[export] Instance IpNetwork_countable : Countable IpNetwork.
Proof.
  by refine (inj_countable' (λ n, (network_address n, netmask n))
    (λ p, mkIpNetwork p.1 p.2) _); intros [].
Defined.

(** An address with the bits after the first [c] cleared. *)
Definition truncate (ip : IpAddr) (c : Z) : IpAddr :=
  let clear o := to_be (length o) (from_be o / 2 ^ (ip_bits ip - c) * 2 ^ (ip_bits ip - c)) in
  match ip with V4 o => V4 (clear o) | V6 o => V6 (clear o) end.

Definition contains (n : IpNetwork) (ip : IpAddr) : bool :=
  (0 <=? netmask n) && (netmask n <=? ip_bits ip)
  && bool_decide (truncate ip (netmask n) = network_address n).

Lemma contains_truncate ip c : 0 ≤ c ≤ ip_bits ip → contains (mkIpNetwork (truncate ip c) c) ip = true.
Proof. intros Hc. unfold contains. cbn. rewrite bool_decide_true by done. lia. Qed.

(** ** The trie *)
Class IpNetworkTable := {
  (** [IpNetwork::new_truncate]. *)
  new_truncate : IpAddr → Z → option IpNetwork;
  new_truncate_ok ip c : 0 ≤ c ≤ ip_bits ip →
    new_truncate ip c = Some (mkIpNetwork (truncate ip c) c);
  new_truncate_long ip c : ip_bits ip < c → new_truncate ip c = None;

  table : Type → Type;
  table_new {D} : table D;
  exact_match {D} : table D → IpNetwork → option D;
  table_insert {D} : table D → IpNetwork → D → option D * table D;
  longest_match {D} : table D → IpAddr → option (IpNetwork * D);
  retain {D} : table D → (IpNetwork → D → bool) → table D;
  table_iter {D} : table D → list (IpNetwork * D);

  match_new {D} n : exact_match (table_new (D := D)) n = None;
  match_insert {D} (t : table D) n d m :
    exact_match (table_insert t n d).2 m = if decide (n = m) then Some d else exact_match t m;
  insert_old {D} (t : table D) n d : (table_insert t n d).1 = exact_match t n;
  match_retain {D} (t : table D) f n :
    exact_match (retain t f) n =
    match exact_match t n with Some d => if f n d then Some d else None | None => None end;
  longest_match_some {D} (t : table D) ip n d :
    longest_match t ip = Some (n, d) →
    exact_match t n = Some d ∧ contains n ip = true
    ∧ ∀ m d', exact_match t m = Some d' → contains m ip = true → netmask m ≤ netmask n;
  longest_match_none {D} (t : table D) ip :
    longest_match t ip = None → ∀ n d, exact_match t n = Some d → contains n ip = false;
  table_iter_match {D} (t : table D) n d : (n, d) ∈ table_iter t ↔ exact_match t n = Some d;
  table_iter_nodup {D} (t : table D) : NoDup (table_iter t).*1
}.

(** ** [AllowedIps] *)
Section allowed_ips.
Context `{TB : IpNetworkTable}.

Definition AllowedIps (D : Type) : Type := table D.

Definition AllowedIps_new {D} : AllowedIps D := table_new.
Definition AllowedIps_clear {D} (t : AllowedIps D) : AllowedIps D := table_new.

(** [insert]: [expect] on a prefix too long for the address. *)
Definition AllowedIps_insert {E D} (t : AllowedIps D) (key : IpAddr) (cidr : Z) (data : D)
    : result E (option D * AllowedIps D) :=
  match new_truncate key (wrap 8 cidr) with
  | Some n => Ok (table_insert t n data)
  | None => Panic
  end.

Definition AllowedIps_find {D} (t : AllowedIps D) (key : IpAddr) : option D :=
  snd <$> longest_match t key.

Definition AllowedIps_remove {D} (t : AllowedIps D) (predicate : D → bool) : AllowedIps D :=
  retain t (λ _ v, negb (predicate v)).

Definition AllowedIps_iter {D} (t : AllowedIps D) : list (D * IpAddr * Z) :=
  (λ '(n, d), (d, network_address n, netmask n)) <$> table_iter t.

Fixpoint insert_all {E D} (t : AllowedIps D) (l : list (AllowedIP * D)) : result E (AllowedIps D) :=
  match l with
  | [] => Ok t
  | (ip, data) :: l' => '(_, t) ← AllowedIps_insert t (ai_addr ip) (ai_cidr ip) data; insert_all t l'
  end.
Definition AllowedIps_from_iter {E D} (l : list (AllowedIP * D)) : result E (AllowedIps D) :=
  insert_all AllowedIps_new l.
End allowed_ips.
#[global] Arguments AllowedIps {TB} D.

(** ** An instance *)
Module PrefixMap.
Definition longest {D} (t : gmap IpNetwork D) (ip : IpAddr) : nat → option (IpNetwork * D) :=
  fix go c :=
    let n := mkIpNetwork (truncate ip (Z.of_nat c)) (Z.of_nat c) in
    match t !! n with
    | Some d => Some (n, d)
    | None => match c with O => None | S c' => go c' end
    end.

Section longest.
Context {D : Type} (t : gmap IpNetwork D) (ip : IpAddr).

Lemma longest_some c n d :
  longest t ip c = Some (n, d) → Z.of_nat c ≤ ip_bits ip →
  t !! n = Some d ∧ contains n ip = true ∧ netmask n ≤ Z.of_nat c
  ∧ ∀ m d', t !! m = Some d' → contains m ip = true → netmask m ≤ Z.of_nat c → netmask m ≤ netmask n.
Proof.
  induction c as [|c IH]; cbn [longest]; intros H Hc;
    (destruct (t !! mkIpNetwork _ _) as [d0|] eqn:Hl;
      [injection H as <- <-; split_and!; [done|by apply contains_truncate; lia|done|by intros]|]).
  - done.
  - destruct IH as (? & ? & ? & Hmax); [done|lia|]. split_and!; [done|done|lia|].
    intros m d' Hm Hcm Hle. destruct (decide (netmask m = Z.of_nat (S c))) as [E|]; [|eapply Hmax; eauto; lia].
    exfalso. unfold contains in Hcm. apply andb_true_iff in Hcm as [_ Ha%bool_decide_eq_true].
    rewrite E in Ha. destruct m as [a k]. cbn [network_address netmask] in *. by simplify_eq.
Qed.

Lemma longest_none c :
  longest t ip c = None → ∀ n d, t !! n = Some d → netmask n ≤ Z.of_nat c → contains n ip = false.
Proof.
  induction c as [|c IH]; cbn [longest]; intros H n d Hn Hle;
    (destruct (t !! mkIpNetwork _ _) as [d0|] eqn:Hl; [done|]);
    apply not_true_iff_false; unfold contains;
    rewrite !andb_true_iff, bool_decide_eq_true; intros [[H0 Hb] Ha].
  - replace (netmask n) with (Z.of_nat 0) in Ha by lia. destruct n as [a k]. cbn [network_address netmask] in *.
    replace k with 0 in * by lia. subst a. change (Z.of_nat 0) with 0 in *. congruence.
  - destruct (decide (netmask n = Z.of_nat (S c))) as [E|].
    + rewrite E in Ha. destruct n as [a k]. cbn [network_address netmask] in *. by simplify_eq.
    + specialize (IH H n d Hn ltac:(lia)). unfold contains in IH.
      rewrite bool_decide_true in IH by done. lia.
Qed.
End longest.

Definition trie : IpNetworkTable.
Proof.
  refine {|
    new_truncate ip c :=
      if (0 <=? c) && (c <=? ip_bits ip) then Some (mkIpNetwork (truncate ip c) c) else None;
    table D := gmap IpNetwork D;
    table_new D := ∅;
    exact_match D t n := t !! n;
    table_insert D t n d := (t !! n, <[n := d]> t);
    longest_match D t ip := longest t ip (Z.to_nat (ip_bits ip));
    retain D t f := map_imap (λ n d, if f n d then Some d else None) t;
    table_iter D t := map_to_list t
  |}.
  - intros ip c Hc. replace ((0 <=? c) && (c <=? ip_bits ip)) with true by lia. done.
  - intros ip c Hc. replace (c <=? ip_bits ip) with false by lia. by rewrite andb_false_r.
  - intros D n. apply lookup_empty.
  - intros D t n d m. cbn. case_decide as E; [subst; by rewrite lookup_insert_eq|].
    by rewrite lookup_insert_ne.
  - done.
  - intros D t f n. rewrite map_lookup_imap. by destruct (t !! n).
  - intros D t ip n d Hl.
    assert (Hb : Z.of_nat (Z.to_nat (ip_bits ip)) = ip_bits ip) by (by destruct ip).
    apply longest_some in Hl as (? & ? & ? & Hmax); [|lia]. split_and!; [done|done|].
    intros m d' Hm Hc. eapply Hmax; eauto. unfold contains in Hc. lia.
  - intros D t ip Hl n d Hn.
    assert (Hb : Z.of_nat (Z.to_nat (ip_bits ip)) = ip_bits ip) by (by destruct ip).
    destruct (decide (netmask n ≤ ip_bits ip)); [eapply longest_none; eauto; lia|].
    unfold contains. lia.
  - intros D t n d. apply elem_of_map_to_list.
  - intros D t. apply NoDup_fst_map_to_list.
Defined.
End PrefixMap.

(** ** The routing specification

    What the table promises, said on address bits and without a trie: the state
    is the list of the entries in force, an insertion replaces the entry of the
    same network, a removal drops the entries whose value satisfies the
    predicate, and a lookup answers the value of the longest prefix that covers
    the address. *)
Definition covers (a : AllowedIP) (ip : IpAddr) : bool :=
  bool_decide (is_ipv4 (ai_addr a) = is_ipv4 ip)
  && (from_be (octets (ai_addr a)) / 2 ^ (ip_bits ip - ai_cidr a)
      =? from_be (octets ip) / 2 ^ (ip_bits ip - ai_cidr a)).

Definition same_network (a b : AllowedIP) : bool :=
  (ai_cidr a =? ai_cidr b) && covers a (ai_addr b).

Definition spec_insert {D} (l : list (AllowedIP * D)) (a : AllowedIP) (d : D) : list (AllowedIP * D) :=
  (a, d) :: filter (λ x, same_network a x.1 = false) l.
Definition spec_remove {D} (l : list (AllowedIP * D)) (p : D → bool) : list (AllowedIP * D) :=
  filter (λ x, p x.2 = false) l.
Fixpoint spec_best {D} (l : list (AllowedIP * D)) (ip : IpAddr) : option (Z * D) :=
  match l with
  | [] => None
  | (a, d) :: l' =>
      let rest := spec_best l' ip in
      if covers a ip && match rest with Some (c, _) => c <=? ai_cidr a | None => true end
      then Some (ai_cidr a, d) else rest
  end.
Definition spec_find {D} (l : list (AllowedIP * D)) (ip : IpAddr) : option D := snd <$> spec_best l ip.

Definition allowed_ok (a : AllowedIP) : Prop :=
  ip_ok (ai_addr a) ∧ 0 ≤ ai_cidr a ≤ ip_bits (ai_addr a).

(** Truncation and coverage agree. *)
Lemma ip_bits_octets ip : ip_ok ip → 2 ^ ip_bits ip = 256 ^ Z.of_nat (length (octets ip)).
Proof. destruct ip as [o|o]; intros [Hl _]; cbn [octets]; by rewrite Hl. Qed.

Lemma from_be_range o : bytes_ok o → 0 ≤ from_be o < 256 ^ Z.of_nat (length o).
Proof.
  intros Ho. unfold from_be. rewrite <- (length_reverse o). apply from_le_range. by apply Forall_reverse.
Qed.

Lemma ip_ok_octets ip : ip_ok ip → bytes_ok (octets ip).
Proof. by destruct ip; intros []. Qed.

Lemma div_mul_range x k n : 0 ≤ x < 2 ^ n → 0 ≤ k ≤ n → 0 ≤ x / 2 ^ k * 2 ^ k < 2 ^ n.
Proof.
  intros Hx Hk. pose proof (Z.pow_pos_nonneg 2 k ltac:(lia) ltac:(lia)).
  pose proof (Z.mul_div_le x (2 ^ k) ltac:(lia)). pose proof (Z.div_pos x (2 ^ k) ltac:(lia) ltac:(lia)). nia.
Qed.

Lemma truncate_covers a ip :
  allowed_ok a → ip_ok ip → ai_cidr a ≤ ip_bits ip →
  truncate (ai_addr a) (ai_cidr a) = truncate ip (ai_cidr a) ↔ covers a ip = true.
Proof.
  destruct a as [b c]. intros [Hb Hc] Hip Hle. cbn [ai_addr ai_cidr] in *.
  unfold covers. cbn [ai_addr ai_cidr]. rewrite andb_true_iff, bool_decide_eq_true, Z.eqb_eq.
  assert (Hclear : is_ipv4 b = is_ipv4 ip →
    to_be (length (octets b)) (from_be (octets b) / 2 ^ (ip_bits b - c) * 2 ^ (ip_bits b - c))
    = to_be (length (octets ip)) (from_be (octets ip) / 2 ^ (ip_bits ip - c) * 2 ^ (ip_bits ip - c))
    ↔ from_be (octets b) / 2 ^ (ip_bits ip - c) = from_be (octets ip) / 2 ^ (ip_bits ip - c)).
  { intros Hf. assert (Hbits : ip_bits b = ip_bits ip) by (unfold ip_bits; by rewrite Hf).
    assert (Hlen : length (octets b) = length (octets ip))
      by (destruct b as [o|o], ip as [o2|o2]; try done; cbn in *; lia).
    rewrite Hbits, Hlen in *. split; [|by intros ->].
    intros Heq%(f_equal from_be). rewrite !from_to_be, <- ip_bits_octets in Heq by done.
    pose proof (from_be_range _ (ip_ok_octets _ Hip)) as Hr.
    pose proof (from_be_range _ (ip_ok_octets _ Hb)) as Hr'.
    rewrite Hlen in Hr'. rewrite <- ip_bits_octets in Hr, Hr' by done.
    rewrite !Z.mod_small in Heq by (apply div_mul_range; lia).
    apply Z.mul_reg_r in Heq; [done|]. pose proof (Z.pow_pos_nonneg 2 (ip_bits ip - c)). lia. }
  destruct b as [o|o], ip as [o2|o2]; cbn in Hclear |- *; split; try (intros H; by discriminate H || by destruct H).
  - intros [= H]. split; [done|]. by apply Hclear.
  - intros [_ H]. f_equal. by apply Hclear.
  - intros [= H]. split; [done|]. by apply Hclear.
  - intros [_ H]. f_equal. by apply Hclear.
Qed.

(** A sequence of operations, on the table and on the specification. *)
Inductive TableOp (D : Type) := OpClear | OpInsert (a : AllowedIP) (d : D) | OpRemove (p : D → bool).
Arguments OpClear {D}.
Arguments OpInsert {D} a d.
Arguments OpRemove {D} p.

#[export] Instance allowed_ok_dec a : Decision (allowed_ok a).
Proof. unfold allowed_ok. apply _. Defined.

Definition op_ok {D} (o : TableOp D) : Prop := match o with OpInsert a _ => allowed_ok a | _ => True end.
#[export] Instance op_ok_dec {D} (o : TableOp D) : Decision (op_ok o).
Proof. destruct o; cbn; apply _. Defined.

Lemma Forall_filter_keep {A} (P Q : A → Prop) `{∀ x, Decision (Q x)} (l : list A) :
  Forall P l → Forall P (filter Q l).
Proof. rewrite !list.Forall_forall. intros Hl x [_ Hx]%list_elem_of_filter. by apply Hl. Qed.

Section refinement.
Context `{TB : IpNetworkTable} {E D : Type}.

Definition table_step (t : AllowedIps D) (o : TableOp D) : result E (AllowedIps D) :=
  match o with
  | OpClear => Ok (AllowedIps_clear t)
  | OpInsert a d => '(_, t) ← AllowedIps_insert t (ai_addr a) (ai_cidr a) d; Ok t
  | OpRemove p => Ok (AllowedIps_remove t p)
  end.
Fixpoint table_run (t : AllowedIps D) (os : list (TableOp D)) : result E (AllowedIps D) :=
  match os with [] => Ok t | o :: os' => t ← table_step t o; table_run t os' end.

Definition spec_step (l : list (AllowedIP * D)) (o : TableOp D) : list (AllowedIP * D) :=
  match o with
  | OpClear => []
  | OpInsert a d => spec_insert l a d
  | OpRemove p => spec_remove l p
  end.
Definition spec_run : list (AllowedIP * D) → list (TableOp D) → list (AllowedIP * D) := foldl spec_step.

(** The simulation: the table holds at a network the value of the entry the
    list has for it. *)
Definition prefix_of (ip : IpAddr) (c : Z) : IpNetwork := mkIpNetwork (truncate ip c) c.
Definition net_of (a : AllowedIP) : IpNetwork := prefix_of (ai_addr a) (ai_cidr a).
Definition simulates (t : AllowedIps D) (l : list (AllowedIP * D)) : Prop :=
  Forall (λ x, allowed_ok x.1) l ∧
  ∀ n d, exact_match t n = Some d ↔ ∃ a, (a, d) ∈ l ∧ net_of a = n.

Lemma net_of_covers a ip c :
  allowed_ok a → ip_ok ip → c ≤ ip_bits ip →
  net_of a = prefix_of ip c ↔ ai_cidr a = c ∧ covers a ip = true.
Proof.
  intros Ha Hip Hc. unfold net_of, prefix_of. split.
  - intros [= H1 <-]. split; [done|]. by apply truncate_covers.
  - intros [<- H]. f_equal. by apply truncate_covers.
Qed.

Lemma same_network_net a b : allowed_ok a → allowed_ok b → same_network a b = true ↔ net_of a = net_of b.
Proof.
  intros Ha Hb. unfold same_network. rewrite andb_true_iff, Z.eqb_eq.
  symmetry. apply net_of_covers; [done|apply Hb|apply Hb].
Qed.

Lemma covers_bits a ip : covers a ip = true → ip_bits (ai_addr a) = ip_bits ip.
Proof. unfold covers. rewrite andb_true_iff, bool_decide_eq_true. unfold ip_bits. by intros [-> _]. Qed.

Lemma net_of_contains a ip : allowed_ok a → ip_ok ip → contains (net_of a) ip = covers a ip.
Proof.
  intros Ha Hip. pose proof (proj2 Ha) as Hr. apply eq_true_iff_eq.
  unfold contains. cbn [net_of prefix_of netmask network_address].
  rewrite !andb_true_iff, bool_decide_eq_true. split.
  - intros [[_ Hb] Heq]. apply truncate_covers; [done..|lia|done].
  - intros Hc. pose proof (covers_bits _ _ Hc). split; [lia|]. symmetry. apply truncate_covers; [done..|lia|done].
Qed.

Lemma simulates_new : simulates AllowedIps_new [].
Proof.
  split; [done|]. intros n d. unfold AllowedIps_new. rewrite match_new.
  split; [done|]. by intros (a & Ha%elem_of_nil & _).
Qed.

Lemma simulates_insert t l a d :
  simulates t l → allowed_ok a →
  ∃ o t', AllowedIps_insert (E := E) t (ai_addr a) (ai_cidr a) d = Ok (o, t')
          ∧ simulates t' (spec_insert l a d).
Proof.
  intros [Hok Hsim] Ha. pose proof (proj2 Ha) as Hr.
  assert (Hb : ip_bits (ai_addr a) ≤ 128) by (by destruct (ai_addr a)).
  unfold AllowedIps_insert. rewrite wrap_small by (unfold u_ok; lia).
  rewrite new_truncate_ok by done. destruct (table_insert t _ d) as [o t'] eqn:Hi.
  exists o, t'. split; [done|]. split; [constructor; [done|by apply Forall_filter_keep]|].
  intros n e. change t' with (o, t').2. rewrite <- Hi, match_insert. fold (net_of a).
  unfold spec_insert. rewrite list.Forall_forall in Hok. case_decide as Heq.
  - split; [intros [= <-]; exists a; split; [left|done]|].
    intros (b & [[= _ ->]|[Hn Hin]%list_elem_of_filter]%elem_of_cons & Hnb); [done|].
    apply not_true_iff_false in Hn. destruct Hn. apply same_network_net; [done|by apply Hok in Hin|]. cbn [fst]. by rewrite Hnb.
  - rewrite Hsim. split; intros (b & Hin & Hnb); exists b; split; try done.
    + right. apply list_elem_of_filter. split; [|done]. apply not_true_iff_false. intros Hs. apply Heq.
      rewrite <- Hnb. apply same_network_net; [done|by apply Hok in Hin|done].
    + apply elem_of_cons in Hin as [[= -> ->]|[_ Hin]%list_elem_of_filter]; [by destruct Heq|done].
Qed.

Lemma simulates_remove t l p : simulates t l → simulates (AllowedIps_remove t p) (spec_remove l p).
Proof.
  intros [Hok Hsim]. split; [by apply Forall_filter_keep|].
  intros n d. unfold AllowedIps_remove, spec_remove. rewrite match_retain. split.
  - destruct (exact_match t n) as [e|] eqn:He; [|done]. destruct (p e) eqn:Hp; [done|]. cbn. intros [= <-].
    apply Hsim in He as (a & Hin & Hn). exists a. split; [|done]. by apply list_elem_of_filter.
  - intros (a & [Hp Hin]%list_elem_of_filter & Hn). cbn in Hp.
    rewrite (proj2 (Hsim n d)) by (by exists a). by rewrite Hp.
Qed.

Lemma simulates_run t l os :
  simulates t l → Forall op_ok os → ∃ t', table_run t os = Ok t' ∧ simulates t' (spec_run l os).
Proof.
  intros Hs Ho. revert t l Hs. induction Ho as [|o os Ho Hos IH]; intros t l Hs; [by exists t|].
  destruct o as [|a d|p]; cbn [table_run table_step spec_run foldl spec_step].
  - apply IH, simulates_new.
  - destruct (simulates_insert t l a d Hs Ho) as (o & t' & -> & Hs'). by apply IH.
  - by apply IH, simulates_remove.
Qed.

(** The fold finds an entry of maximal length among those that cover the address. *)
Lemma spec_best_max (l : list (AllowedIP * D)) ip :
  match spec_best l ip with
  | Some (c, d) =>
      (∃ a, (a, d) ∈ l ∧ ai_cidr a = c ∧ covers a ip = true)
      ∧ ∀ b e, (b, e) ∈ l → covers b ip = true → ai_cidr b ≤ c
  | None => ∀ b e, (b, e) ∈ l → covers b ip = false
  end.
Proof.
  induction l as [|[a d0] l IH]; [by intros b e ?%elem_of_nil|]. cbn [spec_best].
  assert (Hnew : (∃ x, (x, d0) ∈ (a, d0) :: l ∧ ai_cidr x = ai_cidr a ∧ covers x ip = covers a ip))
    by (exists a; split_and!; [left|done..]).
  destruct (covers a ip) eqn:Hcov; cbn [andb];
    [destruct (spec_best l ip) as [[c1 d1]|]; [destruct (Z.leb_spec c1 (ai_cidr a))|]
    |destruct (spec_best l ip) as [[c1 d1]|]].
  - split; [done|]. destruct IH as [_ IH].
    intros b e [[= -> ->]|Hin]%elem_of_cons Hb; [lia|]. specialize (IH b e Hin Hb). lia.
  - destruct IH as [(x & Hx & Hc) IH]. split; [exists x; split; [by right|done]|].
    intros b e [[= -> ->]|Hin]%elem_of_cons Hb; [lia|]. by apply (IH b e).
  - split; [done|]. intros b e [[= -> ->]|Hin]%elem_of_cons Hb; [lia|]. by rewrite (IH b e) in Hb.
  - destruct IH as [(x & Hx & Hc) IH]. split; [exists x; split; [by right|done]|].
    intros b e [[= -> ->]|Hin]%elem_of_cons Hb; [congruence|]. by apply (IH b e).
  - intros b e [[= -> ->]|Hin]%elem_of_cons; [done|]. by apply (IH b e).
Qed.

Lemma simulates_find t l ip : simulates t l → ip_ok ip → AllowedIps_find t ip = spec_find l ip.
Proof.
  intros [Hok Hsim] Hip. rewrite list.Forall_forall in Hok.
  assert (Hin : ∀ a d, (a, d) ∈ l → exact_match t (net_of a) = Some d ∧ contains (net_of a) ip = covers a ip).
  { intros a d Hin. split; [apply Hsim; by exists a|]. apply net_of_contains; [by apply Hok in Hin|done]. }
  pose proof (spec_best_max l ip) as Hbest. unfold AllowedIps_find, spec_find.
  destruct (longest_match t ip) as [[n d]|] eqn:Hl.
  - apply longest_match_some in Hl as (Hm & Hc & Hmax). apply Hsim in Hm as (a & Ha & <-).
    destruct (Hin a d Ha) as [_ Hca]. rewrite Hca in Hc.
    destruct (spec_best l ip) as [[c e]|]; [|by rewrite (Hbest a d Ha) in Hc].
    destruct Hbest as [(b & Hb & <- & Hcb) Hall]. cbn. f_equal.
    destruct (Hin b e Hb) as [Hmb Hcb']. rewrite Hcb in Hcb'.
    specialize (Hmax _ _ Hmb Hcb'). specialize (Hall a d Ha Hc). cbn [netmask net_of prefix_of] in Hmax.
    assert (Hab : net_of a = net_of b).
    { pose proof (covers_bits _ _ Hcb) as Hbits. destruct (Hok _ Ha), (Hok _ Hb). cbn [fst] in *.
      transitivity (prefix_of ip (ai_cidr b)); [|symmetry]; (apply net_of_covers; [done..|lia|split; [lia|done]]). }
    destruct (Hin a d Ha) as [Hma _]. rewrite Hab in Hma. congruence.
  - destruct (spec_best l ip) as [[c e]|]; [|done]. destruct Hbest as [(b & Hb & _ & Hcb) _].
    destruct (Hin b e Hb) as [Hm Hc]. by rewrite (longest_match_none _ _ Hl _ _ Hm), Hcb in Hc.
Qed.

(** C17: Longest-prefix routing.  For every sequence of clears, insertions of
    well-formed allowed IPs and removals, the table is built without a panic and
    a lookup of any address answers as the specification: the value of the
    longest prefix in force that covers the address, where an insertion of a
    network already present has replaced its value and a removal has dropped
    every entry whose value satisfied its predicate. *)
Theorem allowed_ips_refine_longest_prefix (os : list (TableOp D)) :
  Forall op_ok os →
  ∃ t, table_run AllowedIps_new os = Ok t
       ∧ ∀ ip, ip_ok ip → AllowedIps_find t ip = spec_find (spec_run [] os) ip.
Proof.
  intros Ho. destruct (simulates_run _ _ os simulates_new Ho) as (t & Ht & Hs).
  exists t. split; [done|]. intros ip Hip. by apply simulates_find.
Qed.
End refinement.

Module RoutingExample.
Definition ip4 (a b c d : Z) : IpAddr := V4 [a; b; c; d].
Definition ops : list (TableOp nat) :=
  [ OpInsert (mkAllowedIP (ip4 127 0 0 1) 32) 1%nat; OpInsert (mkAllowedIP (ip4 127 0 15 1) 16) 2%nat;
    OpInsert (mkAllowedIP (ip4 127 1 15 1) 24) 3%nat; OpInsert (mkAllowedIP (ip4 127 0 9 9) 16) 4%nat;
    OpRemove (Nat.eqb 3) ].
End RoutingExample.

Lemma allowed_ips_refine_longest_prefix_witness :
  ∃ t, table_run (TB := PrefixMap.trie) (E := unit) (AllowedIps_new (TB := PrefixMap.trie)) RoutingExample.ops = Ok t
       ∧ AllowedIps_find (TB := PrefixMap.trie) t (RoutingExample.ip4 127 0 0 1) = Some 1%nat
       ∧ AllowedIps_find (TB := PrefixMap.trie) t (RoutingExample.ip4 127 0 255 255) = Some 4%nat
       ∧ AllowedIps_find (TB := PrefixMap.trie) t (RoutingExample.ip4 127 1 15 255) = None.
Proof.
  destruct (allowed_ips_refine_longest_prefix (TB := PrefixMap.trie) (E := unit) RoutingExample.ops)
    as (t & Ht & Hf); [by apply (bool_decide_unpack _); vm_compute|].
  exists t. split; [exact Ht|].
  rewrite !Hf by (by apply (bool_decide_unpack _); vm_compute). split_and!; vm_compute; reflexivity.
Defined.

(** ** Allowed IPs read from text *)
Lemma AllowedIP_from_str_ok s a : AllowedIP_from_str s = Ok a → allowed_ok a.
Proof.
  unfold AllowedIP_from_str. destruct (split 47 s) as [|x [|c [|]]]; try done.
  destruct (parse_ip_addr x) as [addr|] eqn:Ex; [|done].
  destruct (parse_u8 c) as [cidr|e|] eqn:Ec; [|done..]. destruct (_ || _) eqn:Hb; [|done].
  intros <-%Ok_inj. split; [by apply parse_ip_addr_ok in Ex|]. cbn [ai_addr ai_cidr].
  unfold parse_u8 in Ec. apply from_str_radix_range in Ec; [|unfold u8_max; lia..].
  unfold ip_bits. destruct (is_ipv4 addr); cbn in Hb; lia.
Qed.

(** C30: An allowed IP accepted from text is well formed: an IPv4 address of four
    octets with a prefix of at most 32 bits, or an IPv6 address of sixteen octets
    with at most 128; so entering it into a routing table cannot hit the [expect]
    on the prefix length. *)
Theorem allowed_ip_text_well_formed `{TB : IpNetworkTable} {D} s a (t : AllowedIps D) (d : D) :
  AllowedIP_from_str s = Ok a →
  allowed_ok a ∧ is_ok (AllowedIps_insert (E := ()) t (ai_addr a) (ai_cidr a) d) = true.
Proof.
  intros Ha%AllowedIP_from_str_ok. split; [done|]. destruct Ha as [_ Hr].
  assert (ip_bits (ai_addr a) ≤ 128) by (by destruct (ai_addr a)).
  unfold AllowedIps_insert. rewrite wrap_small by (unfold u_ok; lia). by rewrite new_truncate_ok.
Qed.

Lemma allowed_ip_text_well_formed_witness :
  AllowedIP_from_str (bs "10.1.2.3/8") = Ok (mkAllowedIP (V4 [10; 1; 2; 3]) 8)
  ∧ is_ok (AllowedIps_insert (TB := PrefixMap.trie) (E := ()) (AllowedIps_new (TB := PrefixMap.trie))
      (V4 [10; 1; 2; 3]) 8 tt) = true.
Proof.
  split; [reflexivity|].
  exact (proj2 (allowed_ip_text_well_formed (TB := PrefixMap.trie) (bs "10.1.2.3/8")
    (mkAllowedIP (V4 [10; 1; 2; 3]) 8) AllowedIps_new tt eq_refl)).
Defined.
