(* ===== verification/Session.v ===== *)
(** * Session: transport sessions and the replay window

    Models [awgtun/src/noise/session.rs]: the bitmap of received counters
    ([ReceivingKeyCounterValidator]), [Session::format_packet_data] and
    [Session::receive_packet_data].  ChaCha20-Poly1305 (crate [ring]) is the
    class [Aead].  Counter arithmetic is the release-mode one, modulo 2^64.

    Shown: the bitmap implements the set of counters seen so far ([window],
    [mark_refines]); over any interleaving of receivers no counter is accepted
    twice; a packet formatted by one end is opened by the other; nonces never
    repeat. *)

From Stdlib Require Import ZArith Lia.
From stdpp Require Import base list option strings sets gmap tactics.
From S2P Require Import Prelude Random Amnezia Packet.
Open Scope Z_scope.

Definition DATA_OFFSET : nat := 16.
Definition AEAD_SIZE : nat := 16.
Definition WORD_SIZE : Z := 64.
Definition N_WORDS : Z := 16.
Definition N_BITS : Z := WORD_SIZE * N_WORDS.

Record ReceivingKeyCounterValidator := mkValidator {
  next : Z;
  receive_cnt : Z;
  bitmap : list Z
}.

Definition validator_default : ReceivingKeyCounterValidator :=
  mkValidator 0 0 (replicate (Z.to_nat N_WORDS) 0).

(** ** Bits of the map *)
Definition word_of (idx : Z) : nat := Z.to_nat (idx mod N_BITS / WORD_SIZE).
Definition bit_of (idx : Z) : Z := idx mod N_BITS mod WORD_SIZE.

Definition set_bit (bm : list Z) (idx : Z) : list Z :=
  <[word_of idx := Z.lor (nth (word_of idx) bm 0) (Z.shiftl 1 (bit_of idx))]> bm.
(** [!x] on a [u64]. *)
Definition not64 (x : Z) : Z := Z.lxor x u64_max.
Definition clear_bit (bm : list Z) (idx : Z) : list Z :=
  <[word_of idx := Z.land (nth (word_of idx) bm 0) (not64 (Z.shiftl 1 (bit_of idx)))]> bm.
Definition clear_word (bm : list Z) (idx : Z) : list Z := <[word_of idx := 0]> bm.
Definition check_bit (bm : list Z) (idx : Z) : bool :=
  Z.land (Z.shiftr (nth (word_of idx) bm 0) (bit_of idx)) 1 =? 1.

Definition will_accept (v : ReceivingKeyCounterValidator) (counter : Z)
    : result WireGuardError () :=
  if next v <=? counter then Ok ()
  else if wrap 64 (counter + N_BITS) <? next v then Err InvalidCounter
  else if check_bit (bitmap v) counter then Err DuplicateCounter
  else Ok ().

(** The three [while] loops that clear the skipped counters.  [i] grows by at
    least one per iteration and stays at most [counter], so [counter - i]
    iterations suffice. *)
Fixpoint clear_to_word (fuel : nat) (bm : list Z) (i counter : Z) : list Z * Z :=
  match fuel with
  | O => (bm, i)
  | S fuel' =>
      if negb (i mod WORD_SIZE =? 0) && (i <? counter)
      then clear_to_word fuel' (clear_bit bm i) (i + 1) counter
      else (bm, i)
  end.
Fixpoint clear_words (fuel : nat) (bm : list Z) (i counter : Z) : list Z * Z :=
  match fuel with
  | O => (bm, i)
  | S fuel' =>
      if i + WORD_SIZE <? counter
      then clear_words fuel' (clear_word bm i)
             (Z.land (i + WORD_SIZE) (wrap 64 (0 - WORD_SIZE))) counter
      else (bm, i)
  end.
Fixpoint clear_rest (fuel : nat) (bm : list Z) (i counter : Z) : list Z :=
  match fuel with
  | O => bm
  | S fuel' =>
      if i <? counter then clear_rest fuel' (clear_bit bm i) (i + 1) counter else bm
  end.

Definition clear_skipped (bm : list Z) (from counter : Z) : list Z :=
  let fuel := Z.to_nat (counter - from) in
  let '(bm, i) := clear_to_word fuel bm from counter in
  let '(bm, i) := clear_words fuel bm i counter in
  clear_rest fuel bm i counter.

Definition mark_did_receive (v : ReceivingKeyCounterValidator) (counter : Z)
    : result WireGuardError ReceivingKeyCounterValidator :=
  if wrap 64 (counter + N_BITS) <? next v then Err InvalidCounter
  else if counter =? next v then
    Ok (mkValidator (wrap 64 (next v + 1)) (receive_cnt v) (set_bit (bitmap v) counter))
  else if counter <? next v then
    if check_bit (bitmap v) counter then Err InvalidCounter
    else Ok (mkValidator (next v) (receive_cnt v) (set_bit (bitmap v) counter))
  else
    let bm :=
      if N_BITS <=? counter - next v then map (λ _, 0) (bitmap v)
      else clear_skipped (bitmap v) (next v) counter in
    Ok (mkValidator (wrap 64 (counter + 1)) (receive_cnt v) (set_bit bm counter)).

(** ** Sessions *)

(** [ring]'s CHACHA20_POLY1305: sealing appends a 16-byte tag, opening inverts it. *)
Class Aead := {
  aead_seal : bytes → bytes → bytes → bytes → bytes;
  aead_open : bytes → bytes → bytes → bytes → option bytes;
  aead_seal_length k n a p : length (aead_seal k n a p) = (length p + 16)%nat;
  aead_seal_ok k n a p : bytes_ok p → bytes_ok (aead_seal k n a p);
  aead_open_seal k n a p : bytes_ok p → aead_open k n a (aead_seal k n a p) = Some p;
  aead_open_length k n a c p : aead_open k n a c = Some p → length c = (length p + 16)%nat
}.

Record Session := mkSession {
  receiving_index : Z;
  sending_index : Z;
  receiver : bytes;
  sender : bytes;
  sending_key_counter : Z;
  receiving_key_counter : ReceivingKeyCounterValidator
}.

Definition Session_new (local_index peer_index : Z) (receiving_key sending_key : bytes) : Session :=
  mkSession local_index peer_index receiving_key sending_key 0 validator_default.

Definition Session_local_index (s : Session) : Z := receiving_index s.

Definition receiving_counter_quick_check (s : Session) (counter : Z) : result WireGuardError () :=
  will_accept (receiving_key_counter s) counter.

Definition receiving_counter_mark (s : Session) (counter : Z) : result WireGuardError Session :=
  v ← mark_did_receive (receiving_key_counter s) counter;
  Ok (mkSession (receiving_index s) (sending_index s) (receiver s) (sender s)
        (sending_key_counter s)
        (mkValidator (next v) (wrap 64 (receive_cnt v + 1)) (bitmap v))).

Definition counter_nonce (counter : Z) : bytes := replicate 4 0 ++ to_le 8 counter.

Definition bump_sending (s : Session) : Session :=
  mkSession (receiving_index s) (sending_index s) (receiver s) (sender s)
    (wrap 64 (sending_key_counter s + 1)) (receiving_key_counter s).

(** [Session::format_packet_data]; [dst_len] is [dst.len()], the result is the
    slice it returns and the session after [fetch_add]. *)
Definition format_packet_data `{Aead} (s : Session) (src : bytes) (dst_len : nat)
    (msg_type : Z) (content_padding : nat) : result WireGuardError (bytes * Session) :=
  let content_len := (length src + content_padding)%nat in
  if decide (dst_len < content_len + DATA_OVERHEAD_SZ)%nat then Panic else
  let counter := sending_key_counter s in
  let content := src ++ replicate content_padding 0 in
  Ok (to_le 4 msg_type ++ to_le 4 (sending_index s) ++ to_le 8 counter
        ++ aead_seal (sender s) (counter_nonce counter) [] content,
      bump_sending s).

(** [Session::receive_packet_data]. *)
Definition receive_packet_data `{Aead} (s : Session) (packet : PacketData) (dst_len : nat)
    : result WireGuardError (bytes * Session) :=
  let ct_len := length (pd_payload packet) in
  if decide (dst_len < ct_len)%nat then Panic
  else if negb (pd_receiver_idx packet =? receiving_index s) then Err WrongIndex
  else
    _ ← receiving_counter_quick_check s (pd_counter packet);
    ret ← ok_or InvalidAeadTag
            (aead_open (receiver s) (counter_nonce (pd_counter packet)) [] (pd_payload packet));
    s ← receiving_counter_mark s (pd_counter packet);
    Ok (ret, s).

Definition current_packet_cnt (s : Session) : Z * Z :=
  (next (receiving_key_counter s), receive_cnt (receiving_key_counter s)).

(** ** The bitmap, bit by bit *)
Definition slot (idx : Z) : Z := idx mod N_BITS.

Lemma slot_words i : 0 ≤ i → slot i = WORD_SIZE * Z.of_nat (word_of i) + bit_of i.
Proof.
  intros. unfold slot, word_of, bit_of. pose proof (Z.mod_pos_bound i N_BITS ltac:(done)).
  rewrite Z2Nat.id by (apply Z.div_pos; [lia|done]). apply Z.div_mod. done.
Qed.

Lemma word_of_lt i : (word_of i < 16)%nat.
Proof.
  unfold word_of. pose proof (Z.mod_pos_bound i N_BITS ltac:(done)).
  assert (i mod N_BITS / WORD_SIZE < 16).
  { apply Z.div_lt_upper_bound; [done|]. unfold N_BITS, WORD_SIZE, N_WORDS in *. lia. }
  lia.
Qed.

Lemma bit_of_range i : 0 ≤ bit_of i < 64.
Proof. apply Z.mod_pos_bound. done. Qed.

Lemma slot_eq i j : 0 ≤ i → 0 ≤ j → slot i = slot j ↔ word_of i = word_of j ∧ bit_of i = bit_of j.
Proof.
  intros Hi Hj. pose proof (bit_of_range i). pose proof (bit_of_range j).
  rewrite !slot_words by done. unfold WORD_SIZE. lia.
Qed.

Lemma check_bit_testbit bm i : check_bit bm i = Z.testbit (nth (word_of i) bm 0) (bit_of i).
Proof.
  unfold check_bit. pose proof (bit_of_range i).
  change 1 with (Z.ones 1) at 1. rewrite Z.land_ones by lia. change (2 ^ 1) with 2.
  rewrite <- Z.bit0_mod, Z.shiftr_spec by lia.
  replace (0 + bit_of i) with (bit_of i) by lia. by destruct (Z.testbit _ _).
Qed.

Lemma nth_insert (bm : list Z) i j x :
  (j < length bm)%nat → nth i (<[j := x]> bm) 0 = if decide (i = j) then x else nth i bm 0.
Proof.
  intros Hj. rewrite !nth_lookup. destruct (decide (i = j)) as [->|Hne].
  - by rewrite list_lookup_insert_eq.
  - by rewrite list_lookup_insert_ne.
Qed.

Section bits.
Context (bm : list Z) (Hbm : length bm = 16%nat) (i j : Z) (Hi : 0 ≤ i) (Hj : 0 ≤ j).

Lemma check_set_bit : check_bit (set_bit bm i) j = bool_decide (slot i = slot j) || check_bit bm j.
Proof.
  rewrite !check_bit_testbit. unfold set_bit. rewrite nth_insert by (rewrite Hbm; apply word_of_lt).
  pose proof (bit_of_range i). pose proof (bit_of_range j).
  destruct (decide (word_of j = word_of i)) as [E|E].
  - rewrite Z.lor_spec, Z.shiftl_spec, E by lia.
    destruct (decide (bit_of i = bit_of j)) as [Eb|Eb].
    + rewrite bool_decide_eq_true_2 by (apply slot_eq; auto).
      rewrite Eb, Z.sub_diag. apply orb_true_r.
    + rewrite bool_decide_eq_false_2 by (rewrite slot_eq by done; tauto).
      destruct (decide (bit_of j < bit_of i)).
      * by rewrite (Z.testbit_neg_r 1), orb_false_r by lia.
      * rewrite (testbit_high 1 1) by (split; lia || done). by rewrite orb_false_r.
  - rewrite bool_decide_eq_false_2; [done|]. rewrite slot_eq by done. naive_solver.
Qed.

Lemma check_clear_bit :
  check_bit (clear_bit bm i) j = negb (bool_decide (slot i = slot j)) && check_bit bm j.
Proof.
  rewrite !check_bit_testbit. unfold clear_bit. rewrite nth_insert by (rewrite Hbm; apply word_of_lt).
  pose proof (bit_of_range i). pose proof (bit_of_range j).
  destruct (decide (word_of j = word_of i)) as [E|E].
  - rewrite Z.land_spec, E. unfold not64. rewrite Z.lxor_spec.
    replace (Z.testbit u64_max (bit_of j)) with true
      by (change u64_max with (Z.ones 64); by rewrite Z.ones_spec_low by lia).
    rewrite Z.shiftl_spec by lia.
    destruct (decide (bit_of i = bit_of j)) as [Eb|Eb].
    + rewrite bool_decide_eq_true_2 by (apply slot_eq; auto).
      rewrite Eb, Z.sub_diag. apply andb_false_r.
    + rewrite bool_decide_eq_false_2 by (rewrite slot_eq by done; tauto).
      destruct (decide (bit_of j < bit_of i)).
      * by rewrite (Z.testbit_neg_r 1), andb_true_r by lia.
      * rewrite (testbit_high 1 1) by (split; lia || done). by rewrite andb_true_r.
  - rewrite bool_decide_eq_false_2; [done|]. rewrite slot_eq by done. naive_solver.
Qed.

Lemma check_clear_word :
  check_bit (clear_word bm i) j = negb (bool_decide (word_of i = word_of j)) && check_bit bm j.
Proof.
  rewrite !check_bit_testbit. unfold clear_word. rewrite nth_insert by (rewrite Hbm; apply word_of_lt).
  destruct (decide (word_of j = word_of i)) as [E|E].
  - rewrite bool_decide_eq_true_2 by done. apply Z.testbit_0_l.
  - by rewrite bool_decide_eq_false_2.
Qed.
End bits.

(** ** Clearing the skipped counters *)
Ltac consts := unfold slot, N_BITS, WORD_SIZE, N_WORDS in *.

Lemma slot_ne i j : 0 < i - j < N_BITS → slot i ≠ slot j.
Proof. consts. intros H E. Z.to_euclidean_division_equations. lia. Qed.

Lemma word_same i j : i mod WORD_SIZE = 0 → 0 ≤ i → i ≤ j < i + WORD_SIZE → word_of i = word_of j.
Proof.
  intros Ha Hi Hj. unfold word_of. f_equal. consts. Z.to_euclidean_division_equations. lia.
Qed.

Lemma word_ne i j :
  i mod WORD_SIZE = 0 → 0 ≤ j < i → i + WORD_SIZE - j ≤ N_BITS → word_of i ≠ word_of j.
Proof.
  intros Ha Hj Hw E. unfold word_of in E. consts.
  apply Z2Nat.inj in E; [|apply Z.div_pos; [apply Z.mod_pos_bound; lia|lia]..].
  Z.to_euclidean_division_equations. lia.
Qed.

(** From [i] to [i'] cleared, below [i] kept, on the counters of the window that
    ends before [counter]. *)
Definition cleared (counter i i' : Z) (bm bm' : list Z) : Prop :=
  i ≤ i' ≤ counter ∧ length bm' = 16%nat ∧
  ∀ j, 0 ≤ j → counter - N_BITS < j < counter →
    (j < i → check_bit bm' j = check_bit bm j) ∧ (i ≤ j < i' → check_bit bm' j = false).

Section clearing.
Context (counter : Z).
Implicit Types bm : list Z.

Lemma cleared_refl bm i : length bm = 16%nat → i ≤ counter → cleared counter i i bm bm.
Proof. intros. split; [lia|]. split; [done|]. intros. split; [done|lia]. Qed.

Lemma cleared_trans bm bm1 bm2 i i1 i2 :
  cleared counter i i1 bm bm1 → cleared counter i1 i2 bm1 bm2 → cleared counter i i2 bm bm2.
Proof.
  intros (Hi & _ & H1) (Hi' & Hl & H2). split; [lia|]. split; [done|]. intros j Hj Hw.
  destruct (H1 j Hj Hw) as [H1a H1b], (H2 j Hj Hw) as [H2a H2b]. split.
  - intros. rewrite H2a by lia. apply H1a. lia.
  - intros. destruct (decide (j < i1)); [|apply H2b; lia]. rewrite H2a by lia. apply H1b. lia.
Qed.

Lemma cleared_bit bm i :
  length bm = 16%nat → 0 ≤ i → counter - N_BITS < i < counter →
  cleared counter i (i + 1) bm (clear_bit bm i).
Proof.
  intros Hl Hi Hw. split; [lia|]. split; [unfold clear_bit; by rewrite length_insert|].
  intros j Hj Hjw. rewrite check_clear_bit by done. split.
  - intros. rewrite bool_decide_eq_false_2; [done|]. apply slot_ne. lia.
  - intros. replace j with i by lia. by rewrite bool_decide_eq_true_2.
Qed.

Lemma cleared_word bm i :
  length bm = 16%nat → 0 ≤ i → counter - N_BITS < i → i + WORD_SIZE < counter →
  i mod WORD_SIZE = 0 → cleared counter i (i + WORD_SIZE) bm (clear_word bm i).
Proof.
  intros Hl Hi Hw Hc Ha. split; [consts; lia|].
  split; [unfold clear_word; by rewrite length_insert|].
  intros j Hj Hjw. rewrite check_clear_word by done. split.
  - intros. rewrite bool_decide_eq_false_2; [done|]. apply word_ne; [done|lia|lia].
  - intros. rewrite bool_decide_eq_true_2; [done|]. apply word_same; [done|lia|lia].
Qed.

Lemma clear_to_word_spec fuel bm i :
  length bm = 16%nat → 0 ≤ i ≤ counter → counter - N_BITS < i → counter - i ≤ Z.of_nat fuel →
  ∃ bm' i', clear_to_word fuel bm i counter = (bm', i') ∧ cleared counter i i' bm bm' ∧
    (i' = counter ∨ i' mod WORD_SIZE = 0).
Proof.
  revert bm i. induction fuel as [|fuel IH]; intros bm i Hl Hi Hw Hf; cbn [clear_to_word].
  - exists bm, i. split; [done|]. split; [apply cleared_refl; [done|lia]|left; lia].
  - destruct (Z.eqb_spec (i mod WORD_SIZE) 0) as [E|E]; cbn [negb andb].
    { exists bm, i. split; [done|]. split; [apply cleared_refl; [done|lia]|by right]. }
    destruct (Z.ltb_spec i counter).
    + pose proof (cleared_bit bm i Hl ltac:(lia) ltac:(lia)) as Hc.
      destruct (IH (clear_bit bm i) (i + 1)) as (bm' & i' & E' & Hc' & Ha); [apply Hc|lia..|].
      exists bm', i'. split; [done|]. split; [by eapply cleared_trans|done].
    + exists bm, i. split; [done|]. split; [apply cleared_refl; [done|lia]|left; lia].
Qed.

(** [(i + 64) & 0u64.wrapping_sub(64)] is the next word boundary. *)
Lemma next_word i :
  0 ≤ i → i + WORD_SIZE < 2 ^ 64 → i mod WORD_SIZE = 0 →
  Z.land (i + WORD_SIZE) (wrap 64 (0 - WORD_SIZE)) = i + WORD_SIZE.
Proof.
  intros Hi Hb Ha. change (wrap 64 (0 - WORD_SIZE)) with (Z.ldiff (Z.ones 64) (Z.ones 6)).
  rewrite Z.ldiff_land, Z.land_assoc, Z.land_ones, Z.mod_small by (lia || (unfold WORD_SIZE in *; lia)).
  rewrite <- Z.ldiff_land, Z.ldiff_ones_r by lia.
  rewrite Z.shiftr_div_pow2, Z.shiftl_mul_pow2 by lia. change (2 ^ 6) with 64.
  unfold WORD_SIZE in *. Z.to_euclidean_division_equations. lia.
Qed.

Lemma clear_words_spec fuel bm i :
  length bm = 16%nat → 0 ≤ i ≤ counter → counter - N_BITS < i → counter - i ≤ Z.of_nat fuel →
  counter < 2 ^ 64 → (i = counter ∨ i mod WORD_SIZE = 0) →
  ∃ bm' i', clear_words fuel bm i counter = (bm', i') ∧ cleared counter i i' bm bm'.
Proof.
  intros Hl Hi Hw Hf Hc64 Ha. revert bm i Hl Hi Hw Hf Ha.
  induction fuel as [|fuel IH]; intros bm i Hl Hi Hw Hf Ha; cbn [clear_words].
  - exists bm, i. split; [done|]. apply cleared_refl; [done|lia].
  - destruct (Z.ltb_spec (i + WORD_SIZE) counter).
    + assert (i mod WORD_SIZE = 0) as Ha' by (destruct Ha; [unfold WORD_SIZE in *; lia|done]).
      rewrite next_word by (done || lia).
      pose proof (cleared_word bm i Hl ltac:(lia) ltac:(lia) ltac:(lia) Ha') as Hc.
      destruct (IH (clear_word bm i) (i + WORD_SIZE)) as (bm' & i' & E' & Hc');
        [apply Hc|unfold WORD_SIZE in *; lia..| |].
      { right. rewrite Z.add_mod, Ha' by done. done. }
      exists bm', i'. split; [done|]. by eapply cleared_trans.
    + exists bm, i. split; [done|]. apply cleared_refl; [done|lia].
Qed.

Lemma clear_rest_spec fuel bm i :
  length bm = 16%nat → 0 ≤ i ≤ counter → counter - N_BITS < i → counter - i ≤ Z.of_nat fuel →
  cleared counter i counter bm (clear_rest fuel bm i counter).
Proof.
  revert bm i. induction fuel as [|fuel IH]; intros bm i Hl Hi Hw Hf; cbn [clear_rest].
  - replace i with counter by lia. apply cleared_refl; [done|lia].
  - destruct (Z.ltb_spec i counter).
    + pose proof (cleared_bit bm i Hl ltac:(lia) ltac:(lia)) as Hc.
      eapply cleared_trans; [exact Hc|]. apply IH; [apply Hc|lia..].
    + replace i with counter by lia. apply cleared_refl; [done|lia].
Qed.

Lemma clear_skipped_spec bm from :
  length bm = 16%nat → 0 ≤ from ≤ counter → counter - N_BITS < from → counter < 2 ^ 64 →
  cleared counter from counter bm (clear_skipped bm from counter).
Proof.
  intros Hl Hi Hw Hc. unfold clear_skipped.
  destruct (clear_to_word_spec (Z.to_nat (counter - from)) bm from)
    as (bm1 & i1 & -> & Hc1 & Ha); [done|lia..|]. pose proof Hc1 as (Hi1 & Hl1 & _).
  destruct (clear_words_spec (Z.to_nat (counter - from)) bm1 i1)
    as (bm2 & i2 & -> & Hc2); [done|lia..|done|]. pose proof Hc2 as (Hi2 & Hl2 & _).
  eapply cleared_trans; [exact Hc1|]. eapply cleared_trans; [exact Hc2|].
  apply clear_rest_spec; [done|lia..].
Qed.
End clearing.

(** ** Refinement: the validator is a set of seen counters

    The abstract window remembers every counter accepted so far and the first
    counter above all of them. *)
Record window := mkWindow { seen : gset Z; top : Z }.

Definition window_empty : window := mkWindow ∅ 0.

Definition window_check (w : window) (c : Z) : result WireGuardError () :=
  if decide (c + N_BITS < top w) then Err InvalidCounter
  else if decide (c ∈ seen w) then Err DuplicateCounter
  else Ok ().

Definition window_mark (w : window) (c : Z) : result WireGuardError window :=
  if decide (c + N_BITS < top w) then Err InvalidCounter
  else if decide (c ∈ seen w) then Err InvalidCounter
  else Ok (mkWindow ({[c]} ∪ seen w) (Z.max (top w) (c + 1))).

Record refines (v : ReceivingKeyCounterValidator) (w : window) : Prop := {
  rf_next : next v = top w;
  rf_nonneg : 0 ≤ top w;
  rf_bitmap : length (bitmap v) = 16%nat;
  rf_seen c : c ∈ seen w → 0 ≤ c < top w;
  rf_bits c : 0 ≤ c → top w - N_BITS ≤ c < top w →
    check_bit (bitmap v) c = bool_decide (c ∈ seen w)
}.

Lemma refines_default : refines validator_default window_empty.
Proof. split; cbn; try done; try lia; set_solver. Qed.

(** A counter whose window arithmetic stays inside [u64]. *)
Definition counter_ok (c : Z) : Prop := 0 ≤ c ∧ c + N_BITS < 2 ^ 64.

#[export] Instance counter_ok_dec c : Decision (counter_ok c).
Proof. unfold counter_ok. apply _. Defined.

Lemma will_accept_refines v w c :
  refines v w → counter_ok c → will_accept v c = window_check w c.
Proof.
  intros [Hn H0 Hb Hs Hbits] [Hc Hc2]. unfold will_accept, window_check. rewrite Hn.
  rewrite wrap_small by (unfold u_ok; consts; lia).
  destruct (Z.leb_spec (top w) c).
  - rewrite decide_False by (consts; lia). rewrite decide_False; [done|].
    intros ?%Hs. lia.
  - destruct (Z.ltb_spec (c + N_BITS) (top w)).
    + by rewrite decide_True.
    + rewrite decide_False by lia. rewrite Hbits by lia.
      by destruct (decide (c ∈ seen w)); [rewrite bool_decide_eq_true_2|rewrite bool_decide_eq_false_2].
Qed.

Lemma set_bit_window bm c d w :
  length bm = 16%nat → 0 ≤ c → 0 ≤ d → - N_BITS < c - d < N_BITS →
  (d ≠ c → check_bit bm d = bool_decide (d ∈ w)) →
  check_bit (set_bit bm c) d = bool_decide (d ∈ ({[c]} ∪ w : gset Z)).
Proof.
  intros Hl Hc Hd Hw Hb. rewrite check_set_bit by done.
  destruct (decide (d = c)) as [->|Hne].
  - rewrite !bool_decide_eq_true_2 by set_solver. done.
  - assert (slot c ≠ slot d) as Hs.
    { destruct (decide (d < c)); [apply slot_ne; lia|]. apply not_eq_sym, slot_ne. lia. }
    rewrite bool_decide_eq_false_2, Hb by done. cbn. apply bool_decide_ext. set_solver.
Qed.

Lemma mark_in_order v w c :
  refines v w → counter_ok c → c = top w →
  refines (mkValidator (wrap 64 (next v + 1)) (receive_cnt v) (set_bit (bitmap v) c))
    (mkWindow ({[c]} ∪ seen w) (Z.max (top w) (c + 1))).
Proof.
  intros [Hn H0 Hb Hs Hbits] [Hc Hc2] ->. split; cbn.
  - rewrite Hn, wrap_small; [lia|]. unfold u_ok. consts. lia.
  - lia.
  - unfold set_bit. by rewrite length_insert.
  - intros d [->%elem_of_singleton|?%Hs]%elem_of_union; lia.
  - intros d Hd Hw. apply set_bit_window; try done; [lia|]. intros. apply Hbits; lia.
Qed.

Lemma mark_out_of_order v w c :
  refines v w → counter_ok c → c < top w → top w ≤ c + N_BITS →
  refines (mkValidator (next v) (receive_cnt v) (set_bit (bitmap v) c))
    (mkWindow ({[c]} ∪ seen w) (Z.max (top w) (c + 1))).
Proof.
  intros [Hn H0 Hb Hs Hbits] [Hc Hc2] Hlt Hwin. split; cbn.
  - lia.
  - lia.
  - unfold set_bit. by rewrite length_insert.
  - intros d [->%elem_of_singleton|?%Hs]%elem_of_union; lia.
  - intros d Hd Hw. apply set_bit_window; try done; [lia|]. intros. apply Hbits; lia.
Qed.

(** The bitmap after a jump ahead: empty above the old top, kept below it. *)
Definition jump_bitmap (bm : list Z) (from c : Z) : list Z :=
  if N_BITS <=? c - from then map (λ _, 0) bm else clear_skipped bm from c.

Lemma jump_bitmap_spec v w c d :
  refines v w → counter_ok c → top w < c → 0 ≤ d → c - N_BITS < d < c →
  length (jump_bitmap (bitmap v) (next v) c) = 16%nat ∧
  check_bit (jump_bitmap (bitmap v) (next v) c) d = bool_decide (d ∈ seen w).
Proof.
  intros [Hn H0 Hb Hs Hbits] [Hc Hc2] Hlt Hd Hw. unfold jump_bitmap. rewrite Hn.
  destruct (Z.leb_spec N_BITS (c - top w)).
  - rewrite length_map. split; [done|]. rewrite bool_decide_eq_false_2 by (intros ?%Hs; lia).
    rewrite check_bit_testbit.
    replace (nth _ _ 0) with 0 by (by rewrite (map_nth (λ _, 0) _ 0)). apply Z.testbit_0_l.
  - destruct (clear_skipped_spec c (bitmap v) (top w)) as (_ & Hl & Hcl);
      [done|lia..|]. split; [done|].
    destruct (Hcl d Hd ltac:(lia)) as [Hkeep Hclear].
    destruct (decide (d < top w)).
    + rewrite Hkeep by done. apply Hbits; lia.
    + rewrite Hclear by lia. symmetry. apply bool_decide_eq_false_2. intros ?%Hs. lia.
Qed.

Lemma mark_ahead v w c :
  refines v w → counter_ok c → top w < c →
  refines (mkValidator (wrap 64 (c + 1)) (receive_cnt v)
             (set_bit (jump_bitmap (bitmap v) (next v) c) c))
    (mkWindow ({[c]} ∪ seen w) (Z.max (top w) (c + 1))).
Proof.
  intros Hr Hok Hlt. pose proof (λ d, jump_bitmap_spec v w c d Hr Hok Hlt) as Hj.
  destruct Hr as [Hn H0 Hb Hs Hbits], Hok as [Hc Hc2].
  assert (length (jump_bitmap (bitmap v) (next v) c) = 16%nat) as Hl
    by (apply (Hj (Z.max 0 (c - 1))); consts; lia).
  split; cbn.
  - rewrite wrap_small; [lia|]. unfold u_ok. consts. lia.
  - lia.
  - unfold set_bit. by rewrite length_insert.
  - intros d [->%elem_of_singleton|?%Hs]%elem_of_union; lia.
  - intros d Hd Hw. apply set_bit_window; try done; [lia|]. intros. apply Hj; lia.
Qed.

Lemma mark_refines v w c :
  refines v w → counter_ok c →
  match window_mark w c with
  | Ok w' => ∃ v', mark_did_receive v c = Ok v' ∧ refines v' w' ∧ receive_cnt v' = receive_cnt v
  | Err e => mark_did_receive v c = Err e
  | Panic => False
  end.
Proof.
  intros Hr Hok. pose proof Hr as [Hn H0 Hb Hs Hbits]. pose proof Hok as [Hc Hc2].
  unfold window_mark, mark_did_receive.
  rewrite wrap_small by (unfold u_ok; consts; lia). rewrite Hn.
  destruct (Z.ltb_spec (c + N_BITS) (top w)) as [Hf|Hf]; [by rewrite decide_True|].
  rewrite decide_False by lia. destruct (Z.eqb_spec c (top w)) as [E|E].
  - rewrite decide_False by (intros ?%Hs; lia). eexists. split; [done|]. split; [|done].
    pose proof (mark_in_order v w c Hr Hok E) as Ha. by rewrite Hn in Ha.
  - destruct (Z.ltb_spec c (top w)).
    + rewrite Hbits by lia. destruct (decide (c ∈ seen w)).
      * by rewrite bool_decide_eq_true_2.
      * rewrite bool_decide_eq_false_2 by done. eexists. split; [done|]. split; [|done].
        pose proof (mark_out_of_order v w c Hr Hok ltac:(lia) Hf) as Ha. by rewrite Hn in Ha.
    + rewrite decide_False by (intros ?%Hs; lia). eexists. split; [done|]. split; [|done].
      pose proof (mark_ahead v w c Hr Hok ltac:(lia)) as Ha. unfold jump_bitmap in Ha.
      by rewrite Hn in Ha.
Qed.

(** C14: The 1024-bit circular bitmap is a faithful implementation of the set
    of received counters: related to the abstract window, [will_accept] and
    [mark_did_receive] return the same verdicts as the window's check and
    insertion and stay related, for every counter whose arithmetic does not
    overflow (the word-wise clearing of skipped counters included). *)
Theorem replay_window_refines v w c :
  refines v w → counter_ok c →
  will_accept v c = window_check w c ∧
  match window_mark w c with
  | Ok w' => ∃ v', mark_did_receive v c = Ok v' ∧ refines v' w' ∧ receive_cnt v' = receive_cnt v
  | Err e => mark_did_receive v c = Err e
  | Panic => False
  end.
Proof. intros Hr Hok. split; [by apply will_accept_refines|by apply mark_refines]. Qed.

Lemma replay_window_refines_witness :
  ∃ v', mark_did_receive validator_default 700 = Ok v' ∧ next v' = 701.
Proof.
  destruct (replay_window_refines validator_default window_empty 700 refines_default)
    as [_ H]; [vm_compute; intuition congruence|]. cbn in H.
  destruct H as (v' & E & Hr & _). exists v'. split; [exact E|]. apply (rf_next _ _ Hr).
Defined.

(** A schedule of receivers: each calls [mark_did_receive] when its packet has
    been authenticated; the quick checks before that change nothing. *)
Fixpoint accepted (v : ReceivingKeyCounterValidator) (cs : list Z) : list Z :=
  match cs with
  | [] => []
  | c :: cs' =>
      match mark_did_receive v c with
      | Ok v' => c :: accepted v' cs'
      | _ => accepted v cs'
      end
  end.

Lemma accepted_fresh v w cs :
  refines v w → Forall counter_ok cs →
  NoDup (accepted v cs) ∧ ∀ c, c ∈ accepted v cs → c ∉ seen w.
Proof.
  intros Hr Hcs. revert v w Hr. induction Hcs as [|c cs Hc Hcs IH]; intros v w Hr; cbn.
  - split; [constructor|]. intros c ?%not_elem_of_nil. done.
  - pose proof (mark_refines v w c Hr Hc) as Hm. destruct (window_mark w c) as [w'|e|] eqn:E.
    + destruct Hm as (v' & -> & Hr' & _). destruct (IH v' w' Hr') as [Hnd Hf].
      unfold window_mark in E. repeat (destruct (decide _); [done|]). injection E as <-.
      cbn in Hf. split.
      * constructor; [|done]. intros ?%Hf. set_solver.
      * intros d [->|Hd]%elem_of_cons; [done|]. apply Hf in Hd. set_solver.
    + rewrite Hm. by apply IH.
    + done.
Qed.

(** C15: Replay protection: from a fresh session, whatever sequence of counters
    below 2^64 - 1024 the receivers mark (repeated, reordered, with gaps, from
    interleaved threads), each counter is accepted at most once.  The bound is
    needed: [replay_window_wraps] is what a counter beyond it does. *)
Theorem replay_at_most_once cs :
  Forall counter_ok cs → NoDup (accepted validator_default cs).
Proof. intros. eapply accepted_fresh; [apply refines_default|done]. Qed.

Lemma replay_at_most_once_witness :
  accepted validator_default [5; 3; 5; 2000; 3; 1999; 2000; 976; 975] = [5; 3; 2000; 1999]
  ∧ NoDup (accepted validator_default [5; 3; 5; 2000; 3; 1999; 2000; 976; 975]).
Proof.
  split; [vm_compute; reflexivity|]. apply replay_at_most_once.
  repeat constructor; vm_compute; congruence.
Defined.

(** C39: Outside that range the window fails open.  While [next] is below 1024
    an authenticated packet with counter [u64::MAX] is accepted and moves [next]
    to 0, after which any counter is accepted, also one that was accepted before. *)
Theorem replay_window_wraps v :
  0 ≤ next v < N_BITS →
  ∃ v', mark_did_receive v u64_max = Ok v' ∧ next v' = 0
    ∧ ∀ c, 0 ≤ c → will_accept v' c = Ok () ∧ ∃ v'', mark_did_receive v' c = Ok v''.
Proof.
  intros Hn. unfold mark_did_receive. change (wrap 64 (u64_max + N_BITS)) with (N_BITS - 1).
  unfold u64_max. consts. ifs_lia. eexists. split; [done|]. split; [done|].
  intros c Hc. unfold will_accept, mark_did_receive. cbn [next]. change (wrap 64 (18446744073709551615 + 1)) with 0.
  assert (0 ≤ wrap 64 (c + 1024)) by apply (wrap_range 64 (c + 1024) ltac:(lia)). split; [by ifs_lia|].
  rewrite (proj2 (Z.ltb_ge _ 0)) by done. destruct (Z.eqb_spec c 0); [by eexists|]. rewrite (proj2 (Z.ltb_ge c 0)) by done. by eexists.
Qed.

Lemma replay_window_wraps_witness :
  accepted validator_default [7; u64_max; 7; 7] = [7; u64_max; 7] ∧
  ∃ v', mark_did_receive validator_default u64_max = Ok v' ∧ will_accept v' 7 = Ok ().
Proof.
  split; [vm_compute; reflexivity|].
  destruct (replay_window_wraps validator_default) as (v' & E & _ & H); [vm_compute; split; congruence|].
  exists v'. split; [exact E|]. by apply (H 7).
Defined.

(** ** One end's packets at the other end *)
Section transport.
Context `{AE : Aead}.

Definition paired (a b : Session) : Prop :=
  sender a = receiver b ∧ sending_index a = receiving_index b.

Lemma window_mark_check w c :
  window_check w c = Ok () →
  window_mark w c = Ok (mkWindow ({[c]} ∪ seen w) (Z.max (top w) (c + 1))).
Proof. unfold window_check, window_mark. by repeat case_decide. Qed.

Lemma receiving_counter_mark_ok s w c :
  refines (receiving_key_counter s) w → counter_ok c → window_check w c = Ok () →
  ∃ s', receiving_counter_mark s c = Ok s' ∧
    refines (receiving_key_counter s') (mkWindow ({[c]} ∪ seen w) (Z.max (top w) (c + 1))) ∧
    receiving_index s' = receiving_index s ∧ receiver s' = receiver s.
Proof.
  intros Hr Hc Hw. pose proof (mark_refines _ w c Hr Hc) as Hm.
  rewrite window_mark_check in Hm by done. destruct Hm as (v' & E & Hr' & _).
  unfold receiving_counter_mark. rewrite E. cbn. eexists. split; [done|].
  split; [|done]. by destruct Hr'; split.
Qed.

(** The packet a formatted datagram carries. *)
Definition formatted (s : Session) (src : bytes) (pad : nat) : PacketData :=
  mkPacketData (sending_index s) (sending_key_counter s)
    (aead_seal (sender s) (counter_nonce (sending_key_counter s)) []
       (src ++ replicate pad 0)).

Lemma format_packet_data_eq s src dst_len ty pad :
  (length src + pad + 32 ≤ dst_len)%nat →
  format_packet_data s src dst_len ty pad =
  Ok (data_bytes ty (formatted s src pad), bump_sending s).
Proof.
  intros Hd. unfold format_packet_data, DATA_OVERHEAD_SZ. by rewrite decide_False by lia.
Qed.

Lemma format_packet_data_ok s src dst_len ty pad wire s' :
  format_packet_data s src dst_len ty pad = Ok (wire, s') →
  wire = data_bytes ty (formatted s src pad) ∧ s' = bump_sending s.
Proof.
  unfold format_packet_data. destruct (decide _); [done|].
  intros [<- <-]%Ok_inj%pair_equal_spec. done.
Qed.

Lemma receive_formatted a b w src pad dst_len :
  paired a b → counter_ok (sending_key_counter a) → bytes_ok src →
  refines (receiving_key_counter b) w → window_check w (sending_key_counter a) = Ok () →
  (length src + pad + 16 ≤ dst_len)%nat →
  ∃ b', receive_packet_data b (formatted a src pad) dst_len = Ok (src ++ replicate pad 0, b') ∧
    refines (receiving_key_counter b')
      (mkWindow ({[sending_key_counter a]} ∪ seen w)
         (Z.max (top w) (sending_key_counter a + 1))) ∧
    receiving_index b' = receiving_index b ∧ receiver b' = receiver b.
Proof.
  intros [Hk Hi] Hc Hs Hr Hw Hd. unfold receive_packet_data, formatted. cbn [pd_payload
    pd_receiver_idx pd_counter]. rewrite aead_seal_length. len.
  rewrite decide_False by lia. rewrite Hi, Z.eqb_refl. cbn [negb].
  unfold receiving_counter_quick_check. rewrite (will_accept_refines _ w), Hw by done.
  cbn [mbind result_bind]. rewrite Hk, aead_open_seal.
  - cbn [ok_or mbind result_bind].
    destruct (receiving_counter_mark_ok b w _ Hr Hc Hw) as (b' & -> & Hb). by exists b'.
  - apply bytes_ok_app. split; [done|]. by apply bytes_ok_replicate.
Qed.

(** With a destination as long as the ciphertext nothing panics, and the
    plaintext is shorter. *)
Lemma receive_packet_data_ok s p dst_len :
  (length (pd_payload p) ≤ dst_len)%nat →
  receive_packet_data s p dst_len ≠ Panic ∧
  ∀ d s', receive_packet_data s p dst_len = Ok (d, s') → (length d ≤ dst_len)%nat.
Proof.
  intros Hl. unfold receive_packet_data. rewrite decide_False by lia.
  destruct (negb _); [done|].
  unfold receiving_counter_quick_check, will_accept.
  assert (∀ c, receiving_counter_mark s c ≠ Panic) as Hm.
  { intros c. unfold receiving_counter_mark, mark_did_receive.
    by repeat match goal with |- context [if ?b then _ else _] => destruct b end. }
  assert (∀ k : result WireGuardError (bytes * Session),
    k = (ret ← ok_or InvalidAeadTag (aead_open (receiver s) (counter_nonce (pd_counter p)) []
                                       (pd_payload p));
         s ← receiving_counter_mark s (pd_counter p); Ok (ret, s)) →
    k ≠ Panic ∧ ∀ d s', k = Ok (d, s') → (length d ≤ dst_len)%nat) as Hk.
  { intros k ->. destruct (aead_open _ _ _ _) as [pt|] eqn:Eo; cbn; [|done].
    apply aead_open_length in Eo. specialize (Hm (pd_counter p)).
    destruct (receiving_counter_mark _ _); cbn; [|done..].
    split; [done|]. intros d s' [= <- _]. lia. }
  repeat match goal with |- context [if ?b then _ else _] => destruct b end; cbn [mbind result_bind];
    solve [done | by apply Hk].
Qed.

(** A payload formatted by one end of a session arrives at the other: the
    datagram parses as a data packet, opens to the payload followed by the
    content padding, and the same packet offered again is rejected as a
    duplicate. *)
Lemma transport_roundtrip hc ty a b w src pad dst_len dst_len' :
  headers_ok hc → HeaderConfig_validate hc = Ok () → u32_ok ty →
  HeaderRange_contains (hc_transport hc) ty = true →
  paired a b → u32_ok (sending_index a) → counter_ok (sending_key_counter a) →
  bytes_ok src → refines (receiving_key_counter b) w →
  window_check w (sending_key_counter a) = Ok () →
  (length src + pad + 32 ≤ dst_len)%nat → (length src + pad + 16 ≤ dst_len')%nat →
  ∃ wire packet b',
    format_packet_data a src dst_len ty pad = Ok (wire, bump_sending a) ∧
    parse_incoming_packet_config wire hc = Ok (PktData packet) ∧
    receive_packet_data b packet dst_len' = Ok (src ++ replicate pad 0, b') ∧
    receive_packet_data b' packet dst_len' = Err DuplicateCounter.
Proof.
  intros Hh Hv Hty Hin Hp Hi Hc Hs Hr Hw Hd Hd'.
  destruct (receive_formatted a b w src pad dst_len' Hp Hc Hs Hr Hw Hd')
    as (b' & Hrecv & Hr' & Hidx & _).
  exists (data_bytes ty (formatted a src pad)), (formatted a src pad), b'.
  split; [by apply format_packet_data_eq|]. split.
  { apply parse_data; try done. unfold data_wf, formatted. cbn. rewrite aead_seal_length.
    split; [done|]. split; [destruct Hc; split; consts; lia|lia]. }
  split; [done|]. unfold receive_packet_data, formatted.
  cbn [pd_payload pd_receiver_idx pd_counter]. rewrite aead_seal_length. len.
  rewrite decide_False by lia. destruct Hp as [_ ->]. rewrite Hidx, Z.eqb_refl. cbn [negb].
  unfold receiving_counter_quick_check. rewrite (will_accept_refines _ _ _ Hr') by done.
  unfold window_check. cbn [seen top]. rewrite decide_False, decide_True; [done|set_solver|].
  unfold window_check in Hw. case_decide; [done|]. consts. lia.
Qed.
End transport.

(** ** Nonces *)

(** Packets formatted one after the other: the payload, the room, the message type
    and the content padding of each. *)
Fixpoint format_all `{Aead} (s : Session) (l : list (bytes * nat * Z * nat)) : result WireGuardError (list bytes) :=
  match l with
  | [] => Ok []
  | (src, dst_len, ty, pad) :: l' =>
      '(wire, s) ← format_packet_data s src dst_len ty pad;
      wires ← format_all s l';
      Ok (wire :: wires)
  end.

(** The packet on the wire is the payload, with its padding, sealed under the key of
    the session with [nonce], and carries the counter of that nonce. *)
Definition sealed_under `{Aead} (s : Session) (request : bytes * nat * Z * nat) (wire nonce : bytes) : Prop :=
  let '(src, _, _, pad) := request in
  drop 16 wire = aead_seal (sender s) nonce [] (src ++ replicate pad 0)
  ∧ take 4 nonce = [0; 0; 0; 0] ∧ drop 4 nonce = slice wire 8 16.

Lemma format_all_nonces `{Aead} s l wires :
  u64_ok (sending_key_counter s) → format_all s l = Ok wires →
  Forall3 (sealed_under s) l wires
    (counter_nonce <$> ((λ i, wrap 64 (sending_key_counter s + i)) <$> seqZ 0 (Z.of_nat (length l)))).
Proof.
  intros Hs. revert s wires Hs. induction l as [|[[[src dst_len] ty] pad] l IH]; intros s wires Hs; cbn [format_all].
  { intros [= <-]. constructor. }
  intros ([wire s'] & Hf & (ws & Hw & [= <-])%bind_ok)%bind_ok.
  apply format_packet_data_ok in Hf as [-> ->]. apply IH in Hw; [|cbn; apply wrap_range; lia].
  rewrite length_cons, Nat2Z.inj_succ, seqZ_cons, Z.pred_succ, !fmap_cons by lia. constructor.
  - rewrite Z.add_0_r, wrap_small by done. unfold sealed_under, data_bytes, formatted, counter_nonce. cbn [pd_payload].
    split_and!; [|done|by fields]. by rewrite !app_assoc, drop_app_exact by (by len).
  - change (sealed_under (bump_sending s)) with (sealed_under s) in Hw.
    change (Z.succ 0) with (1 + 0). rewrite <- fmap_add_seqZ, <- (list_fmap_compose (Z.add 1)).
    rewrite (list_fmap_ext _ (λ i, wrap 64 (sending_key_counter (bump_sending s) + i))); [exact Hw|].
    intros i x _. cbn. unfold wrap. rewrite Zplus_mod_idemp_l. f_equal. lia.
Qed.

Lemma counter_nonce_inj c d : u64_ok c → u64_ok d → counter_nonce c = counter_nonce d → c = d.
Proof.
  intros Hc Hd E. apply app_inj_1 in E as [_ E]; [|done]. by rewrite <- (from_to_le64 c), <- (from_to_le64 d), E by done.
Qed.

(** C36: A session never reuses a nonce.  Whatever packets it formats one after the
    other, with whatever content padding and message types and up to 2^64 of them,
    the nonces under which it seals them with its key are pairwise different; and
    each packet carries the counter of its nonce, so that the receiver opens it with
    the same one. *)
Theorem nonces_distinct `{Aead} s l wires :
  u64_ok (sending_key_counter s) → Z.of_nat (length l) ≤ 2 ^ 64 →
  format_all s l = Ok wires → ∃ nonces, NoDup nonces ∧ Forall3 (sealed_under s) l wires nonces.
Proof.
  intros Hs Hn Hf. eexists. split; [|by apply format_all_nonces]. rewrite <- list_fmap_compose.
  apply NoDup_fmap_2_strong; [|apply NoDup_seqZ].
  intros i j [Hi0 Hi1]%elem_of_seqZ [Hj0 Hj1]%elem_of_seqZ E. apply counter_nonce_inj in E; [|apply wrap_range; lia..].
  widths. Z.to_euclidean_division_equations. lia.
Qed.

(** ** A concrete AEAD for the runs below: the plaintext with a checksum tag *)
Module ToyAead.
Definition tag (k n a p : bytes) : bytes :=
  to_le 16 (from_le k + 3 * from_le n + 5 * from_le a + 7 * from_le p).
Definition seal (k n a p : bytes) : bytes := p ++ tag k n a p.
Definition open (k n a c : bytes) : option bytes :=
  let p := take (length c - 16) c in
  if decide (16 ≤ length c ∧ drop (length c - 16) c = tag k n a p)%nat then Some p else None.

Lemma seal_length k n a p : length (seal k n a p) = (length p + 16)%nat.
Proof. unfold seal, tag. by len. Qed.

Lemma toy_open_seal k n a p : open k n a (seal k n a p) = Some p.
Proof.
  unfold open. rewrite seal_length. replace (length p + 16 - 16)%nat with (length p) by lia.
  unfold seal. rewrite take_app_length, drop_app_length, decide_True; [done|]. split; [lia|done].
Qed.

Lemma open_length k n a c p : open k n a c = Some p → length c = (length p + 16)%nat.
Proof. unfold open. case_decide; [|done]. intros [= <-]. len. lia. Qed.

Definition cipher : Aead := {|
  aead_seal := seal;
  aead_open := open;
  aead_seal_length := seal_length;
  aead_seal_ok k n a p Hp := proj2 (bytes_ok_app p (tag k n a p)) (conj Hp (bytes_ok_to_le _ _));
  aead_open_seal k n a p _ := toy_open_seal k n a p;
  aead_open_length := open_length
|}.
End ToyAead.

Lemma nonces_distinct_witness :
  ∃ wires (nonces : list bytes), format_all (H := ToyAead.cipher) (Session_new 3 9 (replicate 32 1) (replicate 32 2))
      [(bs "a", 100%nat, 4, O); (bs "b", 100%nat, 5, 3%nat); (bs "a", 40%nat, 4, O)] = Ok wires
    ∧ NoDup nonces ∧ length nonces = 3%nat.
Proof.
  destruct (nonces_distinct (H := ToyAead.cipher) (Session_new 3 9 (replicate 32 1) (replicate 32 2))
    [(bs "a", 100%nat, 4, O); (bs "b", 100%nat, 5, 3%nat); (bs "a", 40%nat, 4, O)] _
    ltac:(vm_compute; intuition congruence) ltac:(vm_compute; congruence) eq_refl) as (nonces & Hn & Hs).
  eexists _, nonces. split; [reflexivity|]. split; [exact Hn|]. by apply Forall3_length_lr in Hs.
Defined.
