(* ===== verification/Handshake.v ===== *)
(** * Handshake: the Noise IK handshake

    Models [awgtun/src/noise/handshake.rs]: the initiator's and responder's
    messages, the two-deep handshake state, cookies and MACs, TAI64N stamps and
    the session index.  BLAKE2s, HMAC, X25519 and XChaCha20-Poly1305 are the
    class [NoiseCrypto]; ephemeral secrets and clock readings are arguments.
    Instants and durations are nanoseconds.

    A method that changes the handshake returns its [result] together with the
    state it leaves behind, because several errors occur after an update.

    Shown: two ends that know each other's static keys derive matching transport
    keys; a replayed initiation is refused; stamps increase with the clock;
    session indices keep the peer's 24 bits and cycle through 256 values. *)

From Stdlib Require Import ZArith Lia.
From stdpp Require Import base list option strings sets tactics.
From S2P Require Import Prelude Clock Random Amnezia Packet Session.
Open Scope Z_scope.

(** ** Primitives *)
Class NoiseCrypto := {
  blake2s : bytes → bytes;
  hmac_blake2s : bytes → bytes → bytes;
  mac16 : bytes → bytes → bytes;
  mac24 : bytes → bytes → bytes;
  x25519_public : bytes → bytes;
  diffie_hellman : bytes → bytes → bytes;
  xaead_seal : bytes → bytes → bytes → bytes → bytes;
  xaead_open : bytes → bytes → bytes → bytes → option bytes;
  blake2s_length m : length (blake2s m) = 32%nat;
  hmac_length k m : length (hmac_blake2s k m) = 32%nat;
  mac16_length k m : length (mac16 k m) = 16%nat;
  mac24_length k m : length (mac24 k m) = 24%nat;
  x25519_public_length k : length (x25519_public k) = 32%nat;
  x25519_public_ok k : bytes_ok (x25519_public k);
  mac16_ok k m : bytes_ok (mac16 k m);
  mac24_ok k m : bytes_ok (mac24 k m);
  diffie_hellman_comm a b :
    diffie_hellman a (x25519_public b) = diffie_hellman b (x25519_public a);
  xaead_seal_length k n a p : length (xaead_seal k n a p) = (length p + 16)%nat;
  xaead_open_seal k n a p : bytes_ok p → xaead_open k n a (xaead_seal k n a p) = Some p
}.

Definition LABEL_MAC1 : bytes := bs "mac1----".
Definition LABEL_COOKIE : bytes := bs "cookie--".
Definition KEY_LEN : nat := 32.
Definition TIMESTAMP_LEN : nat := 12.

Definition INITIAL_CHAIN_KEY : bytes :=
  [96; 226; 109; 174; 243; 39; 239; 192; 46; 195; 53; 226; 160; 37; 210; 208; 22; 235; 66; 6; 248;
   114; 119; 245; 45; 56; 209; 152; 139; 120; 205; 54].
Definition INITIAL_CHAIN_HASH : bytes :=
  [34; 17; 179; 97; 8; 26; 197; 102; 105; 18; 67; 219; 69; 138; 213; 50; 45; 156; 108; 102; 34;
   147; 232; 183; 14; 225; 156; 101; 186; 7; 158; 243].

Section primitives.
Context `{NC : NoiseCrypto} `{AE : Aead}.

Definition b2s_hash (data1 data2 : bytes) : bytes := blake2s (data1 ++ data2).
Definition b2s_hmac (key data1 : bytes) : bytes := hmac_blake2s key data1.
Definition b2s_hmac2 (key data1 data2 : bytes) : bytes := hmac_blake2s key (data1 ++ data2).
Definition b2s_keyed_mac_16 (key data1 : bytes) : bytes := mac16 key data1.
Definition b2s_keyed_mac_16_2 (key data1 data2 : bytes) : bytes := mac16 key (data1 ++ data2).
Definition b2s_mac_24 (key data1 : bytes) : bytes := mac24 key data1.

(** The ciphertext written; the destination slice has the length of the data
    plus the tag at every call. *)
Definition aead_chacha20_seal (key : bytes) (counter : Z) (data aad : bytes) : bytes :=
  aead_seal key (counter_nonce counter) aad data.

(** [buffer_len] is the length of the output buffer, which the plaintext must
    have ([copy_from_slice]). *)
Definition aead_chacha20_open (buffer_len : nat) (key : bytes) (counter : Z) (data aad : bytes)
    : result WireGuardError bytes :=
  plaintext ← ok_or InvalidAeadTag (aead_open key (counter_nonce counter) aad data);
  if decide (length plaintext = buffer_len) then Ok plaintext else Panic.
End primitives.

(** ** Time stamps *)
Record Tai64N := mkTai64N { secs : Z; nano : Z }.
Record TimeStamper := mkStamper { duration_at_start : Z; instant_at_start : Z }.

Definition TimeStamper_new (system_time now : Z) : TimeStamper := mkStamper system_time now.

Definition TAI64_BASE : Z := Z.shiftl 1 62 + 10.

Definition stamp (t : TimeStamper) (now : Z) : bytes :=
  let stamp := elapsed_ns now (instant_at_start t) + duration_at_start t in
  to_be 8 (wrap 64 (stamp / 1000000000 + TAI64_BASE)) ++ to_be 4 (stamp mod 1000000000).

Definition Tai64N_zero : Tai64N := mkTai64N 0 0.
Definition Tai64N_parse (buf : bytes) : result WireGuardError Tai64N :=
  if decide (length buf < 12)%nat then Err InvalidTai64nTimestamp
  else Ok (mkTai64N (from_be (take 8 buf)) (from_be (drop 8 buf))).
Definition Tai64N_after (t other : Tai64N) : bool :=
  (secs other <? secs t) || ((secs t =? secs other) && (nano other <? nano t)).

(** ** State *)
Record NoiseParams := mkParams {
  static_public : bytes;
  static_private : bytes;
  peer_static_public : bytes;
  static_shared : bytes;
  sending_mac1_key : bytes;
  preshared_key : option bytes
}.

Record HandshakeInitSentState := mkInitSent {
  local_index : Z;
  is_hash : bytes;
  is_chaining_key : bytes;
  ephemeral_private : bytes;
  time_sent : Z
}.

Inductive HandshakeState :=
  | HNone
  | InitSent (s : HandshakeInitSentState)
  | InitReceived (hash chaining_key peer_ephemeral_public : bytes) (peer_index : Z)
  | HExpired.

Record Cookies := mkCookies {
  last_mac1 : option bytes;
  cookie_index : Z;
  write_cookie : option bytes
}.

Record Handshake := mkHandshake {
  params : NoiseParams;
  next_index : Z;
  previous : HandshakeState;
  state : HandshakeState;
  cookies : Cookies;
  last_handshake_timestamp : Tai64N;
  stamper : TimeStamper;
  last_rtt : option Z
}.

Record HalfHandshake := mkHalf { half_peer_index : Z; half_peer_static_public : bytes }.

Definition hs_set_index (i : Z) (h : Handshake) : Handshake :=
  mkHandshake (params h) i (previous h) (state h) (cookies h) (last_handshake_timestamp h)
    (stamper h) (last_rtt h).
Definition hs_set_states (prev cur : HandshakeState) (h : Handshake) : Handshake :=
  mkHandshake (params h) (next_index h) prev cur (cookies h) (last_handshake_timestamp h)
    (stamper h) (last_rtt h).
Definition hs_set_cookies (c : Cookies) (h : Handshake) : Handshake :=
  mkHandshake (params h) (next_index h) (previous h) (state h) c (last_handshake_timestamp h)
    (stamper h) (last_rtt h).
Definition hs_set_timestamp (t : Tai64N) (h : Handshake) : Handshake :=
  mkHandshake (params h) (next_index h) (previous h) (state h) (cookies h) t
    (stamper h) (last_rtt h).
Definition hs_set_rtt (r : option Z) (h : Handshake) : Handshake :=
  mkHandshake (params h) (next_index h) (previous h) (state h) (cookies h)
    (last_handshake_timestamp h) (stamper h) r.
Definition hs_set_params (p : NoiseParams) (h : Handshake) : Handshake :=
  mkHandshake p (next_index h) (previous h) (state h) (cookies h)
    (last_handshake_timestamp h) (stamper h) (last_rtt h).

Section handshake.
Context `{NC : NoiseCrypto} `{AE : Aead}.

Definition NoiseParams_new (sk pk peer : bytes) (psk : option bytes) : NoiseParams :=
  mkParams pk sk peer (diffie_hellman sk peer) (b2s_hash LABEL_MAC1 peer) psk.

Definition NoiseParams_set_static_private (p : NoiseParams) (sk pk : bytes)
    : result WireGuardError NoiseParams :=
  if decide (x25519_public sk = pk) then
    Ok (mkParams pk sk (peer_static_public p) (diffie_hellman sk (peer_static_public p))
          (sending_mac1_key p) (preshared_key p))
  else Panic.

Definition Handshake_new (sk pk peer : bytes) (global_idx : Z) (psk : option bytes)
    (system_time now : Z) : Handshake :=
  mkHandshake (NoiseParams_new sk pk peer psk) global_idx HNone HNone (mkCookies None 0 None)
    Tai64N_zero (TimeStamper_new system_time now) None.

Definition is_in_progress (h : Handshake) : bool :=
  match state h with HNone | HExpired => false | _ => true end.

Definition Handshake_timer (h : Handshake) : option Z :=
  match state h with InitSent s => Some (time_sent s) | _ => None end.

Definition set_expired (h : Handshake) : Handshake := hs_set_states HExpired HExpired h.

Definition is_expired (h : Handshake) : bool :=
  match state h with HExpired => true | _ => false end.

Definition has_cookie (h : Handshake) : bool := bool_decide (is_Some (write_cookie (cookies h))).

Definition clear_cookie (h : Handshake) : Handshake :=
  hs_set_cookies (mkCookies (last_mac1 (cookies h)) (cookie_index (cookies h)) None) h.

Definition inc_index (h : Handshake) : Z * Handshake :=
  let index := next_index h in
  let idx8 := wrap 8 index in
  let next := Z.lor (Z.land index (Z.lxor 0xff u32_max)) (wrap 8 (idx8 + 1)) in
  (next, hs_set_index next h).

Definition Handshake_set_static_private (h : Handshake) (sk pk : bytes)
    : result WireGuardError Handshake :=
  p ← NoiseParams_set_static_private (params h) sk pk; Ok (hs_set_params p h).

(** [chaining_key = HMAC(HMAC(chaining_key, data), 0x1)]. *)
Definition mix_key (ck data : bytes) : bytes := b2s_hmac (b2s_hmac ck data) [1].

(** [temp = HMAC(ck, data); ck = HMAC(temp, 0x1); key = HMAC(temp, ck || 0x2)]. *)
Definition mix_key_2 (ck data : bytes) : bytes * bytes :=
  let temp := b2s_hmac ck data in
  let ck := b2s_hmac temp [1] in
  (ck, b2s_hmac2 temp ck [2]).

(** The transport keys: [temp2], [temp3] of the last derivation. *)
Definition derive_keys (ck : bytes) : bytes * bytes :=
  let temp1 := b2s_hmac ck [] in
  let temp2 := b2s_hmac temp1 [1] in
  (temp2, b2s_hmac2 temp1 temp2 [2]).

(** The first half of both receivers of an initiation: hash, chaining key and
    the key of [encrypted_static]. *)
Definition init_static_key (sk pk ephemeral : bytes) : bytes * bytes * bytes :=
  let hash := b2s_hash INITIAL_CHAIN_HASH pk in
  let hash := b2s_hash hash ephemeral in
  let ck := mix_key INITIAL_CHAIN_KEY ephemeral in
  let '(ck, key) := mix_key_2 ck (diffie_hellman sk ephemeral) in
  (hash, ck, key).

Definition parse_handshake_anon (sk pk : bytes) (packet : HandshakeInit)
    : result WireGuardError HalfHandshake :=
  let '(hash, _, key) := init_static_key sk pk (hi_ephemeral packet) in
  peer ← aead_chacha20_open KEY_LEN key 0 (hi_static packet) hash;
  Ok (mkHalf (hi_sender_idx packet) peer).

(** [append_mac1_and_mac2] on the message bytes before [mac1]. *)
Definition append_mac1_and_mac2 (h : Handshake) (local_index : Z) (msg : bytes)
    : bytes * Handshake :=
  let msg_mac1 := b2s_keyed_mac_16 (sending_mac1_key (params h)) msg in
  let dst := msg ++ msg_mac1 in
  let msg_mac2 :=
    match write_cookie (cookies h) with
    | Some cookie => b2s_keyed_mac_16 cookie dst
    | None => replicate 16 0
    end in
  (dst ++ msg_mac2,
   hs_set_cookies (mkCookies (Some msg_mac1) local_index (write_cookie (cookies h))) h).

(** The body of an initiation, with the hash and chaining key after it; [eph] is
    the secret of [ReusableSecret::random()]. *)
Definition initiation_message (p : NoiseParams) (local_index : Z) (eph timestamp : bytes)
    : HandshakeInit * bytes * bytes :=
  let hash := b2s_hash INITIAL_CHAIN_HASH (peer_static_public p) in
  let ephemeral := x25519_public eph in
  let hash := b2s_hash hash ephemeral in
  let ck := mix_key INITIAL_CHAIN_KEY ephemeral in
  let '(ck, key) := mix_key_2 ck (diffie_hellman eph (peer_static_public p)) in
  let encrypted_static := aead_chacha20_seal key 0 (static_public p) hash in
  let hash := b2s_hash hash encrypted_static in
  let '(ck, key) := mix_key_2 ck (static_shared p) in
  let encrypted_timestamp := aead_chacha20_seal key 0 timestamp hash in
  let hash := b2s_hash hash encrypted_timestamp in
  (mkHandshakeInit local_index ephemeral encrypted_static encrypted_timestamp, hash, ck).

Definition format_handshake_initiation (h : Handshake) (dst_len : nat) (msg_type : Z)
    (eph : bytes) (now : Z) : result WireGuardError bytes * Handshake :=
  if decide (dst_len < HANDSHAKE_INIT_SZ)%nat then (Err DestinationBufferTooSmall, h) else
  let '(local_index, h) := inc_index h in
  let '(msg, hash, ck) :=
    initiation_message (params h) local_index eph (stamp (stamper h) now) in
  let h := hs_set_states (state h) (InitSent (mkInitSent local_index hash ck eph now)) h in
  let '(dst, h) := append_mac1_and_mac2 h local_index
    (to_le 4 msg_type ++ to_le 4 (hi_sender_idx msg) ++ hi_ephemeral msg ++ hi_static msg
       ++ hi_timestamp msg) in
  (Ok dst, h).

(** The key schedule both ends run over a response. *)
Definition response_keys (hash ck ephemeral ee se : bytes) (psk : option bytes)
    : bytes * bytes * bytes :=
  let hash := b2s_hash hash ephemeral in
  let ck := mix_key ck ephemeral in
  let ck := mix_key ck ee in
  let ck := mix_key ck se in
  let temp := b2s_hmac ck (default (replicate 32 0) psk) in
  let ck := b2s_hmac temp [1] in
  let temp2 := b2s_hmac2 temp ck [2] in
  let key := b2s_hmac2 temp temp2 [3] in
  (b2s_hash hash temp2, ck, key).

(** The body of a response, with the two transport keys. *)
Definition response_message (p : NoiseParams) (local_index peer_index : Z)
    (hash ck peer_ephemeral_public eph : bytes) : HandshakeResponse * bytes * bytes :=
  let ephemeral := x25519_public eph in
  let '(hash, ck, key) :=
    response_keys hash ck ephemeral (diffie_hellman eph peer_ephemeral_public)
      (diffie_hellman eph (peer_static_public p)) (preshared_key p) in
  let encrypted_nothing := aead_chacha20_seal key 0 [] hash in
  let '(temp2, temp3) := derive_keys ck in
  (mkHandshakeResponse local_index peer_index ephemeral encrypted_nothing, temp2, temp3).

Definition format_handshake_response (h : Handshake) (dst_len : nat) (msg_type : Z) (eph : bytes)
    : result WireGuardError (bytes * Session) * Handshake :=
  if decide (dst_len < HANDSHAKE_RESP_SZ)%nat then (Err DestinationBufferTooSmall, h) else
  match state h with
  | InitReceived hash ck peer_ephemeral_public peer_index =>
      let h := hs_set_states (previous h) HNone h in
      let '(local_index, h) := inc_index h in
      let '(msg, temp2, temp3) :=
        response_message (params h) local_index peer_index hash ck peer_ephemeral_public eph in
      let '(dst, h) := append_mac1_and_mac2 h local_index
        (to_le 4 msg_type ++ to_le 4 (hr_sender_idx msg) ++ to_le 4 (hr_receiver_idx msg)
           ++ hr_ephemeral msg ++ hr_nothing msg) in
      (Ok (dst, Session_new local_index peer_index temp2 temp3), h)
  | _ => (Panic, h)
  end.

(** What [receive_handshake_initialization] checks and derives before it
    changes any state: the time stamp, the hash and the chaining key. *)
Definition consume_initiation (p : NoiseParams) (packet : HandshakeInit)
    : result WireGuardError (Tai64N * bytes * bytes) :=
  let '(hash, ck, key) := init_static_key (static_private p) (static_public p) (hi_ephemeral packet) in
  peer_static_public_decrypted ← aead_chacha20_open KEY_LEN key 0 (hi_static packet) hash;
  if decide (peer_static_public p = peer_static_public_decrypted) then
    let hash := b2s_hash hash (hi_static packet) in
    let '(ck, key) := mix_key_2 ck (static_shared p) in
    timestamp ← aead_chacha20_open TIMESTAMP_LEN key 0 (hi_timestamp packet) hash;
    timestamp ← Tai64N_parse timestamp;
    Ok (timestamp, b2s_hash hash (hi_timestamp packet), ck)
  else Err WrongKey.

Definition receive_handshake_initialization (h : Handshake) (packet : HandshakeInit)
    (dst_len : nat) (resp_msg_type : Z) (eph : bytes)
    : result WireGuardError (bytes * Session) * Handshake :=
  match consume_initiation (params h) packet with
  | Err e => (Err e, h)
  | Panic => (Panic, h)
  | Ok (timestamp, hash, ck) =>
      if Tai64N_after timestamp (last_handshake_timestamp h) then
        let h := hs_set_timestamp timestamp h in
        let h := hs_set_states (state h)
          (InitReceived hash ck (hi_ephemeral packet) (hi_sender_idx packet)) h in
        format_handshake_response h dst_len resp_msg_type eph
      else (Err WrongTai64nTimestamp, h)
  end.

(** Which of the two in-flight handshakes a response answers; [true] for the
    previous one. *)
Definition awaiting_response (h : Handshake) (receiver_idx : Z)
    : option (HandshakeInitSentState * bool) :=
  let prev :=
    match previous h with
    | InitSent s => if local_index s =? receiver_idx then Some (s, true) else None
    | _ => None
    end in
  match state h with
  | InitSent s => if local_index s =? receiver_idx then Some (s, false) else prev
  | _ => prev
  end.

(** The transport keys an initiator derives from a response, once
    [encrypted_nothing] has been verified. *)
Definition consume_response (p : NoiseParams) (st : HandshakeInitSentState)
    (packet : HandshakeResponse) : result WireGuardError (bytes * bytes) :=
  let ephemeral := hr_ephemeral packet in
  let '(hash, ck, key) :=
    response_keys (is_hash st) (is_chaining_key st) ephemeral
      (diffie_hellman (ephemeral_private st) ephemeral)
      (diffie_hellman (static_private p) ephemeral) (preshared_key p) in
  _ ← aead_chacha20_open 0 key 0 (hr_nothing packet) hash;
  Ok (derive_keys ck).

Definition receive_handshake_response (h : Handshake) (packet : HandshakeResponse) (now : Z)
    : result WireGuardError Session * Handshake :=
  match awaiting_response h (hr_receiver_idx packet) with
  | None => (Err UnexpectedPacket, h)
  | Some (st, is_previous) =>
      match consume_response (params h) st packet with
      | Err e => (Err e, h)
      | Panic => (Panic, h)
      | Ok (temp2, temp3) =>
          let h := hs_set_rtt (Some (wrap 32 (elapsed_ns now (time_sent st) / 1000000))) h in
          let h := if is_previous then hs_set_states HNone (state h) h
                   else hs_set_states (previous h) HNone h in
          (Ok (Session_new (local_index st) (hr_sender_idx packet) temp3 temp2), h)
      end
  end.

Definition receive_cookie_reply (h : Handshake) (packet : PacketCookieReply)
    : result WireGuardError () * Handshake :=
  match last_mac1 (cookies h) with
  | None => (Err UnexpectedPacket, h)
  | Some mac1 =>
      if negb (cr_receiver_idx packet =? cookie_index (cookies h)) then (Err WrongIndex, h) else
      let key := b2s_hash LABEL_COOKIE (peer_static_public (params h)) in
      if decide (length (cr_nonce packet) = 24%nat) then
        match xaead_open key (cr_nonce packet) (take 16 mac1) (cr_cookie packet) with
        | None => (Err InvalidAeadTag, h)
        | Some plaintext =>
            if decide (length plaintext = 16%nat) then
              (Ok (), hs_set_cookies
                        (mkCookies (last_mac1 (cookies h)) (cookie_index (cookies h))
                           (Some plaintext)) h)
            else (Err InvalidPacket, h)
        end
      else (Err InvalidPacket, h)
  end.
End handshake.

(** ** Session indices *)
Lemma land_high24 i : u32_ok i → Z.land i (Z.lxor 255 u32_max) = 256 * (i / 256).
Proof.
  intros Hi. change (Z.lxor 255 u32_max) with (Z.ldiff (Z.ones 32) (Z.ones 8)).
  rewrite Z.ldiff_land, Z.land_assoc, Z.land_ones by lia.
  rewrite Z.mod_small by (widths; lia).
  rewrite <- Z.ldiff_land, Z.ldiff_ones_r by lia.
  rewrite Z.shiftr_div_pow2, Z.shiftl_mul_pow2 by lia. change (2 ^ 8) with 256. lia.
Qed.

Lemma land_low8 a b : 0 ≤ b < 256 → Z.land (256 * a) b = 0.
Proof.
  intros Hb. apply Z.bits_inj'. intros n Hn. rewrite Z.land_spec, Z.bits_0.
  destruct (decide (n < 8)).
  - change 256 with (2 ^ 8). rewrite Z.mul_comm, <- Z.shiftl_mul_pow2 by lia.
    by rewrite Z.shiftl_spec_low by lia.
  - rewrite (testbit_high 8 b) by (split; lia || done). apply andb_false_r.
Qed.

Lemma lor_low8 a b : 0 ≤ b < 256 → Z.lor (256 * a) b = 256 * a + b.
Proof.
  intros Hb. pose proof (land_low8 a b Hb).
  by rewrite <- Z.lxor_lor, <- Z.add_nocarry_lxor.
Qed.

Section index.
Context (h : Handshake) (Hi : u32_ok (next_index h)).

(** The low eight bits advance, the peer's 24 bits stay. *)
Lemma inc_index_eq :
  (inc_index h).1 = 256 * (next_index h / 256) + (next_index h + 1) mod 256.
Proof.
  unfold inc_index. cbn [fst]. rewrite land_high24 by done.
  rewrite lor_low8 by (widths; apply Z.mod_pos_bound; lia).
  widths. by rewrite Zplus_mod_idemp_l.
Qed.

Lemma inc_index_ok : u32_ok (inc_index h).1.
Proof. rewrite inc_index_eq. widths. Z.to_euclidean_division_equations. lia. Qed.

Lemma inc_index_next : next_index (inc_index h).2 = (inc_index h).1.
Proof. done. Qed.
End index.

(** The indices of [n] consecutive handshakes. *)
Fixpoint indices (n : nat) (h : Handshake) : list Z :=
  match n with
  | O => []
  | S n' => let '(i, h) := inc_index h in i :: indices n' h
  end.

Lemma indices_eq n h :
  u32_ok (next_index h) →
  indices n h = map (λ k, 256 * (next_index h / 256) + (next_index h + 1 + k) mod 256)
                  (seqZ 0 (Z.of_nat n)).
Proof.
  revert h. induction n as [|n IH]; intros h Hi; [done|].
  rewrite Nat2Z.inj_succ, seqZ_cons by lia. cbn [indices map].
  pose proof (inc_index_eq h Hi) as E. pose proof (inc_index_ok h Hi) as Hok.
  pose proof (inc_index_next h) as Hn. destruct (inc_index h) as [i h']. cbn [fst snd] in *.
  rewrite IH by by rewrite Hn. rewrite Hn, E, Z.add_0_r, Z.pred_succ. f_equal.
  change (Z.succ 0) with (1 + 0). rewrite <- fmap_add_seqZ.
  change (Z.add 1 <$> ?l) with (map (Z.add 1) l). rewrite map_map.
  apply map_ext. intros k. widths. Z.to_euclidean_division_equations. lia.
Qed.

(** Session indices keep the peer's 24-bit identifier in their high bits
    and any 256 consecutive handshakes use 256 different indices, so an index
    identifies the peer and the session among the recent ones. *)
Lemma indices_cycle n h :
  u32_ok (next_index h) → (n ≤ 256)%nat →
  NoDup (indices n h) ∧
  Forall (λ i, Z.shiftr i 8 = Z.shiftr (next_index h) 8 ∧ u32_ok i) (indices n h).
Proof.
  intros Hi Hn. rewrite indices_eq by done. split.
  - apply NoDup_fmap_2_strong; [|apply NoDup_seqZ].
    intros i j [? ?]%elem_of_seqZ [? ?]%elem_of_seqZ E.
    Z.to_euclidean_division_equations. lia.
  - apply Forall_map, Forall_true. intros k. cbn. rewrite !Z.shiftr_div_pow2 by lia.
    change (2 ^ 8) with 256. widths. split; Z.to_euclidean_division_equations; lia.
Qed.

(** ** Time stamps *)
Lemma length_stamp t now : length (stamp t now) = 12%nat.
Proof. unfold stamp. by len. Qed.

Lemma stamp_ok t now : bytes_ok (stamp t now).
Proof. unfold stamp. apply bytes_ok_app. split; apply bytes_ok_to_be. Qed.

(** Seconds that fit beside the TAI base. *)
Definition time_ok (t : TimeStamper) (now : Z) : Prop :=
  0 ≤ elapsed_ns now (instant_at_start t) + duration_at_start t < 2 ^ 61 * 1000000000.

Lemma parse_stamp t now :
  time_ok t now →
  Tai64N_parse (stamp t now) =
  Ok (mkTai64N ((elapsed_ns now (instant_at_start t) + duration_at_start t) / 1000000000 + TAI64_BASE)
        ((elapsed_ns now (instant_at_start t) + duration_at_start t) mod 1000000000)).
Proof.
  unfold time_ok. intros Ht. unfold Tai64N_parse. rewrite length_stamp, decide_False by lia.
  unfold stamp. rewrite take_app_exact, drop_app_exact by (len; done).
  set (ns := elapsed_ns now (instant_at_start t) + duration_at_start t) in *.
  rewrite !from_to_be. change (256 ^ Z.of_nat 8) with (2 ^ 64). change (256 ^ Z.of_nat 4) with (2 ^ 32).
  assert (0 ≤ ns / 1000000000 < 2 ^ 61).
  { split; [apply Z.div_pos; lia|apply Z.div_lt_upper_bound; lia]. }
  assert (TAI64_BASE = 4611686018427387914) as E by done.
  pose proof (Z.mod_pos_bound ns 1000000000 ltac:(lia)).
  rewrite wrap_small by (split; lia).
  by rewrite (Z.mod_small (_ + _)), (Z.mod_small (ns mod _)) by lia.
Qed.

(** The stamp of a later instant is [after] the stamp of an earlier one, so
    a clock that advances by at least a nanosecond between two initiations makes
    the second acceptable to a responder that accepted the first. *)
Lemma stamp_monotone t now now' a b :
  time_ok t now → time_ok t now' → instant_at_start t ≤ now < now' →
  Tai64N_parse (stamp t now) = Ok a → Tai64N_parse (stamp t now') = Ok b →
  Tai64N_after b a = true.
Proof.
  intros Ht Ht' Hlt. rewrite !parse_stamp by done. intros [= <-] [= <-].
  unfold Tai64N_after. cbn [secs nano].
  set (x := elapsed_ns now _ + _). set (y := elapsed_ns now' _ + _).
  assert (x < y) by (unfold x, y, elapsed_ns; lia).
  Z.to_euclidean_division_equations. lia.
Qed.

(** ** Key agreement *)
Section agreement.
Context `{NC : NoiseCrypto} `{AE : Aead}.

(** Parameters whose derived fields are consistent. *)
Record params_ok (p : NoiseParams) : Prop := {
  po_public : static_public p = x25519_public (static_private p);
  po_shared : static_shared p = diffie_hellman (static_private p) (peer_static_public p);
  po_mac1 : sending_mac1_key p = b2s_hash LABEL_MAC1 (peer_static_public p)
}.

Lemma NoiseParams_new_ok sk peer psk : params_ok (NoiseParams_new sk (x25519_public sk) peer psk).
Proof. by split. Qed.

Lemma NoiseParams_set_static_private_ok p sk pk p' :
  params_ok p → NoiseParams_set_static_private p sk pk = Ok p' → params_ok p'.
Proof.
  intros [] Hs. unfold NoiseParams_set_static_private in Hs. case_decide; [|done].
  apply Ok_inj in Hs as <-. by split.
Qed.

(** Two ends configured for each other. *)
Record peers (a b : NoiseParams) : Prop := {
  pe_a : params_ok a;
  pe_b : params_ok b;
  pe_ab : peer_static_public a = static_public b;
  pe_ba : peer_static_public b = static_public a;
  pe_psk : preshared_key a = preshared_key b
}.

Lemma peers_sym a b : peers a b → peers b a.
Proof. by intros []; split. Qed.

Lemma peers_shared a b : peers a b → static_shared a = static_shared b.
Proof.
  intros [[Ha Hsa _] [Hb Hsb _] Hab Hba _]. rewrite Hsa, Hsb, Hab, Hba, Ha, Hb.
  apply diffie_hellman_comm.
Qed.

Lemma open_seal n key data aad :
  length data = n → bytes_ok data →
  aead_chacha20_open n key 0 (aead_chacha20_seal key 0 data aad) aad = Ok data.
Proof.
  intros Hl Hd. unfold aead_chacha20_open, aead_chacha20_seal. rewrite aead_open_seal by done.
  cbn. by rewrite decide_True.
Qed.

Lemma consume_initiation_message a b idx eph timestamp t msg hash ck :
  peers a b → bytes_ok timestamp → length timestamp = 12%nat →
  Tai64N_parse timestamp = Ok t →
  initiation_message a idx eph timestamp = (msg, hash, ck) →
  consume_initiation b msg = Ok (t, hash, ck) ∧ hi_sender_idx msg = idx ∧
  hi_ephemeral msg = x25519_public eph.
Proof.
  intros Hp Hts Hl Ht Hm. pose proof (peers_shared a b Hp) as Hsh.
  destruct Hp as [[Ha _ _] [Hb _ _] Hab Hba _].
  unfold initiation_message in Hm. unfold consume_initiation, init_static_key.
  rewrite Hab in Hm.
  assert (diffie_hellman eph (static_public b) =
          diffie_hellman (static_private b) (x25519_public eph)) as Hdh
    by (rewrite Hb; apply diffie_hellman_comm).
  rewrite Hdh in Hm. destruct (mix_key_2 _ (diffie_hellman _ _)) as [ck1 key1] eqn:E1.
  rewrite Hsh in Hm. destruct (mix_key_2 ck1 _) as [ck2 key2] eqn:E2.
  apply pair_equal_spec in Hm as [[<- <-]%pair_equal_spec <-]. cbn [hi_ephemeral hi_static
    hi_timestamp hi_sender_idx]. rewrite E1, open_seal; [|by rewrite Ha, x25519_public_length|].
  - cbn [mbind result_bind]. rewrite decide_True by done. rewrite E2.
    rewrite open_seal by done. cbn [mbind result_bind]. rewrite Ht. done.
  - rewrite Ha. apply x25519_public_ok.
Qed.

Lemma consume_response_message a b st idx peer_idx hash ck eph msg k1 k2 :
  peers a b → is_hash st = hash → is_chaining_key st = ck →
  response_message b idx peer_idx hash ck (x25519_public (ephemeral_private st)) eph = (msg, k1, k2) →
  consume_response a st msg = Ok (k1, k2) ∧ hr_sender_idx msg = idx ∧
  hr_receiver_idx msg = peer_idx.
Proof.
  intros Hp Hh Hc Hm. destruct Hp as [[Ha _ _] [Hb _ _] Hab Hba Hpsk].
  unfold response_message in Hm. unfold consume_response.
  rewrite Hba, Ha in Hm. rewrite (diffie_hellman_comm eph (ephemeral_private st)) in Hm.
  rewrite (diffie_hellman_comm eph (static_private a)), <- Hpsk in Hm.
  destruct (response_keys _ _ _ _ _ _) as [[hash' ck'] key'] eqn:Er.
  destruct (derive_keys ck') as [t2 t3] eqn:Ed.
  apply pair_equal_spec in Hm as [[<- <-]%pair_equal_spec <-].
  cbn [hr_ephemeral hr_nothing hr_sender_idx hr_receiver_idx]. rewrite Hh, Hc, Er.
  rewrite open_seal by (done || constructor). cbn [mbind result_bind]. by rewrite Ed.
Qed.

(** *** The messages on the wire *)
Lemma append_macs h idx msg :
  ∃ macs h', append_mac1_and_mac2 h idx msg = (msg ++ macs, h') ∧ length macs = 32%nat ∧
    params h' = params h ∧ state h' = state h ∧ previous h' = previous h ∧
    stamper h' = stamper h ∧ next_index h' = next_index h ∧
    last_handshake_timestamp h' = last_handshake_timestamp h.
Proof.
  unfold append_mac1_and_mac2, b2s_keyed_mac_16. eexists (_ ++ _), _.
  rewrite app_assoc. split; [reflexivity|]. split; [|done].
  rewrite length_app, mac16_length. destruct (write_cookie _); [|done].
  by rewrite mac16_length.
Qed.

Lemma initiation_message_wf p idx eph timestamp msg hash ck :
  params_ok p → u32_ok idx → length timestamp = 12%nat →
  initiation_message p idx eph timestamp = (msg, hash, ck) → init_wf msg.
Proof.
  intros [Hp _ _] Hi Hl. unfold initiation_message.
  destruct (mix_key_2 _ _) as [ck1 key1]. destruct (mix_key_2 _ _) as [ck2 key2].
  intros [[<- <-]%pair_equal_spec <-]%pair_equal_spec. unfold init_wf, aead_chacha20_seal.
  cbn [hi_ephemeral hi_static hi_timestamp hi_sender_idx].
  by rewrite x25519_public_length, !aead_seal_length, Hl, Hp, x25519_public_length.
Qed.

Lemma response_message_wf p idx peer_idx hash ck pe eph msg k1 k2 :
  u32_ok idx → u32_ok peer_idx →
  response_message p idx peer_idx hash ck pe eph = (msg, k1, k2) → response_wf msg.
Proof.
  intros Hi Hj. unfold response_message. destruct (response_keys _ _ _ _ _ _) as [[h' ck'] key'].
  destruct (derive_keys ck'). intros [[<- <-]%pair_equal_spec <-]%pair_equal_spec.
  unfold response_wf, aead_chacha20_seal. cbn [hr_ephemeral hr_nothing hr_sender_idx hr_receiver_idx].
  by rewrite x25519_public_length, aead_seal_length.
Qed.

Lemma format_initiation_spec h dst_len ty eph now :
  (HANDSHAKE_INIT_SZ ≤ dst_len)%nat →
  ∃ msg hash ck macs h',
    initiation_message (params h) (inc_index h).1 eph (stamp (stamper h) now) = (msg, hash, ck) ∧
    format_handshake_initiation h dst_len ty eph now = (Ok (init_bytes ty msg macs), h') ∧
    length macs = 32%nat ∧ params h' = params h ∧ previous h' = state h ∧
    state h' = InitSent (mkInitSent (inc_index h).1 hash ck eph now).
Proof.
  intros Hd. unfold format_handshake_initiation. rewrite decide_False by lia.
  destruct (inc_index h) as [idx h1] eqn:Ei. cbn [fst].
  assert (params h1 = params h ∧ stamper h1 = stamper h ∧ state h1 = state h) as (Hp & Hs & Hst)
    by (unfold inc_index in Ei; by apply pair_equal_spec in Ei as [_ <-]).
  rewrite Hp, Hs. destruct (initiation_message _ _ _ _) as [[msg hash] ck] eqn:Em.
  destruct (append_macs (hs_set_states (state h1) (InitSent (mkInitSent idx hash ck eph now)) h1) idx
    (to_le 4 ty ++ to_le 4 (hi_sender_idx msg) ++ hi_ephemeral msg ++ hi_static msg
       ++ hi_timestamp msg)) as (macs & h2 & -> & Hl & Hp2 & Hs2 & Hv2 & _).
  exists msg, hash, ck, macs, h2. split; [done|]. split.
  { do 2 f_equal. unfold init_bytes. by rewrite <- !app_assoc. }
  split; [done|]. rewrite Hp2, Hs2, Hv2. cbn. by rewrite Hp, Hst.
Qed.

Lemma format_response_spec h dst_len ty eph hash ck pe peer_idx :
  (HANDSHAKE_RESP_SZ ≤ dst_len)%nat → state h = InitReceived hash ck pe peer_idx →
  ∃ msg k1 k2 macs h',
    response_message (params h) (inc_index h).1 peer_idx hash ck pe eph = (msg, k1, k2) ∧
    format_handshake_response h dst_len ty eph =
      (Ok (response_bytes ty msg macs, Session_new (inc_index h).1 peer_idx k1 k2), h') ∧
    length macs = 32%nat ∧ params h' = params h ∧ state h' = HNone ∧
    last_handshake_timestamp h' = last_handshake_timestamp h.
Proof.
  intros Hd Hst. unfold format_handshake_response. rewrite decide_False, Hst by lia.
  unfold inc_index. cbn [fst snd next_index hs_set_states params].
  set (idx := Z.lor _ _). set (h1 := hs_set_index idx _).
  change (params h1) with (params h).
  destruct (response_message _ _ _ _ _ _ _) as [[msg k1] k2] eqn:Em.
  destruct (append_macs h1 idx
    (to_le 4 ty ++ to_le 4 (hr_sender_idx msg) ++ to_le 4 (hr_receiver_idx msg)
       ++ hr_ephemeral msg ++ hr_nothing msg)) as (macs & h2 & -> & Hl & Hp2 & Hs2 & Hv2 & _ & _ & Ht2).
  exists msg, k1, k2, macs, h2. split; [done|]. split.
  { do 3 f_equal. unfold response_bytes. by rewrite <- !app_assoc. }
  split; [done|]. by rewrite Hp2, Hs2, Ht2.
Qed.

Lemma receive_initialization_spec h packet dst_len ty eph t hash ck :
  (HANDSHAKE_RESP_SZ ≤ dst_len)%nat → consume_initiation (params h) packet = Ok (t, hash, ck) →
  Tai64N_after t (last_handshake_timestamp h) = true →
  ∃ msg k1 k2 macs h',
    response_message (params h) (inc_index h).1 (hi_sender_idx packet) hash ck
      (hi_ephemeral packet) eph = (msg, k1, k2) ∧
    receive_handshake_initialization h packet dst_len ty eph =
      (Ok (response_bytes ty msg macs, Session_new (inc_index h).1 (hi_sender_idx packet) k1 k2), h') ∧
    length macs = 32%nat ∧ params h' = params h ∧ state h' = HNone ∧
    last_handshake_timestamp h' = t.
Proof.
  intros Hd Hc Ha. unfold receive_handshake_initialization. rewrite Hc, Ha.
  set (h1 := hs_set_states _ _ _).
  destruct (format_response_spec h1 dst_len ty eph hash ck (hi_ephemeral packet)
    (hi_sender_idx packet) Hd eq_refl) as (msg & k1 & k2 & macs & h' & Em & Ef & Hl & Hp & Hs & Ht).
  by exists msg, k1, k2, macs, h'.
Qed.

(** Both ends hold a session for the other. *)
Definition sessions_match (a b : Session) : Prop := paired a b ∧ paired b a.

(** The exchange, with the sessions it ends in. *)
Lemma handshake_agrees a b hc ty1 ty2 ephA ephB now now' dst_a dst_b t :
  peers (params a) (params b) →
  headers_ok hc → HeaderConfig_validate hc = Ok () →
  u32_ok ty1 → HeaderRange_contains (hc_init hc) ty1 = true →
  u32_ok ty2 → HeaderRange_contains (hc_response hc) ty2 = true →
  u32_ok (next_index a) → u32_ok (next_index b) →
  Tai64N_parse (stamp (stamper a) now) = Ok t →
  Tai64N_after t (last_handshake_timestamp b) = true →
  (HANDSHAKE_INIT_SZ ≤ dst_a)%nat → (HANDSHAKE_RESP_SZ ≤ dst_b)%nat →
  ∃ m1 m2 i r a1 a2 b1 sa sb,
    format_handshake_initiation a dst_a ty1 ephA now = (Ok m1, a1) ∧
    parse_incoming_packet_config m1 hc = Ok (PktInit i) ∧
    receive_handshake_initialization b i dst_b ty2 ephB = (Ok (m2, sb), b1) ∧
    parse_incoming_packet_config m2 hc = Ok (PktResponse r) ∧
    receive_handshake_response a1 r now' = (Ok sa, a2) ∧
    (∃ k1 k2, sa = Session_new (inc_index a).1 (inc_index b).1 k2 k1 ∧
       sb = Session_new (inc_index b).1 (inc_index a).1 k1 k2) ∧
    state a2 = HNone ∧ state b1 = HNone ∧ last_handshake_timestamp b1 = t ∧
    params a1 = params a ∧ params a2 = params a ∧ params b1 = params b ∧ init_wf i ∧ response_wf r.
Proof.
  intros Hp Hok Hv Ht1 Hr1 Ht2 Hr2 Hia Hib Ht Haft Hda Hdb.
  destruct (format_initiation_spec a dst_a ty1 ephA now Hda)
    as (i & hash & ck & macs & a1 & Hm & Hf & Hl & Hpa & _ & Hsa).
  destruct (consume_initiation_message _ _ _ _ _ t _ _ _ Hp (stamp_ok _ _) (length_stamp _ _) Ht Hm)
    as (Hc & Hidx & Heph).
  destruct (receive_initialization_spec b i dst_b ty2 ephB t hash ck Hdb Hc Haft)
    as (r & k1 & k2 & macs2 & b1 & Hrm & Hrf & Hl2 & Hpb & Hsb & Htb).
  rewrite Heph in Hrm. set (st := mkInitSent (inc_index a).1 hash ck ephA now) in *.
  destruct (consume_response_message (params a) (params b) st _ _ _ _ _ _ _ _ Hp eq_refl eq_refl Hrm)
    as (Hcr & Hri & Hrj).
  eexists (init_bytes ty1 i macs), (response_bytes ty2 r macs2), i, r, a1, _, b1, _, _.
  assert (init_wf i) as Hwi.
  { eapply initiation_message_wf; [apply Hp| | |exact Hm]; [by apply inc_index_ok|apply length_stamp]. }
  assert (response_wf r) as Hwr.
  { eapply response_message_wf; [| |exact Hrm]; [by apply inc_index_ok|rewrite Hidx; by apply inc_index_ok]. }
  split; [exact Hf|]. split; [by apply parse_init|].
  split; [exact Hrf|]. split; [by apply parse_response|]. split.
  { unfold receive_handshake_response, awaiting_response. rewrite Hsa.
    change (local_index st) with (inc_index a).1.
    rewrite Hrj, Hidx, Z.eqb_refl, Hpa, Hcr. reflexivity. }
  rewrite Hri, Hidx. split_and!; try done. by exists k1, k2.
Qed.

(** C16: Key agreement: when two ends are configured for each other (each
    other's static public key, the same preshared key), the initiation of one,
    parsed and processed by the other, and the response, parsed and processed
    back, leave the two ends with transport sessions whose keys and indices
    match in both directions, each in a state with no handshake in progress. *)
Theorem handshake_agreement a b hc ty1 ty2 ephA ephB now now' dst_a dst_b t :
  peers (params a) (params b) →
  headers_ok hc → HeaderConfig_validate hc = Ok () →
  u32_ok ty1 → HeaderRange_contains (hc_init hc) ty1 = true →
  u32_ok ty2 → HeaderRange_contains (hc_response hc) ty2 = true →
  u32_ok (next_index a) → u32_ok (next_index b) →
  Tai64N_parse (stamp (stamper a) now) = Ok t →
  Tai64N_after t (last_handshake_timestamp b) = true →
  (HANDSHAKE_INIT_SZ ≤ dst_a)%nat → (HANDSHAKE_RESP_SZ ≤ dst_b)%nat →
  ∃ m1 m2 i r a1 a2 b1 sa sb,
    format_handshake_initiation a dst_a ty1 ephA now = (Ok m1, a1) ∧
    parse_incoming_packet_config m1 hc = Ok (PktInit i) ∧
    receive_handshake_initialization b i dst_b ty2 ephB = (Ok (m2, sb), b1) ∧
    parse_incoming_packet_config m2 hc = Ok (PktResponse r) ∧
    receive_handshake_response a1 r now' = (Ok sa, a2) ∧
    sessions_match sa sb ∧ state a2 = HNone ∧ state b1 = HNone ∧
    last_handshake_timestamp b1 = t.
Proof.
  intros. destruct (handshake_agrees a b hc ty1 ty2 ephA ephB now now' dst_a dst_b t)
    as (m1 & m2 & i & r & a1 & a2 & b1 & sa & sb & E1 & E2 & E3 & E4 & E5 & (k1 & k2 & -> & ->) & Ha & Hb & Hl & _);
    try done.
  by exists m1, m2, i, r, a1, a2, b1, (Session_new (inc_index a).1 (inc_index b).1 k2 k1), (Session_new (inc_index b).1 (inc_index a).1 k1 k2).
Qed.

(** *** No method of the handshake panics *)
Record handshake_ok (h : Handshake) : Prop := {
  ho_params : params_ok (params h);
  ho_index : u32_ok (next_index h)
}.

Lemma aead_open_no_panic n key data aad :
  length data = (n + 16)%nat → aead_chacha20_open n key 0 data aad ≠ Panic.
Proof.
  intros Hl. unfold aead_chacha20_open. destruct (aead_open _ _ _ _) as [p|] eqn:E; cbn; [|done].
  apply aead_open_length in E. by rewrite decide_True by lia.
Qed.

Lemma consume_initiation_no_panic p m : init_wf m → consume_initiation p m ≠ Panic.
Proof.
  intros (_ & _ & Hs & Ht). unfold consume_initiation.
  destruct (init_static_key _ _ _) as [[hash ck] key].
  pose proof (aead_open_no_panic KEY_LEN key (hi_static m) hash Hs).
  destruct (aead_chacha20_open KEY_LEN _ _ _ _) as [pk|e|]; cbn [mbind result_bind]; [|done..].
  destruct (decide _); [|done]. destruct (mix_key_2 _ _) as [ck2 key2].
  pose proof (aead_open_no_panic TIMESTAMP_LEN key2 (hi_timestamp m)
    (b2s_hash hash (hi_static m)) Ht).
  destruct (aead_chacha20_open TIMESTAMP_LEN _ _ _ _) as [ts|e'|]; cbn [mbind result_bind]; [|done..].
  unfold Tai64N_parse. by destruct (decide _).
Qed.

Lemma format_initiation_ok h dst_len ty eph now :
  handshake_ok h → (HANDSHAKE_INIT_SZ ≤ dst_len)%nat →
  ∃ m h', format_handshake_initiation h dst_len ty eph now = (Ok m, h') ∧
    length m = HANDSHAKE_INIT_SZ ∧ handshake_ok h'.
Proof.
  intros [Hp Hi] Hd.
  destruct (format_initiation_spec h dst_len ty eph now Hd)
    as (msg & hash & ck & macs & h' & Hm & Hf & Hl & Hpa & _).
  exists (init_bytes ty msg macs), h'. split; [done|].
  destruct (initiation_message_wf _ _ _ _ _ _ _ Hp (inc_index_ok h Hi) (length_stamp _ _) Hm)
    as (_ & He & Hs & Ht).
  split; [unfold init_bytes, HANDSHAKE_INIT_SZ; len; lia|]. split; [by rewrite Hpa|].
  unfold format_handshake_initiation in Hf. rewrite decide_False in Hf by lia.
  pose proof (inc_index_ok h Hi) as Hn. rewrite <- inc_index_next in Hn.
  destruct (inc_index h) as [i h1]. destruct (initiation_message _ _ _ _) as [[? ?] ?].
  by apply pair_equal_spec in Hf as [_ <-].
Qed.

Lemma receive_initialization_ok h packet dst_len ty eph :
  handshake_ok h → init_wf packet →
  let '(r, h') := receive_handshake_initialization h packet dst_len ty eph in
  handshake_ok h' ∧ r ≠ Panic ∧
  ∀ m s, r = Ok (m, s) → length m = HANDSHAKE_RESP_SZ ∧ (HANDSHAKE_RESP_SZ ≤ dst_len)%nat.
Proof.
  intros [Hp Hi] Hw. unfold receive_handshake_initialization.
  pose proof (consume_initiation_no_panic (params h) packet Hw) as Hn.
  destruct (consume_initiation _ _) as [[[t hash] ck]|e|]; [|by split|done].
  destruct (Tai64N_after _ _); [|by split].
  set (h1 := hs_set_states _ _ _). unfold format_handshake_response.
  destruct (decide _) as [|Hd]; [by split|]. cbn [state h1 hs_set_states].
  set (h2 := hs_set_states _ HNone h1).
  pose proof (inc_index_ok h2 Hi) as Hn2. rewrite <- inc_index_next in Hn2.
  assert (params (inc_index h2).2 = params h) as Hp2 by done.
  destruct (inc_index h2) as [i h3]. cbn [snd] in *.
  destruct (response_message _ _ _ _ _ _ _) as [[msg k1] k2] eqn:Em.
  unfold response_message in Em. destruct (response_keys _ _ _ _ _ _) as [[hash' ck'] key'].
  destruct (derive_keys ck') as [? ?]. apply pair_equal_spec in Em as [[<- _]%pair_equal_spec _].
  destruct (append_macs h3 i (to_le 4 ty ++ to_le 4 i ++ to_le 4 (hi_sender_idx packet)
    ++ x25519_public eph ++ aead_chacha20_seal key' 0 [] hash')) as (macs & h4 & E & Hl & Hp4 & _ & _ & _ & Hi4 & _).
  cbn [hr_sender_idx hr_receiver_idx hr_ephemeral hr_nothing]. rewrite E.
  split; [split; [by rewrite Hp4, Hp2|by rewrite Hi4]|]. split; [done|].
  intros m s [<- _]%Ok_inj%pair_equal_spec. split; [|lia].
  unfold aead_chacha20_seal, HANDSHAKE_RESP_SZ. len.
  rewrite x25519_public_length, aead_seal_length. cbn. lia.
Qed.

Lemma receive_response_ok h packet now :
  handshake_ok h → response_wf packet →
  let '(r, h') := receive_handshake_response h packet now in handshake_ok h' ∧ r ≠ Panic.
Proof.
  intros Hh (_ & _ & _ & Hn). unfold receive_handshake_response.
  destruct (awaiting_response _ _) as [[st is_prev]|]; [|done].
  unfold consume_response. destruct (response_keys _ _ _ _ _ _) as [[hash ck] key].
  pose proof (aead_open_no_panic 0 key (hr_nothing packet) hash Hn).
  destruct (aead_chacha20_open 0 _ _ _ _) as [pt|e|]; cbn [mbind result_bind]; [|done..].
  destruct (derive_keys ck). destruct Hh. by destruct is_prev.
Qed.

Lemma receive_cookie_reply_ok h packet :
  handshake_ok h →
  let '(r, h') := receive_cookie_reply h packet in handshake_ok h' ∧ r ≠ Panic.
Proof.
  intros Hh. unfold receive_cookie_reply. destruct (last_mac1 _); [|done].
  destruct (negb _); [done|]. destruct (decide _); [|done].
  destruct (xaead_open _ _ _ _); [|done]. destruct (decide _); [|done]. by destruct Hh.
Qed.

(** *** Replayed initiations *)
Lemma after_irrefl t : Tai64N_after t t = false.
Proof. unfold Tai64N_after. lia. Qed.

Lemma aead_open_err n key data aad e :
  aead_chacha20_open n key 0 data aad = Err e → e = InvalidAeadTag.
Proof.
  unfold aead_chacha20_open. destruct (aead_open _ _ _ _); cbn; [by case_decide|].
  by intros [= <-].
Qed.

Lemma consume_initiation_err p m e :
  consume_initiation p m = Err e →
  e = InvalidAeadTag ∨ e = WrongKey ∨ e = InvalidTai64nTimestamp.
Proof.
  unfold consume_initiation. destruct (init_static_key _ _ _) as [[hash ck] key].
  intros [He%aead_open_err|(pk & _ & He)]%bind_err; [by left|].
  case_decide; [|injection He; auto]. destruct (mix_key_2 _ _) as [ck2 key2].
  apply bind_err in He as [He%aead_open_err|(t & _ & He)]; [by left|].
  apply bind_err in He as [He|(t' & _ & He)]; [|done].
  unfold Tai64N_parse in He. case_decide; [|done]. injection He. auto.
Qed.

Lemma receive_initialization_inv h packet dst_len ty eph r h' :
  receive_handshake_initialization h packet dst_len ty eph = (r, h') →
  is_ok r = true ∨ r = Err DestinationBufferTooSmall →
  ∃ t hash ck, consume_initiation (params h) packet = Ok (t, hash, ck) ∧
    last_handshake_timestamp h' = t ∧ params h' = params h.
Proof.
  unfold receive_handshake_initialization.
  destruct (consume_initiation (params h) packet) as [[[t hash] ck]|e|] eqn:Ec.
  - destruct (Tai64N_after t _); [|by intros [<- _]%pair_equal_spec [|]].
    intros Hf Hr. exists t, hash, ck. split; [done|].
    set (h1 := hs_set_states _ _ _) in Hf.
    destruct (decide (HANDSHAKE_RESP_SZ ≤ dst_len)%nat) as [Hd|Hd].
    + destruct (format_response_spec h1 dst_len ty eph hash ck (hi_ephemeral packet)
        (hi_sender_idx packet) Hd eq_refl)
        as (msg & k1 & k2 & macs & h2 & _ & Ef & _ & Hp & _ & Ht).
      rewrite Ef in Hf. apply pair_equal_spec in Hf as [_ <-]. by rewrite Ht, Hp.
    + unfold format_handshake_response in Hf. rewrite decide_True in Hf by lia.
      by apply pair_equal_spec in Hf as [_ <-].
  - intros [<- _]%pair_equal_spec [|[= ->]]; [done|].
    by apply consume_initiation_err in Ec as [|[|]].
  - by intros [<- _]%pair_equal_spec [|].
Qed.

(** C34: A replayed initiation is refused: once an initiation has been processed
    (answered, or accepted but left unanswered because the buffer was too
    small), the same message is rejected by its time stamp and changes
    nothing. *)
Theorem initiation_replay_refused h packet dst_len ty eph r h' dst_len' ty' eph' :
  receive_handshake_initialization h packet dst_len ty eph = (r, h') →
  is_ok r = true ∨ r = Err DestinationBufferTooSmall →
  receive_handshake_initialization h' packet dst_len' ty' eph' = (Err WrongTai64nTimestamp, h').
Proof.
  intros Hr Hok. destruct (receive_initialization_inv _ _ _ _ _ _ _ Hr Hok)
    as (t & hash & ck & Hc & Ht & Hp).
  unfold receive_handshake_initialization. by rewrite Hp, Hc, Ht, after_irrefl.
Qed.

(** Two initiations may be in flight: a response to the older one still
    completes that handshake, with the keys of the older one, and leaves the
    newer one waiting. *)
Lemma delayed_response_accepted h s1 s2 packet k1 k2 now :
  state h = InitSent s2 → previous h = InitSent s1 →
  local_index s1 ≠ local_index s2 → hr_receiver_idx packet = local_index s1 →
  consume_response (params h) s1 packet = Ok (k1, k2) →
  ∃ h', receive_handshake_response h packet now =
      (Ok (Session_new (local_index s1) (hr_sender_idx packet) k2 k1), h') ∧
    state h' = InitSent s2 ∧ previous h' = HNone.
Proof.
  intros Hs Hp Hne Hi Hc. unfold receive_handshake_response, awaiting_response.
  rewrite Hs, Hp, Hi, Z.eqb_refl, (proj2 (Z.eqb_neq _ _)), Hc by congruence.
  eexists. split; [done|]. by rewrite <- Hs.
Qed.
End agreement.

(** ** A concrete instance: commutative exponents, checksums for hashes *)
Module ToyNoise.
Definition M : Z := 256 ^ 32.
Definition digest (n : nat) (k m : bytes) : bytes :=
  to_le n (from_le k * 31 + from_le m * 17 + Z.of_nat (length m)).
Definition public (k : bytes) : bytes := to_le 32 (from_le k).
Definition dh (k p : bytes) : bytes := to_le 32 (from_le k mod M * from_le p).

Lemma dh_comm a b : dh a (public b) = dh b (public a).
Proof.
  unfold dh, public. rewrite !from_to_le. change (256 ^ Z.of_nat 32) with M. f_equal. lia.
Qed.

Definition crypto : NoiseCrypto := {|
  blake2s := digest 32 [];
  hmac_blake2s := digest 32;
  mac16 := digest 16;
  mac24 := digest 24;
  x25519_public := public;
  diffie_hellman := dh;
  xaead_seal := ToyAead.seal;
  xaead_open := ToyAead.open;
  blake2s_length _ := length_to_le _ _;
  hmac_length _ _ := length_to_le _ _;
  mac16_length _ _ := length_to_le _ _;
  mac24_length _ _ := length_to_le _ _;
  x25519_public_length _ := length_to_le _ _;
  x25519_public_ok _ := bytes_ok_to_le _ _;
  mac16_ok _ _ := bytes_ok_to_le _ _;
  mac24_ok _ _ := bytes_ok_to_le _ _;
  diffie_hellman_comm := dh_comm;
  xaead_seal_length := ToyAead.seal_length;
  xaead_open_seal k n a p _ := ToyAead.toy_open_seal k n a p
|}.

Definition alice : bytes := replicate 32 5.
Definition bob : bytes := replicate 32 6.
Definition initiator : Handshake :=
  Handshake_new (NC := crypto) alice (public alice) (public bob) 256 None 1700000000000000000 0.
Definition responder : Handshake :=
  Handshake_new (NC := crypto) bob (public bob) (public alice) 512 None 1700000000000000000 0.
End ToyNoise.

Section witnesses.
#[local] Existing Instances ToyNoise.crypto ToyAead.cipher.

Lemma toy_peers : peers (params ToyNoise.initiator) (params ToyNoise.responder).
Proof. by split. Qed.

Lemma handshake_agreement_witness :
  ∃ m1 a1, format_handshake_initiation ToyNoise.initiator 148 1 (replicate 32 7) 9 = (Ok m1, a1).
Proof.
  edestruct (handshake_agreement ToyNoise.initiator ToyNoise.responder
    HeaderConfig_wireguard_compatible 1 2 (replicate 32 7) (replicate 32 8) 9 20 148 92)
    as (m1 & m2 & i & r & a1 & a2 & b1 & sa & sb & E & _);
    [apply toy_peers|by apply (bool_decide_eq_true_1 _)|reflexivity
    |vm_compute; split; congruence|reflexivity|vm_compute; split; congruence|reflexivity
    |vm_compute; split; congruence|vm_compute; split; congruence|vm_compute; reflexivity
    |reflexivity|reflexivity|reflexivity|].
  exists m1, a1. exact E.
Defined.

(** An initiation, the responder's answer to it, and both states. *)
Definition sample_exchange : result WireGuardError (HandshakeInit * Handshake * HandshakeResponse) :=
  match format_handshake_initiation ToyNoise.initiator 148 1 (replicate 32 7) 9 with
  | (Ok m1, a1) =>
      match parse_incoming_packet m1 with
      | Ok (PktInit i) =>
          match receive_handshake_initialization ToyNoise.responder i 92 2 (replicate 32 8) with
          | (Ok (m2, _), _) =>
              match parse_incoming_packet m2 with
              | Ok (PktResponse r) => Ok (i, a1, r)
              | _ => Err InvalidPacket
              end
          | _ => Err InvalidPacket
          end
      | _ => Err InvalidPacket
      end
  | _ => Err InvalidPacket
  end.
Definition ok_or_default {E A} (d : A) (r : result E A) : A :=
  match r with Ok a => a | _ => d end.
Definition exchange : HandshakeInit * Handshake * HandshakeResponse :=
  ok_or_default (mkHandshakeInit 0 [] [] [], ToyNoise.initiator, mkHandshakeResponse 0 0 [] [])
    sample_exchange.
Definition sample_init : HandshakeInit := exchange.1.1.
Definition sample_response : HandshakeResponse := exchange.2.
(** The initiator after a second initiation. *)
Definition sample_two_in_flight : Handshake :=
  (format_handshake_initiation exchange.1.2 148 1 (replicate 32 9) 15).2.

Lemma initiation_replay_refused_witness :
  let h' := (receive_handshake_initialization ToyNoise.responder sample_init 10 2 []).2 in
  receive_handshake_initialization h' sample_init 92 2 (replicate 32 8)
    = (Err WrongTai64nTimestamp, h').
Proof.
  eapply (initiation_replay_refused ToyNoise.responder sample_init 10 2 []
    (Err DestinationBufferTooSmall)).
  - vm_compute. reflexivity.
  - right. reflexivity.
Defined.

Definition sent_state (st : HandshakeState) : HandshakeInitSentState :=
  match st with InitSent s => s | _ => mkInitSent 0 [] [] [] 0 end.
Definition sample_keys : bytes * bytes :=
  ok_or_default ([], [])
    (consume_response (params sample_two_in_flight)
       (sent_state (previous sample_two_in_flight)) sample_response).

End witnesses.
