(* ===== verification/RateLimiter.v ===== *)
(** * RateLimiter: MAC verification and the cookie mechanism

    Models [awgtun/src/noise/rate_limiter.rs].  The limiter's atomics are fields
    of [RateLimiter]; each method is one atomic step on them, in the order the
    code performs its loads and stores.  Shown: what the handshake code formats
    passes [verify_packet]; under load the cookie reply gives the sender the
    cookie that admits its next message; the number of unauthenticated
    admissions between two resets is the limit. *)

From Stdlib Require Import ZArith Lia.
From stdpp Require Import base list option strings sets tactics.
From S2P Require Import Prelude Clock Random Amnezia Packet Session Handshake.
Open Scope Z_scope.

(** [TunnResult], the outcome of a tunnel operation. *)
Inductive TunnResult :=
  | Done
  | TErr (e : WireGuardError)
  | WriteToNetwork (packet : bytes)
  | WriteToTunnelV4 (packet : bytes) (addr : bytes)
  | WriteToTunnelV6 (packet : bytes) (addr : bytes).

#[export] Instance TunnResult_eq_dec : EqDecision TunnResult.
Proof. solve_decision. Defined.

Definition COOKIE_REFRESH : Z := 128.
Definition COOKIE_SIZE : nat := 16.
Definition COOKIE_NONCE_SIZE : nat := 24.
Definition RESET_PERIOD : Z := 1.

Definition as_secs (ns : Z) : Z := ns / 1000000000.

Record RateLimiter := mkLimiter {
  nonce_key : bytes;
  secret_key : bytes;
  start_time : Z;
  nonce_ctr : Z;
  mac1_key : bytes;
  cookie_key : bytes;
  limit : Z;
  count : Z;
  last_reset : Z
}.

Definition rl_set_count (c : Z) (r : RateLimiter) : RateLimiter :=
  mkLimiter (nonce_key r) (secret_key r) (start_time r) (nonce_ctr r) (mac1_key r) (cookie_key r)
    (limit r) c (last_reset r).
Definition rl_set_nonce_ctr (c : Z) (r : RateLimiter) : RateLimiter :=
  mkLimiter (nonce_key r) (secret_key r) (start_time r) c (mac1_key r) (cookie_key r)
    (limit r) (count r) (last_reset r).
Definition rl_set_last_reset (t : Z) (r : RateLimiter) : RateLimiter :=
  mkLimiter (nonce_key r) (secret_key r) (start_time r) (nonce_ctr r) (mac1_key r) (cookie_key r)
    (limit r) (count r) t.

Section limiter.
Context `{NC : NoiseCrypto}.

(** [RateLimiter::new]; the two keys are what [getrandom] returns. *)
Definition RateLimiter_new (public_key : bytes) (lim : Z) (secret nkey : bytes) (now : Z)
    : RateLimiter :=
  mkLimiter nkey secret now 0 (b2s_hash LABEL_MAC1 public_key) (b2s_hash LABEL_COOKIE public_key)
    lim 0 now.

Definition reset_count (r : RateLimiter) (now : Z) : RateLimiter :=
  if RESET_PERIOD <=? as_secs (elapsed_ns now (last_reset r))
  then rl_set_last_reset now (rl_set_count 0 r) else r.

Definition current_cookie (r : RateLimiter) (addr : IpAddr) (now : Z) : bytes :=
  let addr_bytes :=
    match addr with
    | V4 a => a ++ replicate 12 0
    | V6 a => a
    end in
  let cur_counter := as_secs (elapsed_ns now (start_time r)) / COOKIE_REFRESH in
  b2s_keyed_mac_16_2 (secret_key r) (to_le 8 cur_counter) addr_bytes.

Definition RateLimiter_nonce (r : RateLimiter) : bytes * RateLimiter :=
  let ctr := nonce_ctr r in
  (b2s_mac_24 (nonce_key r) (to_le 8 ctr), rl_set_nonce_ctr (wrap 64 (ctr + 1)) r).

Definition is_under_load (r : RateLimiter) : bool * RateLimiter :=
  (limit r <=? count r, rl_set_count (wrap 64 (count r + 1)) r).

Definition format_cookie_reply (r : RateLimiter) (idx : Z) (cookie mac1 : bytes) (dst_len : nat)
    (msg_type : Z) : result WireGuardError bytes * RateLimiter :=
  if decide (dst_len < COOKIE_REPLY_SZ)%nat then (Err DestinationBufferTooSmall, r) else
  let '(nonce, r) := RateLimiter_nonce r in
  (Ok (to_le 4 msg_type ++ to_le 4 idx ++ nonce ++ xaead_seal (cookie_key r) nonce mac1 cookie), r).

(** [RateLimiter::verify_packet]; [now] is the clock [current_cookie] reads, [g]
    the generator the cookie's type field is drawn from. *)
Definition verify_packet `{RandomSource R} (r : RateLimiter) (src_addr : option IpAddr)
    (src : bytes) (dst_len : nat) (header_config : HeaderConfig) (disable_cookies : bool)
    (now : Z) (g : R) : result TunnResult Packet * RateLimiter * R :=
  match parse_incoming_packet_config src header_config with
  | Err e => (Err (TErr e), r, g)
  | Panic => (Panic, r, g)
  | Ok packet =>
      let handshake :=
        match packet with
        | PktInit p => Some (hi_sender_idx p)
        | PktResponse p => Some (hr_sender_idx p)
        | _ => None
        end in
      match handshake with
      | None => (Ok packet, r, g)
      | Some sender_idx =>
          let msg := take (length src - 32) src in
          let macs := drop (length src - 32) src in
          let mac1 := take 16 macs in
          let mac2 := drop 16 macs in
          if negb (bool_decide (b2s_keyed_mac_16 (mac1_key r) msg = mac1))
          then (Err (TErr InvalidMac), r, g)
          else if disable_cookies then (Ok packet, r, g) else
          let '(under_load, r) := is_under_load r in
          if under_load then
            match src_addr with
            | None => (Err (TErr UnderLoad), r, g)
            | Some addr =>
                let cookie := current_cookie r addr now in
                if negb (bool_decide (b2s_keyed_mac_16_2 cookie msg mac1 = mac2)) then
                  let '(cookie_msg_type, g) := HeaderRange_generate (hc_cookie header_config) g in
                  let '(reply, r) := format_cookie_reply r sender_idx cookie mac1 dst_len cookie_msg_type in
                  match reply with
                  | Ok p => (Err (WriteToNetwork p), r, g)
                  | Err e => (Err (TErr e), r, g)
                  | Panic => (Panic, r, g)
                  end
                else (Ok packet, r, g)
            end
          else (Ok packet, r, g)
      end
  end.
End limiter.

(** ** What verification decides *)
Definition handshake_sender (p : Packet) : option Z :=
  match p with
  | PktInit p => Some (hi_sender_idx p)
  | PktResponse p => Some (hr_sender_idx p)
  | _ => None
  end.

Section verification.
Context `{NC : NoiseCrypto} `{RS : RandomSource R}.
Implicit Types g : R.

(** What [verify_packet] can return: a well-formed packet, an error, or a cookie
    reply of 64 bytes. *)
Definition verdict_ok (n : nat) (v : result TunnResult Packet) : Prop :=
  match v with
  | Ok p => packet_wf p ∧ (payload_len p ≤ n)%nat
  | Err (TErr _) => True
  | Err (WriteToNetwork c) => length c = COOKIE_REPLY_SZ
  | _ => False
  end.

Lemma verify_packet_ok r addr src dst_len hc disable now g :
  bytes_ok src → rng_ok g → (COOKIE_REPLY_SZ ≤ dst_len)%nat →
  let '(v, _, g') := verify_packet r addr src dst_len hc disable now g in
  verdict_ok (length src) v ∧ rng_ok g'.
Proof.
  intros Hs Hg Hd. unfold verify_packet.
  pose proof (parse_no_panic src hc) as Hn.
  destruct (parse_incoming_packet_config src hc) as [p|e|] eqn:Ep; [|done|done].
  pose proof (parse_payload _ _ _ Ep). apply parse_wf in Ep; [|done].
  destruct (match p with PktInit _ => _ | _ => _ end) as [idx|]; [|done].
  destruct (negb _); [done|]. destruct disable; [done|]. cbn [is_under_load].
  destruct (_ <=? _); [|done]. destruct addr as [a|]; [|done].
  destruct (negb _); [|done].
  pose proof (gen_range_u32_inv (hr_start (hc_cookie hc)) (hr_end (hc_cookie hc)) g Hg) as Hg'.
  unfold HeaderRange_generate. destruct (gen_range_u32 _ _ g) as [ty g'].
  unfold format_cookie_reply. rewrite decide_False by lia. split; [|done].
  cbn. rewrite !length_app, !length_to_le, mac24_length, xaead_seal_length.
  unfold current_cookie, b2s_keyed_mac_16_2. by rewrite mac16_length.
Qed.

Lemma split_macs (msg mac1 mac2 : bytes) :
  length mac1 = 16%nat → length mac2 = 16%nat →
  let src := msg ++ mac1 ++ mac2 in
  take (length src - 32) src = msg ∧ take 16 (drop (length src - 32) src) = mac1 ∧
  drop 16 (drop (length src - 32) src) = mac2.
Proof.
  intros H1 H2 src. assert (length src - 32 = length msg)%nat as -> by (unfold src; len; lia).
  unfold src. rewrite take_app_length, drop_app_length.
  by rewrite take_app_exact, drop_app_exact.
Qed.

(** The verdict on a handshake message, by the state of the limiter. *)
Lemma verify_handshake r addr (msg mac1 mac2 : bytes) dst_len hc disable now g packet idx :
  let src := msg ++ mac1 ++ mac2 in
  length mac1 = 16%nat → length mac2 = 16%nat →
  parse_incoming_packet_config src hc = Ok packet → handshake_sender packet = Some idx →
  mac1 = mac16 (mac1_key r) msg →
  verify_packet r addr src dst_len hc disable now g =
    if disable then (Ok packet, r, g) else
    let r' := rl_set_count (wrap 64 (count r + 1)) r in
    if limit r <=? count r then
      match addr with
      | None => (Err (TErr UnderLoad), r', g)
      | Some addr =>
          if negb (bool_decide (mac16 (current_cookie r addr now) (msg ++ mac1) = mac2)) then
            let '(ty, g) := HeaderRange_generate (hc_cookie hc) g in
            let '(reply, r'') :=
              format_cookie_reply r' idx (current_cookie r addr now) mac1 dst_len ty in
            match reply with
            | Ok p => (Err (WriteToNetwork p), r'', g)
            | Err e => (Err (TErr e), r'', g)
            | Panic => (Panic, r'', g)
            end
          else (Ok packet, r', g)
      end
    else (Ok packet, r', g).
Proof.
  intros src H1 H2 Hp Hs Hm. unfold verify_packet. rewrite Hp.
  destruct (split_macs msg mac1 mac2 H1 H2) as (Ha & Hb & Hc). fold src in Ha, Hb, Hc.
  unfold handshake_sender in Hs. rewrite Hs. rewrite Ha, Hb, Hc.
  unfold b2s_keyed_mac_16. rewrite bool_decide_eq_true_2 by done. done.
Qed.

(** What [append_mac1_and_mac2] produced, split into its parts. *)
Lemma append_parts h idx msg src h' :
  append_mac1_and_mac2 h idx msg = (src, h') →
  ∃ mac2, src = msg ++ mac16 (sending_mac1_key (params h)) msg ++ mac2 ∧ length mac2 = 16%nat ∧
    mac2 = (match write_cookie (cookies h) with
            | Some cookie => mac16 cookie (msg ++ mac16 (sending_mac1_key (params h)) msg)
            | None => replicate 16 0
            end) ∧
    params h' = params h ∧ last_mac1 (cookies h') = Some (mac16 (sending_mac1_key (params h)) msg) ∧
    cookie_index (cookies h') = idx.
Proof.
  unfold append_mac1_and_mac2, b2s_keyed_mac_16.
  intros [<- <-]%pair_equal_spec. eexists. rewrite <- app_assoc. split; [done|].
  split; [destruct (write_cookie _); [apply mac16_length|done]|]. done.
Qed.

(** A handshake message carries what its addressee asks for: with the MAC1
    key of the addressee it passes verification while the limiter is not over
    its limit, or with cookies disabled, or under load once the sender holds
    the addressee's current cookie for its address. *)
Lemma handshake_admitted h idx msg src h' r addr dst_len hc disable now (g : R) packet :
  append_mac1_and_mac2 h idx msg = (src, h') →
  sending_mac1_key (params h) = mac1_key r →
  parse_incoming_packet_config src hc = Ok packet → handshake_sender packet = Some idx →
  disable = true ∨ count r < limit r ∨ write_cookie (cookies h) = Some (current_cookie r addr now) →
  ∃ r', verify_packet r (Some addr) src dst_len hc disable now g = (Ok packet, r', g).
Proof.
  intros Ha Hk Hp Hs Hcase. apply append_parts in Ha as (mac2 & -> & Hl2 & Hm2 & _).
  rewrite (verify_handshake r (Some addr) msg _ mac2 dst_len hc disable now g packet idx);
    [|apply mac16_length|done..|by rewrite Hk].
  destruct disable; [by eexists|]. cbn zeta.
  destruct (Z.leb_spec (limit r) (count r)); [|by eexists].
  destruct Hcase as [|[|Hc]]; [done|lia|]. rewrite Hc in Hm2. rewrite Hm2.
  rewrite bool_decide_eq_true_2 by done. by eexists.
Qed.

Lemma format_cookie_reply_eq r idx cookie mac1 dst_len ty :
  (64 ≤ dst_len)%nat →
  ∃ nonce r', length nonce = 24%nat ∧
    format_cookie_reply r idx cookie mac1 dst_len ty =
      (Ok (cookie_bytes ty (mkCookieReply idx nonce (xaead_seal (cookie_key r) nonce mac1 cookie))), r').
Proof.
  intros Hd. unfold format_cookie_reply, COOKIE_REPLY_SZ. rewrite decide_False by lia.
  eexists _, _. split; [|reflexivity]. apply mac24_length.
Qed.

(** C35: Under load a message without the current cookie is answered by a cookie
    reply, and the sender that receives this reply ends up holding exactly the
    cookie the limiter computes for its address now: the reply parses as a
    cookie message, its index and MAC1 match what the sender remembers, and
    decryption recovers the cookie. *)
Theorem cookie_reply_delivers h idx msg src h' r addr dst_len hc now (g : R) packet :
  append_mac1_and_mac2 h idx msg = (src, h') →
  sending_mac1_key (params h) = mac1_key r →
  cookie_key r = b2s_hash LABEL_COOKIE (peer_static_public (params h)) →
  parse_incoming_packet_config src hc = Ok packet → handshake_sender packet = Some idx →
  u32_ok idx → rng_ok g → headers_ok hc → HeaderConfig_validate hc = Ok () →
  limit r ≤ count r →
  drop (length src - 16) src ≠
    mac16 (current_cookie r addr now) (take (length src - 16) src) →
  (64 ≤ dst_len)%nat →
  ∃ reply r' g' c h'',
    verify_packet r (Some addr) src dst_len hc false now g = (Err (WriteToNetwork reply), r', g') ∧
    parse_incoming_packet_config reply hc = Ok (PktCookie c) ∧
    receive_cookie_reply h' c = (Ok (), h'') ∧
    write_cookie (cookies h'') = Some (current_cookie r addr now).
Proof.
  intros Ha Hk Hck Hp Hs Hi Hg Hok Hv Hload Hne Hd.
  apply append_parts in Ha as (mac2 & -> & Hl2 & _ & Hpar & Hlast & Hidx).
  pose proof (mac16_length (sending_mac1_key (params h)) msg) as Hl1.
  set (mac1 := mac16 (sending_mac1_key (params h)) msg) in *.
  rewrite app_assoc in Hne. rewrite take_app_exact, drop_app_exact in Hne by (len; lia).
  pose proof (generate_contains (hc_cookie hc) g (proj1 (proj2 (proj2 Hok))) Hg) as Hgen.
  rewrite (verify_handshake r (Some addr) msg mac1 mac2 dst_len hc false now g packet idx)
    by (done || by rewrite <- Hk). cbn zeta.
  replace (limit r <=? count r) with true by lia.
  rewrite bool_decide_eq_false_2 by congruence. cbn [negb].
  destruct (HeaderRange_generate (hc_cookie hc) g) as [ty g'].
  set (r1 := rl_set_count _ r).
  destruct (format_cookie_reply_eq r1 idx (current_cookie r addr now) mac1 dst_len ty Hd)
    as (nonce & r' & Hnl & ->).
  eexists _, r', g', _, _. split; [reflexivity|]. cbn [fst snd] in Hgen.
  pose proof (contains_u32 _ _ (proj1 (proj2 (proj2 Hok))) Hgen) as Hty. split.
  { apply parse_cookie; try done. unfold cookie_wf. cbn. rewrite xaead_seal_length.
    unfold current_cookie, b2s_keyed_mac_16_2. by rewrite mac16_length. }
  unfold receive_cookie_reply. rewrite Hlast, Hidx, Hpar. cbn [cr_receiver_idx cr_nonce cr_cookie].
  rewrite Z.eqb_refl. cbn [negb]. rewrite decide_True by done.
  rewrite (take_ge mac1) by lia. change (cookie_key r1) with (cookie_key r).
  rewrite Hck, xaead_open_seal by apply mac16_ok.
  rewrite decide_True by apply mac16_length. done.
Qed.

(** The verdicts of [is_under_load] over [n] arrivals. *)
Fixpoint arrivals (n : nat) (r : RateLimiter) : list bool :=
  match n with
  | O => []
  | S n' => let '(b, r) := is_under_load r in b :: arrivals n' r
  end.

Lemma arrivals_eq n r :
  0 ≤ count r → count r + Z.of_nat n < 2 ^ 64 →
  arrivals n r = map (λ k, limit r <=? count r + k) (seqZ 0 (Z.of_nat n)).
Proof.
  revert r. induction n as [|n IH]; intros r Hc Hn; [done|].
  rewrite Nat2Z.inj_succ, seqZ_cons by lia. cbn [arrivals is_under_load map].
  rewrite Z.add_0_r. f_equal. rewrite IH; cbn [count limit rl_set_count];
    rewrite ?wrap_small by (split; lia); [|lia..].
  rewrite Z.pred_succ. change (Z.succ 0) with (1 + 0). rewrite <- fmap_add_seqZ.
  change (Z.add 1 <$> ?l) with (map (Z.add 1) l). rewrite map_map.
  apply map_ext. intros k. f_equal. lia.
Qed.

(** After a reset exactly [limit] handshake messages are let through
    unconditionally before the limiter reports load, however many arrive. *)
Lemma limiter_admits_limit r now n :
  RESET_PERIOD ≤ as_secs (elapsed_ns now (last_reset r)) → 0 ≤ limit r → Z.of_nat n < 2 ^ 64 →
  arrivals n (reset_count r now) =
  map (λ k, limit r <=? k) (seqZ 0 (Z.of_nat n)).
Proof.
  intros Hr Hl Hn. unfold reset_count. rewrite (proj2 (Z.leb_le _ _)) by done.
  by rewrite arrivals_eq by (cbn; lia).
Qed.
End verification.

Section limiter_witnesses.
#[local] Existing Instances ToyNoise.crypto ToyAead.cipher.

Definition sample_body : bytes := to_le 4 1 ++ to_le 4 257 ++ replicate 108 3.
Definition sample_limiter (lim : Z) : RateLimiter :=
  RateLimiter_new (ToyNoise.public ToyNoise.bob) lim (replicate 16 1) (replicate 32 2) 0.
Definition sample_packet : Packet :=
  PktInit (mkHandshakeInit 257 (replicate 32 3) (replicate 48 3) (replicate 28 3)).
Definition sample_addr : IpAddr := V4 [10; 0; 0; 1].

Lemma cookie_reply_delivers_witness :
  ∃ reply r' g', verify_packet (sample_limiter 0) (Some sample_addr)
      (append_mac1_and_mac2 ToyNoise.initiator 257 sample_body).1 100
      HeaderConfig_wireguard_compatible false 7 counting_bytes
    = (Err (WriteToNetwork reply), r', g').
Proof.
  destruct (cookie_reply_delivers ToyNoise.initiator 257 sample_body
    (append_mac1_and_mac2 ToyNoise.initiator 257 sample_body).1
    (append_mac1_and_mac2 ToyNoise.initiator 257 sample_body).2 (sample_limiter 0) sample_addr 100
    HeaderConfig_wireguard_compatible 7 counting_bytes sample_packet)
    as (reply & r' & g' & c & h'' & E & _).
  - reflexivity.
  - reflexivity.
  - reflexivity.
  - vm_compute. reflexivity.
  - reflexivity.
  - vm_compute. split; congruence.
  - apply counting_bytes_ok.
  - by apply (bool_decide_eq_true_1 _).
  - reflexivity.
  - vm_compute. congruence.
  - vm_compute. congruence.
  - lia.
  - exists reply, r', g'. exact E.
Defined.

End limiter_witnesses.
