(* ===== verification/Timers.v ===== *)
(** * Timers: the timer table of a tunnel

    Models the [Timers] struct of [awgtun/src/noise/timers.rs] and the methods
    that touch it alone; the methods of [Tunn] in that file are in [Tunnel].
    Durations are nanoseconds since the tunnel was created.  Shown: the drawn
    handshake timings stay within the configured ranges, and with no ranges
    configured they are WireGuard's constants plus the jitter. *)

From Stdlib Require Import ZArith Lia.
From stdpp Require Import base list option strings sets tactics.
From S2P Require Import Prelude Clock Random Amnezia.
Open Scope Z_scope.

Definition N_SESSIONS : nat := 8.

Definition SEC : Z := 1000000000.
Definition MS : Z := 1000000.

Definition REKEY_AFTER_TIME_SECS : Z := 120.
Definition REJECT_AFTER_TIME_SECS : Z := 180.
Definition REKEY_TIMEOUT_SECS : Z := 5.
Definition KEEPALIVE_TIMEOUT_SECS : Z := 10.
Definition MAX_TIMER_HANDSHAKES : Z := 18.
Definition REKEY_TIMEOUT_JITTER_MAX_MS : Z := 334.
Definition REKEY_ATTEMPT_TIME : Z := REKEY_TIMEOUT_SECS * MAX_TIMER_HANDSHAKES * SEC.
Definition REKEY_TIMEOUT : Z := REKEY_TIMEOUT_SECS * SEC.
Definition COOKIE_EXPIRATION_TIME : Z := 120 * SEC.

Inductive TimerName :=
  | TimeCurrent
  | TimeSessionEstablished
  | TimeLastHandshakeStarted
  | TimeLastPacketReceived
  | TimeLastPacketSent
  | TimeLastDataPacketReceived
  | TimeLastDataPacketSent
  | TimeCookieReceived
  | TimePersistentKeepalive.

#[export] Instance TimerName_eq_dec : EqDecision TimerName.
Proof. solve_decision. Defined.

(** [TimerName as usize]. *)
Definition timer_index (t : TimerName) : nat :=
  match t with
  | TimeCurrent => 0
  | TimeSessionEstablished => 1
  | TimeLastHandshakeStarted => 2
  | TimeLastPacketReceived => 3
  | TimeLastPacketSent => 4
  | TimeLastDataPacketReceived => 5
  | TimeLastDataPacketSent => 6
  | TimeCookieReceived => 7
  | TimePersistentKeepalive => 8
  end.
Definition TIMER_TOP : nat := 9.

Record Timers := mkTimers {
  is_initiator : bool;
  time_started : Z;
  timers : list Z;
  session_timers : list Z;
  want_keepalive : bool;
  want_handshake : bool;
  persistent_keepalive_secs : Z;
  ranges : TimingRanges;
  rekey_timeout_current : Z;
  rekey_attempt_deadline : Z;
  persistent_keepalive_next : Z;
  should_reset_rr : bool
}.

Section with_rng.
Context `{RS : RandomSource R}.

Definition Timers_new (persistent_keepalive_opt : option Z) (reset_rr : bool)
    (timing_ranges : TimingRanges) (now : Z) (g : R) : Timers * R :=
  let '(pk, g) := U32Range_pick_or (persistent_keepalive timing_ranges) 0 g in
  (mkTimers false now (replicate TIMER_TOP 0) (replicate N_SESSIONS 0) false false
     (default 0 persistent_keepalive_opt) timing_ranges REKEY_TIMEOUT REKEY_ATTEMPT_TIME
     (pk * SEC) reset_rr, g).

Definition roll_handshake_timings (t : Timers) (starting_new_handshake : bool) (g : R)
    : Timers * R :=
  let '(rekey, g) := U32Range_pick_or (rekey_timeout (ranges t)) REKEY_TIMEOUT_SECS g in
  let '(jitter_ms, g) := gen_range_u32 0 (REKEY_TIMEOUT_JITTER_MAX_MS - 1) g in
  let current := rekey * SEC + jitter_ms * MS in
  let '(deadline, g) :=
    if starting_new_handshake then
      let '(max_attempts, g) :=
        U32Range_pick_or (max_handshake_attempts (ranges t)) MAX_TIMER_HANDSHAKES g in
      (rekey * max_attempts * SEC, g)
    else (rekey_attempt_deadline t, g) in
  (mkTimers (is_initiator t) (time_started t) (timers t) (session_timers t) (want_keepalive t)
     (want_handshake t) (persistent_keepalive_secs t) (ranges t) current deadline
     (persistent_keepalive_next t) (should_reset_rr t), g).
End with_rng.

Definition Timers_reject_after_time (t : Timers) : Z :=
  U32Range_hi_or (reject_after_time (ranges t)) REJECT_AFTER_TIME_SECS * SEC.

Definition set_timers (l : list Z) (t : Timers) : Timers :=
  mkTimers (is_initiator t) (time_started t) l (session_timers t) (want_keepalive t)
    (want_handshake t) (persistent_keepalive_secs t) (ranges t) (rekey_timeout_current t)
    (rekey_attempt_deadline t) (persistent_keepalive_next t) (should_reset_rr t).
Definition set_session_timers (l : list Z) (t : Timers) : Timers :=
  mkTimers (is_initiator t) (time_started t) (timers t) l (want_keepalive t)
    (want_handshake t) (persistent_keepalive_secs t) (ranges t) (rekey_timeout_current t)
    (rekey_attempt_deadline t) (persistent_keepalive_next t) (should_reset_rr t).
Definition set_wants (keepalive handshake : bool) (t : Timers) : Timers :=
  mkTimers (is_initiator t) (time_started t) (timers t) (session_timers t) keepalive
    handshake (persistent_keepalive_secs t) (ranges t) (rekey_timeout_current t)
    (rekey_attempt_deadline t) (persistent_keepalive_next t) (should_reset_rr t).
Definition set_is_initiator (b : bool) (t : Timers) : Timers :=
  mkTimers b (time_started t) (timers t) (session_timers t) (want_keepalive t)
    (want_handshake t) (persistent_keepalive_secs t) (ranges t) (rekey_timeout_current t)
    (rekey_attempt_deadline t) (persistent_keepalive_next t) (should_reset_rr t).
Definition set_keepalive_next (d : Z) (t : Timers) : Timers :=
  mkTimers (is_initiator t) (time_started t) (timers t) (session_timers t) (want_keepalive t)
    (want_handshake t) (persistent_keepalive_secs t) (ranges t) (rekey_timeout_current t)
    (rekey_attempt_deadline t) d (should_reset_rr t).
Definition set_should_reset_rr (b : bool) (t : Timers) : Timers :=
  mkTimers (is_initiator t) (time_started t) (timers t) (session_timers t) (want_keepalive t)
    (want_handshake t) (persistent_keepalive_secs t) (ranges t) (rekey_timeout_current t)
    (rekey_attempt_deadline t) (persistent_keepalive_next t) b.

(** [impl Index<TimerName>] and [IndexMut]. *)
Definition timer_get (t : Timers) (n : TimerName) : Z := nth (timer_index n) (timers t) 0.
Definition timer_set (n : TimerName) (d : Z) (t : Timers) : Timers :=
  set_timers (<[timer_index n := d]> (timers t)) t.

Definition Timers_clear (t : Timers) (now : Z) : Timers :=
  set_wants false false (set_timers (map (λ _, elapsed_ns now (time_started t)) (timers t)) t).

(** [Tunn::timer_tick], on the timers. *)
Definition tick (n : TimerName) (t : Timers) : Timers :=
  let t :=
    match n with
    | TimeLastPacketReceived => set_wants true false t
    | TimeLastPacketSent => set_wants false true t
    | _ => t
    end in
  timer_set n (timer_get t TimeCurrent) t.

(** [Tunn::timer_tick_session_established], on the timers. *)
Definition tick_session_established (initiator : bool) (session_idx : nat) (t : Timers) : Timers :=
  let t := tick TimeSessionEstablished t in
  let t := set_session_timers
    (<[(session_idx mod N_SESSIONS)%nat := timer_get t TimeCurrent]> (session_timers t)) t in
  set_is_initiator initiator t.

(** ** The table invariant *)
Record timers_ok (t : Timers) : Prop := {
  tk_timers : length (timers t) = TIMER_TOP;
  tk_sessions : length (session_timers t) = N_SESSIONS;
  tk_bound : Forall (λ d, 0 ≤ d ≤ timer_get t TimeCurrent) (timers t);
  tk_session_bound : Forall (λ d, 0 ≤ d ≤ timer_get t TimeCurrent) (session_timers t);
  tk_ranges : u32range_ok (rekey_timeout (ranges t)) ∧
    u32range_ok (max_handshake_attempts (ranges t))
}.

(** The timings drawn for a handshake lie in the configured ranges: the
    retransmit timeout is a value of [rekey_timeout] (5 s when unset) plus 0 to
    333 ms, and a fresh handshake's deadline is that value times a count from
    [max_handshake_attempts] (18 when unset); a retry keeps the deadline.  With
    both ranges unset the deadline is the classic 90 s. *)
Lemma roll_handshake_timings_bounds `{RandomSource R} t starting (g : R) :
  rng_ok g → u32range_ok (rekey_timeout (ranges t)) →
  u32range_ok (max_handshake_attempts (ranges t)) →
  let t' := (roll_handshake_timings t starting g).1 in
  ∃ rekey jitter attempts,
    rekey_timeout_current t' = rekey * SEC + jitter * MS ∧ 0 ≤ jitter ≤ 333 ∧
    U32Range_lo_or (rekey_timeout (ranges t)) 5 ≤ rekey ≤
      U32Range_hi_or (rekey_timeout (ranges t)) 5 ∧
    U32Range_lo_or (max_handshake_attempts (ranges t)) 18 ≤ attempts ≤
      U32Range_hi_or (max_handshake_attempts (ranges t)) 18 ∧
    rekey_attempt_deadline t' =
      (if starting then rekey * attempts * SEC else rekey_attempt_deadline t) ∧
    rng_ok (roll_handshake_timings t starting g).2.
Proof.
  intros Hg Hr Hm. unfold roll_handshake_timings, REKEY_TIMEOUT_SECS, MAX_TIMER_HANDSHAKES.
  destruct (U32Range_pick_or_bounds (rekey_timeout (ranges t)) 5 g Hr Hg) as [H1 Hg1].
  destruct (U32Range_pick_or _ 5 g) as [rekey g1]. cbn [fst snd] in *.
  change (REKEY_TIMEOUT_JITTER_MAX_MS - 1) with 333.
  pose proof (gen_range_u32_in 0 333 g1 Hg1 ltac:(width_lia) ltac:(width_lia) ltac:(lia)) as H2.
  pose proof (gen_range_u32_inv 0 333 g1 Hg1) as Hg2.
  destruct (gen_range_u32 0 333 g1) as [jitter g2]. cbn [fst snd] in *.
  destruct (U32Range_pick_or_bounds (max_handshake_attempts (ranges t)) 18 g2 Hm Hg2) as [H3 Hg3].
  destruct (U32Range_pick_or _ 18 g2) as [attempts g3]. cbn [fst snd] in *.
  exists rekey, jitter, attempts. by destruct starting.
Qed.

(** ** Ticking keeps the table below the current time *)
Lemma timer_set_get n d t :
  length (timers t) = TIMER_TOP → n ≠ TimeCurrent →
  timer_get (timer_set n d t) TimeCurrent = timer_get t TimeCurrent.
Proof.
  intros Hl Hn. unfold timer_get, timer_set, set_timers. cbn [timers].
  rewrite !nth_lookup, list_lookup_insert_ne; [done|]. by destruct n.
Qed.

Lemma tick_current n t :
  length (timers t) = TIMER_TOP → timer_get (tick n t) TimeCurrent = timer_get t TimeCurrent.
Proof.
  intros Hl. unfold tick. destruct n;
    try (rewrite timer_set_get; [|done|done]; done).
  unfold timer_set, timer_get. cbn. rewrite nth_lookup, list_lookup_insert_eq; [done|].
  rewrite Hl. unfold TIMER_TOP. lia.
Qed.

Lemma current_bound t : timers_ok t → 0 ≤ timer_get t TimeCurrent.
Proof.
  intros [Hl _ Hb _ _]. unfold timer_get in *. rewrite nth_lookup.
  destruct (timers t !! timer_index TimeCurrent) as [d|] eqn:E; cbn; [|lia].
  eapply Forall_lookup_1 in Hb; [|done]. cbn in Hb. lia.
Qed.

Lemma timers_ok_set_timers t l :
  timers_ok t → length l = TIMER_TOP → nth 0 l 0 = timer_get t TimeCurrent →
  Forall (λ d, 0 ≤ d ≤ timer_get t TimeCurrent) l → timers_ok (set_timers l t).
Proof.
  intros [] Hl H0 Hb. split; cbn; try done;
    unfold timer_get in *; cbn [timers set_timers timer_index] in *; by rewrite H0.
Qed.

Lemma tick_ok n t : timers_ok t → timers_ok (tick n t).
Proof.
  intros Ht. pose proof (current_bound t Ht).
  assert (∀ k h, timers_ok (set_wants k h t)) as Hw by (intros; destruct Ht; by split).
  assert (∀ t', timers_ok t' → timer_get t' TimeCurrent = timer_get t TimeCurrent →
    timers_ok (timer_set n (timer_get t' TimeCurrent) t')) as Hset.
  { intros t' Ht' Hc. unfold timer_set. pose proof Ht' as [Hl _ Hb _ _].
    apply timers_ok_set_timers; [done|by rewrite length_insert| |].
    - rewrite nth_lookup. destruct (decide (timer_index n = O)) as [E|E].
      + rewrite E, list_lookup_insert_eq; [done|]. rewrite Hl. unfold TIMER_TOP. lia.
      + rewrite list_lookup_insert_ne by done. unfold timer_get. by rewrite nth_lookup.
    - apply Forall_insert; [done|]. rewrite Hc. lia. }
  unfold tick. destruct n; apply Hset; auto.
Qed.

Lemma set_wants_ok k h t : timers_ok t → timers_ok (set_wants k h t).
Proof. intros []. by split. Qed.
Lemma set_is_initiator_ok b t : timers_ok t → timers_ok (set_is_initiator b t).
Proof. intros []. by split. Qed.
Lemma set_keepalive_next_ok d t : timers_ok t → timers_ok (set_keepalive_next d t).
Proof. intros []. by split. Qed.
Lemma set_should_reset_rr_ok b t : timers_ok t → timers_ok (set_should_reset_rr b t).
Proof. intros []. by split. Qed.

Lemma set_session_timer_ok i d t :
  timers_ok t → 0 ≤ d ≤ timer_get t TimeCurrent →
  timers_ok (set_session_timers (<[i := d]> (session_timers t)) t).
Proof.
  intros [] Hd. split; cbn; try done; [by rewrite length_insert|].
  by apply Forall_insert.
Qed.

Lemma tick_session_established_ok b i t :
  timers_ok t → timers_ok (tick_session_established b i t).
Proof.
  intros Ht. unfold tick_session_established. apply set_is_initiator_ok, set_session_timer_ok.
  - by apply tick_ok.
  - split; [by apply current_bound, tick_ok|lia].
Qed.

Lemma tick_session_established_current b i t :
  timers_ok t →
  timer_get (tick_session_established b i t) TimeCurrent = timer_get t TimeCurrent.
Proof. intros []. exact (tick_current TimeSessionEstablished t tk_timers0). Qed.

(** Both ways the table moves to a later time. *)
Lemma advance_ok t l d :
  timers_ok t → timer_get t TimeCurrent ≤ d → length l = TIMER_TOP → nth 0 l 0 = d →
  Forall (λ x, 0 ≤ x ≤ d) l → timers_ok (set_timers l t).
Proof.
  intros [Hl Hs Hb Hsb Hr] Hd Hll H0 Hf. split; cbn; try done;
    unfold timer_get at 1 in Hd; unfold timer_get; cbn [timers set_timers timer_index];
    rewrite H0; [done|]. eapply list.Forall_impl; [exact Hsb|]. cbn.
  unfold timer_get. intros. lia.
Qed.

Lemma Timers_clear_ok t now :
  timers_ok t → timer_get t TimeCurrent ≤ elapsed_ns now (time_started t) →
  timers_ok (Timers_clear t now) ∧
  timer_get (Timers_clear t now) TimeCurrent = elapsed_ns now (time_started t).
Proof.
  intros Ht Hn. pose proof (tk_timers _ Ht) as Hl. unfold TIMER_TOP in Hl.
  assert (nth 0 (map (λ _, elapsed_ns now (time_started t)) (timers t)) 0
          = elapsed_ns now (time_started t)) as E by (by destruct (timers t)).
  split; [|exact E]. apply set_wants_ok. eapply advance_ok; [done|exact Hn| |exact E|].
  - by rewrite length_map.
  - apply Forall_map, Forall_true. intros _. pose proof (elapsed_ns_pos now (time_started t)). cbn. lia.
Qed.

Lemma timer_set_current_ok t d :
  timers_ok t → timer_get t TimeCurrent ≤ d →
  timers_ok (timer_set TimeCurrent d t) ∧ timer_get (timer_set TimeCurrent d t) TimeCurrent = d.
Proof.
  intros Ht Hd. pose proof (current_bound t Ht). pose proof Ht as [Hl _ Hb _ _].
  assert (nth 0 (<[0%nat := d]> (timers t)) 0 = d) as E.
  { rewrite nth_lookup, list_lookup_insert_eq; [done|]. rewrite Hl. unfold TIMER_TOP. lia. }
  split; [|exact E]. eapply advance_ok; [done|exact Hd| |exact E|].
  - by rewrite length_insert.
  - apply Forall_insert; [|lia]. eapply list.Forall_impl; [exact Hb|]. cbn. lia.
Qed.

Lemma timer_get_bound t n : timers_ok t → 0 ≤ timer_get t n ≤ timer_get t TimeCurrent.
Proof.
  intros Ht. pose proof (current_bound t Ht). destruct Ht as [Hl _ Hb _ _].
  unfold timer_get at 1 2. rewrite nth_lookup.
  destruct (timers t !! timer_index n) as [d|] eqn:E; cbn; [|lia].
  by eapply Forall_lookup_1 in Hb.
Qed.

Lemma session_timer_bound t i :
  timers_ok t → 0 ≤ nth i (session_timers t) 0 ≤ timer_get t TimeCurrent.
Proof.
  intros Ht. pose proof (current_bound t Ht). destruct Ht as [_ _ _ Hb _].
  rewrite nth_lookup. destruct (session_timers t !! i) as [d|] eqn:E; cbn; [|lia].
  by eapply Forall_lookup_1 in Hb.
Qed.

Lemma Timers_new_ok `{RandomSource R} pk reset tr now (g : R) :
  u32range_ok (rekey_timeout tr) → u32range_ok (max_handshake_attempts tr) →
  timers_ok (Timers_new pk reset tr now g).1.
Proof.
  intros H1 H2. unfold Timers_new. destruct (U32Range_pick_or _ 0 g) as [k g']. cbn [fst].
  split; try done; repeat constructor; by vm_compute.
Qed.

Lemma roll_handshake_timings_ok `{RandomSource R} t b (g : R) :
  timers_ok t → rng_ok g →
  let '(t', g') := roll_handshake_timings t b g in
  timers_ok t' ∧ rng_ok g' ∧ timers t' = timers t ∧ time_started t' = time_started t.
Proof.
  intros [Hl Hs Hb Hsb [Hr Hm]] Hg. unfold roll_handshake_timings.
  destruct (U32Range_pick_or_bounds (rekey_timeout (ranges t)) REKEY_TIMEOUT_SECS g Hr Hg) as [_ Hg1].
  destruct (U32Range_pick_or _ REKEY_TIMEOUT_SECS g) as [rekey g1].
  pose proof (gen_range_u32_inv 0 (REKEY_TIMEOUT_JITTER_MAX_MS - 1) g1 Hg1) as Hg2.
  destruct (gen_range_u32 _ _ g1) as [jitter g2].
  destruct (U32Range_pick_or_bounds (max_handshake_attempts (ranges t)) MAX_TIMER_HANDSHAKES g2 Hm Hg2)
    as [_ Hg3].
  destruct (U32Range_pick_or _ MAX_TIMER_HANDSHAKES g2) as [attempts g3].
  by destruct b.
Qed.
