(* ===== verification/Tunnel.v ===== *)
(** * Tunnel: the point-to-point tunnel [Tunn]

    Models [Tunn] of [awgtun/src/noise/mod.rs] and its timer methods in
    [awgtun/src/noise/timers.rs].  The state is [Tunn], with the part no method
    changes grouped in [TunnConfig]; a method is a body [T A] over the tunnel
    and the random generator.  What a call reads from outside is its [Env]: the
    clock, the ephemeral secret X25519 would draw, and the wall clock of the
    CPS timestamps.  A destination buffer is its length, the slice returned is
    the bytes written.

    [estimate_loss] and [stats] are in [Loss]. *)

From Stdlib Require Import ZArith Lia.
From stdpp Require Import base list option strings sets tactics.
From S2P Require Import Prelude Clock Random Codec Amnezia Cps Config Packet.
From S2P Require Import Session Handshake RateLimiter Timers.
Open Scope Z_scope.

Definition PEER_HANDSHAKE_RATE_LIMIT : Z := 10.
Definition MAX_QUEUE_DEPTH : nat := 256.
Definition MAX_PREFIX_DRAWS : nat := 8.

(** The AmneziaWG configuration captured at construction. *)
Record TunnConfig := mkTunnConfig {
  header_config : HeaderConfig;
  padding_config : PaddingConfig;
  junk_config : JunkConfig;
  init_packet_config : InitPacketConfig;
  header_protection : option HeaderProtection;
  content_padding : option U32Range;
  tc_random_trailers : bool;
  tc_disable_cookies : bool
}.

Record Tunn := mkTunn {
  tc : TunnConfig;
  handshake : Handshake;
  sessions : list (option Session);
  current : Z;
  packet_queue : list bytes;
  tunn_timers : Timers;
  tx_bytes : Z;
  rx_bytes : Z;
  rate_limiter : RateLimiter;
  tunn_mtu : Z;
  udp_window : Z;
  network_outgoing : list bytes
}.

Definition set_handshake (h : Handshake) (t : Tunn) : Tunn :=
  mkTunn (tc t) h (sessions t) (current t) (packet_queue t) (tunn_timers t) (tx_bytes t)
    (rx_bytes t) (rate_limiter t) (tunn_mtu t) (udp_window t) (network_outgoing t).
Definition set_sessions (s : list (option Session)) (t : Tunn) : Tunn :=
  mkTunn (tc t) (handshake t) s (current t) (packet_queue t) (tunn_timers t) (tx_bytes t)
    (rx_bytes t) (rate_limiter t) (tunn_mtu t) (udp_window t) (network_outgoing t).
Definition set_current (c : Z) (t : Tunn) : Tunn :=
  mkTunn (tc t) (handshake t) (sessions t) c (packet_queue t) (tunn_timers t) (tx_bytes t)
    (rx_bytes t) (rate_limiter t) (tunn_mtu t) (udp_window t) (network_outgoing t).
Definition set_queue (q : list bytes) (t : Tunn) : Tunn :=
  mkTunn (tc t) (handshake t) (sessions t) (current t) q (tunn_timers t) (tx_bytes t)
    (rx_bytes t) (rate_limiter t) (tunn_mtu t) (udp_window t) (network_outgoing t).
Definition on_timers (f : Timers → Timers) (t : Tunn) : Tunn :=
  mkTunn (tc t) (handshake t) (sessions t) (current t) (packet_queue t) (f (tunn_timers t))
    (tx_bytes t) (rx_bytes t) (rate_limiter t) (tunn_mtu t) (udp_window t) (network_outgoing t).
Definition add_tx (n : Z) (t : Tunn) : Tunn :=
  mkTunn (tc t) (handshake t) (sessions t) (current t) (packet_queue t) (tunn_timers t)
    (wrap 64 (tx_bytes t + n)) (rx_bytes t) (rate_limiter t) (tunn_mtu t) (udp_window t)
    (network_outgoing t).
Definition add_rx (n : Z) (t : Tunn) : Tunn :=
  mkTunn (tc t) (handshake t) (sessions t) (current t) (packet_queue t) (tunn_timers t)
    (tx_bytes t) (wrap 64 (rx_bytes t + n)) (rate_limiter t) (tunn_mtu t) (udp_window t)
    (network_outgoing t).
Definition set_limiter (r : RateLimiter) (t : Tunn) : Tunn :=
  mkTunn (tc t) (handshake t) (sessions t) (current t) (packet_queue t) (tunn_timers t)
    (tx_bytes t) (rx_bytes t) r (tunn_mtu t) (udp_window t) (network_outgoing t).
Definition Tunn_set_mtu (m : Z) (t : Tunn) : Tunn :=
  mkTunn (tc t) (handshake t) (sessions t) (current t) (packet_queue t) (tunn_timers t)
    (tx_bytes t) (rx_bytes t) (rate_limiter t) m (udp_window t) (network_outgoing t).
Definition set_window (w : Z) (t : Tunn) : Tunn :=
  mkTunn (tc t) (handshake t) (sessions t) (current t) (packet_queue t) (tunn_timers t)
    (tx_bytes t) (rx_bytes t) (rate_limiter t) (tunn_mtu t) w (network_outgoing t).
Definition set_outgoing (q : list bytes) (t : Tunn) : Tunn :=
  mkTunn (tc t) (handshake t) (sessions t) (current t) (packet_queue t) (tunn_timers t)
    (tx_bytes t) (rx_bytes t) (rate_limiter t) (tunn_mtu t) (udp_window t) q.

(** What a call reads from outside the tunnel. *)
Record Env := mkEnv {
  now : Z;
  ephemeral : bytes;
  wall : nat → nat → Z
}.

Section tunnel.
Context `{CC : ChaCha20} `{B64 : Base64} `{NC : NoiseCrypto} `{AE : Aead} `{RS : RandomSource R}.

Record World := mkWorld { tunn : Tunn; rng : R }.

Definition T (A : Type) : Type := ST World WireGuardError A.

Definition get : T Tunn := gets tunn.
Definition upd_tunn (f : Tunn → Tunn) : T () := modify (λ w, mkWorld (f (tunn w)) (rng w)).
Definition rand {A} (f : R → A * R) : T A := λ w,
  let '(a, g) := f (rng w) in (Ok a, mkWorld (tunn w) g).
Definition draw_bytes (n : nat) : T bytes := rand (fill_bytes n).
(** [if n > 0 { FastRandom.fill_bytes(..) }]. *)
Definition fill_some (n : nat) : T bytes := if decide (0 < n)%nat then draw_bytes n else mret [].
(** A value a panic of the source would prevent. *)
Definition must {A} (o : option A) : T A :=
  match o with Some a => mret a | None => panic end.
Definition timer_tick (n : TimerName) : T () := upd_tunn (on_timers (tick n)).
Definition timer_tick_session_established (initiator : bool) (idx : nat) : T () :=
  upd_tunn (on_timers (tick_session_established initiator idx)).

(** ** Construction *)
Definition new_with_amnezia3 (static_private peer_static_public : bytes) (preshared_key : option bytes)
    (persistent_keepalive : option Z) (index : Z) (limiter : option RateLimiter)
    (amnezia : Amnezia3Config) (system_time now : Z) (secret nkey : bytes) (g : R)
    : result ConfigError (Tunn * R) :=
  _ ← Amnezia3Config_validate amnezia;
  let static_public := x25519_public static_private in
  let '(tm, g) := Timers_new persistent_keepalive (bool_decide (limiter = None))
    (timing_ranges amnezia) now g in
  Ok (mkTunn
        (mkTunnConfig (headers amnezia) (paddings amnezia) (junk amnezia) (init_packets amnezia)
           (Amnezia3Config_header_protection amnezia) (content_padding_addition amnezia)
           (random_trailers amnezia) (disable_cookies amnezia))
        (Handshake_new static_private static_public peer_static_public (wrap 32 (Z.shiftl index 8))
           preshared_key system_time now)
        (replicate N_SESSIONS None) 0 [] tm 0 0
        (default (RateLimiter_new static_public PEER_HANDSHAKE_RATE_LIMIT secret nkey now) limiter)
        (mtu amnezia) AWG31_DEFAULT_UDP_WINDOW [], g).

(** The two older constructors. *)
Definition new_with_amnezia (static_private peer_static_public : bytes) (preshared_key : option bytes)
    (persistent_keepalive : option Z) (index : Z) (limiter : option RateLimiter)
    (amnezia : Amnezia2Config) (system_time now : Z) (secret nkey : bytes) (g : R)
    : result ConfigError (Tunn * R) :=
  new_with_amnezia3 static_private peer_static_public preshared_key persistent_keepalive index
    limiter (Amnezia3Config_from_amnezia2 amnezia) system_time now secret nkey g.

(** [Tunn::new]: [expect] on the default configuration. *)
Definition Tunn_new (static_private peer_static_public : bytes) (preshared_key : option bytes)
    (persistent_keepalive : option Z) (index : Z) (limiter : option RateLimiter)
    (system_time now : Z) (secret nkey : bytes) (g : R) : result ConfigError (Tunn * R) :=
  match new_with_amnezia static_private peer_static_public preshared_key persistent_keepalive index
          limiter Amnezia2Config_default system_time now secret nkey g with
  | Ok t => Ok t
  | _ => Panic
  end.

(** ** Sizes *)
Definition s_of (f : PaddingConfig → Z) (t : Tunn) : nat := Z.to_nat (f (padding_config (tc t))).

Definition trailer_for (packet_size dst_len : nat) : T nat :=
  t ← get;
  if tc_random_trailers (tc t) then
    want ← rand (random_trailer_len packet_size (udp_window t));
    mret (want `min` (dst_len - packet_size))%nat
  else mret O.

Definition observe_datagram (size : nat) : T () :=
  upd_tunn (λ t, set_window (Z.max (udp_window t) (Z.min (Z.of_nat size) u32_max)) t).

Definition reset_udp_window : T () := upd_tunn (set_window AWG31_DEFAULT_UDP_WINDOW).

Definition Tunn_content_padding_addition (datagram_size dst_len : nat) : T nat :=
  t ← get;
  match content_padding (tc t) with
  | None => mret O
  | Some range =>
      match checked_sub (Z.to_nat (udp_window t)) datagram_size with
      | None => mret O
      | Some space =>
          pick ← rand (U32Range_generate range);
          let add := (Z.to_nat pick `min` space)%nat in
          let mtu := Z.to_nat (tunn_mtu t) in
          let add := if decide (mtu = O) then add else (add `min` (mtu - datagram_size))%nat in
          mret (add `min` (dst_len - datagram_size))%nat
      end
  end.

Definition transport_padding (packet_size dst_len : nat) : T nat :=
  t ← get;
  let datagram := (s_of s4 t + DATA_OVERHEAD_SZ + packet_size)%nat in
  match content_padding (tc t) with
  | Some _ => Tunn_content_padding_addition datagram dst_len
  | None => trailer_for datagram dst_len
  end.

(** [peer_would_misclassify]: the candidates in the reference's order. *)
Definition peer_would_misclassify (t : Tunn) (datagram mask : bytes) : bool :=
  existsb (λ '(padding, range, msg_size),
    let expected := (padding + msg_size)%nat in
    let size_ok := bool_decide (length datagram = expected)
      || (tc_random_trailers (tc t) && bool_decide (expected < length datagram)%nat) in
    size_ok && bool_decide (padding + 4 ≤ length datagram)%nat
    && HeaderRange_contains range (type_at datagram (Some mask) padding))
    [(s_of s1 t, hc_init (header_config (tc t)), HANDSHAKE_INIT_SZ);
     (s_of s2 t, hc_response (header_config (tc t)), HANDSHAKE_RESP_SZ);
     (s_of s3 t, hc_cookie (header_config (tc t)), COOKIE_REPLY_SZ)].

(** The [for _ in 0..MAX_PREFIX_DRAWS] loop: the prefix and protected header of
    the last iteration. *)
Fixpoint draw_prefix (n : nat) (t : Tunn) (clear_header rest prefix header : bytes)
    : T (bytes * bytes) :=
  match n with
  | O => mret (prefix, header)
  | S n' =>
      prefix ← fill_some (s_of s4 t);
      match header_protection (tc t) with
      | None => mret (prefix, header)
      | Some hp =>
          keystream ← lift (HeaderProtection_keystream TRANSPORT_HEADER_SZ hp prefix);
          let header := xor_into clear_header keystream in
          if peer_would_misclassify t (prefix ++ header ++ rest) (take 4 keystream)
          then draw_prefix n' t clear_header rest prefix header
          else mret (prefix, header)
      end
  end.

(** [format_transport_packet]: the datagram, and the session with its counter
    advanced. *)
Definition format_transport_packet (session : Session) (src : bytes) (content_padding dst_len : nat)
    : T (bytes * Session) :=
  t ← get;
  transport_type ← rand (HeaderRange_generate (hc_transport (header_config (tc t))));
  let s4 := s_of s4 t in
  room ← must (checked_sub dst_len s4);
  '(packet, session) ← lift (format_packet_data session src room transport_type content_padding);
  let clear_header := take TRANSPORT_HEADER_SZ packet in
  let rest := drop TRANSPORT_HEADER_SZ packet in
  '(prefix, header) ← draw_prefix MAX_PREFIX_DRAWS t clear_header rest [] clear_header;
  mret (prefix ++ header ++ rest, session).

(** ** Queues *)
Definition queue_packet (packet : bytes) : T () :=
  upd_tunn (λ t, if decide (length (packet_queue t) < MAX_QUEUE_DEPTH)%nat
                 then set_queue (packet_queue t ++ [packet]) t else t).
Definition requeue_packet (packet : bytes) : T () :=
  upd_tunn (λ t, if decide (length (packet_queue t) < MAX_QUEUE_DEPTH)%nat
                 then set_queue (packet :: packet_queue t) t else t).
Definition dequeue_packet : T (option bytes) :=
  t ← get;
  match packet_queue t with
  | [] => mret None
  | p :: q => _ ← upd_tunn (set_queue q); mret (Some p)
  end.
Definition poll_outgoing_packet : T (option bytes) :=
  t ← get;
  match network_outgoing t with
  | [] => mret None
  | p :: q => _ ← upd_tunn (set_outgoing q); mret (Some p)
  end.
Definition has_outgoing_packets (t : Tunn) : bool := negb (bool_decide (network_outgoing t = [])).

Fixpoint queue_init_packets (env : Env) (i : nat) (chains : list CpsChain) : T () :=
  match chains with
  | [] => mret tt
  | chain :: chains =>
      packet ← (λ w : World,
        match CpsChain_generate_for_init chain (wall env i) (rng w) with
        | Ok (p, g) => (Ok p, mkWorld (tunn w) g)
        | _ => (Panic, w)
        end);
      _ ← (if decide (packet = []) then mret tt
           else upd_tunn (λ t, set_outgoing (network_outgoing t ++ [packet]) t));
      queue_init_packets env (S i) chains
  end.

Definition queue_pre_handshake_packets (env : Env) : T () :=
  t ← get;
  _ ← queue_init_packets env 0 (InitPacketConfig_active_chains (init_packet_config (tc t)));
  junk_packets ← rand (JunkConfig_generate_junk_packets (junk_config (tc t)));
  upd_tunn (λ t, set_outgoing (network_outgoing t ++ junk_packets) t).

(** A message written after [prefix_len] bytes: random prefix, header
    protection over the message, AWG 3.1 trailer. *)
Definition frame_message (prefix_len : nat) (message : bytes) (dst_len : nat) : T bytes :=
  t ← get;
  prefix ← fill_some prefix_len;
  message ← match header_protection (tc t) with
            | Some hp => lift (HeaderProtection_apply hp prefix message)
            | None => mret message
            end;
  trailer ← trailer_for (prefix_len + length message) dst_len;
  tail ← fill_some trailer;
  mret (prefix ++ message ++ tail).

(** Run a method of the handshake. *)
Definition on_handshake {A} (f : Handshake → result WireGuardError A * Handshake) : T A := λ w,
  let '(r, h) := f (handshake (tunn w)) in
  (r, mkWorld (set_handshake h (tunn w)) (rng w)).

(** [Tunn::format_handshake_initiation]. *)
Definition Tunn_format_handshake_initiation (env : Env) (dst_len : nat) (force_resend : bool)
    : T TunnResult :=
  t ← get;
  if is_in_progress (handshake t) && negb force_resend then mret Done
  else if decide (dst_len < s_of s1 t + HANDSHAKE_INIT_SZ)%nat
  then mret (TErr DestinationBufferTooSmall)
  else
    _ ← (if is_expired (handshake t) then upd_tunn (on_timers (λ tm, Timers_clear tm (now env)))
         else mret tt);
    let starting_new_handshake := negb (is_in_progress (handshake t)) in
    t ← get;
    tm ← rand (roll_handshake_timings (tunn_timers t) starting_new_handshake);
    _ ← upd_tunn (on_timers (λ _, tm));
    _ ← queue_pre_handshake_packets env;
    init_type ← rand (HeaderRange_generate (hc_init (header_config (tc t))));
    let s1 := s_of s1 t in
    r ← attempt (on_handshake (λ h,
          format_handshake_initiation h (dst_len - s1) init_type (ephemeral env) (now env)));
    match r with
    | Ok packet =>
        datagram ← frame_message s1 packet dst_len;
        _ ← (if starting_new_handshake then timer_tick TimeLastHandshakeStarted else mret tt);
        _ ← timer_tick TimeLastPacketSent;
        mret (WriteToNetwork datagram)
    | Err e => mret (TErr e)
    | Panic => panic
    end.

(** ** Sending *)
Definition session_slot (i : Z) : nat := (Z.to_nat i mod N_SESSIONS)%nat.
Definition session_at (t : Tunn) (i : Z) : option Session := default None (sessions t !! session_slot i).
Definition store_session (i : Z) (s : option Session) (t : Tunn) : Tunn :=
  set_sessions (<[session_slot i := s]> (sessions t)) t.

Definition encapsulate (env : Env) (src : bytes) (dst_len : nat) : T TunnResult :=
  t ← get;
  let cur := current t in
  match session_at t cur with
  | Some _ =>
      let total := (s_of s4 t + DATA_OVERHEAD_SZ + length src)%nat in
      if decide (dst_len < total)%nat then mret (TErr DestinationBufferTooSmall) else
      _ ← observe_datagram total;
      content_padding ← transport_padding (length src) dst_len;
      t ← get;
      session ← must (session_at t cur);
      '(packet, session) ← format_transport_packet session src content_padding dst_len;
      _ ← upd_tunn (store_session cur (Some session));
      let is_keepalive := bool_decide (src = []) in
      _ ← timer_tick TimeLastPacketSent;
      _ ← (if is_keepalive then mret tt else timer_tick TimeLastDataPacketSent);
      _ ← upd_tunn (add_tx (Z.of_nat (length src)));
      mret (WriteToNetwork packet)
  | None =>
      _ ← queue_packet src;
      Tunn_format_handshake_initiation env dst_len false
  end.

Definition send_queued_packet (env : Env) (dst_len : nat) : T TunnResult :=
  p ← dequeue_packet;
  match p with
  | Some packet =>
      r ← encapsulate env packet dst_len;
      match r with
      | TErr _ => _ ← requeue_packet packet; mret Done
      | r => mret r
      end
  | None => mret Done
  end.

(** ** Receiving *)
Definition set_current_session (new_idx : Z) : T () :=
  upd_tunn (λ t,
    if current t =? new_idx then t
    else
      let st i := nth (session_slot i) (session_timers (tunn_timers t)) 0 in
      if bool_decide (session_at t (current t) = None) || (st (current t) <=? st new_idx)
      then set_current new_idx t else t).

(** The end of [validate_decapsulated_packet], from the [if computed_len]. *)
Definition finish_validate (packet : bytes) (computed_len : nat) (r : bytes → TunnResult)
    : T TunnResult :=
  if decide (length packet < computed_len)%nat then mret (TErr InvalidPacket) else
  _ ← timer_tick TimeLastDataPacketReceived;
  _ ← upd_tunn (add_rx (Z.of_nat computed_len));
  mret (r (take computed_len packet)).

Definition validate_decapsulated_packet (packet : bytes) : T TunnResult :=
  if decide (packet = []) then mret Done
  else if (ip_version packet =? 4) && bool_decide (IPV4_MIN_HEADER_SIZE ≤ length packet)%nat then
    finish_validate packet (Z.to_nat (from_be (slice packet IPV4_LEN_OFF (IPV4_LEN_OFF + IP_LEN_SZ))))
      (λ p, WriteToTunnelV4 p (slice packet IPV4_SRC_IP_OFF (IPV4_SRC_IP_OFF + IPV4_IP_SZ)))
  else if (ip_version packet =? 6) && bool_decide (IPV6_MIN_HEADER_SIZE ≤ length packet)%nat then
    finish_validate packet (Z.to_nat (from_be (slice packet IPV6_LEN_OFF (IPV6_LEN_OFF + IP_LEN_SZ)))
              + IPV6_MIN_HEADER_SIZE)%nat
      (λ p, WriteToTunnelV6 p (slice packet IPV6_SRC_IP_OFF (IPV6_SRC_IP_OFF + IPV6_IP_SZ)))
  else if nth 0 packet 0 =? 0 then mret Done
  else _ ← timer_tick TimeLastDataPacketReceived; mret Done.

Definition handle_data (packet : PacketData) (dst_len : nat) : T TunnResult :=
  let r_idx := pd_receiver_idx packet in
  t ← get;
  _ ← observe_datagram (s_of s4 t + TRANSPORT_HEADER_SZ + length (pd_payload packet));
  t ← get;
  session ← lift (ok_or NoCurrentSession (session_at t r_idx));
  '(decapsulated, session) ← lift (receive_packet_data session packet dst_len);
  _ ← upd_tunn (store_session r_idx (Some session));
  _ ← set_current_session r_idx;
  _ ← timer_tick TimeLastPacketReceived;
  validate_decapsulated_packet decapsulated.

Definition handle_handshake_init (env : Env) (p : HandshakeInit) (dst_len : nat) : T TunnResult :=
  t ← get;
  resp_type ← rand (HeaderRange_generate (hc_response (header_config (tc t))));
  let s2 := s_of s2 t in
  if decide (dst_len < s2 + HANDSHAKE_RESP_SZ)%nat then throw DestinationBufferTooSmall else
  '(packet, session) ← on_handshake (λ h,
     receive_handshake_initialization h p (dst_len - s2) resp_type (ephemeral env));
  let index := Session_local_index session in
  _ ← upd_tunn (store_session index (Some session));
  datagram ← frame_message s2 packet dst_len;
  _ ← timer_tick TimeLastPacketReceived;
  _ ← timer_tick TimeLastPacketSent;
  _ ← timer_tick_session_established false (Z.to_nat index);
  mret (WriteToNetwork datagram).

Definition handle_handshake_response (env : Env) (p : HandshakeResponse) (dst_len : nat) : T TunnResult :=
  t ← get;
  if decide (dst_len < s_of s4 t + DATA_OVERHEAD_SZ)%nat then throw DestinationBufferTooSmall else
  session ← on_handshake (λ h, receive_handshake_response h p (now env));
  content_padding ← Tunn_content_padding_addition 0 dst_len;
  '(keepalive_packet, session) ← format_transport_packet session [] content_padding dst_len;
  let l_idx := Session_local_index session in
  _ ← upd_tunn (store_session l_idx (Some session));
  _ ← timer_tick TimeLastPacketReceived;
  _ ← timer_tick_session_established true (session_slot l_idx);
  _ ← set_current_session l_idx;
  mret (WriteToNetwork keepalive_packet).

Definition handle_cookie_reply (p : PacketCookieReply) : T TunnResult :=
  _ ← on_handshake (λ h, receive_cookie_reply h p);
  _ ← timer_tick TimeLastPacketReceived;
  _ ← timer_tick TimeCookieReceived;
  mret Done.

Definition handle_verified_packet (env : Env) (packet : Packet) (dst_len : nat) : T TunnResult :=
  r ← attempt
    (match packet with
     | PktInit p => handle_handshake_init env p dst_len
     | PktResponse p => handle_handshake_response env p dst_len
     | PktCookie p => handle_cookie_reply p
     | PktData p => handle_data p dst_len
     end);
  match r with
  | Ok r => mret r
  | Err e => mret (TErr e)
  | Panic => panic
  end.

Definition classifier (t : Tunn) : PacketClassifier :=
  PacketClassifier_with_random_trailers
    (PacketClassifier_new (padding_config (tc t)) (header_config (tc t)) (header_protection (tc t)))
    (tc_random_trailers (tc t)).

(** The rate limiter's [verify_packet] on this tunnel. *)
Definition verify (env : Env) (src_addr : option IpAddr) (stripped : bytes)
    : T (result TunnResult Packet) := λ w,
  let t := tunn w in
  let '(r, rl, g) := verify_packet (rate_limiter t) src_addr stripped COOKIE_REPLY_SZ
    (header_config (tc t)) (tc_disable_cookies (tc t)) (now env) (rng w) in
  (Ok r, mkWorld (set_limiter rl t) g).

(** A transport packet assembled from the header decrypted on the stack. *)
Definition unmask_transport (payload mask : bytes) : PacketData :=
  let header := xor_into (take TRANSPORT_HEADER_SZ payload) mask in
  mkPacketData (from_le (slice header 4 8)) (from_le (slice header 8 16))
    (drop TRANSPORT_HEADER_SZ payload).

(** The header-protected part of a handshake message, decrypted into the
    scratch buffer. *)
Definition strip_protection (t : Tunn) (padding protected_len : nat) (datagram payload : bytes)
    : T bytes :=
  match header_protection (tc t) with
  | Some hp =>
      if decide (0 < protected_len)%nat then
        let protected := (protected_len `min` length payload)%nat in
        lift (HeaderProtection_apply hp (take padding datagram) (take protected payload))
      else mret payload
  | None => mret payload
  end.

(** The [match] on the rate limiter's verdict. *)
Definition handle_verdict (env : Env) (t : Tunn) (v : result TunnResult Packet) (dst_len : nat)
    : T TunnResult :=
  match v with
  | Ok packet => handle_verified_packet env packet dst_len
  | Err (WriteToNetwork cookie) =>
      let s3 := s_of s3 t in
      if decide (dst_len < s3 + length cookie)%nat
      then mret (TErr DestinationBufferTooSmall)
      else datagram ← frame_message s3 cookie dst_len; mret (WriteToNetwork datagram)
  | Err (TErr e) => mret (TErr e)
  | _ => panic
  end.

Definition decapsulate (env : Env) (src_addr : option IpAddr) (datagram : bytes) (dst_len : nat)
    : T TunnResult :=
  if decide (datagram = []) then send_queued_packet env dst_len else
  t ← get;
  classified ← lift (PacketClassifier_classify (classifier t) datagram);
  let padding := default O (padding <$> classified) in
  let protected_len := default O (protected_len <$> classified) in
  let payload := drop padding datagram in
  let payload :=
    match classified ≫= msg_size with
    | Some size => if decide (size ≤ length payload)%nat then take size payload else payload
    | None => payload
    end in
  match (if decide (protected_len = TRANSPORT_HEADER_SZ) then classified ≫= header_mask else None) with
  | Some mask => handle_verified_packet env (PktData (unmask_transport payload mask)) dst_len
  | None =>
      stripped ← strip_protection t padding protected_len datagram payload;
      v ← verify env src_addr stripped;
      handle_verdict env t v dst_len
  end.


Definition is_expired_tunn (t : Tunn) : bool := is_expired (handshake t).

(** [set_static_private]; the keys are those of the limiter a [None] builds. *)
Definition set_static_private (sk pk : bytes) (limiter : option RateLimiter)
    (secret nkey : bytes) (env : Env) : T () :=
  _ ← upd_tunn (on_timers (set_should_reset_rr (bool_decide (limiter = None))));
  _ ← upd_tunn (set_limiter
        (default (RateLimiter_new pk PEER_HANDSHAKE_RATE_LIMIT secret nkey (now env)) limiter));
  t ← get;
  h ← lift (Handshake_set_static_private (handshake t) sk pk);
  _ ← upd_tunn (set_handshake h);
  upd_tunn (λ t, set_sessions (map (λ _, None) (sessions t)) t).

(** ** The timer state machine *)

(** [Duration - Duration], which panics on underflow. *)
Definition dsub (a b : Z) : T Z := if a <? b then panic else mret (a - b).

Definition clear_all (env : Env) : T () :=
  upd_tunn (λ t, on_timers (λ tm, Timers_clear tm (now env))
                   (set_outgoing [] (set_queue [] (set_sessions (map (λ _, None) (sessions t)) t)))).

(** One iteration of the loop of [update_session_timers]. *)
Definition expire_session (time_now reject_after i : Z) : T () :=
  t ← get;
  let st := nth (Z.to_nat i) (session_timers (tunn_timers t)) 0 in
  age ← dsub time_now st;
  if reject_after <? age then
    upd_tunn (λ t, on_timers (λ tm,
        set_session_timers (<[Z.to_nat i := time_now]> (session_timers tm)) tm)
      (set_sessions (<[Z.to_nat i := None]> (sessions t)) t))
  else mret tt.

Fixpoint expire_sessions (n : nat) (time_now reject_after i : Z) : T () :=
  match n with
  | O => mret tt
  | S n => _ ← expire_session time_now reject_after i; expire_sessions n time_now reject_after (i + 1)
  end.

Definition update_session_timers (time_now : Z) : T () :=
  t ← get;
  expire_sessions (length (session_timers (tunn_timers t))) time_now
    (Timers_reject_after_time (tunn_timers t)) 0.

Definition pick (r : U32Range) (dflt : Z) : T Z := rand (U32Range_pick_or r dflt).

(** [if c && now - since >= after]: the subtraction runs only when [c] holds. *)
Definition aged (c : bool) (now since after : Z) : T bool :=
  if c then age ← dsub now since; mret (after <=? age) else mret false.

(** [mem::replace(&mut self.timers.want_handshake, false)] and [want_keepalive]. *)
Definition take_want_handshake : T bool :=
  t ← get;
  let tm := tunn_timers t in
  _ ← upd_tunn (on_timers (set_wants (want_keepalive tm) false)); mret (want_handshake tm).
Definition take_want_keepalive : T bool :=
  t ← get;
  let tm := tunn_timers t in
  _ ← upd_tunn (on_timers (set_wants false (want_handshake tm))); mret (want_keepalive tm).

(** The initiator's two rekey checks. *)
Definition initiator_rekey_due (tm : Timers) (now : Z) : T bool :=
  let ranges := ranges tm in
  let established := timer_get tm TimeSessionEstablished in
  rekey_after ← pick (rekey_after_time ranges) REKEY_AFTER_TIME_SECS;
  on_send ← aged (established <? timer_get tm TimeLastDataPacketSent) now established
              (rekey_after * SEC);
  reject ← pick (reject_after_time ranges) REJECT_AFTER_TIME_SECS;
  let margin := wrap 32 (U32Range_lo_or (keepalive_timeout ranges) KEEPALIVE_TIMEOUT_SECS
                         + U32Range_lo_or (rekey_timeout ranges) REKEY_TIMEOUT_SECS) in
  on_receive ← aged (established <? timer_get tm TimeLastDataPacketReceived) now established
                 (Z.max 0 (reject - margin) * SEC);
  mret (on_send || on_receive).

(** The handshake started because nothing came back. *)
Definition unanswered_due (tm : Timers) (now : Z) : T bool :=
  let ranges := ranges tm in
  let received := timer_get tm TimeLastPacketReceived in
  rekey ← pick (rekey_timeout ranges) REKEY_TIMEOUT_SECS;
  jitter ← rand (gen_range_u32 0 (REKEY_TIMEOUT_JITTER_MAX_MS - 1));
  let after := wrap 32 (U32Range_hi_or (keepalive_timeout ranges) KEEPALIVE_TIMEOUT_SECS + rekey) * SEC
               + jitter * MS in
  late ← aged (received <? timer_get tm TimeLastDataPacketSent) now received after;
  if (late : bool) then take_want_handshake else mret false.

(** The passive and the persistent keepalive. *)
Definition keepalive_due (tm : Timers) (now : Z) : T bool :=
  let ranges := ranges tm in
  let sent := timer_get tm TimeLastPacketSent in
  timeout ← pick (keepalive_timeout ranges) KEEPALIVE_TIMEOUT_SECS;
  late ← aged (sent <? timer_get tm TimeLastDataPacketReceived) now sent (timeout * SEC);
  passive ← (if (late : bool) then take_want_keepalive else mret false);
  let range := persistent_keepalive ranges in
  let last := timer_get tm TimePersistentKeepalive in
  persistent ←
    (if negb (U32Range_is_zero range) then
       t ← get;
       fire ← aged true now last (persistent_keepalive_next (tunn_timers t));
       if (fire : bool) then
         next ← rand (U32Range_generate range);
         _ ← upd_tunn (on_timers (set_keepalive_next (next * SEC)));
         _ ← timer_tick TimePersistentKeepalive;
         mret true
       else mret false
     else
       fire ← aged (0 <? persistent_keepalive_secs tm) now last (persistent_keepalive_secs tm * SEC);
       if (fire : bool) then _ ← timer_tick TimePersistentKeepalive; mret true else mret false);
  mret (passive || persistent).

(** What the checks decided. *)
Inductive TimerAction := NoAction | SendHandshake | SendKeepalive | Expire.

#[export] Instance TimerAction_eq_dec : EqDecision TimerAction.
Proof. solve_decision. Defined.

(** The block between the expiry test and the two [if]s that emit a packet;
    [Expire] is its two early returns. *)
Definition timer_checks (env : Env) (time_now : Z) : T TimerAction :=
  t ← get;
  let tm := tunn_timers t in
  stale ← aged (has_cookie (handshake t)) time_now (timer_get tm TimeCookieReceived)
            COOKIE_EXPIRATION_TIME;
  _ ← (if (stale : bool) then upd_tunn (set_handshake (clear_cookie (handshake t))) else mret tt);
  idle ← aged true time_now (timer_get tm TimeSessionEstablished) (Timers_reject_after_time tm * 3);
  if (idle : bool) then mret Expire else
  match Handshake_timer (handshake t) with
  | Some time_init_sent =>
      gave_up ← aged true time_now (timer_get tm TimeLastHandshakeStarted) (rekey_attempt_deadline tm);
      if (gave_up : bool) then mret Expire
      else if rekey_timeout_current tm <=? elapsed_ns (now env) time_init_sent
      then mret SendHandshake else mret NoAction
  | None =>
      rekey ← (if is_initiator tm then initiator_rekey_due tm time_now else mret false);
      unanswered ← unanswered_due tm time_now;
      if rekey || unanswered then mret SendHandshake else
      keepalive ← keepalive_due tm time_now;
      mret (if (keepalive : bool) then SendKeepalive else NoAction)
  end.

Definition update_timers (env : Env) (dst_len : nat) : T TunnResult :=
  t ← get;
  _ ← (if should_reset_rr (tunn_timers t)
       then upd_tunn (set_limiter (reset_count (rate_limiter t) (now env))) else mret tt);
  let time_now := elapsed_ns (now env) (time_started (tunn_timers t)) in
  _ ← upd_tunn (on_timers (timer_set TimeCurrent time_now));
  _ ← update_session_timers time_now;
  t ← get;
  if is_expired (handshake t) then mret (TErr ConnectionExpired) else
  action ← timer_checks env time_now;
  match action with
  | Expire =>
      _ ← upd_tunn (λ t, set_handshake (set_expired (handshake t)) t);
      _ ← clear_all env;
      mret (TErr ConnectionExpired)
  | SendHandshake => Tunn_format_handshake_initiation env dst_len true
  | SendKeepalive => encapsulate env [] dst_len
  | NoAction => mret Done
  end.

Definition time_since_last_handshake (env : Env) : T (option Z) :=
  t ← get;
  match session_at t (current t) with
  | Some _ =>
      d ← dsub (elapsed_ns (now env) (time_started (tunn_timers t)))
            (timer_get (tunn_timers t) TimeSessionEstablished);
      mret (Some d)
  | None => mret None
  end.

Definition Tunn_persistent_keepalive (t : Tunn) : option Z :=
  let tm := tunn_timers t in
  if negb (U32Range_is_zero (persistent_keepalive (ranges tm)))
  then Some (Z.min (persistent_keepalive_next tm / SEC) u16_max)
  else if 0 <? persistent_keepalive_secs tm then Some (persistent_keepalive_secs tm) else None.
End tunnel.
