(* ===== verification/Loss.v ===== *)
(** * Loss: the figures a tunnel reports

    Models [estimate_loss] and [stats] of [awgtun/src/noise/mod.rs], with the
    arithmetic of [f32] they use.  A finite [f32] is a multiple of 2^-149, the
    smallest one, so it is the integer that says which multiple; an operation is
    the exact result rounded to the nearest representable one, ties to even, or
    [None] when that is not finite.  The sign of a zero is not kept, which nothing
    here can observe. *)

From Stdlib Require Import ZArith Lia.
From stdpp Require Import base list option sets gmap tactics.
From S2P Require Import Prelude Clock Random Codec Amnezia Cps Config Packet.
From S2P Require Import Session Handshake RateLimiter Timers Tunnel.
Open Scope Z_scope.

(** ** [f32] *)
Module F32.
(** [a / b] to the nearest integer, ties to even. *)
Definition half_even (a b : Z) : Z :=
  let q := a / b in
  let r := a mod b in
  if 2 * r <? b then q else if b <? 2 * r then q + 1 else q + q mod 2.

(** The exponent at which a value of [a / b] units has 24 significant bits. *)
Definition exponent (a b : Z) : Z := Z.max 0 (Z.log2 (a / b) - 23).

(** [a / b] units, rounded; [a] may be negative. *)
Definition round_pos (a b : Z) : Z := let k := exponent a b in half_even a (b * 2 ^ k) * 2 ^ k.
Definition round (a b : Z) : option Z :=
  let x := if a <? 0 then - round_pos (- a) b else round_pos a b in
  if Z.abs x <? 2 ^ 277 then Some x else None.

Definition scale : Z := 2 ^ 149.
Definition lit (n : Z) : Z := n * scale.
Definition of_u64 (n : Z) : option Z := round (n * scale) 1.
Definition add (x y : Z) : option Z := round (x + y) 1.
Definition sub (x y : Z) : option Z := round (x - y) 1.
Definition mul (x y : Z) : option Z := round (x * y) scale.
Definition div (x y : Z) : option Z :=
  if y =? 0 then None else if 0 <? y then round (x * scale) y else round (- x * scale) (- y).

Lemma half_even_bounds a b : 0 < b → a / b ≤ half_even a b ≤ a / b + 1.
Proof.
  intros Hb. unfold half_even. pose proof (Z.mod_pos_bound (a / b) 2). repeat case_match; lia.
Qed.

Lemma half_even_mono a b a' b' : 0 < b → 0 < b' → a * b' ≤ a' * b → half_even a b ≤ half_even a' b'.
Proof.
  intros Hb Hb' H. pose proof (half_even_bounds a b Hb). pose proof (half_even_bounds a' b' Hb').
  assert (a / b ≤ a' / b') as Hq.
  { apply Z.div_le_lower_bound; [done|]. pose proof (Z.mul_div_le a b Hb). nia. }
  destruct (Z.eq_dec (a / b) (a' / b')) as [E|]; [|lia].
  pose proof (Z.div_mod a b ltac:(lia)) as Ha. pose proof (Z.div_mod a' b' ltac:(lia)) as Ha'.
  pose proof (Z.mod_pos_bound a b Hb). pose proof (Z.mod_pos_bound a' b' Hb').
  unfold half_even. rewrite E in *. set (q := a' / b') in *. set (r := a mod b) in *. set (r' := a' mod b') in *.
  assert (r * b' ≤ r' * b) as Hr by nia. pose proof (Z.mod_pos_bound q 2).
  destruct (Z.ltb_spec (2 * r) b), (Z.ltb_spec b (2 * r)), (Z.ltb_spec (2 * r') b'), (Z.ltb_spec b' (2 * r')); try lia; nia.
Qed.

Lemma half_even_exact n b : 0 < b → half_even (n * b) b = n.
Proof.
  intros Hb. unfold half_even. rewrite Z.mod_mul, Z.div_mul by lia. by rewrite (proj2 (Z.ltb_lt _ _)) by lia.
Qed.

Lemma round_pos_zero b : 0 < b → round_pos 0 b = 0.
Proof.
  intros Hb. unfold round_pos. assert (0 < 2 ^ exponent 0 b) by (apply Z.pow_pos_nonneg; unfold exponent; lia).
  pose proof (half_even_exact 0 (b * 2 ^ exponent 0 b) ltac:(nia)) as E. rewrite Z.mul_0_l in E. by rewrite E.
Qed.

(** What the rounding to 24 bits stays between. *)
Lemma exponent_range a b : 0 < b → 0 ≤ a → 0 ≤ exponent a b ∧ a < b * 2 ^ (24 + exponent a b)
  ∧ (0 < exponent a b → b * 2 ^ (23 + exponent a b) ≤ a).
Proof.
  intros Hb Ha. unfold exponent. set (l := Z.log2 (a / b)). split; [lia|].
  pose proof (Z.mul_div_le a b Hb) as Hlo. pose proof (Z.mod_pos_bound a b Hb) as Hm. pose proof (Z.div_mod a b ltac:(lia)) as Hd.
  assert (0 ≤ a / b) by (apply Z.div_pos; lia). split.
  - assert (a / b < 2 ^ (24 + Z.max 0 (l - 23))) as Hlt; [|nia].
    destruct (Z.eq_dec (a / b) 0) as [->|Hn]; [apply Z.pow_pos_nonneg; lia|].
    pose proof (Z.log2_spec (a / b) ltac:(lia)) as [_ Hs]. fold l in Hs. eapply Z.lt_le_trans; [exact Hs|].
    apply Z.pow_le_mono_r; lia.
  - intros Hk. assert (2 ^ (23 + Z.max 0 (l - 23)) ≤ a / b) as Hle; [|nia].
    replace (23 + Z.max 0 (l - 23)) with l by lia. apply Z.log2_spec.
    destruct (Z.eq_dec (a / b) 0) as [E|Hn]; [|lia]. unfold l in Hk. rewrite E in Hk. cbn in Hk. lia.
Qed.

Lemma round_pos_mono a b a' b' : 0 < b → 0 < b' → 0 ≤ a → a * b' ≤ a' * b → round_pos a b ≤ round_pos a' b'.
Proof.
  intros Hb Hb' Ha H. assert (0 ≤ a') by nia. unfold round_pos.
  destruct (exponent_range a b Hb Ha) as (Hk & Hhi & _). destruct (exponent_range a' b' Hb' ltac:(done)) as (Hk' & Hhi' & Hlo').
  set (k := exponent a b) in *. set (k' := exponent a' b') in *.
  assert (0 < 2 ^ k) by (apply Z.pow_pos_nonneg; lia). assert (0 < 2 ^ k') by (apply Z.pow_pos_nonneg; lia).
  assert (k ≤ k') as Hkk.
  { unfold k, k', exponent. assert (a / b ≤ a' / b') as Hq; [|pose proof (Z.log2_le_mono _ _ Hq); lia].
    apply Z.div_le_lower_bound; [done|]. pose proof (Z.mul_div_le a b Hb). nia. }
  destruct (Z.eq_dec k k') as [E|Hne].
  - rewrite <- E. apply Z.mul_le_mono_nonneg_r; [lia|]. apply half_even_mono; nia.
  - assert (half_even a (b * 2 ^ k) ≤ 2 ^ 24) as Hup.
    { rewrite <- (half_even_exact (2 ^ 24) (b * 2 ^ k)) by nia. apply half_even_mono; [nia|nia|].
      rewrite Z.pow_add_r in Hhi by lia. nia. }
    assert (2 ^ 23 ≤ half_even a' (b' * 2 ^ k')) as Hdown.
    { rewrite <- (half_even_exact (2 ^ 23) (b' * 2 ^ k')) by nia. apply half_even_mono; [nia|nia|].
      specialize (Hlo' ltac:(lia)). rewrite Z.pow_add_r in Hlo' by lia. nia. }
    assert (2 ^ 24 * 2 ^ k ≤ 2 ^ 23 * 2 ^ k') as Hpow.
    { rewrite <- !Z.pow_add_r by lia. apply Z.pow_le_mono_r; lia. }
    nia.
Qed.

(** The representable values: 24 significant bits. *)
Definition representable (x : Z) : Prop := ∃ m k, 0 ≤ m ≤ 2 ^ 24 ∧ 0 ≤ k ∧ x = m * 2 ^ k.

Lemma round_pos_representable a b : 0 < b → 0 ≤ a → representable (round_pos a b).
Proof.
  intros Hb Ha. destruct (exponent_range a b Hb Ha) as (Hk & Hhi & _). unfold round_pos.
  exists (half_even a (b * 2 ^ exponent a b)), (exponent a b). split; [|done].
  assert (0 < 2 ^ exponent a b) by (apply Z.pow_pos_nonneg; lia).
  rewrite <- (half_even_exact 0 1), <- (half_even_exact (2 ^ 24) 1) by lia.
  rewrite Z.pow_add_r in Hhi by lia. split; apply half_even_mono; nia.
Qed.

Lemma round_pos_exact x : representable x → round_pos x 1 = x.
Proof.
  intros (m & k & Hm & Hk & ->). assert (0 < 2 ^ k) by (apply Z.pow_pos_nonneg; lia).
  assert (0 ≤ m * 2 ^ k) as Hx by nia.
  destruct (exponent_range (m * 2 ^ k) 1 ltac:(lia) Hx) as (He & Hhi & Hlo). unfold round_pos.
  set (e := exponent (m * 2 ^ k) 1) in *. assert (0 < 2 ^ e) by (apply Z.pow_pos_nonneg; lia).
  assert ((2 ^ e | m * 2 ^ k)) as [q Hq]; [|rewrite Hq, Z.mul_1_l, half_even_exact; lia].
  destruct (Z_le_gt_dec e k) as [Hle|Hgt].
  { replace k with ((k - e) + e) by lia. rewrite Z.pow_add_r, Z.mul_assoc by lia. apply Z.divide_factor_r. }
  specialize (Hlo ltac:(lia)). rewrite Z.mul_1_l in Hlo.
  assert (m * 2 ^ k ≤ 2 ^ (24 + k)) as Hle by (rewrite Z.pow_add_r by lia; nia).
  assert (23 + e ≤ 24 + k) by (apply (Z.pow_le_mono_r_iff 2); lia).
  assert (e = k + 1) as -> by lia. assert (2 ^ (23 + (k + 1)) = 2 ^ 24 * 2 ^ k) as E
    by (rewrite <- Z.pow_add_r by lia; f_equal; lia).
  assert (m = 2 ^ 24) as -> by nia. rewrite <- Z.pow_add_r by lia. exists (2 ^ 23). rewrite <- Z.pow_add_r by lia. f_equal. lia.
Qed.

Lemma representable_small m k : 0 ≤ m ≤ 2 ^ 24 → 0 ≤ k → representable (m * 2 ^ k).
Proof. intros. by exists m, k. Qed.

Lemma lit_representable n : 0 ≤ n ≤ 2 ^ 24 → representable (lit n).
Proof. intros. apply representable_small; [done|lia]. Qed.

(** A quotient between 0 and a representable bound rounds to a representable
    value between 0 and that bound. *)
Lemma round_below a b x : 0 < b → 0 ≤ a ≤ x * b → representable x → x < 2 ^ 277 →
  round a b = Some (round_pos a b) ∧ 0 ≤ round_pos a b ≤ x ∧ representable (round_pos a b).
Proof.
  intros Hb Ha Hx Hf. pose proof (round_pos_representable a b Hb ltac:(lia)) as Hr.
  assert (round_pos a b ≤ x) as Hle.
  { rewrite <- (round_pos_exact x Hx). apply round_pos_mono; lia. }
  assert (0 ≤ round_pos a b) as H0 by (destruct Hr as (m & k & ? & ? & ->); nia).
  split; [|done]. unfold round. rewrite (proj2 (Z.ltb_ge a 0)) by lia.
  by rewrite (proj2 (Z.ltb_lt _ _)) by lia.
Qed.
End F32.
Global Opaque F32.scale.
Import F32.

(** ** [Tunn::estimate_loss] and [Tunn::stats] *)
Definition session_loss (s : Session) : option Z :=
  let '(expected, received) := current_packet_cnt s in
  if expected =? 0 then Some 0
  else r ← of_u64 received; e ← of_u64 expected; q ← div r e; sub (lit 1) q.

(** One turn of the loop, on [(weight, cur_avg, total_weight)]. *)
Definition loss_turn (t : Tunn) (acc : Z * Z * Z) (i : Z) : option (Z * Z * Z) :=
  let '(weight, cur_avg, total_weight) := acc in
  match sessions t !! Z.to_nat (wrap 64 (current t - i) mod Z.of_nat N_SESSIONS) with
  | Some (Some session) =>
      loss ← session_loss session;
      lw ← mul loss weight;
      cur_avg ← add cur_avg lw;
      total_weight ← add total_weight weight;
      weight ← div weight (lit 3);
      Some (weight, cur_avg, total_weight)
  | _ => Some acc
  end.

Fixpoint loss_loop (t : Tunn) (acc : Z * Z * Z) (turns : list Z) : option (Z * Z * Z) :=
  match turns with
  | [] => Some acc
  | i :: turns => acc ← loss_turn t acc i; loss_loop t acc turns
  end.

Definition estimate_loss (t : Tunn) : option Z :=
  '(_, cur_avg, total_weight) ← loss_loop t (lit 9, 0, 0) (seqZ 0 (Z.of_nat N_SESSIONS));
  if total_weight =? 0 then Some 0 else div cur_avg total_weight.

(** The loss is [None] when it is not a finite number. *)
Definition stats {R} (env : Env) : T (R:=R) (option Z * Z * Z * option Z * option Z) :=
  time ← time_since_last_handshake env;
  t ← get;
  mret (time, tx_bytes t, rx_bytes t, estimate_loss t, last_rtt (handshake t)).

(** ** What a session has counted

    The count of packets is the number of counters the window has seen. *)
Definition tracked (v : ReceivingKeyCounterValidator) : Prop :=
  ∃ w, refines v w ∧ receive_cnt v = Z.of_nat (size (seen w)) ∧ top w < 2 ^ 64.

Lemma seen_bounded v w : refines v w → Z.of_nat (size (seen w)) ≤ top w.
Proof.
  intros [_ H0 _ Hs _]. assert (seen w ⊆ list_to_set (seqZ 0 (top w))) as Hsub.
  { intros c Hc. apply elem_of_list_to_set, elem_of_seqZ. specialize (Hs c Hc). lia. }
  apply subseteq_size in Hsub. rewrite size_list_to_set in Hsub by apply NoDup_seqZ.
  rewrite length_seqZ in Hsub. lia.
Qed.

Lemma tracked_counts s : tracked (receiving_key_counter s) →
  ∃ expected received, current_packet_cnt s = (expected, received) ∧ 0 ≤ received ≤ expected ∧ expected < 2 ^ 64.
Proof.
  intros (w & Hr & Hc & Ht). eexists _, _. split; [done|]. rewrite Hc, (rf_next _ _ Hr).
  pose proof (seen_bounded _ _ Hr). lia.
Qed.

Definition receive_all (s : Session) (counters : list Z) : Session :=
  foldl (λ s c, match receiving_counter_mark s c with Ok s' => s' | _ => s end) s counters.

Lemma tracked_mark s c s' : tracked (receiving_key_counter s) → counter_ok c →
  receiving_counter_mark s c = Ok s' → tracked (receiving_key_counter s').
Proof.
  intros (w & Hr & Hcnt & Ht) Hc H. unfold receiving_counter_mark in H.
  pose proof (mark_refines _ w c Hr Hc) as Hm. destruct (window_mark w c) as [w'|e|] eqn:E; [|by rewrite Hm in H|done].
  destruct Hm as (v' & Hv & Hr' & Hcnt'). rewrite Hv in H. cbn in H. simplify_eq. cbn.
  unfold window_mark in E. repeat (case_decide; [done|]). injection E as E.
  assert (size (seen w') = S (size (seen w))) as Hsz.
  { rewrite <- E. cbn. rewrite size_union by set_solver. by rewrite size_singleton. }
  assert (top w' < 2 ^ 64) as Ht' by (rewrite <- E; cbn [top]; destruct Hc; change N_BITS with 1024 in *; lia).
  exists w'. split_and!; [destruct Hr'; by split| |done]. cbn. rewrite Hcnt', Hcnt, Hsz.
  replace (Z.of_nat (size (seen w)) + 1) with (Z.of_nat (S (size (seen w)))) by lia.
  pose proof (seen_bounded _ _ Hr') as Hb. rewrite Hsz in Hb. apply wrap_small. unfold u_ok. lia.
Qed.

Lemma tracked_receive_all s cs : tracked (receiving_key_counter s) → Forall counter_ok cs →
  tracked (receiving_key_counter (receive_all s cs)).
Proof.
  intros Hs Hcs. revert s Hs. induction Hcs as [|c cs Hc _ IH]; intros s Hs; [done|]. cbn. apply IH.
  destruct (receiving_counter_mark s c) eqn:E; [by eapply tracked_mark|done..].
Qed.

Lemma tracked_new li pi rk sk : tracked (receiving_key_counter (Session_new li pi rk sk)).
Proof. exists window_empty. split; [apply refines_default|by cbn]. Qed.

(** ** The estimate *)
Lemma scale_pos : 0 < scale.
Proof. done. Qed.

Lemma lit_finite n : n ≤ 2 ^ 64 → lit n < 2 ^ 277.
Proof.
  intros. unfold lit. pose proof scale_pos. assert (2 ^ 64 * scale < 2 ^ 277) by done. nia.
Qed.

Lemma zero_representable : representable 0.
Proof. by exists 0, 0. Qed.

Lemma of_u64_round n : 0 ≤ n < 2 ^ 64 → of_u64 n = Some (round_pos (lit n) 1).
Proof.
  intros Hn. pose proof scale_pos. assert (representable (lit (2 ^ 64))) as Hr.
  { exists 1, (64 + 149). split_and!; [lia..|]. unfold lit. by rewrite Z.pow_add_r, Z.mul_1_l by lia. }
  apply (round_below (lit n) 1 (lit (2 ^ 64))); [lia|unfold lit; nia|done|by apply lit_finite].
Qed.

(** A division of a value by one at least as large. *)
Lemma div_share x y : 0 ≤ x ≤ y → 0 < y → ∃ q, div x y = Some q ∧ 0 ≤ q ≤ lit 1 ∧ (x = y → q = lit 1).
Proof.
  intros Hx Hy. pose proof scale_pos. unfold div. rewrite (proj2 (Z.eqb_neq y 0)), (proj2 (Z.ltb_lt 0 y)) by lia.
  destruct (round_below (x * scale) y (lit 1)) as (-> & Hb & _);
    [done|unfold lit; nia|by apply lit_representable|by apply lit_finite|].
  eexists. split_and!; [done|lia|lia|]. intros ->. apply Z.le_antisymm; [lia|].
  rewrite <- (round_pos_exact (lit 1)) at 1 by by apply lit_representable.
  apply round_pos_mono; unfold lit; lia.
Qed.

Definition nothing_lost (s : Session) : Prop := let '(expected, received) := current_packet_cnt s in received = expected.

Lemma session_loss_share s : tracked (receiving_key_counter s) →
  ∃ x, session_loss s = Some x ∧ 0 ≤ x ≤ lit 1 ∧ (nothing_lost s → x = 0).
Proof.
  intros (e & r & E & Hr & He)%tracked_counts. pose proof scale_pos. unfold session_loss, nothing_lost. rewrite E.
  destruct (Z.eqb_spec e 0) as [->|Hne]. { exists 0. unfold lit. split_and!; done || lia. }
  rewrite !of_u64_round by lia. cbn.
  assert (lit 1 ≤ round_pos (lit e) 1) as H1.
  { rewrite <- (round_pos_exact (lit 1)) by by apply lit_representable. apply round_pos_mono; unfold lit; nia. }
  assert (0 ≤ round_pos (lit r) 1 ≤ round_pos (lit e) 1) as H2.
  { split; [|apply round_pos_mono; unfold lit; nia].
    destruct (round_pos_representable (lit r) 1) as (m & k & ? & ? & ->); unfold lit; nia. }
  destruct (div_share (round_pos (lit r) 1) (round_pos (lit e) 1)) as (q & -> & Hq & Hq1); [lia|unfold lit in *; lia|].
  cbn. unfold sub. destruct (round_below (lit 1 - q) 1 (lit 1)) as (-> & Hb & _);
    [lia|lia|by apply lit_representable|by apply lit_finite|].
  eexists. split_and!; [done|lia|lia|]. intros ->. rewrite Hq1, Z.sub_diag by done. apply (round_pos_exact 0 zero_representable).
Qed.

(** What the loop keeps after [n] turns: the weighted sum of the losses is at most
    that of the weights. *)
Record averaging (n : Z) (none : Prop) (acc : Z * Z * Z) : Prop := {
  av_weight : 0 ≤ acc.1.1 ≤ lit 9;
  av_weight_rep : representable acc.1.1;
  av_avg : 0 ≤ acc.1.2 ≤ acc.2;
  av_total : acc.2 ≤ lit (9 * n);
  av_none : none → acc.1.2 = 0
}.

Section loop.
Context (t : Tunn) (none : Prop).
Hypothesis Htracked : ∀ s, Some s ∈ sessions t → tracked (receiving_key_counter s) ∧ (none → nothing_lost s).

Lemma loss_turn_averaging n acc i : 0 ≤ n < 8 → averaging n none acc →
  ∃ acc', loss_turn t acc i = Some acc' ∧ averaging (n + 1) none acc'.
Proof.
  destruct acc as [[w c] tw]. intros Hn [Hw Hwr Hc Ht H0]. cbn [fst snd] in *. pose proof scale_pos.
  unfold loss_turn. destruct (sessions t !! _) as [[s|]|] eqn:Es.
  2,3: eexists; split; [done|]; split; cbn; try done; unfold lit in *; nia.
  assert (Some s ∈ sessions t) as [Htr Hnone]%Htracked.
  { by eapply list_elem_of_lookup_2. }
  destruct (session_loss_share s Htr) as (x & -> & Hx & Hx0). cbn. unfold mul, add.
  destruct (round_below (x * w) scale w) as (-> & Hl & _); [done|unfold lit in *; nia|done|pose proof (lit_finite 9); lia|]. cbn.
  assert (representable (lit (9 * (n + 1)))) as Hr by (apply lit_representable; lia).
  pose proof (lit_finite (9 * (n + 1)) ltac:(lia)) as Hf.
  assert (lit (9 * (n + 1)) = lit (9 * n) + lit 9) as El by (unfold lit; lia).
  destruct (round_below (c + round_pos (x * w) scale) 1 (lit (9 * (n + 1)))) as (-> & Hc' & _); [lia|lia|done|done|]. cbn.
  destruct (round_below (tw + w) 1 (lit (9 * (n + 1)))) as (-> & Ht' & _); [lia|lia|done|done|]. cbn.
  unfold div. rewrite (proj2 (Z.eqb_neq (lit 3) 0)), (proj2 (Z.ltb_lt 0 (lit 3))) by (unfold lit; lia).
  destruct (round_below (w * scale) (lit 3) w) as (-> & Hw' & Hwr'); [unfold lit; lia|unfold lit; nia|done|pose proof (lit_finite 9); lia|].
  cbn. eexists. split; [done|]. split; cbn; [lia|done| |lia|].
  - split; [lia|]. apply round_pos_mono; lia.
  - intros Hn0. rewrite H0, Hx0 by auto. by vm_compute.
Qed.

Lemma loss_loop_averaging turns : ∀ n acc, 0 ≤ n → n + Z.of_nat (length turns) ≤ 8 → averaging n none acc →
  ∃ acc', loss_loop t acc turns = Some acc' ∧ averaging (n + Z.of_nat (length turns)) none acc'.
Proof.
  induction turns as [|i turns IH]; intros n acc Hn Hl Ha; cbn [length loss_loop] in *.
  { exists acc. by replace (n + Z.of_nat 0) with n by lia. }
  destruct (loss_turn_averaging n acc i) as (acc' & -> & Ha'); [lia|done|]. cbn.
  destruct (IH (n + 1) acc') as (acc'' & -> & Ha''); [lia|lia|done|]. eexists. split; [done|].
  by replace (n + Z.of_nat (S (length turns))) with (n + 1 + Z.of_nat (length turns)) by lia.
Qed.

Lemma estimate_loss_share : ∃ x, estimate_loss t = Some x ∧ 0 ≤ x ≤ lit 1 ∧ (none → x = 0).
Proof.
  pose proof scale_pos. unfold estimate_loss.
  destruct (loss_loop_averaging (seqZ 0 (Z.of_nat N_SESSIONS)) 0 (lit 9, 0, 0)) as ([[w c] tw] & -> & [_ _ Hc Ht H0]);
    [done|done| |]; cbn in *.
  { split; cbn; [unfold lit; lia|by apply lit_representable|lia|unfold lit; lia|done]. }
  destruct (Z.eqb_spec tw 0) as [->|Hne]; [exists 0; unfold lit; split_and!; first [done|lia]|].
  destruct (div_share c tw) as (q & E & Hq & _); [lia|lia|]. exists q. split_and!; [done|lia|lia|].
  intros Hn. rewrite (H0 Hn) in E. unfold div in E. revert E.
  rewrite (proj2 (Z.eqb_neq tw 0)), (proj2 (Z.ltb_lt 0 tw)), Z.mul_0_l by lia. unfold round. cbn.
  rewrite round_pos_zero by lia. by injection 1.
Qed.
End loop.

(** C29: The reported loss is a share.  When each session of a tunnel has received
    packets under any counters that leave the window inside 64 bits, in any order
    and with any repeats, [estimate_loss] is a finite [f32] between 0 and 1: no
    division by zero, no overflow, and no rounding takes the weighted mean out of
    the range; if no counter below the highest one is missing in any session it is
    exactly 0. *)
Theorem loss_is_a_share t :
  (∀ s, Some s ∈ sessions t → ∃ li pi rk sk cs, Forall counter_ok cs ∧
     receiving_key_counter s = receiving_key_counter (receive_all (Session_new li pi rk sk) cs)) →
  ∃ x, estimate_loss t = Some x ∧ 0 ≤ x ≤ lit 1 ∧
    ((∀ s, Some s ∈ sessions t → nothing_lost s) → x = 0).
Proof.
  intros H. apply estimate_loss_share. intros s Hs. split; [|by intros; auto].
  destruct (H s Hs) as (li & pi & rk & sk & cs & Hcs & ->). by apply tracked_receive_all, Hcs; apply tracked_new.
Qed.
