(* ===== verification/TunnelSafe.v ===== *)
(** * TunnelSafe: no method of the tunnel panics

    The invariant [ok] of a tunnel built from a validated configuration, and
    the contract of every method of [Tunnel] against it: called in a state that
    satisfies [ok], with a buffer of the size the method documents, it does not
    panic, whatever bytes arrive, and leaves [ok]; what it writes fits the
    buffer.  [runs] of [Prelude] states such a contract. *)

From Stdlib Require Import ZArith Lia.
From stdpp Require Import base list option strings sets tactics.
From S2P Require Import Prelude Clock Random Codec Amnezia Cps Config Packet.
From S2P Require Import Session Handshake RateLimiter Timers Tunnel Loss.
Open Scope Z_scope.

(** ** The invariant *)
Record tunn_config_ok (c : TunnConfig) : Prop := {
  tco_headers : headers_ok (header_config c);
  tco_validated : HeaderConfig_validate (header_config c) = Ok ();
  tco_prefix hp : header_protection c = Some hp →
    12 ≤ s1 (padding_config c) ∧ 12 ≤ s2 (padding_config c) ∧
    12 ≤ s3 (padding_config c) ∧ 12 ≤ s4 (padding_config c);
  tco_chains : Forall (λ ch, Forall tag_ok (tags ch) ∧ Forall tag_sized (tags ch))
    (InitPacketConfig_active_chains (init_packet_config c));
  tco_junk : junk_count (junk_config c) = 0 ∨
    u16_ok (junk_min (junk_config c)) ∧ u16_ok (junk_max (junk_config c)) ∧
    junk_min (junk_config c) ≤ junk_max (junk_config c);
  tco_padding r : content_padding c = Some r → u32range_ok r
}.

Section invariant.
Context `{NC : NoiseCrypto}.

(** A tunnel between two calls; [now] is the clock of the next call. *)
Record tunn_ok (now : Z) (t : Tunn) : Prop := {
  ok_config : tunn_config_ok (tc t);
  ok_handshake : handshake_ok (handshake t);
  ok_sessions : length (sessions t) = N_SESSIONS;
  ok_timers : timers_ok (tunn_timers t);
  ok_now : timer_get (tunn_timers t) TimeCurrent ≤ elapsed_ns now (time_started (tunn_timers t));
  ok_queue : (length (packet_queue t) ≤ MAX_QUEUE_DEPTH)%nat;
  ok_window : u32_ok (udp_window t)
}.

Lemma tunn_ok_later now now' t : tunn_ok now t → now ≤ now' → tunn_ok now' t.
Proof.
  intros [] Hn. split; try done. pose proof (elapsed_ns_mono now now' (time_started (tunn_timers t)) Hn).
  lia.
Qed.
End invariant.

(** ** The invariant is kept by every field update *)
Section updates.
Context `{NC : NoiseCrypto} {now : Z} {t : Tunn} (Ht : tunn_ok now t).

Lemma ok_set_handshake h : handshake_ok h → tunn_ok now (set_handshake h t).
Proof. by destruct Ht; split. Qed.
Lemma ok_set_current i : tunn_ok now (set_current i t).
Proof. by destruct Ht; split. Qed.
Lemma ok_add_tx n : tunn_ok now (add_tx n t).
Proof. by destruct Ht; split. Qed.
Lemma ok_add_rx n : tunn_ok now (add_rx n t).
Proof. by destruct Ht; split. Qed.
Lemma ok_set_limiter r : tunn_ok now (set_limiter r t).
Proof. by destruct Ht; split. Qed.
Lemma ok_set_mtu m : tunn_ok now (Tunn_set_mtu m t).
Proof. by destruct Ht; split. Qed.
Lemma ok_set_outgoing q : tunn_ok now (set_outgoing q t).
Proof. by destruct Ht; split. Qed.
Lemma ok_set_sessions l : length l = N_SESSIONS → tunn_ok now (set_sessions l t).
Proof. by destruct Ht; split. Qed.
Lemma ok_store_session i s : tunn_ok now (store_session i s t).
Proof. apply ok_set_sessions. rewrite length_insert. by destruct Ht. Qed.
Lemma ok_no_sessions : tunn_ok now (set_sessions (map (λ _, None) (sessions t)) t).
Proof. apply ok_set_sessions. rewrite length_map. by destruct Ht. Qed.
Lemma ok_set_queue q : (length q ≤ MAX_QUEUE_DEPTH)%nat → tunn_ok now (set_queue q t).
Proof. by destruct Ht; split. Qed.
Lemma ok_set_window x : u32_ok x → tunn_ok now (set_window x t).
Proof. by destruct Ht; split. Qed.

Lemma ok_on_timers f :
  timers_ok (f (tunn_timers t)) →
  timer_get (f (tunn_timers t)) TimeCurrent ≤ elapsed_ns now (time_started (tunn_timers t)) →
  time_started (f (tunn_timers t)) = time_started (tunn_timers t) →
  tunn_ok now (on_timers f t).
Proof. intros Hf Hc Hs. destruct Ht. split; try done. cbn. by rewrite Hs. Qed.

Lemma ok_tick n : tunn_ok now (on_timers (tick n) t).
Proof.
  apply ok_on_timers; [by apply tick_ok; destruct Ht| |by destruct n].
  rewrite tick_current; [by destruct Ht|by destruct Ht as [_ _ _ []]].
Qed.

Lemma ok_tick_established b i : tunn_ok now (on_timers (tick_session_established b i) t).
Proof.
  apply ok_on_timers; [by apply tick_session_established_ok; destruct Ht| |done].
  rewrite tick_session_established_current; by destruct Ht.
Qed.

Lemma ok_clear_timers : tunn_ok now (on_timers (λ tm, Timers_clear tm now) t).
Proof.
  destruct (Timers_clear_ok (tunn_timers t) now) as [H1 H2]; [by destruct Ht..|].
  apply ok_on_timers; [done|by rewrite H2|done].
Qed.

Lemma ok_observe size :
  tunn_ok now (set_window (Z.max (udp_window t) (Z.min (Z.of_nat size) u32_max)) t).
Proof. apply ok_set_window. destruct Ht. width_lia. Qed.

Lemma ok_queue_packet p :
  tunn_ok now (if decide (length (packet_queue t) < MAX_QUEUE_DEPTH)%nat
               then set_queue (packet_queue t ++ [p]) t else t).
Proof. destruct (decide _); [|done]. apply ok_set_queue. len. lia. Qed.

Lemma ok_requeue_packet p :
  tunn_ok now (if decide (length (packet_queue t) < MAX_QUEUE_DEPTH)%nat
               then set_queue (p :: packet_queue t) t else t).
Proof. destruct (decide _); [|done]. apply ok_set_queue. cbn. lia. Qed.
End updates.

Create HintDb tunn.
#[export] Hint Resolve ok_set_handshake ok_set_current ok_add_tx ok_add_rx ok_set_limiter
  ok_set_mtu ok_set_outgoing ok_store_session ok_no_sessions ok_tick ok_tick_established
  ok_clear_timers ok_observe ok_queue_packet ok_requeue_packet : tunn.

Section safety.
Context `{CC : ChaCha20} `{B64 : Base64} `{NC : NoiseCrypto} `{AE : Aead} `{RS : RandomSource R}.
Variable env : Env.
#[local] Abbreviation World := (@World R).
Implicit Types w : World.
Implicit Types X : World → Prop.

Definition ok w : Prop := tunn_ok (now env) (tunn w) ∧ rng_ok (rng w).

(** What a method that only draws randomness leaves. *)
Definition same w w' : Prop := ok w' ∧ tunn w' = tunn w.

Lemma same_refl w : ok w → same w w.
Proof. done. Qed.

(** ** Contracts of the small steps *)
Lemma get_runs {X} w (Q : Tunn → World → Prop) : Q (tunn w) w → runs get w X Q.
Proof. done. Qed.

Lemma upd_runs {X} f w (Q : () → World → Prop) :
  Q tt (mkWorld (f (tunn w)) (rng w)) → runs (upd_tunn f) w X Q.
Proof. done. Qed.

Lemma rand_runs {X} {A} (f : R → A * R) (P : A → Prop) w :
  ok w → (∀ g, rng_ok g → P (f g).1 ∧ rng_ok (f g).2) →
  runs (rand f) w X (λ a w', same w w' ∧ P a).
Proof.
  intros [Ht Hg] Hf. unfold runs, rand. destruct (Hf _ Hg) as [HP Hg'].
  by destruct (f (rng w)).
Qed.

(** A update of the tunnel that keeps what [ok] is about. *)
Lemma upd_ok f w :
  ok w → tunn_ok (now env) (f (tunn w)) → ok (mkWorld (f (tunn w)) (rng w)).
Proof. by intros [_ ?]. Qed.

Lemma fill_some_runs {X} n w :
  ok w → runs (fill_some n) w X (λ b w', same w w' ∧ length b = n ∧ bytes_ok b).
Proof.
  intros Hw. unfold fill_some. destruct (decide _); cbn [draw_bytes].
  - apply rand_runs; [done|]. intros g Hg.
    split; [split; [by apply fill_bytes_length|by apply fill_bytes_ok]|by apply fill_bytes_inv].
  - apply runs_ret. split; [done|]. split; [cbn; lia|constructor].
Qed.

Lemma header_runs {X} r w :
  ok w → range_ok r →
  runs (rand (HeaderRange_generate r)) w X
    (λ ty w', same w w' ∧ HeaderRange_contains r ty = true).
Proof.
  intros Hw Hr. apply rand_runs; [done|]. intros g Hg. split.
  - by apply generate_contains.
  - by apply gen_range_u32_inv.
Qed.

Lemma range_runs {X} r w :
  ok w → u32range_ok r →
  runs (rand (U32Range_generate r)) w X (λ v w', same w w' ∧ lo r ≤ v ≤ hi r).
Proof.
  intros Hw (H1 & H2 & H3). apply rand_runs; [done|]. intros g Hg. split.
  - by apply gen_range_u32_in.
  - by apply gen_range_u32_inv.
Qed.

Lemma trailer_for_runs {X} size dst_len w :
  ok w → (size ≤ dst_len)%nat →
  runs (trailer_for size dst_len) w X (λ n w', same w w' ∧ (size + n ≤ dst_len)%nat).
Proof.
  intros Hw Hd. unfold trailer_for. apply runs_bind, get_runs.
  destruct (tc_random_trailers _); [|apply runs_ret; split; [done|lia]].
  apply runs_bind. eapply runs_mono.
  - apply (rand_runs _ (λ _, True)); [done|]. intros g Hg. split; [done|].
    unfold random_trailer_len. destruct (checked_sub _ _) as [sp|]; [|done].
    destruct (decide _); [|done]. pose proof (gen_range_u32_inv 0 (Z.of_nat sp - 1) g Hg).
    by destruct (gen_range_u32 _ _ g).
  - intros want w' [Hs _]. apply runs_ret. split; [done|lia].
Qed.

Lemma same_trans w w1 w2 : same w w1 → same w1 w2 → same w w2.
Proof. intros [_ E1] [? E2]. split; [done|congruence]. Qed.

Lemma content_padding_addition_runs {X} size dst_len w :
  ok w →
  runs (Tunn_content_padding_addition size dst_len) w X (λ n w', same w w' ∧
    (n ≤ dst_len - size)%nat ∧
    (n ≤ default O (Z.to_nat ∘ hi <$> content_padding (tc (tunn w))))%nat).
Proof.
  intros Hw. unfold Tunn_content_padding_addition. apply runs_bind, get_runs.
  destruct (content_padding (tc (tunn w))) as [r|] eqn:Er;
    [|apply runs_ret; split_and!; [done|lia|done]].
  destruct (checked_sub _ _) as [space|];
    [|apply runs_ret; split_and!; [done|lia|lia]].
  eapply runs_seq; [apply range_runs; [done|]|].
  - destruct Hw as [Ht _]. by apply (tco_padding _ (ok_config _ _ Ht)).
  - intros v w' [Hs Hv]. apply runs_ret. split_and!; [done|lia|].
    cbn. destruct (decide _); lia.
Qed.

Lemma transport_padding_runs {X} size dst_len w :
  ok w → (s_of s4 (tunn w) + 32 + size ≤ dst_len)%nat →
  runs (transport_padding size dst_len) w X (λ n w', same w w' ∧
    (s_of s4 (tunn w) + 32 + size + n ≤ dst_len)%nat).
Proof.
  intros Hw Hd. unfold transport_padding, DATA_OVERHEAD_SZ. apply runs_bind, get_runs.
  destruct (content_padding _); eapply runs_mono.
  - by apply content_padding_addition_runs.
  - intros n w' (Hs & Hn & _). split; [done|lia].
  - by apply trailer_for_runs.
  - cbn. intros n w' [Hs Hn]. split; [done|lia].
Qed.

(** The transport prefix is long enough to hold the nonce. *)
Lemma ok_prefix w hp : ok w → header_protection (tc (tunn w)) = Some hp →
  (12 ≤ s_of s1 (tunn w))%nat ∧ (12 ≤ s_of s2 (tunn w))%nat ∧
  (12 ≤ s_of s3 (tunn w))%nat ∧ (12 ≤ s_of s4 (tunn w))%nat.
Proof.
  intros [Ht _] Hp. destruct (tco_prefix _ (ok_config _ _ Ht) hp Hp) as (?&?&?&?).
  unfold s_of. lia.
Qed.

(** A message as it goes on the wire after [prefix]. *)
Definition protect (hp : option HeaderProtection) (prefix message : bytes) : bytes :=
  match hp with
  | Some hp => xor_into message (chacha_keystream (hp_key hp) (take 12 prefix) (length message))
  | None => message
  end.

Lemma length_protect hp prefix message : length (protect hp prefix message) = length message.
Proof. destruct hp; cbn; len; lia. Qed.

Lemma draw_prefix_runs {X} n clear rest prefix header w :
  ok w → length clear = TRANSPORT_HEADER_SZ → let hp := header_protection (tc (tunn w)) in
  (hp = None → header = clear) →
  (n = O → length prefix = s_of s4 (tunn w) ∧ bytes_ok prefix ∧ header = protect hp prefix clear) →
  runs (draw_prefix n (tunn w) clear rest prefix header) w X (λ '(p, h) w',
    same w w' ∧ length p = s_of s4 (tunn w) ∧ bytes_ok p ∧ h = protect hp p clear).
Proof.
  intros Hw Hc hp. revert w prefix header Hw hp.
  induction n as [|n IH]; intros w prefix header Hw hp Hn Hp; cbn [draw_prefix].
  { apply runs_ret. split; [by apply same_refl|by apply Hp]. }
  eapply runs_seq; [by apply fill_some_runs|]. intros b w' (Hs & Hb & Hbo).
  pose proof Hs as [Hw' Et]. unfold hp in *.
  destruct (header_protection (tc (tunn w))) as [hp'|] eqn:Ehp;
    [|apply runs_ret; split_and!; auto].
  destruct (ok_prefix w hp' Hw Ehp) as (_&_&_&H12).
  rewrite HeaderProtection_keystream_eq by (rewrite Hb; exact H12).
  apply runs_bind, runs_lift; [done..|]. intros ks [= <-].
  rewrite <- Hc. change (xor_into clear _) with (protect (Some hp') b clear).
  destruct (peer_would_misclassify _ _ _); [|by apply runs_ret].
  rewrite <- Et in *. specialize (IH w' b). rewrite Ehp in IH.
  eapply runs_mono; [apply IH; [done|done|done]|].
  intros [p h] w2 (Hs2 & ?). by split; [eapply same_trans|].
Qed.

Lemma format_transport_packet_runs {X} session src pad dst_len w :
  ok w → (s_of s4 (tunn w) + 32 + length src + pad ≤ dst_len)%nat →
  runs (format_transport_packet session src pad dst_len) w X (λ '(d, s') w',
    same w w' ∧ s' = bump_sending session ∧
    (length d = s_of s4 (tunn w) + 32 + length src + pad)%nat ∧
    ∃ ty prefix,
      HeaderRange_contains (hc_transport (header_config (tc (tunn w)))) ty = true ∧
      length prefix = s_of s4 (tunn w) ∧ bytes_ok prefix ∧
      let packet := data_bytes ty (formatted session src pad) in
      d = prefix ++ protect (header_protection (tc (tunn w))) prefix (take 16 packet)
            ++ drop 16 packet).
Proof.
  intros Hw Hd. unfold format_transport_packet. apply runs_bind, get_runs.
  eapply runs_seq; [apply header_runs; [done|]|].
  { destruct Hw as [Ht _]. by destruct (tco_headers _ (ok_config _ _ Ht)) as (_&_&_&?). }
  intros ty w1 [Hs1 Hty]. pose proof Hs1 as [Hw1 E1].
  unfold checked_sub. rewrite decide_True by lia. apply runs_bind, runs_ret.
  rewrite format_packet_data_eq by lia. apply runs_bind, runs_lift; [done|done|].
  intros [packet s'] [<- <-]%Ok_inj%pair_equal_spec.
  set (packet := data_bytes ty (formatted session src pad)).
  assert (length packet = 32 + length src + pad)%nat as Hlp.
  { unfold packet, data_bytes, formatted. cbn. len. rewrite aead_seal_length. len. lia. }
  assert (length (take TRANSPORT_HEADER_SZ packet) = TRANSPORT_HEADER_SZ) as Hlh
    by (rewrite length_take, Hlp; unfold TRANSPORT_HEADER_SZ; lia).
  eapply runs_seq; [rewrite <- E1; by apply draw_prefix_runs|].
  intros [p h] w2 (Hs2 & Hlpre & Hbo & ->). rewrite E1 in *.
  apply runs_ret. split_and!; [by eapply same_trans|done| |by exists ty, p].
  rewrite !length_app, length_protect, Hlh, length_drop, Hlp.
  unfold TRANSPORT_HEADER_SZ. lia.
Qed.

#[local] Ltac kept := match goal with
  | H : ok ?w |- tunn_ok _ (_ (tunn ?w)) => pose proof (proj1 H); eauto with tunn
  | H : ok ?w |- tunn_ok _ _ => pose proof (proj1 H); eauto with tunn
  end.

(** An update the hints prove harmless, then the continuation. *)
Lemma upd_seq {X} {A} f (m : () → T A) w Q :
  ok w → tunn_ok (now env) (f (tunn w)) →
  (ok (mkWorld (f (tunn w)) (rng w)) → runs (m tt) (mkWorld (f (tunn w)) (rng w)) X Q) →
  runs (upd_tunn f ≫= m) w X Q.
Proof. intros Hw Hf Hm. apply runs_bind, upd_runs, Hm. by apply upd_ok. Qed.

Lemma upd_last {X} f w (Q : () → World → Prop) :
  ok w → tunn_ok (now env) (f (tunn w)) → (∀ w', ok w' → Q tt w') → runs (upd_tunn f) w X Q.
Proof. intros Hw Hf HQ. apply upd_runs, HQ. by apply upd_ok. Qed.

(** ** Handshake datagrams *)
(** A handshake message as the wire carries it. *)
Definition handshake_datagram (c : TunnConfig) (prefix_len : nat) (message d : bytes) : Prop :=
  ∃ prefix tail, length prefix = prefix_len ∧ bytes_ok prefix ∧ bytes_ok tail ∧
    (tc_random_trailers c = false → tail = []) ∧
    d = prefix ++ protect (header_protection c) prefix message ++ tail.

Lemma frame_message_runs {X} prefix_len message dst_len w :
  ok w → (prefix_len + length message ≤ dst_len)%nat →
  (∀ hp, header_protection (tc (tunn w)) = Some hp → 12 ≤ prefix_len)%nat →
  runs (frame_message prefix_len message dst_len) w X (λ d w',
    same w w' ∧ (length d ≤ dst_len)%nat ∧
    handshake_datagram (tc (tunn w)) prefix_len message d).
Proof.
  intros Hw Hd Hp. unfold frame_message. apply runs_bind, get_runs.
  eapply runs_seq; [by apply fill_some_runs|]. intros prefix w1 (Hs1 & Hl1 & Hb1).
  pose proof Hs1 as [Hw1 E1].
  set (m' := protect (header_protection (tc (tunn w))) prefix message).
  assert (length m' = length message) as Hlm by apply length_protect.
  apply (runs_seq _ _ _ _ (λ m w', m = m' ∧ w' = w1)).
  { unfold m'. destruct (header_protection _) as [hp|] eqn:Ehp; [|by apply runs_ret].
    rewrite HeaderProtection_apply_eq by (rewrite Hl1; by apply (Hp hp)).
    apply runs_lift; [done|done|]. by intros ? [= <-]. }
  intros m w' [-> ->].
  apply (runs_seq _ _ _ _ (λ n w', same w1 w' ∧ (prefix_len + length m' + n ≤ dst_len)%nat ∧
    (tc_random_trailers (tc (tunn w)) = false → n = O))).
  { rewrite <- E1. destruct (tc_random_trailers (tc (tunn w1))) eqn:Et.
    - eapply runs_mono; [apply trailer_for_runs; [done|by rewrite Hlm]|].
      cbn. intros n w2 []. done.
    - unfold trailer_for. apply runs_bind, get_runs. rewrite Et. apply runs_ret.
      split_and!; [done|lia|done]. }
  intros n w2 (Hs2 & Hn & Ht). pose proof Hs2 as [Hw2 _].
  eapply runs_seq; [by apply fill_some_runs|]. intros tail w3 (Hs3 & Hl3 & Hb3). apply runs_ret.
  split_and!; [by eapply same_trans; [|eapply same_trans]|len; lia|].
  exists prefix, tail. split_and!; try done. intros E. apply nil_length_inv. by rewrite Hl3, Ht.
Qed.

Lemma queue_init_packets_runs {X} i chains w :
  ok w → Forall (λ ch, Forall tag_ok (tags ch) ∧ Forall tag_sized (tags ch)) chains →
  runs (queue_init_packets env i chains) w X (λ _ w', ok w').
Proof.
  intros Hw Hc. revert i w Hw. induction Hc as [|ch chains [Hok Hsz] _ IH]; intros i w Hw;
    [by apply runs_ret|]. cbn [queue_init_packets].
  eapply (runs_seq _ _ _ _ (λ _ w', ok w')).
  - destruct Hw as [Ht Hg]. unfold runs.
    destruct (generate_tags_emits (tags ch) 0 (wall env i) [] [] (rng w) Hok Hsz Hg)
      as (out & g' & E & _ & Hg').
    change (CpsChain_generate_for_init ch (wall env i) (rng w) = Ok (out, g')) in E. by rewrite E.
  - intros p w1 Hw1. eapply (runs_seq _ _ _ _ (λ _ w', ok w')); [|auto].
    destruct (decide _); [by apply runs_ret|].
    apply upd_last; [done|kept|done].
Qed.

Lemma queue_pre_handshake_packets_runs {X} w :
  ok w → runs (queue_pre_handshake_packets env) w X (λ _ w', ok w').
Proof.
  intros Hw. unfold queue_pre_handshake_packets. apply runs_bind, get_runs.
  pose proof (ok_config _ _ (proj1 Hw)) as Hc.
  eapply runs_seq; [apply queue_init_packets_runs; [done|apply Hc]|]. intros [] w1 Hw1.
  eapply runs_seq; [apply (rand_runs _ (λ _, True)); [done|]|].
  - intros g Hg. split; [done|]. unfold JunkConfig_generate_junk_packets.
    destruct (Z.eqb_spec (junk_count (junk_config (tc (tunn w)))) 0); [done|].
    destruct (tco_junk _ Hc) as [|(H1 & H2 & H3)]; [done|].
    by apply (junk_loop_spec _ _ g Hg H1 H2 H3).
  - intros junk w2 [[Hw2 _] _]. apply upd_last; [done|kept|done].
Qed.

(** A method of the handshake, run on the tunnel. *)
Lemma on_handshake_runs {A} (f : Handshake → result WireGuardError A * Handshake)
    (P : A → Prop) w :
  ok w →
  (let '(r, h) := f (handshake (tunn w)) in handshake_ok h ∧ r ≠ Panic ∧ ∀ a, r = Ok a → P a) →
  runs (on_handshake f) w ok (λ a w', ok w' ∧ tc (tunn w') = tc (tunn w) ∧ P a).
Proof.
  intros [Ht Hg] Hf. unfold runs, on_handshake. destruct (f _) as [r h].
  destruct Hf as (Hh & Hn & HP).
  assert (ok (mkWorld (set_handshake h (tunn w)) (rng w))) as Hok
    by (split; [by apply ok_set_handshake|done]).
  destruct r; [|done|done]. split_and!; [done|done|by apply HP].
Qed.

(** What an operation writes fits the buffer it was given. *)
Definition fits (dst_len : nat) (r : TunnResult) : Prop :=
  match r with
  | WriteToNetwork p | WriteToTunnelV4 p _ | WriteToTunnelV6 p _ => (length p ≤ dst_len)%nat
  | _ => True
  end.

Definition outcome dst_len (r : TunnResult) w : Prop := ok w ∧ fits dst_len r.

(** What sending a handshake message leaves alone, apart from the handshake. *)
Definition core (t : Tunn) := (tc t, handshake t, sessions t, current t, packet_queue t, rate_limiter t).

Lemma core_eq t t' : core t = core t' →
  tc t = tc t' ∧ handshake t = handshake t' ∧ sessions t = sessions t' ∧ current t = current t' ∧
  packet_queue t = packet_queue t' ∧ rate_limiter t = rate_limiter t'.
Proof. unfold core. by intros [[[[[-> ->]%pair_equal_spec ->]%pair_equal_spec ->]%pair_equal_spec ->]%pair_equal_spec ->]%pair_equal_spec. Qed.

Lemma queue_pre_runs {X} w :
  ok w → runs (queue_pre_handshake_packets env) w X (λ _ w', ok w' ∧ core (tunn w') = core (tunn w)).
Proof.
  intros Hw. pose proof (queue_pre_handshake_packets_runs (X := X) w Hw) as H.
  unfold runs in *. destruct (queue_pre_handshake_packets env w) as [[[]|e|] w'] eqn:E; [|done..].
  split; [done|]. clear H. revert E. unfold queue_pre_handshake_packets, mbind, ST_bind, get, gets.
  cut (∀ i chains w0 r w1, queue_init_packets env i chains w0 = (r, w1) →
    core (tunn w1) = core (tunn w0)).
  - intros H. destruct (queue_init_packets _ _ _ w) as [[[]|e|] w1] eqn:Ei; [|done..].
    apply H in Ei. unfold rand. destruct (JunkConfig_generate_junk_packets _ _).
    by intros [_ <-]%pair_equal_spec.
  - intros i chains. revert i. induction chains as [|ch chains IH]; intros i w0 r w1.
    { by intros [_ <-]%pair_equal_spec. }
    cbn [queue_init_packets]. unfold mbind, ST_bind.
    destruct (CpsChain_generate_for_init _ _ _) as [[p g]|e|];
      [|by intros [_ <-]%pair_equal_spec..].
    destruct (decide (p = [])); intros H; apply IH in H; exact H.
Qed.

(** The timings drawn before a handshake message is sent. *)
Lemma roll_runs {A X} starting (k : () → T A) w Q :
  ok w →
  (∀ w', ok w' → core (tunn w') = core (tunn w) → runs (k tt) w' X Q) →
  runs (tm ← rand (roll_handshake_timings (tunn_timers (tunn w)) starting);
        u ← upd_tunn (on_timers (λ _, tm)); k u) w X Q.
Proof.
  intros Hw Hk. apply (runs_seq _ _ _ _ (λ tm w', same w w' ∧ timers_ok tm ∧
    timers tm = timers (tunn_timers (tunn w)) ∧
    time_started tm = time_started (tunn_timers (tunn w)))).
  { destruct Hw as [Ht1 Hg1]. unfold runs, rand.
    pose proof (roll_handshake_timings_ok (tunn_timers (tunn w)) starting (rng w)
      (ok_timers _ _ Ht1) Hg1) as H.
    destruct (roll_handshake_timings _ _ _) as [tm g]. destruct H as (? & ? & ? & ?).
    by split_and!. }
  intros tm w2 (Hs2 & Htm & Etm & Est). pose proof Hs2 as [Hw2 E2].
  apply upd_seq; [done| |].
  - rewrite E2. destruct Hw as [Ht1 _]. apply ok_on_timers; [done|done| |done].
    unfold timer_get. rewrite Etm. by destruct Ht1.
  - intros Hw3. apply Hk; [done|]. cbn [tunn]. by rewrite E2.
Qed.

Lemma initiation_runs {X} dst_len force w :
  ok w → is_in_progress (handshake (tunn w)) && negb force = false →
  (s_of s1 (tunn w) + HANDSHAKE_INIT_SZ ≤ dst_len)%nat →
  runs (Tunn_format_handshake_initiation env dst_len force) w X (λ r w', ok w' ∧
    ∃ d ty m h', r = WriteToNetwork d ∧ (length d ≤ dst_len)%nat ∧
      HeaderRange_contains (hc_init (header_config (tc (tunn w)))) ty = true ∧
      format_handshake_initiation (handshake (tunn w)) (dst_len - s_of s1 (tunn w)) ty
        (ephemeral env) (now env) = (Ok m, h') ∧
      handshake_datagram (tc (tunn w)) (s_of s1 (tunn w)) m d ∧
      core (tunn w') = core (set_handshake h' (tunn w))).
Proof.
  intros Hw Hgo Hd. unfold Tunn_format_handshake_initiation. apply runs_bind, get_runs.
  rewrite Hgo, decide_False by lia.
  apply (runs_seq _ _ _ _ (λ _ w', ok w' ∧ core (tunn w') = core (tunn w))).
  { destruct (is_expired _); [|by apply runs_ret]. apply upd_runs.
    split; [|done]. apply upd_ok; [done|]. kept. }
  intros [] w1 [Hw1 E1]. apply runs_bind, get_runs. apply roll_runs; [done|]. intros w3 Hw3 E3.
  eapply runs_seq; [by apply queue_pre_runs|]. intros [] w4 (Hw4 & E4).
  pose proof (core_eq _ _ E1) as (Ec1 & _).
  eapply runs_seq; [apply header_runs; [done|]|].
  { rewrite Ec1. destruct Hw as [Ht _]. by destruct (tco_headers _ (ok_config _ _ Ht)). }
  intros ty w5 [[Hw5 E5] Hty]. rewrite Ec1 in Hty.
  assert (core (tunn w5) = core (tunn w)) as Ew5 by (rewrite E5, E4, E3; exact E1).
  pose proof (core_eq _ _ Ew5) as (Ec5 & Eh5 & Es5 & Eu5 & Eq5 & Er5).
  assert (s_of s1 (tunn w1) = s_of s1 (tunn w)) as -> by (unfold s_of; by rewrite Ec1).
  destruct (format_initiation_ok (handshake (tunn w)) (dst_len - s_of s1 (tunn w)) ty
    (ephemeral env) (now env) (ok_handshake _ _ (proj1 Hw))) as (m & h' & Ef & Hl & Hh); [lia|].
  set (w6 := mkWorld (set_handshake h' (tunn w5)) (rng w5)).
  assert (ok w6) as Hw6 by (apply (upd_ok (set_handshake h')); [done|by apply ok_set_handshake, Hh; apply Hw5]).
  apply (runs_seq _ _ _ _ (λ r w', r = Ok m ∧ w' = w6)).
  { unfold runs, attempt, on_handshake. by rewrite Eh5, Ef. }
  intros r w' [-> ->].
  eapply runs_seq; [apply frame_message_runs; [done|lia|]|].
  - intros hp Hp. change (tc (tunn w6)) with (tc (tunn w5)) in Hp. rewrite Ec5 in Hp.
    by destruct (ok_prefix w hp Hw Hp) as (? & _).
  - intros d w7 ([Hw7 E7] & Hfit & Hform).
    apply (runs_seq _ _ _ _ (λ _ w', ok w' ∧ core (tunn w') = core (tunn w6))).
    { destruct (negb (is_in_progress _)); [|apply runs_ret; by rewrite E7]. apply upd_runs.
      split; [apply upd_ok; [done|kept]|]. cbn [tunn]. by rewrite E7. }
    intros [] w8 [Hw8 E8]. apply upd_seq; [done|kept|]. intros Hw9. apply runs_ret. split; [done|].
    exists d, ty, m, h'. split_and!; try done.
    + change (tc (tunn w6)) with (tc (tunn w5)) in Hform. by rewrite Ec5 in Hform.
    + transitivity (core (tunn w8)); [done|]. rewrite E8. unfold w6, core. cbn.
      by rewrite Ec5, Es5, Eu5, Eq5, Er5.
Qed.

Lemma format_handshake_initiation_runs {X} dst_len force w :
  ok w → runs (Tunn_format_handshake_initiation env dst_len force) w X (outcome dst_len).
Proof.
  intros Hw. destruct (is_in_progress (handshake (tunn w)) && negb force) eqn:Eg;
    [|destruct (decide (dst_len < s_of s1 (tunn w) + HANDSHAKE_INIT_SZ)%nat) as [Hd|Hd]].
  - unfold Tunn_format_handshake_initiation. apply runs_bind, get_runs. rewrite Eg. by apply runs_ret.
  - unfold Tunn_format_handshake_initiation. apply runs_bind, get_runs. rewrite Eg.
    rewrite decide_True by done. by apply runs_ret.
  - eapply runs_mono; [apply initiation_runs; [done|done|lia]|].
    by intros r w' (Hw' & d & ty & m & h' & -> & Hl & _).
Qed.

(** ** Sending *)

(** A data packet of [session] as the wire carries it. *)
Definition transport_datagram (c : TunnConfig) (session : Session) (src : bytes) (pad : nat)
    (d : bytes) : Prop :=
  ∃ ty prefix,
    HeaderRange_contains (hc_transport (header_config c)) ty = true ∧
    length prefix = Z.to_nat (s4 (padding_config c)) ∧ bytes_ok prefix ∧
    let packet := data_bytes ty (formatted session src pad) in
    d = prefix ++ protect (header_protection c) prefix (take 16 packet) ++ drop 16 packet.

(** What sending with a session changes of what decides about sessions: its
    counter. *)
Definition sent_with (session : Session) w w' : Prop :=
  tc (tunn w') = tc (tunn w) ∧ current (tunn w') = current (tunn w)
  ∧ sessions (tunn w') = <[session_slot (current (tunn w)) := Some (bump_sending session)]> (sessions (tunn w)).

Lemma encapsulate_session_runs {X} src dst_len session w :
  ok w → session_at (tunn w) (current (tunn w)) = Some session →
  (s_of s4 (tunn w) + 32 + length src ≤ dst_len)%nat →
  runs (encapsulate env src dst_len) w X (λ r w', ok w' ∧ ∃ d pad,
    r = WriteToNetwork d ∧ transport_datagram (tc (tunn w)) session src pad d ∧
    (length d = s_of s4 (tunn w) + 32 + length src + pad)%nat ∧ (length d ≤ dst_len)%nat ∧ sent_with session w w').
Proof.
  intros Hw Es Hd. unfold encapsulate. apply runs_bind, get_runs. rewrite Es.
  rewrite decide_False by (unfold DATA_OVERHEAD_SZ; lia).
  apply upd_seq; [done|kept|]. set (w1 := mkWorld _ _). intros Hw1.
  eapply runs_seq; [by apply transport_padding_runs|].
  intros pad w2 [[Hw2 E2] Hp]. apply runs_bind, get_runs.
  assert (session_at (tunn w2) (current (tunn w)) = Some session) as -> by (by rewrite E2).
  apply runs_bind, runs_ret.
  eapply runs_seq; [apply format_transport_packet_runs; [done|by rewrite E2]|].
  intros [d s'] w3 ([Hw3 E3] & -> & Hl & Hform). rewrite E2 in Hl, Hform.
  apply upd_seq; [done|kept|]. intros Hw4.
  apply upd_seq; [done|kept|]. intros Hw5.
  eapply (runs_seq _ _ _ _ (λ _ w', ok w' ∧ sent_with session w w')).
  { assert (sent_with session w (mkWorld (on_timers (tick TimeLastPacketSent)
      (store_session (current (tunn w)) (Some (bump_sending session)) (tunn w3))) (rng w3))) as Hsent
      by (unfold sent_with; cbn; by rewrite E3, E2).
    destruct (bool_decide _); [by apply runs_ret|]. apply upd_runs. split; [apply upd_ok; [done|kept]|exact Hsent]. }
  intros [] w6 [Hw6 Hsent]. apply upd_seq; [done|kept|]. intros Hw7. apply runs_ret.
  split; [done|]. exists d, pad. split_and!; [done|exact Hform|done|by rewrite Hl|apply Hsent..].
Qed.

Lemma encapsulate_runs {X} src dst_len w :
  ok w → runs (encapsulate env src dst_len) w X (outcome dst_len).
Proof.
  intros Hw. destruct (session_at (tunn w) (current (tunn w))) as [s|] eqn:Es.
  - destruct (decide (s_of s4 (tunn w) + 32 + length src ≤ dst_len)%nat) as [Hd|Hd].
    + eapply runs_mono; [by apply encapsulate_session_runs|].
      by intros r w' (Hw' & d & pad & -> & _ & _ & Hl & _).
    + unfold encapsulate. apply runs_bind, get_runs. rewrite Es.
      rewrite decide_True by (unfold DATA_OVERHEAD_SZ; lia). by apply runs_ret.
  - unfold encapsulate. apply runs_bind, get_runs. rewrite Es.
    apply upd_seq; [done|kept|]. intros Hw1. by apply format_handshake_initiation_runs.
Qed.

Lemma dequeue_runs {X} w :
  ok w → runs dequeue_packet w X (λ _ w', ok w').
Proof.
  intros Hw. unfold dequeue_packet. apply runs_bind, get_runs.
  destruct (packet_queue (tunn w)) as [|p q] eqn:E; [by apply runs_ret|].
  apply upd_seq; [done| |by intros; apply runs_ret].
  destruct Hw as [Ht _]. apply ok_set_queue; [done|].
  pose proof (ok_queue _ _ Ht) as H. rewrite E in H. cbn in H. lia.
Qed.

Lemma send_queued_packet_runs {X} dst_len w :
  ok w → runs (send_queued_packet env dst_len) w X (outcome dst_len).
Proof.
  intros Hw. unfold send_queued_packet. eapply runs_seq; [by apply dequeue_runs|].
  intros [p|] w1 Hw1; [|by apply runs_ret].
  eapply runs_seq; [by apply encapsulate_runs|]. intros r w2 [Hw2 Hf].
  destruct r; try by apply runs_ret.
  apply upd_seq; [done|kept|]. intros Hw3. by apply runs_ret.
Qed.

(** ** Receiving *)
Lemma set_current_session_ok {X} i w :
  ok w → runs (set_current_session i) w X (λ _ w', ok w').
Proof.
  intros Hw. apply upd_last; [done| |done]. cbv beta zeta. destruct (current _ =? _); [apply Hw|].
  destruct (orb _ _); [kept|apply Hw].
Qed.

Lemma finish_validate_runs {X} packet n f dst_len w :
  ok w → (length packet ≤ dst_len)%nat →
  (∀ p, (length p ≤ dst_len)%nat → fits dst_len (f p)) →
  runs (finish_validate packet n f) w X (outcome dst_len).
Proof.
  intros Hw Hl Hf. unfold finish_validate. destruct (decide _); [by apply runs_ret|].
  apply upd_seq; [done|kept|]. intros Hw1. apply upd_seq; [done|kept|]. intros Hw2.
  apply runs_ret. split; [done|]. apply Hf. rewrite length_take. lia.
Qed.

Lemma validate_runs {X} packet dst_len w :
  ok w → (length packet ≤ dst_len)%nat →
  runs (validate_decapsulated_packet packet) w X (outcome dst_len).
Proof.
  intros Hw Hl. unfold validate_decapsulated_packet.
  destruct (decide _); [by apply runs_ret|].
  destruct (_ && _); [by apply finish_validate_runs|].
  destruct (_ && _); [by apply finish_validate_runs|].
  destruct (_ =? 0); [by apply runs_ret|].
  apply upd_seq; [done|kept|]. intros Hw1. by apply runs_ret.
Qed.

Lemma handle_data_runs packet dst_len w :
  ok w → (length (pd_payload packet) ≤ dst_len)%nat →
  runs (handle_data packet dst_len) w ok (outcome dst_len).
Proof.
  intros Hw Hl. unfold handle_data. apply runs_bind, get_runs.
  apply upd_seq; [done|kept|]. intros Hw1. apply runs_bind, get_runs.
  apply runs_bind. apply runs_lift; [done|by destruct (session_at _ _)|]. intros s _.
  destruct (receive_packet_data_ok s packet dst_len Hl) as [Hn Hd].
  apply runs_bind. apply runs_lift; [done|done|]. intros [d s'] E. apply Hd in E.
  apply upd_seq; [done|kept|]. intros Hw2.
  eapply runs_seq; [by apply set_current_session_ok|]. intros [] w3 Hw3.
  apply upd_seq; [done|kept|]. intros Hw4. by apply validate_runs.
Qed.

Lemma handle_handshake_init_runs p dst_len w :
  ok w → init_wf p → runs (handle_handshake_init env p dst_len) w ok (outcome dst_len).
Proof.
  intros Hw Hp. unfold handle_handshake_init. apply runs_bind, get_runs.
  eapply runs_seq; [apply header_runs; [done|]|].
  { destruct Hw as [Ht _]. by destruct (tco_headers _ (ok_config _ _ Ht)) as (_ & ? & _). }
  intros ty w1 [[Hw1 E1] _]. destruct (decide _) as [|Hd]; [by apply runs_throw|].
  eapply runs_seq; [apply (on_handshake_runs _ (λ '(m, _), length m = HANDSHAKE_RESP_SZ)); [done|]|].
  { pose proof (receive_initialization_ok (handshake (tunn w1)) p (dst_len - s_of s2 (tunn w)) ty
      (ephemeral env) (ok_handshake _ _ (proj1 Hw1)) Hp) as H.
    destruct (receive_handshake_initialization _ _ _ _ _) as [r h]. destruct H as (? & ? & H).
    split_and!; try done. intros [m s] E. by destruct (H m s E). }
  intros [m s] w2 (Hw2 & E2 & Hl). apply upd_seq; [done|kept|]. intros Hw3.
  eapply runs_seq; [apply frame_message_runs; [done|lia|]|].
  { intros hp. cbn. rewrite E2, E1. intros Hp'.
    by destruct (ok_prefix w hp Hw Hp') as (_ & ? & _). }
  intros d w4 ([Hw4 _] & Hfit & _).
  apply upd_seq; [done|kept|]. intros Hw5. apply upd_seq; [done|kept|]. intros Hw6.
  apply upd_seq; [done|kept|]. intros Hw7. by apply runs_ret.
Qed.

(** The room [handle_handshake_response] needs for the keepalive it sends: the
    content padding is drawn without subtracting the keepalive's own size, so the
    buffer must hold the whole configured range on top of it. *)
Definition keepalive_room (c : TunnConfig) (dst_len : nat) : Prop :=
  ∀ r, content_padding c = Some r →
    (Z.to_nat (s4 (padding_config c)) + 32 + Z.to_nat (hi r) ≤ dst_len)%nat.

Lemma handle_handshake_response_runs p dst_len w :
  ok w → response_wf p → keepalive_room (tc (tunn w)) dst_len →
  runs (handle_handshake_response env p dst_len) w ok (outcome dst_len).
Proof.
  intros Hw Hp Hroom. unfold handle_handshake_response. apply runs_bind, get_runs.
  destruct (decide _) as [|Hd]; [by apply runs_throw|]. unfold DATA_OVERHEAD_SZ in Hd.
  eapply runs_seq; [apply (on_handshake_runs _ (λ _, True)); [done|]|].
  { pose proof (receive_response_ok (handshake (tunn w)) p (now env)
      (ok_handshake _ _ (proj1 Hw)) Hp) as H.
    destruct (receive_handshake_response _ _ _) as [r h]. destruct H. by split_and!. }
  intros s w1 (Hw1 & E1 & _).
  eapply runs_seq; [by apply content_padding_addition_runs|].
  intros pad w2 ([Hw2 E2] & _ & Hpad).
  assert (s_of s4 (tunn w2) + 32 + length (@nil Z) + pad ≤ dst_len)%nat as Hfit.
  { unfold s_of in *. rewrite E2, E1 in *. cbn [length].
    destruct (content_padding (tc (tunn w))) as [r|] eqn:Er; cbn in Hpad; [|lia].
    specialize (Hroom r Er). lia. }
  eapply runs_seq; [by apply (format_transport_packet_runs s [] pad dst_len)|].
  intros [d s'] w3 ([Hw3 _] & _ & Hl & _).
  apply upd_seq; [done|kept|]. intros Hw4. apply upd_seq; [done|kept|]. intros Hw5.
  apply upd_seq; [done|kept|]. intros Hw6.
  eapply runs_seq; [by apply set_current_session_ok|]. intros [] w7 Hw7.
  apply runs_ret. split; [done|]. cbn. by rewrite Hl.
Qed.

Lemma handle_cookie_reply_runs p dst_len w :
  ok w → runs (handle_cookie_reply p) w ok (outcome dst_len).
Proof.
  intros Hw. unfold handle_cookie_reply.
  eapply runs_seq; [apply (on_handshake_runs _ (λ _, True)); [done|]|].
  { pose proof (receive_cookie_reply_ok (handshake (tunn w)) p (ok_handshake _ _ (proj1 Hw))) as H.
    destruct (receive_cookie_reply _ _) as [r h]. destruct H. by split_and!. }
  intros [] w1 (Hw1 & _). apply upd_seq; [done|kept|]. intros Hw2.
  apply upd_seq; [done|kept|]. intros Hw3. by apply runs_ret.
Qed.

(** A packet whose payload, if it carries one, fits the buffer. *)
Definition payload_fits (dst_len : nat) (p : Packet) : Prop :=
  match p with PktData p => (length (pd_payload p) ≤ dst_len)%nat | p => packet_wf p end.

Lemma verdict_payload_fits n p dst_len :
  verdict_ok n (Ok p) → (n ≤ dst_len)%nat → payload_fits dst_len p.
Proof. intros [Hw Hl] Hn. destruct p; cbn in *; [done..|lia]. Qed.

Lemma handle_verified_packet_runs {X} p dst_len w :
  ok w → payload_fits dst_len p → keepalive_room (tc (tunn w)) dst_len →
  runs (handle_verified_packet env p dst_len) w X (outcome dst_len).
Proof.
  intros Hw Hp Hroom. unfold handle_verified_packet.
  eapply runs_seq; [apply (runs_attempt _ _ _ ok (outcome dst_len)
    (λ r w', ok w' ∧ match r with Ok r => fits dst_len r | Err _ => True | Panic => False end))|].
  - destruct p; [by apply handle_handshake_init_runs|by apply handle_handshake_response_runs
      |by apply handle_cookie_reply_runs|by apply handle_data_runs].
  - done.
  - done.
  - intros [r|e|] w' [Hw' Hf]; [by apply runs_ret..|done].
Qed.

Lemma verify_runs {X} src_addr stripped w :
  ok w → bytes_ok stripped →
  runs (verify env src_addr stripped) w X (λ v w', ok w' ∧ tc (tunn w') = tc (tunn w) ∧
    verdict_ok (length stripped) v).
Proof.
  intros [Ht Hg] Hs. unfold runs, verify.
  pose proof (verify_packet_ok (rate_limiter (tunn w)) src_addr stripped COOKIE_REPLY_SZ
    (header_config (tc (tunn w))) (tc_disable_cookies (tc (tunn w))) (now env) (rng w) Hs Hg
    ltac:(done)) as H.
  destruct (verify_packet _ _ _ _ _ _ _ _) as [[v rl] g]. destruct H as [Hv Hg'].
  split_and!; [split; [by apply ok_set_limiter|done]|done|done].
Qed.

(** ** [decapsulate] *)
Lemma strip_runs {X} t padding protected_len datagram payload w :
  ok w → bytes_ok payload → (length payload ≤ length datagram)%nat →
  (∀ hp, header_protection (tc t) = Some hp → (0 < protected_len)%nat →
    (12 ≤ padding ≤ length datagram)%nat) →
  runs (strip_protection t padding protected_len datagram payload) w X
    (λ b w', w' = w ∧ bytes_ok b ∧ (length b ≤ length datagram)%nat).
Proof.
  intros Hw Hb Hl Hp. unfold strip_protection. destruct (header_protection (tc t)) as [hp|]; [|by apply runs_ret].
  destruct (decide _) as [H0|]; [|by apply runs_ret]. destruct (Hp hp eq_refl H0) as [H12 Hpl].
  rewrite HeaderProtection_apply_eq
    by (rewrite length_take; unfold HEADER_PROTECTION_NONCE_SIZE; lia).
  apply runs_lift; [done|done|]. intros b [= <-]. split; [done|].
  split; [auto with awg|]. len. lia.
Qed.

Lemma answer_runs {X} t v dst_len w :
  ok w → tc t = tc (tunn w) → verdict_ok dst_len v → keepalive_room (tc t) dst_len →
  runs (handle_verdict env t v dst_len) w X (outcome dst_len).
Proof.
  intros Hw Ht Hv Hroom. destruct v as [p|r|]; [|destruct r; try done; cbn|done].
  - apply handle_verified_packet_runs; [done|by eapply verdict_payload_fits|by rewrite <- Ht].
  - destruct (decide _); [by apply runs_ret|].
    eapply runs_seq; [apply frame_message_runs; [done|lia|]|].
    + intros hp Hp. destruct (ok_prefix w hp Hw Hp) as (_ & _ & H & _). unfold s_of in *. by rewrite Ht.
    + intros d w' ([Hw' _] & Hfit & _). by apply runs_ret.
Qed.

Lemma decapsulate_runs {X} src_addr datagram dst_len w :
  ok w → bytes_ok datagram → (length datagram ≤ dst_len)%nat →
  keepalive_room (tc (tunn w)) dst_len →
  runs (decapsulate env src_addr datagram dst_len) w X (outcome dst_len).
Proof.
  intros Hw Hb Hl Hroom. unfold decapsulate.
  destruct (decide _); [by apply send_queued_packet_runs|]. apply runs_bind, get_runs.
  set (c := classifier (tunn w)).
  apply runs_bind, runs_lift; [by rewrite classify_eq..|]. intros [cl|] Hc.
  - apply classify_inv in Hc as (k & -> & Hsz & _).
    cbn [default fmap option_fmap option_map from_option mbind option_bind id].
    cbn [classified_as padding protected_len msg_size header_mask].
    set (pad := ck_padding (check_of c k)) in *.
    set (payload := match (if ck_exact _ then _ else None) with Some _ => _ | None => _ end).
    assert (bytes_ok payload ∧ (length payload ≤ length datagram)%nat) as [Hpb Hpl].
    { unfold payload. destruct (ck_exact _); [destruct (decide _)|];
        split; try (by eauto with awg); rewrite ?length_take, ?length_drop; lia. }
    destruct (if decide _ then mask_of c datagram else None) as [mask|] eqn:Em.
    + apply handle_verified_packet_runs; [done| |done]. cbn. rewrite length_drop. lia.
    + eapply runs_seq; [apply strip_runs; [done..|]|].
      * intros hp Hhp H0. destruct (ok_prefix w hp Hw Hhp) as (H1 & H2 & H3 & H4).
        unfold s_of in *. split; [|lia]. by destruct k.
      * intros b w1 (-> & Hbb & Hbl). eapply runs_seq; [by apply verify_runs|].
        intros v w2 (Hw2 & E2 & Hv). apply answer_runs; [done|done| |done].
        destruct v as [p|[]|]; try done. destruct Hv. split; [done|lia].
  - cbn [default fmap option_fmap option_map from_option mbind option_bind id]. cbn.
    eapply runs_seq; [apply strip_runs; [done|done|done|lia]|].
    intros b w1 (-> & Hbb & Hbl). eapply runs_seq; [by apply verify_runs|].
    intros v w2 (Hw2 & E2 & Hv). apply answer_runs; [done|done| |done].
    destruct v as [p|[]|]; try done. destruct Hv. split; [done|lia].
Qed.

(** ** The timers *)

(** [ok], with the table brought to the time the checks work with. *)
Definition at_time (time_now : Z) w : Prop :=
  ok w ∧ timer_get (tunn_timers (tunn w)) TimeCurrent = time_now.

Lemma same_at_time time_now w w' : at_time time_now w → same w w' → at_time time_now w'.
Proof. intros [_ Ht] [Hw E]. split; [done|by rewrite E]. Qed.

Lemma dsub_runs {X} a b w (Q : Z → World → Prop) :
  b ≤ a → Q (a - b) w → runs (dsub a b) w X Q.
Proof. intros Hab HQ. unfold dsub. by rewrite (proj2 (Z.ltb_ge a b)). Qed.

Lemma aged_runs {X} c time_now since after w :
  since ≤ time_now →
  runs (aged c time_now since after) w X
    (λ b w', w' = w ∧ (b = true ↔ c = true ∧ after ≤ time_now - since)).
Proof.
  intros Hs. unfold aged. destruct c; [|by apply runs_ret; intuition].
  apply runs_bind, dsub_runs; [done|]. apply runs_ret. split; [done|].
  rewrite Z.leb_le. intuition.
Qed.

Lemma expire_sessions_runs {X} n time_now reject i w :
  at_time time_now w →
  runs (expire_sessions n time_now reject i) w X (λ _ w', at_time time_now w' ∧
    tc (tunn w') = tc (tunn w) ∧ time_started (tunn_timers (tunn w')) = time_started (tunn_timers (tunn w))).
Proof.
  revert i w. induction n as [|n IH]; intros i w Hw; [by apply runs_ret|]. cbn [expire_sessions].
  eapply (runs_seq _ _ _ _ (λ _ w', at_time time_now w' ∧ tc (tunn w') = tc (tunn w) ∧
    time_started (tunn_timers (tunn w')) = time_started (tunn_timers (tunn w)))).
  - unfold expire_session. apply runs_bind, get_runs. destruct Hw as [Hw Ht].
    pose proof (proj1 Hw) as Hok. pose proof (ok_timers _ _ Hok) as Htm.
    destruct (session_timer_bound _ (Z.to_nat i) Htm) as [H0 H1]. rewrite Ht in H1.
    apply runs_bind, dsub_runs; [done|]. destruct (_ <? _); [|by apply runs_ret].
    apply upd_runs. split; [split; [split; [|apply Hw]|exact Ht]|done].
    assert (tunn_ok (now env) (set_sessions (<[Z.to_nat i := None]> (sessions (tunn w))) (tunn w)))
      as Hok' by (apply ok_set_sessions; [done|rewrite length_insert; by destruct Hok]).
    apply ok_on_timers; [done|apply set_session_timer_ok; [done|]|by destruct Hok|done].
    cbn [tunn_timers set_sessions]. rewrite Ht. lia.
  - intros [] w1 (Hw1 & E1 & E2). eapply runs_mono; [by apply IH|].
    intros [] w2 (? & ? & ?). split_and!; [done|congruence..].
Qed.

Lemma pick_runs {X} r d w : ok w → runs (pick r d) w X (λ _ w', same w w').
Proof.
  intros Hw. eapply runs_mono; [apply (rand_runs _ (λ _, True)); [done|]|by intros ? ? []].
  intros g Hg. split; [done|]. unfold U32Range_pick_or, U32Range_generate.
  destruct (U32Range_is_zero r); [done|]. by apply gen_range_u32_inv.
Qed.

(** Any timer of the table the checks loaded is at most [time_now]. *)
Definition table_below (tm : Timers) (time_now : Z) : Prop := ∀ n, timer_get tm n ≤ time_now.

Lemma initiator_rekey_due_runs {X} tm time_now w :
  ok w → table_below tm time_now →
  runs (initiator_rekey_due tm time_now) w X (λ _ w', same w w').
Proof.
  intros Hw Hb. unfold initiator_rekey_due.
  eapply runs_seq; [by apply pick_runs|]. intros a w1 Hs1. pose proof Hs1 as [Hw1 _].
  eapply runs_seq; [apply aged_runs, Hb|]. intros b w' [-> _].
  eapply runs_seq; [by apply pick_runs|]. intros c w2 Hs2. pose proof Hs2 as [Hw2 _].
  eapply runs_seq; [apply aged_runs, Hb|]. intros d w' [-> _]. apply runs_ret.
  exact (same_trans _ _ _ Hs1 Hs2).
Qed.

(** What the remaining checks may change: the [want] flags and the persistent
    keepalive's timer. *)
Definition ticked time_now w w' : Prop :=
  at_time time_now w' ∧ tc (tunn w') = tc (tunn w) ∧ handshake (tunn w') = handshake (tunn w).

Lemma unanswered_due_runs {X} tm time_now w :
  at_time time_now w → table_below tm time_now →
  runs (unanswered_due tm time_now) w X (λ _ w', ticked time_now w w').
Proof.
  intros Hw Hb. unfold unanswered_due.
  eapply runs_seq; [apply pick_runs, Hw|]. intros a w1 Hs1. pose proof Hs1 as [Hw1 E1].
  eapply runs_seq; [apply (rand_runs _ (λ _, True)); [done|]|].
  { intros g Hg. split; [done|by apply gen_range_u32_inv]. }
  intros j w2 [Hs2 _]. pose proof Hs2 as [Hw2 E2].
  assert (at_time time_now w2) as Ha by (eapply same_at_time; [|done]; by eapply same_at_time).
  eapply runs_seq; [apply aged_runs, Hb|]. intros late w' [-> _].
  destruct late; [|apply runs_ret; unfold ticked; by rewrite E2, E1].
  unfold take_want_handshake. apply runs_bind, get_runs. apply upd_seq; [done| |].
  - pose proof (proj1 Hw2) as Hok. apply ok_on_timers; [done|apply set_wants_ok| |done]; by destruct Hok.
  - intros Hw3. apply runs_ret. split_and!; [split; [done|apply Ha]|cbn; by rewrite E2, E1..].
Qed.

Lemma tick_at_time n time_now w :
  at_time time_now w → at_time time_now (mkWorld (on_timers (tick n) (tunn w)) (rng w)).
Proof.
  intros [Hw Ht]. split; [apply (upd_ok (on_timers (tick n))); [done|kept]|].
  change (timer_get (tick n (tunn_timers (tunn w))) TimeCurrent = time_now).
  rewrite tick_current; [done|]. by destruct (ok_timers _ _ (proj1 Hw)).
Qed.

Lemma ticked_intro time_now w w' :
  at_time time_now w' → tunn w' = tunn w → ticked time_now w w'.
Proof. intros Ha E. unfold ticked. by rewrite E. Qed.

Lemma ticked_trans time_now w w1 w2 :
  ticked time_now w w1 → ticked time_now w1 w2 → ticked time_now w w2.
Proof. intros (_ & ? & ?) (? & ? & ?). split_and!; [done|congruence..]. Qed.

Lemma keepalive_tick_runs {X} time_now w :
  at_time time_now w →
  runs (_ ← timer_tick TimePersistentKeepalive; mret true : T bool) w X
    (λ _ w', ticked time_now w w').
Proof.
  intros Hw. apply runs_bind, upd_runs, runs_ret. split_and!; [by apply tick_at_time|done|done].
Qed.

Lemma keepalive_due_runs {X} tm time_now w :
  at_time time_now w → table_below tm time_now →
  runs (keepalive_due tm time_now) w X (λ _ w', ticked time_now w w').
Proof.
  intros Hw Hb. unfold keepalive_due.
  eapply runs_seq; [apply pick_runs, Hw|]. intros a w1 Hs1. pose proof Hs1 as [Hw1 E1].
  assert (ticked time_now w w1) as H1 by (apply ticked_intro; [by eapply same_at_time|done]).
  eapply runs_seq; [apply aged_runs, Hb|]. intros late w' [-> _].
  eapply (runs_seq _ _ _ _ (λ _ w', ticked time_now w w')).
  { destruct late; [|by apply runs_ret]. unfold take_want_keepalive. apply runs_bind, get_runs.
    apply upd_seq; [done| |].
    - pose proof (proj1 Hw1) as Hok.
      apply ok_on_timers; [done|apply set_wants_ok| |done]; by destruct Hok.
    - intros Hw3. apply runs_ret. destruct H1 as ([_ Ht] & ? & ?). by split_and!. }
  intros passive w2 H2. pose proof H2 as (Ha2 & _).
  eapply (runs_seq _ _ _ _ (λ _ w', ticked time_now w w')); [|intros b w' H'; by apply runs_ret].
  destruct (negb _).
  - apply runs_bind, get_runs. eapply runs_seq; [apply aged_runs, Hb|]. intros fire w' [-> _].
    destruct fire; [|by apply runs_ret].
    eapply runs_seq; [apply (rand_runs _ (λ _, True)); [apply Ha2|]|].
    { intros g Hg. split; [done|by apply gen_range_u32_inv]. }
    intros nx w3 [Hs3 _]. pose proof (same_at_time _ _ _ Ha2 Hs3) as Ha3. destruct Hs3 as [Hw3 E3].
    apply upd_seq; [done| |].
    { pose proof (proj1 Hw3) as Hok. apply ok_on_timers; [done|apply set_keepalive_next_ok| |done];
        by destruct Hok. }
    intros Hw4. eapply runs_mono; [apply keepalive_tick_runs|].
    + split; [done|apply Ha3].
    + intros b w5 H5. eapply ticked_trans; [exact H2|]. eapply ticked_trans; [|exact H5].
      split_and!; [split; [done|apply Ha3]|cbn; by rewrite E3..].
  - eapply runs_seq; [apply aged_runs, Hb|]. intros fire w' [-> _].
    destruct fire; [|by apply runs_ret].
    eapply runs_mono; [by apply keepalive_tick_runs|]. intros b w5 H5. by eapply ticked_trans.
Qed.

Lemma timer_checks_runs {X} time_now w :
  at_time time_now w →
  runs (timer_checks env time_now) w X (λ _ w', at_time time_now w' ∧ tc (tunn w') = tc (tunn w)).
Proof.
  intros Hw. unfold timer_checks. apply runs_bind, get_runs.
  assert (table_below (tunn_timers (tunn w)) time_now) as Hb.
  { intros n. destruct Hw as [Hw <-]. apply timer_get_bound. by destruct (proj1 Hw). }
  eapply runs_seq; [apply aged_runs, Hb|]. intros stale w' [-> _].
  eapply (runs_seq _ _ _ _ (λ _ w', at_time time_now w' ∧ tc (tunn w') = tc (tunn w))).
  { destruct stale; [|by apply runs_ret]. apply upd_runs. destruct Hw as [Hw Ht].
    split; [split; [|done]|done]. split; [|apply Hw]. apply ok_set_handshake; [apply Hw|].
    by destruct (ok_handshake _ _ (proj1 Hw)). }
  intros [] w1 [Hw1 E1]. eapply runs_seq; [apply aged_runs, Hb|]. intros idle w' [-> _].
  destruct idle; [by apply runs_ret|].
  destruct (Handshake_timer _).
  - eapply runs_seq; [apply aged_runs, Hb|]. intros gave_up w' [-> _].
    destruct gave_up; [by apply runs_ret|]. destruct (_ <=? _); by apply runs_ret.
  - eapply (runs_seq _ _ _ _ (λ _ w', ticked time_now w1 w')).
    { destruct (is_initiator _); [|apply runs_ret; by apply ticked_intro].
      eapply runs_mono; [apply initiator_rekey_due_runs; [apply Hw1|done]|].
      intros b w2 Hs. apply ticked_intro; [by eapply same_at_time|apply Hs]. }
    intros rekey w2 (Ha2 & E2 & _).
    eapply runs_seq; [by apply unanswered_due_runs|]. intros late w3 (Ha3 & E3 & _).
    destruct (_ || _); [apply runs_ret; split; [done|congruence]|].
    eapply runs_seq; [by apply keepalive_due_runs|]. intros k w4 (Ha4 & E4 & _).
    apply runs_ret. split; [done|congruence].
Qed.

Lemma update_timers_runs {X} dst_len w :
  ok w → runs (update_timers env dst_len) w X (outcome dst_len).
Proof.
  intros Hw. unfold update_timers. apply runs_bind, get_runs.
  eapply (runs_seq _ _ _ _ (λ _ w', ok w' ∧ tunn_timers (tunn w') = tunn_timers (tunn w))).
  { destruct (should_reset_rr _); [|by apply runs_ret]. apply upd_runs.
    split; [apply (upd_ok (set_limiter _)); [done|kept]|done]. }
  intros [] w1 [Hw1 E1]. set (time_now := elapsed_ns _ _). pose proof (proj1 Hw1) as Hok1.
  destruct (timer_set_current_ok (tunn_timers (tunn w1)) time_now) as [Hset Hcur];
    [by destruct Hok1|unfold time_now; rewrite <- E1; by destruct Hok1|].
  apply upd_seq; [done| |].
  { apply ok_on_timers; [done|done| |done]. rewrite Hcur, E1. done. }
  intros Hw2. set (w2 := mkWorld _ _) in *.
  unfold update_session_timers.
  eapply (runs_seq _ _ _ _ (λ _ w', at_time time_now w')).
  { apply runs_bind, get_runs. eapply runs_mono; [apply expire_sessions_runs; by split|].
    by intros [] w' (? & _). }
  intros [] w3 Hw3. apply runs_bind, get_runs.
  destruct (is_expired _); [apply runs_ret; split; [apply Hw3|done]|].
  eapply runs_seq; [by apply timer_checks_runs|]. intros act w4 [[Hw4 _] _]. destruct act.
  - by apply runs_ret.
  - by apply format_handshake_initiation_runs.
  - by apply encapsulate_runs.
  - apply upd_seq; [done| |].
    { apply ok_set_handshake; [apply Hw4|]. by destruct (ok_handshake _ _ (proj1 Hw4)). }
    intros Hw5. apply upd_seq; [done| |intros Hw6; by apply runs_ret].
    destruct Hw5 as [Hok5 _]. apply ok_clear_timers, ok_set_outgoing, ok_set_queue;
      [by apply ok_no_sessions|cbn; lia].
Qed.
End safety.

(** ** Every run of a tunnel *)
Section machine.
Context `{CC : ChaCha20} `{B64 : Base64} `{NC : NoiseCrypto} `{AE : Aead} `{RS : RandomSource R}.
#[local] Abbreviation World := (@World R).
Implicit Types w : World.

(** The public methods of [Tunn], with their arguments; the ones not listed are
    queries of one field. *)
Inductive Call :=
  | CEncapsulate (src : bytes) (dst_len : nat)
  | CDecapsulate (src_addr : option IpAddr) (datagram : bytes) (dst_len : nat)
  | CUpdateTimers (dst_len : nat)
  | CInitiate (dst_len : nat) (force_resend : bool)
  | CPollOutgoing
  | CResetWindow
  | CSetMtu (mtu : Z)
  | CSetKey (static_private : bytes) (limiter : option RateLimiter) (secret nkey : bytes)
  | CTimeSinceLastHandshake
  | CStats.

Definition run_call (env : Env) (c : Call) : T (R := R) TunnResult :=
  match c with
  | CEncapsulate src dst_len => encapsulate env src dst_len
  | CDecapsulate a datagram dst_len => decapsulate env a datagram dst_len
  | CUpdateTimers dst_len => update_timers env dst_len
  | CInitiate dst_len force => Tunn_format_handshake_initiation env dst_len force
  | CPollOutgoing => _ ← poll_outgoing_packet; mret Done
  | CResetWindow => _ ← reset_udp_window; mret Done
  | CSetMtu m => _ ← upd_tunn (Tunn_set_mtu m); mret Done
  | CSetKey sk limiter secret nkey =>
      _ ← set_static_private sk (x25519_public sk) limiter secret nkey env; mret Done
  | CTimeSinceLastHandshake => _ ← time_since_last_handshake env; mret Done
  | CStats => _ ← stats env; mret Done
  end.

Definition call_room (c : Call) : nat :=
  match c with
  | CEncapsulate _ n | CDecapsulate _ _ n | CUpdateTimers n | CInitiate n _ => n
  | _ => O
  end.

(** What the caller owes: a received datagram is bytes and fits the buffer, and
    a handshake's answer has room for the whole content-padding range. *)
Definition call_ok (cfg : TunnConfig) (c : Call) : Prop :=
  match c with
  | CDecapsulate _ datagram n =>
      bytes_ok datagram ∧ (length datagram ≤ n)%nat ∧ keepalive_room cfg n
  | _ => True
  end.

(** A configuration accepted by the parser or a constructor whose CPS chains have no
    [<dz n>] beyond eight bytes.  The second half is not part of validation: the
    parser takes any n, and rendering such a chain panics. *)
Definition usable (c : Amnezia3Config) : Prop :=
  config_ok c ∧
  Forall (λ ch, Forall tag_sized (tags ch)) (InitPacketConfig_active_chains (init_packets c)).

(** The states a tunnel goes through: built by the constructor, then any
    sequence of calls at non-decreasing times. *)
Inductive reachable : Z → World → Prop :=
  | reach_new sk peer psk keepalive index limiter config system_time time secret nkey g t g' :
      usable config → rng_ok g →
      new_with_amnezia3 sk peer psk keepalive index limiter config system_time time secret nkey g
        = Ok (t, g') →
      reachable time (mkWorld t g')
  | reach_call time w env c r w' :
      reachable time w → time ≤ now env → call_ok (tc (tunn w)) c →
      run_call env c w = (r, w') → reachable (now env) w'.

Lemma active_chains_ok (l : list (option CpsChain)) :
  Forall (opt_ok chain_ok) l → Forall (λ ch, Forall tag_sized (tags ch)) (omap id l) →
  Forall (λ ch, Forall tag_ok (tags ch) ∧ Forall tag_sized (tags ch)) (omap id l).
Proof.
  induction 1 as [|[ch|] l Ho Hl IH]; cbn; [constructor| |done].
  intros [Hsz Hch]%Forall_cons_iff. constructor; [|by apply IH]. split; [apply Ho|done].
Qed.

Lemma usable_config c : usable c →
  tunn_config_ok (mkTunnConfig (headers c) (paddings c) (junk c) (init_packets c)
    (Amnezia3Config_header_protection c) (content_padding_addition c)
    (random_trailers c) (disable_cookies c)).
Proof.
  intros [Hc Hch]. destruct (config_ok_headers c Hc) as [Hh Hv]. pose proof Hc as [[] Hval].
  split; cbn; try done.
  - intros hp. unfold Amnezia3Config_header_protection.
    destruct (header_protection_key c) as [k|] eqn:Ek; [|done]. intros _.
    by apply (config_ok_paddings c k).
  - exact (active_chains_ok _ fo_init Hch).
  - unfold Amnezia3Config_validate in Hval. apply bind_ok in Hval as ([] & Hj & _).
    unfold JunkConfig_validate in Hj. destruct (Z.eqb_spec (junk_count (junk c)) 0); [by left|right].
    destruct (Z.ltb_spec (junk_max (junk c)) (junk_min (junk c))); [done|].
    by destruct fo_junk as (? & ? & ?).
  - intros r E. unfold opt_ok in fo_addition. rewrite E in fo_addition. apply fo_addition.
Qed.

Lemma tunn_new_ok sk peer psk keepalive index limiter config system_time time secret nkey (g : R) t g' :
  usable config → rng_ok g →
  new_with_amnezia3 sk peer psk keepalive index limiter config system_time time secret nkey g
    = Ok (t, g') →
  tunn_ok time t ∧ rng_ok g'.
Proof.
  intros Hu Hg. unfold new_with_amnezia3. intros ([] & _ & H)%bind_ok. revert H.
  pose proof (proj1 (proj1 Hu)) as Hf. destruct (fo_timing _ Hf) as (_ & H1 & _ & _ & H2 & _).
  pose proof (Timers_new_ok keepalive (bool_decide (limiter = None)) (timing_ranges config) time g H1 H2)
    as Htm.
  assert (rng_ok (Timers_new keepalive (bool_decide (limiter = None)) (timing_ranges config) time g).2)
    as Hg'.
  { unfold Timers_new, U32Range_pick_or, U32Range_generate.
    destruct (U32Range_is_zero _); [done|]. pose proof (gen_range_u32_inv
      (lo (persistent_keepalive (timing_ranges config)))
      (hi (persistent_keepalive (timing_ranges config))) g Hg). by destruct (gen_range_u32 _ _ g). }
  assert (time_started (Timers_new keepalive (bool_decide (limiter = None)) (timing_ranges config) time g).1
    = time ∧ timer_get (Timers_new keepalive (bool_decide (limiter = None)) (timing_ranges config) time g).1
      TimeCurrent = 0) as [Es Ec].
  { unfold Timers_new. by destruct (U32Range_pick_or _ _ _). }
  destruct (Timers_new _ _ _ _ _) as [tm g1]. cbn [fst snd] in *.
  intros [<- <-]%Ok_inj%pair_equal_spec. split; [|done].
  split; cbn [tc handshake sessions tunn_timers packet_queue udp_window].
  - by apply usable_config.
  - split; [by apply NoiseParams_new_ok|]. cbn. widths. apply Z.mod_pos_bound. lia.
  - done.
  - done.
  - rewrite Ec. apply elapsed_ns_pos.
  - cbn. lia.
  - done.
Qed.

Lemma time_since_runs {A X} env (k : option Z → T (R := R) A) w Q :
  ok env w → (∀ o, runs (k o) w X Q) → runs (time_since_last_handshake env ≫= k) w X Q.
Proof.
  intros Hw Hk. pose proof (timer_get_bound (tunn_timers (tunn w)) TimeSessionEstablished (ok_timers _ _ (proj1 Hw))).
  pose proof (ok_now _ _ (proj1 Hw)).
  unfold time_since_last_handshake. apply runs_bind, runs_bind, get_runs.
  destruct (session_at _ _); [|apply runs_ret, Hk]. apply runs_bind, dsub_runs; [lia|]. apply runs_ret, Hk.
Qed.

Lemma run_call_ok env c w :
  ok env w → call_ok (tc (tunn w)) c →
  runs (run_call env c) w (λ _, False) (λ r w', ok env w' ∧ fits (call_room c) r).
Proof.
  intros Hw Hc. destruct c as [src n|a d n|n|n f| | |m|sk limiter secret nkey| |]; cbn [run_call call_room].
  - by apply encapsulate_runs.
  - destruct Hc as (? & ? & ?). by apply decapsulate_runs.
  - by apply update_timers_runs.
  - by apply format_handshake_initiation_runs.
  - unfold poll_outgoing_packet. do 2 apply runs_bind. apply get_runs.
    destruct (network_outgoing (tunn w)); [done|].
    split; [|done]. split; [|apply Hw]. by apply ok_set_outgoing, Hw.
  - split; [|done]. split; [|apply Hw]. by apply ok_set_window; [apply Hw|].
  - split; [|done]. split; [|apply Hw]. by apply ok_set_mtu, Hw.
  - destruct Hw as [Hw Hg]. unfold set_static_private.
    repeat apply runs_bind. unfold runs. cbn [upd_tunn modify get gets lift].
    unfold Handshake_set_static_private, NoiseParams_set_static_private.
    rewrite decide_True by done. cbn [mbind result_bind].
    split; [|done]. split; [|done].
    assert (tunn_ok (now env) (set_handshake (hs_set_params (mkParams (x25519_public sk) sk
        (peer_static_public (params (handshake (tunn w))))
        (diffie_hellman sk (peer_static_public (params (handshake (tunn w)))))
        (sending_mac1_key (params (handshake (tunn w)))) (preshared_key (params (handshake (tunn w)))))
        (handshake (tunn w)))
      (set_limiter (default (RateLimiter_new (x25519_public sk) PEER_HANDSHAKE_RATE_LIMIT secret nkey
         (now env)) limiter) (on_timers (set_should_reset_rr (bool_decide (limiter = None))) (tunn w)))))
      as Hok; [|by apply ok_no_sessions in Hok].
    apply ok_set_handshake; [apply ok_set_limiter, ok_on_timers;
      [done|apply set_should_reset_rr_ok| |done]; by destruct Hw|].
    destruct (ok_handshake _ _ Hw) as [[] ?]. by split.
  - apply time_since_runs; [done|]. intros o. by apply runs_ret.
  - unfold stats. apply runs_bind, time_since_runs; [done|]. intros o. apply runs_bind, get_runs, runs_ret. by apply runs_ret.
Qed.

Lemma reachable_ok time w : reachable time w → tunn_ok time (tunn w) ∧ rng_ok (rng w).
Proof.
  induction 1 as [sk peer psk keepalive index limiter config system_time time secret nkey g t g' Hu Hg Hn
                 |time w env c r w' _ [Ht Hg] Hle Hc Hr].
  - by eapply tunn_new_ok.
  - pose proof (run_call_ok env c w) as H. unfold runs in H. rewrite Hr in H.
    apply tunn_ok_later with (now' := now env) in Ht; [|done].
    specialize (H (conj Ht Hg) Hc). destruct r; [apply H|done|done].
Qed.

(** C1: A tunnel does not panic.  Take a tunnel built from a configuration that
    validates and whose I-packets have no tag [<dz n>] with [n] above 8 (the parser
    accepts one, and generating it panics: [cps_datasize_panics]).  After any
    sequence of public calls at non-decreasing times, whatever bytes arrive from
    the network, the next call returns, what it writes fits the buffer it was
    given, and at most 256 packets wait in the queue.  The caller owes
    [decapsulate] a buffer as long as the datagram and, with content padding
    configured, as long as S4, a keepalive and the largest padding together
    ([response_keepalive_panics] is the case without), and [set_static_private]
    the public key that belongs to the private one; to the other calls it owes
    nothing: a buffer that is too small is an error. *)
Theorem tunnel_never_panics time w env c :
  reachable time w → time ≤ now env → call_ok (tc (tunn w)) c →
  ∃ r w', run_call env c w = (Ok r, w') ∧ fits (call_room c) r ∧
    (length (packet_queue (tunn w')) ≤ MAX_QUEUE_DEPTH)%nat.
Proof.
  intros Hr Hle Hc. destruct (reachable_ok time w Hr) as [Ht Hg].
  apply tunn_ok_later with (now' := now env) in Ht; [|done].
  pose proof (run_call_ok env c w (conj Ht Hg) Hc) as H. unfold runs in H.
  destruct (run_call env c w) as [[r|e|] w']; [|done|done].
  exists r, w'. destruct H as [[Ht' _] Hf]. split_and!; [done|done|by destruct Ht'].
Qed.
End machine.

(** ** A concrete tunnel *)
Section sample.
#[local] Existing Instances sum_stream Rfc4648.engine ToyNoise.crypto ToyAead.cipher.

Lemma usable_sample : usable sample_config.
Proof.
  split; [|repeat constructor].
  eapply (Amnezia3Config_parse_ok (H := HexDecode.engine) sample_block). vm_compute. reflexivity.
Qed.

Definition sample_new (config : Amnezia3Config) : result ConfigError (Tunn * Pattern) :=
  new_with_amnezia3 ToyNoise.alice (x25519_public ToyNoise.bob) None (Some 25) 1 None config
    1700000000000000000 0 (replicate 32 1) (replicate 32 2) counting_bytes.

Definition sample_env : Env := mkEnv 5000000000 (replicate 32 9) (λ _ _, 0).

Lemma sample_new_ok : ∃ t g, sample_new sample_config = Ok (t, g).
Proof.
  unfold sample_new, new_with_amnezia3.
  replace (Amnezia3Config_validate sample_config) with (@Ok ConfigError () ()) by (by vm_compute).
  cbn [mbind result_bind]. destruct (Timers_new _ _ _ _ _) as [tm g]. by eexists _, g.
Qed.

Lemma tunnel_never_panics_witness :
  ∃ t g r w', sample_new sample_config = Ok (t, g) ∧
    run_call sample_env (CDecapsulate None (replicate 100 7) 200) (mkWorld t g) = (Ok r, w').
Proof.
  destruct sample_new_ok as (t & g & E).
  destruct (tunnel_never_panics 0 (mkWorld t g) sample_env (CDecapsulate None (replicate 100 7) 200))
    as (r & w' & Hr & _).
  - unfold sample_new in E. eapply reach_new; [exact usable_sample|exact counting_bytes_ok|exact E].
  - cbn. lia.
  - split; [|split].
    + by apply (bool_decide_eq_true_1 _).
    + rewrite length_replicate. lia.
    + intros range Hr. cbn [tunn] in Hr. unfold sample_new, new_with_amnezia3 in E.
      apply bind_ok in E as ([] & _ & E). destruct (Timers_new _ _ _ _ _) as [tm g1].
      apply Ok_inj, pair_equal_spec in E as [<- _]. discriminate Hr.
  - by exists t, g, r, w'.
Defined.
End sample.
