(* ===== verification/TunnelDelivery.v ===== *)
(** * TunnelDelivery: a packet sent by one tunnel arrives at the other

    The two ends of an established session share the AmneziaWG configuration.
    A data packet that [encapsulate] frames at one end (padding prefix, header
    protection, content padding or trailer) is classified, unmasked, opened and
    trimmed by [decapsulate] at the other to exactly the inner IP packet, and
    the same datagram offered a second time is refused. *)

From Stdlib Require Import ZArith Lia.
From stdpp Require Import base list option strings sets tactics.
From S2P Require Import Prelude Clock Random Codec Amnezia Cps Config Packet.
From S2P Require Import Session Handshake RateLimiter Timers Tunnel TunnelSafe.
Open Scope Z_scope.

Section delivery.
Context `{CC : ChaCha20} `{B64 : Base64} `{NC : NoiseCrypto} `{AE : Aead} `{RS : RandomSource R}.
#[local] Abbreviation World := (@World R).
Implicit Types w : World.

(** ** The datagram under the classifier *)
Section datagram.
Context (c : TunnConfig) (Hc : tunn_config_ok c) (ty : Z) (pd : PacketData) (Hpd : data_wf pd).
Context (Hty : HeaderRange_contains (hc_transport (header_config c)) ty = true).
Context (prefix : bytes) (Hpre : length prefix = Z.to_nat (s4 (padding_config c))).

Definition config_classifier : PacketClassifier :=
  PacketClassifier_with_random_trailers
    (PacketClassifier_new (padding_config c) (header_config c) (header_protection c))
    (tc_random_trailers c).
Definition wire_packet : bytes := data_bytes ty pd.
Definition wire_datagram : bytes := prefix ++ protect (header_protection c) prefix (take 16 wire_packet) ++ drop 16 wire_packet.

Lemma length_data_packet : length wire_packet = (16 + length (pd_payload pd))%nat.
Proof. unfold wire_packet, data_bytes. len. lia. Qed.

Lemma length_data_header : length (take 16 wire_packet) = 16%nat.
Proof. rewrite length_take, length_data_packet. lia. Qed.

Lemma transport_ty_ok : u32_ok ty.
Proof. eapply contains_u32; [|exact Hty]. by destruct (tco_headers _ Hc) as (_ & _ & _ & ?). Qed.

Lemma length_datagram : length wire_datagram = (length prefix + length wire_packet)%nat.
Proof.
  unfold wire_datagram. rewrite !length_app, length_protect, length_data_header, length_drop.
  rewrite length_data_packet. lia.
Qed.

Lemma datagram_mask :
  mask_of config_classifier wire_datagram =
  match header_protection c with
  | Some hp => Some (chacha_keystream (hp_key hp) (take 12 prefix) 16)
  | None => None
  end.
Proof.
  unfold mask_of. cbn [pc_header_protection config_classifier PacketClassifier_with_random_trailers PacketClassifier_new].
  destruct (header_protection c) as [hp|] eqn:E; [|done]. cbn [mbind option_bind].
  destruct (tco_prefix _ Hc hp E) as (_ & _ & _ & H12).
  rewrite decide_True by (rewrite length_datagram; lia).
  do 2 f_equal. unfold wire_datagram. rewrite take_app_le by lia. done.
Qed.

Lemma datagram_header :
  match header_protection c with
  | Some hp => xor_into (take 16 (drop (length prefix) wire_datagram))
                 (chacha_keystream (hp_key hp) (take 12 prefix) 16)
  | None => take 16 (drop (length prefix) wire_datagram)
  end = take 16 wire_packet.
Proof.
  unfold wire_datagram. rewrite drop_app_length, take_app_exact
    by (rewrite length_protect, length_data_header; done).
  destruct (header_protection c) as [hp|]; cbn [protect]; [|done].
  rewrite length_data_header. apply xor_into_involutive.
Qed.

Lemma datagram_type : type_at wire_datagram (mask_of config_classifier wire_datagram) (length prefix) = ty.
Proof.
  unfold type_at. rewrite datagram_mask.
  assert (take 4 (take 16 wire_packet) = to_le 4 ty) as Ht.
  { rewrite take_take. unfold wire_packet, data_bytes. apply take_app_exact. by len. }
  assert (slice wire_datagram (length prefix) (length prefix + 4) = take 4 (take 16 (drop (length prefix) wire_datagram))) as ->.
  { unfold slice. rewrite take_take. f_equal. lia. }
  pose proof datagram_header as Hh. destruct (header_protection c) as [hp|]; cbn [option_bind].
  - rewrite <- (xor_into_take_mask _ _ 4) by (rewrite length_take; lia).
    rewrite <- take_xor_into, Hh, Ht. apply from_to_le32, transport_ty_ok.
  - rewrite Hh, Ht. apply from_to_le32, transport_ty_ok.
Qed.

(** Either the transport row is tried first, or all type fields sit at the same
    offset. *)
Definition classifiable : Prop :=
  tc_random_trailers c = true ∨
  s1 (padding_config c) = s2 (padding_config c) ∧ s2 (padding_config c) = s3 (padding_config c) ∧
  s3 (padding_config c) = s4 (padding_config c).

Lemma datagram_classified :
  classifiable →
  PacketClassifier_classify config_classifier wire_datagram = Ok (Some (classified_as (mask_of config_classifier wire_datagram) (transport_check config_classifier))).
Proof.
  intros Hcl.
  assert (check_matches (pc_random_trailers config_classifier) (mask_of config_classifier wire_datagram) wire_datagram (check_of config_classifier HTransport) = true) as Hm.
  { apply check_matches_intro.
    - unfold size_ok. cbn. apply bool_decide_eq_true_2. rewrite length_datagram, length_data_packet.
      destruct Hpd as (_ & _ & Hl). rewrite <- Hpre. unfold DATA_OVERHEAD_SZ. lia.
    - cbn [check_of transport_check ck_padding]. change (pc_paddings config_classifier) with (padding_config c).
      rewrite <- Hpre, datagram_type. exact Hty. }
  destruct Hcl as [Ht|(H12 & H23 & H34)].
  - apply classify_transport_first; [done|]. cbn [check_of] in Hm. rewrite <- Hm. cbn. by rewrite Ht.
  - exact (proj1 (classify_equal_rows config_classifier wire_datagram H12 H23 H34 (tco_headers _ Hc) (tco_validated _ Hc))
      HTransport Hm).
Qed.

Lemma datagram_payload : drop 16 (drop (length prefix) wire_datagram) = pd_payload pd.
Proof.
  unfold wire_datagram. rewrite drop_app_length, drop_app_exact by (rewrite length_protect, length_data_header; done).
  unfold wire_packet, data_bytes. rewrite !app_assoc. apply drop_app_exact. by len.
Qed.

Lemma unmasked hp :
  header_protection c = Some hp →
  unmask_transport (drop (length prefix) wire_datagram)
    (chacha_keystream (hp_key hp) (take 12 prefix) 16) = pd.
Proof.
  intros E. unfold unmask_transport, TRANSPORT_HEADER_SZ. rewrite datagram_payload.
  pose proof datagram_header as Hh. rewrite E in Hh. rewrite Hh.
  unfold wire_packet, data_bytes. destruct Hpd as (Hi & Hct & _). destruct pd as [i ct pl]. cbn in *.
  rewrite !app_assoc, take_app_exact by (by len). rewrite <- !app_assoc. f_equal; fields;
    [by apply from_to_le32|by apply from_to_le64].
Qed.

Lemma decapsulate_transport env addr dst_len w :
  classifiable → tc (tunn w) = c →
  decapsulate env addr wire_datagram dst_len w =
  handle_verified_packet env (PktData pd) dst_len w.
Proof.
  intros Hcl Etc. unfold decapsulate. destruct (decide (wire_datagram = [])) as [E|_].
  { apply (f_equal length) in E. rewrite length_datagram, length_data_packet in E. cbn in E. lia. }
  unfold mbind at 1, ST_bind at 1. cbn [get gets]. unfold classifier. rewrite Etc.
  change (PacketClassifier_with_random_trailers _ _) with config_classifier.
  rewrite datagram_classified by done. rewrite datagram_mask.
  unfold mbind at 1, ST_bind at 1. cbn [lift].
  cbn [mbind default fmap option_fmap option_map option_bind from_option id].
  cbn [classified_as transport_check ck_padding ck_exact ck_size padding protected_len msg_size header_mask].
  change (pc_paddings config_classifier) with (padding_config c). rewrite <- Hpre.
  rewrite decide_True by done. destruct (header_protection c) as [hp|] eqn:Ehp.
  - by rewrite (unmasked hp).
  - unfold strip_protection. rewrite Etc, Ehp. unfold mbind, ST_bind. cbn [mret ST_ret].
    assert (drop (length prefix) wire_datagram = wire_packet) as ->.
    { unfold wire_datagram. rewrite drop_app_length, Ehp. apply take_drop. }
    unfold verify, verify_packet, wire_packet. rewrite Etc.
    rewrite parse_data by (done || apply Hc || apply transport_ty_ok).
    cbn [handle_verdict]. destruct w as [t g]. by destruct t.
Qed.
End datagram.

(** ** Inner packets *)

(** A complete IP packet, and the result that hands it to the interface. *)
Inductive ip_packet (src : bytes) : TunnResult → Prop :=
  | ip_v4 : ip_version src = 4 → (20 ≤ length src)%nat →
      from_be (slice src 2 4) = Z.of_nat (length src) →
      ip_packet src (WriteToTunnelV4 src (slice src 12 16))
  | ip_v6 : ip_version src = 6 → (40 ≤ length src)%nat →
      from_be (slice src 4 6) + 40 = Z.of_nat (length src) →
      ip_packet src (WriteToTunnelV6 src (slice src 8 24)).

Lemma slice_app_l {A} (l k : list A) i j : (j ≤ length l)%nat → slice (l ++ k) i j = slice l i j.
Proof.
  intros Hj. unfold slice. destruct (decide (i ≤ length l)%nat).
  - rewrite drop_app_le by lia. rewrite take_app_le; [done|]. rewrite length_drop. lia.
  - replace (j - i)%nat with O by lia. by rewrite !take_0.
Qed.

Lemma finish_validate_eq packet n f w :
  (n ≤ length packet)%nat →
  finish_validate packet n f w =
  (Ok (f (take n packet)),
   mkWorld (add_rx (Z.of_nat n) (on_timers (tick TimeLastDataPacketReceived) (tunn w))) (rng w)).
Proof. intros Hn. unfold finish_validate. by rewrite decide_False by lia. Qed.

(** The zeros of the content padding are cut off by the packet's own length. *)
Lemma validate_padded src r pad w :
  ip_packet src r →
  ∃ n, validate_decapsulated_packet (src ++ replicate pad 0) w =
  (Ok r, mkWorld (add_rx n (on_timers (tick TimeLastDataPacketReceived) (tunn w))) (rng w)).
Proof.
  intros Hip. exists (Z.of_nat (length src)).
  assert (src ≠ []) as Hne by (intros ->; inversion Hip; cbn in *; lia).
  assert (ip_version (src ++ replicate pad 0) = ip_version src) as Hv by (by destruct src).
  unfold validate_decapsulated_packet. rewrite Hv.
  rewrite decide_False by (by destruct src).
  unfold IPV4_MIN_HEADER_SIZE, IPV6_MIN_HEADER_SIZE, IPV4_LEN_OFF, IPV6_LEN_OFF, IP_LEN_SZ,
    IPV4_SRC_IP_OFF, IPV4_IP_SZ, IPV6_SRC_IP_OFF, IPV6_IP_SZ. cbn [Nat.add].
  destruct Hip as [-> Hl Hn| -> Hl Hn]; cbn [Z.eqb Pos.eqb andb];
    rewrite bool_decide_eq_true_2 by (len; lia); rewrite !slice_app_l by lia.
  - rewrite finish_validate_eq by (len; lia). rewrite Hn, Nat2Z.id, take_app_length. done.
  - assert (Z.to_nat (from_be (slice src 4 6)) + 40 = length src)%nat as -> by lia.
    rewrite finish_validate_eq by (len; lia). by rewrite take_app_length.
Qed.

(** Nothing compares the IPv4 total length with the header: a decrypted packet
    that claims fewer than twenty bytes is handed over cut to that length, with
    the source address of the part that was cut off. *)
Lemma short_ipv4_is_truncated packet n w :
  ip_version packet = 4 → (20 ≤ length packet)%nat → from_be (slice packet 2 4) = Z.of_nat n → (n < 20)%nat →
  ∃ w', validate_decapsulated_packet packet w
    = (Ok (WriteToTunnelV4 (take n packet) (slice packet 12 16)), w') ∧ length (take n packet) = n.
Proof.
  intros Hv Hl Hn Hlt. unfold validate_decapsulated_packet. rewrite Hv.
  rewrite decide_False by (by destruct packet; [cbn in *; lia|]).
  unfold IPV4_MIN_HEADER_SIZE, IPV4_LEN_OFF, IP_LEN_SZ, IPV4_SRC_IP_OFF, IPV4_IP_SZ. cbn [Nat.add Z.eqb Pos.eqb andb].
  rewrite bool_decide_true by done. rewrite Hn, Nat2Z.id, finish_validate_eq by lia.
  eexists. split; [reflexivity|]. rewrite length_take. lia.
Qed.

(** ** The receiving session *)

(** The change [set_current_session] makes. *)
Definition set_current_choice (new_idx : Z) (t : Tunn) : Tunn :=
  if current t =? new_idx then t
  else if bool_decide (session_at t (current t) = None)
    || (nth (session_slot (current t)) (session_timers (tunn_timers t)) 0
        <=? nth (session_slot new_idx) (session_timers (tunn_timers t)) 0)
  then set_current new_idx t else t.

Lemma set_current_choice_keeps i t :
  tc (set_current_choice i t) = tc t ∧ handshake (set_current_choice i t) = handshake t ∧
  packet_queue (set_current_choice i t) = packet_queue t ∧ sessions (set_current_choice i t) = sessions t.
Proof. unfold set_current_choice. by repeat case_match. Qed.

(** The newest session is chosen. *)
Lemma set_current_choice_newest i t :
  (∀ j, nth j (session_timers (tunn_timers t)) 0 ≤ nth (session_slot i) (session_timers (tunn_timers t)) 0) →
  current (set_current_choice i t) = i.
Proof.
  intros Hn. unfold set_current_choice. destruct (Z.eqb_spec (current t) i) as [|Hne]; [done|].
  rewrite (proj2 (Z.leb_le _ _) (Hn _)), orb_true_r. done.
Qed.

Lemma session_at_store t i s :
  length (sessions t) = N_SESSIONS → session_at (store_session i s t) i = s.
Proof.
  intros Hl. unfold session_at, store_session. cbn [sessions set_sessions].
  rewrite list_lookup_insert_eq; [done|].
  rewrite Hl. unfold session_slot. apply Nat.mod_upper_bound. done.
Qed.

(** What [handle_data] leaves before it looks at the inner packet: the session
    with its window moved on, and the session chosen for sending. *)
Definition opened (a b' : Session) w w1 : Prop :=
  tc (tunn w1) = tc (tunn w) ∧ handshake (tunn w1) = handshake (tunn w) ∧ packet_queue (tunn w1) = packet_queue (tunn w)
  ∧ sessions (tunn w1) = <[session_slot (sending_index a) := Some b']> (sessions (tunn w))
  ∧ ∃ t1, current t1 = current (tunn w) ∧ sessions t1 = sessions (tunn w1)
      ∧ session_timers (tunn_timers t1) = session_timers (tunn_timers (tunn w))
      ∧ current (tunn w1) = current (set_current_choice (sending_index a) t1).

(** Receiving leaves the sending half of a session. *)
Definition sends_as (b' b : Session) : Prop :=
  sender b' = sender b ∧ sending_index b' = sending_index b ∧ sending_key_counter b' = sending_key_counter b.
Lemma receive_sends_as b p dst_len d b' : receive_packet_data b p dst_len = Ok (d, b') → sends_as b' b.
Proof.
  unfold receive_packet_data. destruct (decide _); [done|]. destruct (negb _); [done|].
  destruct (receiving_counter_quick_check _ _); [|done..]. cbn. destruct (ok_or _ _); [|done..]. cbn.
  unfold receiving_counter_mark. destruct (mark_did_receive _ _); [|done..].
  by intros [_ <-]%Ok_inj%pair_equal_spec.
Qed.

Lemma handle_data_opens env a b win src pad dst_len w :
  session_at (tunn w) (sending_index a) = Some b →
  paired a b → counter_ok (sending_key_counter a) → bytes_ok src →
  refines (receiving_key_counter b) win → window_check win (sending_key_counter a) = Ok () →
  (length src + pad + 16 ≤ dst_len)%nat →
  ∃ w1 b', (∀ r w', validate_decapsulated_packet (src ++ replicate pad 0) w1 = (Ok r, w') →
      handle_verified_packet env (PktData (formatted a src pad)) dst_len w = (Ok r, w')) ∧
    opened a b' w w1 ∧ sends_as b' b ∧
    (receiving_index b' = receiving_index b ∧ receiver b' = receiver b) ∧
    refines (receiving_key_counter b') (mkWindow ({[sending_key_counter a]} ∪ seen win)
      (Z.max (top win) (sending_key_counter a + 1))).
Proof.
  intros Hs Hp Hc Hb Hr Hwc Hd.
  destruct (receive_formatted a b win src pad dst_len Hp Hc Hb Hr Hwc Hd)
    as (b' & Hrecv & Hr' & Hidx & Hkey). pose proof (receive_sends_as _ _ _ _ _ Hrecv) as Hsend.
  unfold handle_verified_packet, handle_data, attempt, mbind, ST_bind, get, gets, lift,
    observe_datagram, upd_tunn, modify, set_current_session, timer_tick, ok_or.
  cbn [tunn rng pd_receiver_idx formatted].
  change (session_at (set_window _ (tunn w)) ?i) with (session_at (tunn w) i).
  rewrite Hs. fold (formatted a src pad). rewrite Hrecv.
  unfold upd_tunn, modify. cbn beta iota zeta delta [tunn rng].
  match goal with |- context [validate_decapsulated_packet _ ?w1] => exists w1, b' end.
  split; [by intros r w' ->|]. split; [|done].
  cbn [tunn]. set (t1 := store_session _ _ _).
  change (if current t1 =? sending_index a then _ else _) with (set_current_choice (sending_index a) t1).
  unfold opened. cbn [tunn]. destruct (set_current_choice_keeps (sending_index a) t1) as (H1 & H2 & H3 & H4).
  cbn [tc handshake packet_queue sessions current on_timers]. rewrite H1, H2, H3, H4. split_and!; try done.
  by exists t1.
Qed.

Lemma handle_data_delivers env a b win src pad dst_len r w :
  length (sessions (tunn w)) = N_SESSIONS → session_at (tunn w) (sending_index a) = Some b →
  paired a b → counter_ok (sending_key_counter a) → bytes_ok src →
  refines (receiving_key_counter b) win → window_check win (sending_key_counter a) = Ok () →
  (length src + pad + 16 ≤ dst_len)%nat → ip_packet src r →
  ∃ w' b',
    handle_verified_packet env (PktData (formatted a src pad)) dst_len w = (Ok r, w') ∧
    tc (tunn w') = tc (tunn w) ∧ session_at (tunn w') (sending_index a) = Some b' ∧
    receiving_index b' = receiving_index b ∧
    refines (receiving_key_counter b') (mkWindow ({[sending_key_counter a]} ∪ seen win)
      (Z.max (top win) (sending_key_counter a + 1))).
Proof.
  intros Hl Hs Hp Hc Hb Hr Hwc Hd Hip.
  destruct (handle_data_opens env a b win src pad dst_len w Hs Hp Hc Hb Hr Hwc Hd)
    as (w1 & b' & Hv & (Etc & _ & _ & Es & _) & _ & [Hi _] & Hr').
  destruct (validate_padded src r pad w1 Hip) as [n Ev]. eexists _, b'. split; [by apply Hv|].
  cbn [tunn tc add_rx on_timers]. split_and!; [done| |done|done].
  change (session_at (tunn w1) (sending_index a) = Some b'). unfold session_at. rewrite Es.
  rewrite list_lookup_insert_eq; [done|]. rewrite Hl. unfold session_slot. by apply Nat.mod_upper_bound.
Qed.

Lemma handle_data_duplicate env a b win src pad dst_len w :
  session_at (tunn w) (sending_index a) = Some b → receiving_index b = sending_index a →
  refines (receiving_key_counter b) win → counter_ok (sending_key_counter a) →
  sending_key_counter a ∈ seen win → top win ≤ sending_key_counter a + N_BITS →
  (length src + pad + 16 ≤ dst_len)%nat →
  ∃ w', handle_verified_packet env (PktData (formatted a src pad)) dst_len w =
    (Ok (TErr DuplicateCounter), w').
Proof.
  intros Hs Hi Hr Hc Hin Ht Hd.
  assert (receive_packet_data b (formatted a src pad) dst_len = Err DuplicateCounter) as E.
  { unfold receive_packet_data, formatted. cbn [pd_payload pd_receiver_idx pd_counter].
    rewrite aead_seal_length. len. rewrite decide_False by lia.
    rewrite Hi, Z.eqb_refl. cbn [negb]. unfold receiving_counter_quick_check.
    rewrite (will_accept_refines _ win) by done. unfold window_check.
    by rewrite decide_False, decide_True by (done || lia). }
  unfold handle_verified_packet, handle_data, attempt, mbind, ST_bind, get, gets, lift,
    observe_datagram, upd_tunn, modify, ok_or.
  cbn [tunn rng pd_receiver_idx formatted].
  change (session_at (set_window _ (tunn w)) ?i) with (session_at (tunn w) i).
  rewrite Hs. fold (formatted a src pad). rewrite E. by eexists.
Qed.

Lemma datagram_session c a src pad d :
  transport_datagram c a src pad d → u32_ok (sending_index a) → counter_ok (sending_key_counter a) →
  ∃ ty prefix, HeaderRange_contains (hc_transport (header_config c)) ty = true ∧
    length prefix = Z.to_nat (s4 (padding_config c)) ∧ data_wf (formatted a src pad) ∧
    d = wire_datagram c ty (formatted a src pad) prefix.
Proof.
  intros (ty & prefix & Hty & Hpre & _ & ->) Hi Hc. exists ty, prefix.
  split; [done|]. split; [done|]. split; [|done].
  unfold data_wf, formatted. cbn. rewrite aead_seal_length. split; [done|].
  split; [destruct Hc; split; consts; lia|lia].
Qed.

(** A session of the sender delivers to the session the receiver pairs with it. *)
Lemma session_delivers envA envB addr a b win src r dst_a dst_b wa wb :
  ok envA wa → ok envB wb → tc (tunn wa) = tc (tunn wb) → classifiable (tc (tunn wb)) →
  session_at (tunn wa) (current (tunn wa)) = Some a →
  session_at (tunn wb) (sending_index a) = Some b →
  paired a b → u32_ok (sending_index a) → counter_ok (sending_key_counter a) →
  refines (receiving_key_counter b) win → window_check win (sending_key_counter a) = Ok () →
  bytes_ok src → ip_packet src r →
  (s_of s4 (tunn wa) + 32 + length src ≤ dst_a)%nat → (dst_a ≤ dst_b)%nat →
  ∃ d wa' wb',
    encapsulate envA src dst_a wa = (Ok (WriteToNetwork d), wa') ∧
    decapsulate envB addr d dst_b wb = (Ok r, wb') ∧
    ∀ env' addr', ∃ wb'',
      decapsulate env' addr' d dst_b wb' = (Ok (TErr DuplicateCounter), wb'').
Proof.
  intros Hwa Hwb Etc Hcl Hsa Hsb Hp Hi Hc Hr Hwc Hsrc Hip Hda Hdb.
  pose proof (encapsulate_session_runs envA (X := λ _, False) src dst_a a wa Hwa Hsa Hda) as He.
  unfold runs in He. destruct (encapsulate envA src dst_a wa) as [[r'|e|] wa']; [|done|done].
  destruct He as (_ & d & pad & -> & Hform & Hl & Hfit & _). exists d, wa'. rewrite Etc in Hform.
  destruct (datagram_session _ _ _ _ _ Hform Hi Hc) as (ty & prefix & Hty & Hpre & Hwf & ->).
  pose proof (ok_config _ _ (proj1 Hwb)) as Hcfg.
  assert (length src + pad + 16 ≤ dst_b)%nat as Hroom by (unfold s_of in *; lia).
  destruct (handle_data_delivers envB a b win src pad dst_b r wb) as (wb' & b' & Hd & Etc' & Hs' & Hi' & Hr');
    try done; [by apply Hwb|].
  exists wb'. split; [done|]. split; [by rewrite decapsulate_transport|]. intros env' addr'.
  edestruct (handle_data_duplicate env' a b') as [wb'' E];
    [exact Hs'|destruct Hp; congruence|exact Hr'|done|cbn; set_solver| |exact Hroom|].
  - cbn. unfold window_check in Hwc. case_decide; [done|]. consts. lia.
  - exists wb''. by rewrite decapsulate_transport.
Qed.

(** C2: End to end: two tunnels with the same AmneziaWG configuration (random
    trailers on, or equal S1-S4) and matching sessions.  Whatever padding,
    header protection, content padding or trailer the sender adds, the datagram
    [encapsulate] writes for an IP packet makes the receiver's [decapsulate]
    return exactly that packet and its source address, and offering the datagram
    again, at any time and from any address, yields [DuplicateCounter]. *)
Theorem tunnel_delivery envA envB addr a b win src r dst_a dst_b wa wb :
  ok envA wa → ok envB wb → tc (tunn wa) = tc (tunn wb) → classifiable (tc (tunn wb)) →
  session_at (tunn wa) (current (tunn wa)) = Some a →
  session_at (tunn wb) (sending_index a) = Some b →
  paired a b → u32_ok (sending_index a) → counter_ok (sending_key_counter a) →
  refines (receiving_key_counter b) win → window_check win (sending_key_counter a) = Ok () →
  bytes_ok src → ip_packet src r →
  (s_of s4 (tunn wa) + 32 + length src ≤ dst_a)%nat → (dst_a ≤ dst_b)%nat →
  ∃ d wa' wb',
    encapsulate envA src dst_a wa = (Ok (WriteToNetwork d), wa') ∧
    decapsulate envB addr d dst_b wb = (Ok r, wb') ∧
    ∀ env' addr', ∃ wb'',
      decapsulate env' addr' d dst_b wb' = (Ok (TErr DuplicateCounter), wb'').
Proof. apply session_delivers. Qed.
End delivery.

(** ** A concrete delivery *)
Section sample.
#[local] Existing Instances sum_stream Rfc4648.engine ToyNoise.crypto ToyAead.cipher.

Definition sample_sender : Session := Session_new 11 22 (replicate 32 3) (replicate 32 4).
Definition sample_receiver : Session := Session_new 22 11 (replicate 32 4) (replicate 32 3).
Definition sample_ipv4 : bytes :=
  [69; 0; 0; 20] ++ replicate 8 0 ++ [10; 0; 0; 1] ++ [10; 0; 0; 2].

Lemma sample_ok t g i s :
  sample_new sample_config = Ok (t, g) → ok sample_env (mkWorld (store_session i s t) g).
Proof.
  intros E. unfold sample_new in E.
  destruct (tunn_new_ok _ _ _ _ _ _ _ _ _ _ _ _ _ _ usable_sample counting_bytes_ok E) as [Ht Hg].
  split; [|exact Hg]. apply ok_store_session. eapply tunn_ok_later; [exact Ht|]. cbn. lia.
Qed.

Lemma sample_fields t g :
  sample_new sample_config = Ok (t, g) →
  padding_config (tc t) = paddings sample_config ∧ tc_random_trailers (tc t) = true ∧ current t = 0 ∧
  length (sessions t) = N_SESSIONS.
Proof.
  unfold sample_new, new_with_amnezia3. intros ([] & _ & E)%bind_ok.
  destruct (Timers_new _ _ _ _ _) as [tm g1]. by apply Ok_inj, pair_equal_spec in E as [<- _].
Qed.

Lemma tunnel_delivery_witness :
  ∃ t g d wa' wb', sample_new sample_config = Ok (t, g) ∧
    encapsulate sample_env sample_ipv4 200 (mkWorld (store_session 0 (Some sample_sender) t) g)
      = (Ok (WriteToNetwork d), wa') ∧
    decapsulate sample_env None d 200 (mkWorld (store_session 22 (Some sample_receiver) t) g)
      = (Ok (WriteToTunnelV4 sample_ipv4 [10; 0; 0; 1]), wb').
Proof.
  destruct sample_new_ok as (t & g & E). destruct (sample_fields t g E) as (Hp & Ht & Hcur & Hl).
  destruct (tunnel_delivery sample_env sample_env None sample_sender sample_receiver window_empty
    sample_ipv4 (WriteToTunnelV4 sample_ipv4 [10; 0; 0; 1]) 200 200
    (mkWorld (store_session 0 (Some sample_sender) t) g)
    (mkWorld (store_session 22 (Some sample_receiver) t) g)) as (d & wa' & wb' & H1 & H2 & _).
  - by apply sample_ok.
  - by apply sample_ok.
  - done.
  - by left.
  - cbn [tunn]. change (current (store_session 0 (Some sample_sender) t)) with (current t).
    rewrite Hcur. by apply session_at_store.
  - by apply session_at_store.
  - done.
  - vm_compute. split; congruence.
  - vm_compute. split; congruence.
  - apply refines_default.
  - vm_compute. reflexivity.
  - by apply (bool_decide_eq_true_1 _).
  - apply ip_v4; [reflexivity|cbn; lia|reflexivity].
  - unfold s_of. cbn [tunn]. change (tc (store_session 0 (Some sample_sender) t)) with (tc t).
    rewrite Hp. vm_compute. lia.
  - lia.
  - by exists t, g, d, wa', wb'.
Defined.
End sample.
