(* ===== verification/TunnelConnect.v ===== *)
(** * TunnelConnect: two tunnels connect

    [Handshake] shows that the two ends of an exchange agree, [TunnelDelivery]
    that matching sessions deliver.  Here the pieces between them are put
    together: what [format_handshake_initiation] of a tunnel writes, with its
    prefix, header protection and trailer, is classified, unmasked and admitted by
    [decapsulate] of the other one, whose answer is in turn accepted by the first,
    and the sessions that are stored on the way are the ones that deliver. *)

From Stdlib Require Import ZArith Lia.
From stdpp Require Import base list option strings sets tactics.
From S2P Require Import Prelude Clock Random Codec Amnezia Cps Config Packet.
From S2P Require Import Session Handshake RateLimiter Timers Tunnel Loss TunnelSafe TunnelDelivery.
Open Scope Z_scope.

Section connect.
Context `{CC : ChaCha20} `{B64 : Base64} `{NC : NoiseCrypto} `{AE : Aead} `{RS : RandomSource R}.
#[local] Abbreviation World := (@World R).
Implicit Types w wa wb : World.

(** One padding length for all kinds of messages, so that no datagram can be
    taken for one of another kind. *)
Definition uniform (c : TunnConfig) : Prop :=
  s1 (padding_config c) = s2 (padding_config c) ∧ s2 (padding_config c) = s3 (padding_config c) ∧
  s3 (padding_config c) = s4 (padding_config c).

(** ** A handshake datagram under the classifier *)
Section datagram.
Context (c : TunnConfig) (Hc : tunn_config_ok c) (Hu : uniform c) (k : HeaderKind) (Hk : is_handshake k = true).
Context (ty : Z) (Hty : HeaderRange_contains (header_of (header_config c) k) ty = true).
Context (message : bytes) (Hsize : length message = ck_size (check_of (config_classifier c) k)).
Context (Hm : take 4 message = to_le 4 ty).
Context (prefix tail : bytes) (Hpre : length prefix = ck_padding (check_of (config_classifier c) k)).
Context (Htail : tc_random_trailers c = false → tail = []).

Abbreviation row := (check_of (config_classifier c) k).
Abbreviation datagram := (prefix ++ protect (header_protection c) prefix message ++ tail).

Lemma row_size : (32 ≤ ck_size row)%nat ∧ ck_exact row = true.
Proof. destruct k; cbn; unfold HANDSHAKE_INIT_SZ, HANDSHAKE_RESP_SZ, COOKIE_REPLY_SZ; try done; split; try done; lia. Qed.

Lemma row_nonce hp : header_protection c = Some hp → (12 ≤ length prefix)%nat.
Proof. intros E. rewrite Hpre. destruct (tco_prefix _ Hc hp E) as (?&?&?&?). destruct k; cbn; lia. Qed.

Lemma handshake_ty_ok : u32_ok ty.
Proof. eapply contains_u32; [|exact Hty]. destruct (tco_headers _ Hc) as (?&?&?&?). by destruct k. Qed.

Lemma handshake_mask :
  mask_of (config_classifier c) datagram =
  (λ hp, chacha_keystream (hp_key hp) (take 12 prefix) 16) <$> header_protection c.
Proof.
  unfold mask_of. cbn [pc_header_protection config_classifier PacketClassifier_with_random_trailers PacketClassifier_new].
  destruct (header_protection c) as [hp|] eqn:E; [|done]. cbn. pose proof (row_nonce hp E).
  rewrite decide_True by (rewrite length_app; lia). do 2 f_equal. by rewrite take_app_le by lia.
Qed.

Lemma handshake_type : type_at datagram (mask_of (config_classifier c) datagram) (ck_padding row) = ty.
Proof.
  unfold type_at. rewrite <- Hpre, handshake_mask. destruct row_size as [Hr _].
  assert (slice datagram (length prefix) (length prefix + 4) = take 4 (protect (header_protection c) prefix message)) as ->.
  { unfold slice. rewrite drop_app_length, take_app_le by (rewrite length_protect; lia). f_equal. lia. }
  destruct (header_protection c) as [hp|]; cbn [protect fmap option_fmap option_map].
  - rewrite take_xor_into, (take_chacha_keystream _ _ 4) by lia.
    rewrite <- (xor_into_take_mask _ _ 4) by (len; lia). rewrite take_chacha_keystream by lia.
    rewrite xor_into_involutive, Hm. apply from_to_le32, handshake_ty_ok.
  - rewrite Hm. apply from_to_le32, handshake_ty_ok.
Qed.

Lemma handshake_classified :
  PacketClassifier_classify (config_classifier c) datagram =
  Ok (Some (classified_as (mask_of (config_classifier c) datagram) row)).
Proof.
  destruct Hu as (H12 & H23 & H34).
  apply (proj1 (classify_equal_rows (config_classifier c) datagram H12 H23 H34 (tco_headers _ Hc) (tco_validated _ Hc)) k).
  apply check_matches_intro; [|by rewrite handshake_type].
  unfold size_ok. destruct row_size as [_ ->]. cbn [andb].
  assert (length datagram = ck_padding row + ck_size row + length tail)%nat as Hl
    by (rewrite !length_app, length_protect, Hsize, Hpre; lia).
  cbn [config_classifier PacketClassifier_with_random_trailers pc_random_trailers].
  destruct (tc_random_trailers c); cbn [negb]; apply bool_decide_eq_true_2; rewrite Hl; [lia|].
  rewrite (Htail eq_refl). cbn. lia.
Qed.

(** What the limiter gets to see is the message. *)
Lemma decapsulate_handshake env addr dst_len w :
  tc (tunn w) = c →
  decapsulate env addr datagram dst_len w =
  (v ← verify env addr message; handle_verdict env (tunn w) v dst_len) w.
Proof.
  intros Etc. destruct row_size as [Hr He]. unfold decapsulate. destruct (decide (datagram = [])) as [E|_].
  { apply (f_equal length) in E. rewrite !length_app, length_protect in E. cbn in E. lia. }
  unfold mbind at 1, ST_bind at 1. cbn [get gets]. unfold classifier. rewrite Etc.
  change (PacketClassifier_with_random_trailers _ _) with (config_classifier c).
  rewrite handshake_classified. unfold mbind at 1, ST_bind at 1. cbn [lift].
  cbn [mbind default fmap option_fmap option_map option_bind from_option id].
  cbn [classified_as padding protected_len msg_size header_mask]. rewrite He. rewrite <- Hpre, drop_app_length.
  rewrite decide_False by (unfold TRANSPORT_HEADER_SZ; lia).
  rewrite decide_True by (rewrite length_app, length_protect; lia).
  rewrite take_app_exact by (by rewrite length_protect).
  unfold strip_protection. rewrite Etc. destruct (header_protection c) as [hp|] eqn:Ehp; [|done].
  rewrite decide_True by lia. rewrite take_app_length.
  rewrite (take_ge (protect _ _ _)) by (rewrite length_protect; lia).
  rewrite HeaderProtection_apply_eq by (by apply row_nonce with hp).
  unfold mbind at 1, ST_bind at 1. cbn [lift protect]. len. rewrite xor_into_involutive. done.
Qed.
End datagram.

(** ** Admission *)

(** A message of type [ty] that ends in the MAC1 of key [k]. *)
Definition sealed (k : bytes) (ty : Z) (m : bytes) : Prop :=
  ∃ body mac2, m = (to_le 4 ty ++ body) ++ mac16 k (to_le 4 ty ++ body) ++ mac2 ∧ length mac2 = 16%nat.

Lemma append_sealed h idx ty body m h' :
  append_mac1_and_mac2 h idx (to_le 4 ty ++ body) = (m, h') → sealed (sending_mac1_key (params h)) ty m.
Proof. intros (mac2 & -> & Hl & _)%append_parts. by exists body, mac2. Qed.

Lemma initiation_sealed h room ty eph t m h' :
  format_handshake_initiation h room ty eph t = (Ok m, h') → sealed (sending_mac1_key (params h)) ty m.
Proof.
  unfold format_handshake_initiation. destruct (decide _); [done|]. cbn [inc_index].
  destruct (initiation_message _ _ _ _) as [[msg hash] ck].
  destruct (append_mac1_and_mac2 _ _ _) as [dst h2] eqn:E. intros [[= <-] _]%pair_equal_spec.
  by apply append_sealed in E.
Qed.

Lemma response_sealed h p room ty eph m s h' :
  receive_handshake_initialization h p room ty eph = (Ok (m, s), h') → sealed (sending_mac1_key (params h)) ty m.
Proof.
  unfold receive_handshake_initialization, format_handshake_response.
  destruct (consume_initiation _ _) as [[[t hash] ck]|e|]; [|done..]. destruct (Tai64N_after _ _); [|done].
  destruct (decide _); [done|]. cbn [state hs_set_states inc_index].
  destruct (response_message _ _ _ _ _ _ _) as [[msg k1] k2].
  destruct (append_mac1_and_mac2 _ _ _) as [dst h2] eqn:E. intros [[= <- _] _]%pair_equal_spec.
  by apply append_sealed in E.
Qed.

(** The limiter of a tunnel checks MAC1 with the tunnel's own key, and either asks
    for no cookies or is not under load. *)
Definition admitting (t : Tunn) : Prop :=
  mac1_key (rate_limiter t) = b2s_hash LABEL_MAC1 (static_public (params (handshake t))) ∧
  (tc_disable_cookies (tc t) = true ∨ count (rate_limiter t) < limit (rate_limiter t)).

Definition own_mac1 (t : Tunn) : bytes := b2s_hash LABEL_MAC1 (static_public (params (handshake t))).

Lemma verify_admits env addr ty m packet idx w :
  admitting (tunn w) → sealed (own_mac1 (tunn w)) ty m →
  parse_incoming_packet_config m (header_config (tc (tunn w))) = Ok packet → handshake_sender packet = Some idx →
  ∃ rl, verify env addr m w = (Ok (Ok packet), mkWorld (set_limiter rl (tunn w)) (rng w)).
Proof.
  intros [Hk Hload] (body & mac2 & -> & Hl) Hp Hs. unfold verify.
  rewrite (verify_handshake (rate_limiter (tunn w)) addr (to_le 4 ty ++ body) _ mac2 COOKIE_REPLY_SZ _ _ (now env) (rng w) packet idx);
    [|apply mac16_length|done..|by rewrite Hk].
  destruct (tc_disable_cookies _); [by eexists|]. cbn zeta. destruct Hload as [|Hload]; [done|].
  rewrite (proj2 (Z.leb_gt _ _)) by done. by eexists.
Qed.

(** A handshake datagram reaches the handler of its message. *)
Lemma handshake_received env addr dst_len k ty m d packet idx w :
  let c := tc (tunn w) in let row := check_of (config_classifier c) k in
  ok env w → uniform c → admitting (tunn w) → is_handshake k = true →
  HeaderRange_contains (header_of (header_config c) k) ty = true → length m = ck_size row →
  sealed (own_mac1 (tunn w)) ty m → parse_incoming_packet_config m (header_config c) = Ok packet →
  handshake_sender packet = Some idx → handshake_datagram c (ck_padding row) m d →
  ∃ rl, let w1 := mkWorld (set_limiter rl (tunn w)) (rng w) in
    ok env w1 ∧ decapsulate env addr d dst_len w = handle_verified_packet env packet dst_len w1.
Proof.
  intros c row Hw Hu Hadm Hk Hty Hl Hs Hp Hi (prefix & tail & Hpre & _ & _ & Htail & ->).
  destruct (verify_admits env addr ty m packet idx w Hadm Hs Hp Hi) as [rl Hv]. exists rl.
  split; [split; [apply ok_set_limiter; apply Hw|apply Hw]|].
  assert (take 4 m = to_le 4 ty) as Hm.
  { destruct Hs as (body & mac2 & -> & _). rewrite <- !app_assoc. apply take_app_exact. by len. }
  rewrite (decapsulate_handshake c (ok_config _ _ (proj1 Hw)) Hu k Hk ty Hty m Hl Hm prefix tail Hpre Htail env addr dst_len w eq_refl).
  unfold mbind, ST_bind. by rewrite Hv.
Qed.

(** ** The newest session *)
Lemma slot_slot i : (session_slot i mod N_SESSIONS)%nat = session_slot i.
Proof. unfold session_slot. by rewrite Nat.Div0.mod_mod. Qed.

Definition newest (i : Z) (t : Tunn) : Prop :=
  ∀ j, nth j (session_timers (tunn_timers t)) 0 ≤ nth (session_slot i) (session_timers (tunn_timers t)) 0.

Lemma established_newest initiator n tm j :
  timers_ok tm → let tm' := tick_session_established initiator n tm in
  nth j (session_timers tm') 0 ≤ nth (n mod N_SESSIONS) (session_timers tm') 0.
Proof.
  intros Ht tm'. pose proof (tick_session_established_ok initiator n tm Ht) as Hok.
  pose proof (tick_session_established_current initiator n tm) as Hcur. fold tm' in Hok, Hcur. specialize (Hcur Ht).
  pose proof (session_timer_bound tm' j Hok) as [_ Hb].
  assert (nth (n mod N_SESSIONS) (session_timers tm') 0 = timer_get tm' TimeCurrent) as ->; [|done].
  rewrite Hcur. unfold tm', tick_session_established. cbn [session_timers set_session_timers set_is_initiator].
  rewrite nth_lookup, list_lookup_insert_eq.
  - exact (tick_current TimeSessionEstablished tm (tk_timers _ Ht)).
  - change (session_timers (tick _ tm)) with (session_timers tm). rewrite (tk_sessions _ Ht). by apply Nat.mod_upper_bound.
Qed.

(** ** The steps of the exchange *)
#[local] Ltac kept := match goal with
  | H : ok ?env ?w |- tunn_ok _ _ => pose proof (proj1 H); eauto with tunn
  end.

(** The responder: whatever type it draws, [P] of what its handshake produces. *)
Lemma responder_runs {X} env p dst_len w (P : Z → bytes → Session → Handshake → Prop) :
  ok env w → init_wf p → (s_of s2 (tunn w) + HANDSHAKE_RESP_SZ ≤ dst_len)%nat →
  (∀ ty, HeaderRange_contains (hc_response (header_config (tc (tunn w)))) ty = true →
     ∃ m s h', receive_handshake_initialization (handshake (tunn w)) p (dst_len - s_of s2 (tunn w)) ty (ephemeral env)
         = (Ok (m, s), h') ∧ P ty m s h') →
  runs (handle_handshake_init env p dst_len) w X (λ r w', ok env w' ∧
    ∃ d ty m s h', r = WriteToNetwork d ∧ (length d ≤ dst_len)%nat ∧
      HeaderRange_contains (hc_response (header_config (tc (tunn w)))) ty = true ∧
      receive_handshake_initialization (handshake (tunn w)) p (dst_len - s_of s2 (tunn w)) ty (ephemeral env) = (Ok (m, s), h') ∧
      P ty m s h' ∧ handshake_datagram (tc (tunn w)) (s_of s2 (tunn w)) m d ∧
      tc (tunn w') = tc (tunn w) ∧ handshake (tunn w') = h' ∧
      sessions (tunn w') = <[session_slot (receiving_index s) := Some s]> (sessions (tunn w)) ∧
      newest (receiving_index s) (tunn w')).
Proof.
  intros Hw Hp Hd HP. unfold handle_handshake_init. apply runs_bind, get_runs.
  eapply runs_seq; [apply header_runs; [done|]|].
  { destruct Hw as [Ht _]. by destruct (tco_headers _ (ok_config _ _ Ht)) as (_ & ? & _). }
  intros ty w1 [[Hw1 E1] Hty]. rewrite decide_False by lia.
  destruct (HP ty Hty) as (m & s & h' & Er & HPm).
  pose proof (receive_initialization_ok (handshake (tunn w)) p (dst_len - s_of s2 (tunn w)) ty
    (ephemeral env) (ok_handshake _ _ (proj1 Hw)) Hp) as Hh. rewrite Er in Hh. destruct Hh as (Hh & _ & Hl).
  destruct (Hl m s eq_refl) as [Hlm _]. set (w2 := mkWorld (set_handshake h' (tunn w1)) (rng w1)).
  assert (ok env w2) as Hw2 by (apply (upd_ok env (set_handshake h')); [done|by apply ok_set_handshake, Hh; apply Hw1]).
  apply (runs_seq _ _ _ _ (λ x w', x = (m, s) ∧ w' = w2)).
  { unfold runs, on_handshake. unfold w2. by rewrite E1, Er. }
  intros x w' [-> ->]. eapply upd_seq; [done|kept|]. intros Hw3.
  eapply runs_seq; [apply frame_message_runs; [done|lia|]|].
  { intros hp. cbn. rewrite E1. intros Hp'. by destruct (ok_prefix env w hp Hw Hp') as (_ & ? & _). }
  intros d w4 ([Hw4 E4] & Hfit & Hform).
  eapply upd_seq; [done|kept|]. intros Hw5. eapply upd_seq; [done|kept|]. intros Hw6.
  eapply upd_seq; [done|kept|]. intros Hw7. apply runs_ret. split; [done|].
  exists d, ty, m, s, h'. cbn [tunn] in Hform. change (tc (store_session _ _ (tunn w2))) with (tc (tunn w1)) in Hform.
  rewrite E1 in Hform. split_and!; try done.
  - cbn [tunn tc on_timers]. rewrite E4. cbn. by rewrite E1.
  - cbn [tunn handshake on_timers]. by rewrite E4.
  - cbn [tunn sessions on_timers]. rewrite E4. cbn. by rewrite E1.
  - intros j. cbn [tunn tunn_timers on_timers]. apply established_newest.
    apply (ok_timers _ _ (proj1 Hw6)).
Qed.

(** The initiator. *)
Lemma initiator_runs {X} env p dst_len w s h' :
  ok env w → response_wf p → keepalive_room (tc (tunn w)) dst_len → (s_of s4 (tunn w) + 32 ≤ dst_len)%nat →
  receive_handshake_response (handshake (tunn w)) p (now env) = (Ok s, h') →
  runs (handle_handshake_response env p dst_len) w X (λ r w', ok env w' ∧
    ∃ d pad, r = WriteToNetwork d ∧ (length d ≤ dst_len)%nat ∧ transport_datagram (tc (tunn w)) s [] pad d ∧
      (length d = s_of s4 (tunn w) + 32 + pad)%nat ∧
      tc (tunn w') = tc (tunn w) ∧ handshake (tunn w') = h' ∧
      sessions (tunn w') = <[session_slot (receiving_index s) := Some (bump_sending s)]> (sessions (tunn w)) ∧
      current (tunn w') = receiving_index s).
Proof.
  intros Hw Hp Hroom Hd Er. unfold handle_handshake_response. apply runs_bind, get_runs.
  rewrite decide_False by (unfold DATA_OVERHEAD_SZ; lia).
  pose proof (receive_response_ok (handshake (tunn w)) p (now env) (ok_handshake _ _ (proj1 Hw)) Hp) as Hh.
  rewrite Er in Hh. destruct Hh as [Hh _]. set (w1 := mkWorld (set_handshake h' (tunn w)) (rng w)).
  assert (ok env w1) as Hw1 by (apply (upd_ok env (set_handshake h')); [done|by apply ok_set_handshake, Hh; apply Hw]).
  apply (runs_seq _ _ _ _ (λ x w', x = s ∧ w' = w1)).
  { unfold runs, on_handshake. by rewrite Er. }
  intros x w' [-> ->]. eapply runs_seq; [by apply content_padding_addition_runs|].
  intros pad w2 ([Hw2 E2] & _ & Hpad).
  assert (s_of s4 (tunn w2) + 32 + length (@nil Z) + pad ≤ dst_len)%nat as Hfit.
  { unfold s_of in *. rewrite E2 in *. cbn [length]. change (tc (tunn w1)) with (tc (tunn w)) in *.
    destruct (content_padding (tc (tunn w))) as [r|] eqn:Ec; cbn in Hpad; [|lia]. specialize (Hroom r Ec). lia. }
  eapply runs_seq; [by apply (format_transport_packet_runs env s [] pad dst_len)|].
  intros [d s'] w3 ([Hw3 E3] & -> & Hl & Hform). rewrite E2 in Hl, Hform, E3.
  eapply upd_seq; [done|kept|]. intros Hw4. eapply upd_seq; [done|kept|]. intros Hw5.
  eapply upd_seq; [done|kept|]. intros Hw6.
  change (set_current_session _) with (upd_tunn (R := R) (set_current_choice (receiving_index s))).
  apply runs_bind, upd_runs, runs_ret. split.
  { apply upd_ok; [done|]. unfold set_current_choice. repeat case_match; try apply Hw6; kept. }
  cbn [length] in Hl, Hfit. rewrite Nat.add_0_r in Hl, Hfit. unfold s_of in Hfit. rewrite E2 in Hfit.
  exists d, pad. split; [done|]. split; [rewrite Hl; exact Hfit|]. split; [exact Hform|]. split; [exact Hl|].
  cbn [tunn]. match goal with |- context [set_current_choice ?i ?t] =>
    destruct (set_current_choice_keeps i t) as (H1 & H2 & H3 & H4); set (t6 := t) in * end.
  rewrite H1, H2, H4.
  split_and!; [by unfold t6; cbn; rewrite E3..|]. apply set_current_choice_newest. intros j.
  pose proof (established_newest true (session_slot (receiving_index s)) _ j (ok_timers _ _ (proj1 Hw5))) as Hn.
  rewrite slot_slot in Hn. exact Hn.
Qed.

(** A packet of content padding alone is a keepalive. *)
Lemma validate_zeros pad w : validate_decapsulated_packet (replicate pad 0) w = (Ok Done, w).
Proof. by destruct pad. Qed.

(** The handler's result is the result of the packet. *)
Lemma verified_init env p dst_len w r w' :
  handle_handshake_init env p dst_len w = (Ok r, w') → handle_verified_packet env (PktInit p) dst_len w = (Ok r, w').
Proof. intros E. unfold handle_verified_packet, attempt, mbind, ST_bind. by rewrite E. Qed.
Lemma verified_response env p dst_len w r w' :
  handle_handshake_response env p dst_len w = (Ok r, w') → handle_verified_packet env (PktResponse p) dst_len w = (Ok r, w').
Proof. intros E. unfold handle_verified_packet, attempt, mbind, ST_bind. by rewrite E. Qed.

(** ** A conversation *)

Lemma stored_at t t' i s :
  length (sessions t) = N_SESSIONS → sessions t' = <[session_slot i := Some s]> (sessions t) → session_at t' i = Some s.
Proof.
  intros Hl E. unfold session_at. rewrite E, list_lookup_insert_eq; [done|]. rewrite Hl. unfold session_slot.
  by apply Nat.mod_upper_bound.
Qed.

Lemma ok_from env env' w : ok env w → now env ≤ now env' → ok env' w.
Proof. intros [Ht Hg] Hn. split; [by eapply tunn_ok_later|done]. Qed.

Lemma handle_verified_data_ok env pd dst_len w r w' :
  ok env w → (length (pd_payload pd) ≤ dst_len)%nat →
  handle_verified_packet env (PktData pd) dst_len w = (Ok r, w') → ok env w'.
Proof.
  intros Hw Hl. pose proof (handle_data_runs env pd dst_len w Hw Hl) as H.
  unfold handle_verified_packet, attempt, mbind, ST_bind, runs in *.
  destruct (handle_data pd dst_len w) as [[x|e|] w1]; [..|done]; intros [_ <-]%pair_equal_spec; [apply H|exact H].
Qed.

(** What is left of a window and a sending counter when every counter used so far is
    below the next one, and [n] packets are still to come. *)
Definition ahead (n : nat) (sending : Session) (receiving : Session) : Prop :=
  0 ≤ sending_key_counter sending ∧ sending_key_counter sending + Z.of_nat n + N_BITS ≤ 2 ^ 64
  ∧ ∃ win, refines (receiving_key_counter receiving) win ∧ top win ≤ sending_key_counter sending.

(** Two tunnels whose current sessions are the two ends of one. *)
Record conversing (n : nat) (ta tb : Z) wa wb : Prop := {
  cv_a : tunn_ok ta (tunn wa) ∧ rng_ok (rng wa);
  cv_b : tunn_ok tb (tunn wb) ∧ rng_ok (rng wb);
  cv_config : tc (tunn wa) = tc (tunn wb);
  cv_uniform : uniform (tc (tunn wb));
  cv_sessions : ∃ a b, session_at (tunn wa) (current (tunn wa)) = Some a ∧ session_at (tunn wb) (current (tunn wb)) = Some b
    ∧ sending_index a = current (tunn wb) ∧ sending_index b = current (tunn wa) ∧ paired a b ∧ paired b a
    ∧ u32_ok (sending_index a) ∧ u32_ok (sending_index b) ∧ ahead n a b ∧ ahead n b a
}.

Lemma conversing_sym n ta tb wa wb : conversing n ta tb wa wb → conversing n tb ta wb wa.
Proof.
  intros [Ha Hb Ec Hu (a & b & ?)]. split; try done; [by rewrite Ec|]. exists b, a. intuition.
Qed.

(** One packet, from [wa] to [wb]. *)
Lemma conversing_sends n ta tb envA envB addr src r dst_a dst_b wa wb :
  conversing (S n) ta tb wa wb → ta ≤ now envA → tb ≤ now envB → bytes_ok src → ip_packet src r →
  (s_of s4 (tunn wa) + 32 + length src ≤ dst_a)%nat → (dst_a ≤ dst_b)%nat →
  ∃ d wa' wb', encapsulate envA src dst_a wa = (Ok (WriteToNetwork d), wa') ∧ decapsulate envB addr d dst_b wb = (Ok r, wb')
    ∧ tc (tunn wb') = tc (tunn wb) ∧ conversing n (now envA) (now envB) wa' wb'.
Proof.
  intros [Hwa Hwb Ec Hu (a & b & Ha & Hb & Iab & Iba & Pab & Pba & Ua & Ub & (C0 & Cn & win & Hr & Ht) & (D0 & Dn & win' & Hr' & Ht'))].
  intros Hta Htb Hs Hip Hda Hdb.
  assert (ok envA wa) as HwA by (destruct Hwa; split; [by eapply tunn_ok_later|done]).
  assert (ok envB wb) as HwB by (destruct Hwb; split; [by eapply tunn_ok_later|done]).
  assert (counter_ok (sending_key_counter a)) as Hc by (split; [done|lia]).
  assert (window_check win (sending_key_counter a) = Ok ()) as Hwc.
  { unfold window_check. rewrite decide_False by (change N_BITS with 1024; lia). rewrite decide_False; [done|].
    intros Hin%(rf_seen _ _ Hr). lia. }
  pose proof (encapsulate_session_runs envA (X := λ _, False) src dst_a a wa HwA Ha Hda) as He.
  unfold runs in He. destruct (encapsulate envA src dst_a wa) as [[r'|e|] wa']; [|done|done].
  destruct He as (Hwa' & d & pad & -> & Hform & Hl & Hfit & (Etc & Ecur & Ess)). exists d, wa'. rewrite Ec in Hform.
  destruct (datagram_session _ _ _ _ _ Hform Ua Hc) as (ty & prefix & Hty & Hpre & Hwf & ->).
  assert (length src + pad + 16 ≤ dst_b)%nat as Hroom by (unfold s_of in *; lia). rewrite <- Iab in Hb.
  destruct (handle_data_opens envB a b win src pad dst_b wb Hb Pab Hc Hs Hr Hwc Hroom)
    as (w1 & b' & Hv & (Etc1 & _ & _ & Es1 & t1 & Et1 & _ & _ & Ecur1) & (Hsk & Hsi & Hsc) & (Hri & Hrk) & Hr1).
  destruct (validate_padded src r pad w1 Hip) as [k Ev]. specialize (Hv _ _ Ev). set (wb' := mkWorld _ _) in Hv.
  assert (ok envB wb') as Hwb'.
  { eapply handle_verified_data_ok; [exact HwB| |exact Hv]. cbn. rewrite aead_seal_length. len. lia. }
  assert (current (tunn wb') = current (tunn wb)) as Ecb.
  { change (current (tunn wb')) with (current (tunn w1)). rewrite Ecur1. unfold set_current_choice. by rewrite Et1, Iab, Z.eqb_refl. }
  exists wb'. split; [done|]. split; [by rewrite decapsulate_transport by (done || by right || apply HwB)|].
  split; [exact Etc1|]. split.
  - exact Hwa'.
  - exact Hwb'.
  - change (tc (tunn wb')) with (tc (tunn w1)). congruence.
  - change (tc (tunn wb')) with (tc (tunn w1)). by rewrite Etc1.
  - exists (bump_sending a), b'. rewrite Ecb, Ecur.
    assert (wrap 64 (sending_key_counter a + 1) = sending_key_counter a + 1) as Ew
      by (apply wrap_small; change N_BITS with 1024 in *; split; lia).
    split_and!.
    + eapply (stored_at (tunn wa)); [apply HwA|exact Ess].
    + rewrite <- Iab. eapply (stored_at (tunn wb) (tunn wb')); [apply HwB|exact Es1].
    + done.
    + congruence.
    + destruct Pab. split; cbn; congruence.
    + destruct Pba. split; cbn; congruence.
    + done.
    + congruence.
    + unfold ahead. cbn [sending_key_counter bump_sending]. rewrite Ew. split_and!; [lia|lia|].
      eexists. split; [exact Hr1|]. cbn [top]. lia.
    + unfold ahead. rewrite Hsc. split_and!; [done|lia|]. by exists win'.
Qed.

(** A packet on its way between the ends [A] and [B]: who sends it, when each end
    handles it, and what it is. *)
Record Message := mkMessage {
  m_from_a : bool;
  m_send : Env;
  m_receive : Env;
  m_addr : option IpAddr;
  m_src : bytes;
  m_result : TunnResult;
  m_dst_send : nat;
  m_dst_receive : nat
}.

(** A complete IP packet, times that do not go back at either end, buffers that hold
    it. *)
Definition message_ok (s4 : nat) (m : Message) : Prop :=
  bytes_ok (m_src m) ∧ ip_packet (m_src m) (m_result m)
  ∧ (s4 + 32 + length (m_src m) ≤ m_dst_send m)%nat ∧ (m_dst_send m ≤ m_dst_receive m)%nat.

Fixpoint messages_ok (s4 : nat) (ta tb : Z) (l : list Message) : Prop :=
  match l with
  | [] => True
  | m :: l =>
      let '(ea, eb) := if m_from_a m then (m_send m, m_receive m) else (m_receive m, m_send m) in
      message_ok s4 m ∧ ta ≤ now ea ∧ tb ≤ now eb ∧ messages_ok s4 (now ea) (now eb) l
  end.

(** Every packet of [l] comes out at the other end as it went in. *)
Fixpoint talk (l : list Message) wa wb : Prop :=
  match l with
  | [] => True
  | m :: l =>
      if m_from_a m then
        ∃ d wa' wb', encapsulate (m_send m) (m_src m) (m_dst_send m) wa = (Ok (WriteToNetwork d), wa')
          ∧ decapsulate (m_receive m) (m_addr m) d (m_dst_receive m) wb = (Ok (m_result m), wb') ∧ talk l wa' wb'
      else
        ∃ d wa' wb', encapsulate (m_send m) (m_src m) (m_dst_send m) wb = (Ok (WriteToNetwork d), wb')
          ∧ decapsulate (m_receive m) (m_addr m) d (m_dst_receive m) wa = (Ok (m_result m), wa') ∧ talk l wa' wb'
  end.

Lemma conversing_talk l : ∀ ta tb wa wb,
  conversing (length l) ta tb wa wb → messages_ok (s_of s4 (tunn wb)) ta tb l → talk l wa wb.
Proof.
  induction l as [|[[] es er addr src r da db] l IH]; intros ta tb wa wb Hc; cbn; [done|..];
    intros ((Hs & Hip & Hda & Hdb) & Hta & Htb & Hl); cbn in *.
  - destruct (conversing_sends _ ta tb es er addr src r da db wa wb Hc Hta Htb Hs Hip) as (d & wa' & wb' & E1 & E2 & Ec & Hc');
      [unfold s_of in *; by rewrite (cv_config _ _ _ _ _ Hc)|done|].
    exists d, wa', wb'. split_and!; [done|done|]. eapply IH; [exact Hc'|]. unfold s_of in *. by rewrite Ec.
  - pose proof (conversing_sym _ _ _ _ _ Hc) as Hs'.
    destruct (conversing_sends _ tb ta es er addr src r da db wb wa Hs' Htb Hta Hs Hip) as (d & wb' & wa' & E1 & E2 & Ec & Hc');
      [done|done|].
    exists d, wa', wb'. split_and!; [done|done|]. eapply IH; [exact (conversing_sym _ _ _ _ _ Hc')|].
    pose proof (cv_config _ _ _ _ _ Hc') as E. unfold s_of in *. by rewrite E, Ec, (cv_config _ _ _ _ _ Hc).
Qed.

(** ** The exchange *)

(** What the two ends need to connect: configured for each other, with the same
    AmneziaWG configuration, a time stamp that is news to the responder, limiters
    that admit, and room for the messages. *)
Record can_connect envA envB (dst_len : nat) wa wb : Prop := {
  cn_a : ok envA wa;
  cn_b : ok envB wb;
  cn_config : tc (tunn wa) = tc (tunn wb);
  cn_uniform : uniform (tc (tunn wb));
  cn_peers : peers (params (handshake (tunn wa))) (params (handshake (tunn wb)));
  cn_stamp : ∃ t, Tai64N_parse (stamp (stamper (handshake (tunn wa))) (now envA)) = Ok t ∧
    Tai64N_after t (last_handshake_timestamp (handshake (tunn wb))) = true;
  cn_admit_a : admitting (tunn wa);
  cn_admit_b : admitting (tunn wb);
  cn_room : (s_of s1 (tunn wb) + HANDSHAKE_INIT_SZ ≤ dst_len)%nat;
  cn_keepalive : keepalive_room (tc (tunn wb)) dst_len
}.

(** The answer [m] to the initiation that left the initiator's handshake [a1]:
    it parses, and the initiator accepts it. *)
Definition answers (hc : HeaderConfig) (a1 : Handshake) (t' : Z) (m : bytes) (sb : Session) : Prop :=
  ∃ r a2 k1 k2 ia ib, u32_ok ia ∧ u32_ok ib ∧
    parse_incoming_packet_config m hc = Ok (PktResponse r) ∧ response_wf r ∧
    receive_handshake_response a1 r t' = (Ok (Session_new ia ib k2 k1), a2) ∧ sb = Session_new ib ia k1 k2.

Lemma contains_start r : range_ok r → HeaderRange_contains r (hr_start r) = true.
Proof. unfold range_ok, HeaderRange_contains. intros. rewrite andb_true_iff, !Z.leb_le. lia. Qed.

(** The initiator's turn: its datagram, and the answer any responder type gets. *)
Lemma connect_first envA envB t' dst_len wa wb :
  can_connect envA envB dst_len wa wb →
  ∃ d ty m i wa1, Tunn_format_handshake_initiation envA dst_len true wa = (Ok (WriteToNetwork d), wa1) ∧
    ok envA wa1 ∧ tc (tunn wa1) = tc (tunn wa) ∧ rate_limiter (tunn wa1) = rate_limiter (tunn wa) ∧
    sessions (tunn wa1) = sessions (tunn wa) ∧ params (handshake (tunn wa1)) = params (handshake (tunn wa)) ∧
    HeaderRange_contains (hc_init (header_config (tc (tunn wb)))) ty = true ∧ length m = HANDSHAKE_INIT_SZ ∧
    sealed (own_mac1 (tunn wb)) ty m ∧ parse_incoming_packet_config m (header_config (tc (tunn wb))) = Ok (PktInit i) ∧ init_wf i ∧
    handshake_datagram (tc (tunn wb)) (s_of s1 (tunn wb)) m d ∧
    ∀ ty2, HeaderRange_contains (hc_response (header_config (tc (tunn wb)))) ty2 = true →
      ∃ m2 sb b1, receive_handshake_initialization (handshake (tunn wb)) i (dst_len - s_of s2 (tunn wb)) ty2 (ephemeral envB)
        = (Ok (m2, sb), b1) ∧
        answers (header_config (tc (tunn wb))) (handshake (tunn wa1)) t' m2 sb.
Proof.
  intros [Hwa Hwb Etc Hu Hpe (t & Ht & Haft) _ _ Hroom _].
  assert (s_of s1 (tunn wa) = s_of s1 (tunn wb)) as E1 by (unfold s_of; by rewrite Etc).
  assert (s_of s2 (tunn wb) = s_of s1 (tunn wb)) as E2 by (unfold s_of; by destruct Hu as [-> _]).
  pose proof (initiation_runs envA (X := λ _, False) dst_len true wa Hwa) as Hr. rewrite E1, andb_false_r in Hr.
  specialize (Hr eq_refl Hroom). unfold runs in Hr.
  destruct (Tunn_format_handshake_initiation envA dst_len true wa) as [[r|e|] wa1]; [|done|done].
  destruct Hr as (Hwa1 & d & ty & m & h' & -> & Hl & Hty & Ef & Hd & Hcore).
  apply core_eq in Hcore as (Ec & Eh & Es & _ & _ & Er). cbn in Ec, Eh, Es, Er.
  pose proof (ok_config _ _ (proj1 Hwb)) as Hc. rewrite Etc in Hty, Hd.
  destruct (tco_headers _ Hc) as (Hh1 & Hh2 & _).
  pose proof (ok_handshake _ _ (proj1 Hwa)) as Hwa'. pose proof (ok_handshake _ _ (proj1 Hwb)) as Hwb'.
  unfold HANDSHAKE_INIT_SZ, HANDSHAKE_RESP_SZ in *.
  assert (∀ ty2, HeaderRange_contains (hc_response (header_config (tc (tunn wb)))) ty2 = true →
    ∃ i m2 sb b1, parse_incoming_packet_config m (header_config (tc (tunn wb))) = Ok (PktInit i) ∧ init_wf i ∧
      receive_handshake_initialization (handshake (tunn wb)) i (dst_len - s_of s2 (tunn wb)) ty2 (ephemeral envB) = (Ok (m2, sb), b1) ∧
      params h' = params (handshake (tunn wa)) ∧
      answers (header_config (tc (tunn wb))) h' t' m2 sb) as Hans.
  { intros ty2 Hty2.
    destruct (handshake_agrees (handshake (tunn wa)) (handshake (tunn wb)) (header_config (tc (tunn wb))) ty ty2
      (ephemeral envA) (ephemeral envB) (now envA) t' (dst_len - s_of s1 (tunn wb)) (dst_len - s_of s2 (tunn wb)) t)
      as (m1 & m2 & i & r & a1 & a2 & b1 & sa & sb & F1 & F2 & F3 & F4 & F5 & (k1 & k2 & -> & ->) & _ & _ & _ & Hpa & _ & _ & Hwi & Hwr);
      try done; try apply Hc;
      [exact (contains_u32 _ _ Hh1 Hty)|exact (contains_u32 _ _ Hh2 Hty2)|apply Hwa'|apply Hwb'
      |unfold HANDSHAKE_INIT_SZ; lia|unfold HANDSHAKE_RESP_SZ; lia|].
    rewrite F1 in Ef. apply pair_equal_spec in Ef as [[= <-] <-].
    exists i, m2, (Session_new (inc_index (handshake (tunn wb))).1 (inc_index (handshake (tunn wa))).1 k1 k2), b1.
    split_and!; try done. exists r, a2, k1, k2, (inc_index (handshake (tunn wa))).1, (inc_index (handshake (tunn wb))).1.
    split_and!; try done; apply inc_index_ok; [apply Hwa'|apply Hwb']. }
  destruct (Hans (hr_start (hc_response (header_config (tc (tunn wb)))))) as (i & m2 & sb & b1 & Hp & Hwi & _ & Hpa & _).
  { by apply contains_start. }
  exists d, ty, m, i, wa1. rewrite Eh. split_and!; try done.
  - destruct (format_initiation_ok (handshake (tunn wa)) (dst_len - s_of s1 (tunn wb)) ty (ephemeral envA) (now envA) Hwa')
      as (m' & h1 & Ef' & Hlm & _); [unfold HANDSHAKE_INIT_SZ; lia|]. rewrite Ef in Ef'. apply pair_equal_spec in Ef' as [[= <-] _]. done.
  - apply initiation_sealed in Ef. unfold own_mac1. by rewrite <- (pe_ab _ _ Hpe), <- (po_mac1 _ (pe_a _ _ Hpe)).
  - intros ty2 Hty2. destruct (Hans ty2 Hty2) as (i' & m2' & sb' & b1' & Hp' & _ & Hr' & _ & Ha'). rewrite Hp in Hp'.
    injection Hp' as <-. by exists m2', sb', b1'.
Qed.

(** The responder's turn. *)
Lemma connect_second envB addr dst_len (P : bytes → Session → Prop) d ty m i wb :
  ok envB wb → uniform (tc (tunn wb)) → admitting (tunn wb) → params_ok (params (handshake (tunn wb))) →
  (s_of s1 (tunn wb) + HANDSHAKE_INIT_SZ ≤ dst_len)%nat →
  HeaderRange_contains (hc_init (header_config (tc (tunn wb)))) ty = true → length m = HANDSHAKE_INIT_SZ →
  sealed (own_mac1 (tunn wb)) ty m → parse_incoming_packet_config m (header_config (tc (tunn wb))) = Ok (PktInit i) →
  init_wf i → handshake_datagram (tc (tunn wb)) (s_of s1 (tunn wb)) m d →
  (∀ ty2, HeaderRange_contains (hc_response (header_config (tc (tunn wb)))) ty2 = true →
     ∃ m2 sb b1, receive_handshake_initialization (handshake (tunn wb)) i (dst_len - s_of s2 (tunn wb)) ty2 (ephemeral envB)
       = (Ok (m2, sb), b1) ∧ P m2 sb) →
  ∃ d2 ty2 m2 sb wb1, decapsulate envB addr d dst_len wb = (Ok (WriteToNetwork d2), wb1) ∧ ok envB wb1 ∧
    HeaderRange_contains (hc_response (header_config (tc (tunn wb)))) ty2 = true ∧ length m2 = HANDSHAKE_RESP_SZ ∧
    sealed (b2s_hash LABEL_MAC1 (peer_static_public (params (handshake (tunn wb))))) ty2 m2 ∧ P m2 sb ∧
    handshake_datagram (tc (tunn wb)) (s_of s2 (tunn wb)) m2 d2 ∧ tc (tunn wb1) = tc (tunn wb) ∧
    sessions (tunn wb1) = <[session_slot (receiving_index sb) := Some sb]> (sessions (tunn wb)) ∧
    newest (receiving_index sb) (tunn wb1).
Proof.
  intros Hwb Hu Hadm Hpo Hroom Hty Hl Hs Hp Hwi Hd HP.
  destruct (handshake_received envB addr dst_len HInit ty m d (PktInit i) (hi_sender_idx i) wb) as (rl & Hw0 & Ed); try done.
  set (w0 := mkWorld (set_limiter rl (tunn wb)) (rng wb)) in *.
  assert (s_of s2 (tunn wb) = s_of s1 (tunn wb)) as E2 by (unfold s_of; by destruct Hu as [-> _]).
  pose proof (responder_runs envB (X := λ _, False) i dst_len w0 (λ _ m2 sb _, P m2 sb) Hw0 Hwi) as Hr.
  specialize (Hr ltac:(change (s_of s2 (tunn w0)) with (s_of s2 (tunn wb)); unfold HANDSHAKE_INIT_SZ, HANDSHAKE_RESP_SZ in *; lia) HP).
  unfold runs in Hr. destruct (handle_handshake_init envB i dst_len w0) as [[r|e|] wb1] eqn:Eh; [|done|done].
  destruct Hr as (Hw1 & d2 & ty2 & m2 & sb & h' & -> & _ & Hty2 & Er & HPm & Hd2 & Ec & _ & Es & Hn).
  exists d2, ty2, m2, sb, wb1. rewrite Ed. split_and!; try done; [by apply verified_init| |].
  - pose proof (receive_initialization_ok _ i (dst_len - s_of s2 (tunn wb)) ty2 (ephemeral envB) (ok_handshake _ _ (proj1 Hwb)) Hwi) as Hok.
    change (handshake (tunn w0)) with (handshake (tunn wb)) in Er. change (s_of s2 (tunn w0)) with (s_of s2 (tunn wb)) in Er.
    rewrite Er in Hok. destruct Hok as (_ & _ & Hok). by destruct (Hok m2 sb eq_refl).
  - apply response_sealed in Er. by rewrite <- (po_mac1 _ Hpo).
Qed.

(** The initiator's second turn. *)
Lemma connect_third envA addr dst_len d ty m sb wa1 :
  ok envA wa1 → uniform (tc (tunn wa1)) → admitting (tunn wa1) →
  (s_of s1 (tunn wa1) + HANDSHAKE_INIT_SZ ≤ dst_len)%nat → keepalive_room (tc (tunn wa1)) dst_len →
  HeaderRange_contains (hc_response (header_config (tc (tunn wa1)))) ty = true → length m = HANDSHAKE_RESP_SZ →
  sealed (own_mac1 (tunn wa1)) ty m → handshake_datagram (tc (tunn wa1)) (s_of s2 (tunn wa1)) m d →
  answers (header_config (tc (tunn wa1))) (handshake (tunn wa1)) (now envA) m sb →
  ∃ d3 pad sa k1 k2 ia ib wa2, decapsulate envA addr d dst_len wa1 = (Ok (WriteToNetwork d3), wa2) ∧ ok envA wa2 ∧
    u32_ok ia ∧ u32_ok ib ∧ sa = Session_new ia ib k2 k1 ∧ sb = Session_new ib ia k1 k2 ∧
    transport_datagram (tc (tunn wa1)) sa [] pad d3 ∧ (length d3 = s_of s4 (tunn wa1) + 32 + pad)%nat ∧
    (length d3 ≤ dst_len)%nat ∧ tc (tunn wa2) = tc (tunn wa1) ∧
    sessions (tunn wa2) = <[session_slot ia := Some (bump_sending sa)]> (sessions (tunn wa1)) ∧ current (tunn wa2) = ia.
Proof.
  intros Hwa Hu Hadm Hroom Hkeep Hty Hl Hs Hd (r & a2 & k1 & k2 & ia & ib & Hia & Hib & Hp & Hwr & Er & ->).
  destruct (handshake_received envA addr dst_len HResponse ty m d (PktResponse r) (hr_sender_idx r) wa1) as (rl & Hw0 & Ed); try done.
  set (w0 := mkWorld (set_limiter rl (tunn wa1)) (rng wa1)) in *.
  assert (s_of s4 (tunn wa1) = s_of s1 (tunn wa1)) as E4 by (unfold s_of; by destruct Hu as (-> & -> & ->)).
  pose proof (initiator_runs envA (X := λ _, False) r dst_len w0 (Session_new ia ib k2 k1) a2 Hw0 Hwr Hkeep) as Hr.
  specialize (Hr ltac:(change (s_of s4 (tunn w0)) with (s_of s4 (tunn wa1)); unfold HANDSHAKE_INIT_SZ in *; lia) Er).
  unfold runs in Hr. destruct (handle_handshake_response envA r dst_len w0) as [[x|e|] wa2] eqn:Eh; [|done|done].
  destruct Hr as (Hw2 & d3 & pad & -> & Hld & Hform & Hlen & Ec & _ & Es & Ecur).
  exists d3, pad, (Session_new ia ib k2 k1), k1, k2, ia, ib, wa2. rewrite Ed. split_and!; try done. by apply verified_response.
Qed.

(** The responder's second turn: the keepalive makes the new session current. *)
Lemma connect_fourth envB addr dst_len d pad ia ib k1 k2 wb1 :
  let sa := Session_new ia ib k2 k1 in let sb := Session_new ib ia k1 k2 in
  ok envB wb1 → uniform (tc (tunn wb1)) → u32_ok ib → keepalive_room (tc (tunn wb1)) dst_len →
  session_at (tunn wb1) ib = Some sb → newest ib (tunn wb1) →
  transport_datagram (tc (tunn wb1)) sa [] pad d → (length d = s_of s4 (tunn wb1) + 32 + pad)%nat → (length d ≤ dst_len)%nat →
  ∃ b' wb2, decapsulate envB addr d dst_len wb1 = (Ok Done, wb2) ∧ ok envB wb2 ∧ tc (tunn wb2) = tc (tunn wb1) ∧
    session_at (tunn wb2) ib = Some b' ∧ current (tunn wb2) = ib ∧ sends_as b' sb ∧
    paired (bump_sending sa) b' ∧ refines (receiving_key_counter b') (mkWindow ({[0]} ∪ ∅) 1).
Proof.
  intros sa sb Hw Hu Hi Hroom Hs Hn Hd Hl Hfit.
  destruct (datagram_session _ _ _ _ _ Hd Hi) as (ty & prefix & Hty & Hpre & Hwf & ->); [by vm_compute|].
  destruct (handle_data_opens envB sa sb window_empty [] pad dst_len wb1) as (w1 & b' & Hv & Hop & Hsend & [Hri Hrk] & Hr');
    try done; [constructor|apply refines_default|cbn; lia|].
  specialize (Hv Done w1 (validate_zeros pad w1)). destruct Hop as (Ec & _ & _ & Es & t1 & _ & _ & Et & Ecur).
  exists b', w1. rewrite decapsulate_transport by (done || by right || apply Hw). split_and!; try done.
  - pose proof (handle_verified_packet_runs envB (X := λ _, False) (PktData (formatted sa [] pad)) dst_len wb1 Hw) as Hr.
    unfold runs in Hr. rewrite Hv in Hr. apply Hr; [|done]. cbn. rewrite aead_seal_length. len. lia.
  - by eapply stored_at; [apply Hw|].
  - rewrite Ecur. apply set_current_choice_newest. rewrite Et. exact Hn.
Qed.

(** C3: Two tunnels connect and talk.  Take any two tunnels that are configured for
    each other, in any state between calls, with the same AmneziaWG configuration
    (any junk, header ranges and header protection, trailers or content padding; one
    padding length for all messages; I-packets without a tag [<dz n>] with [n] above
    8, which would panic), of which the responder has not seen the initiator's time
    stamp, whose limiters ask for no cookie, and buffers that are large enough.  The
    initiation of one, handed to [decapsulate] of the other, is answered; the
    answer, handed back, yields a keepalive; the keepalive establishes the session
    at the responder: none of it is misclassified, refused or lost in framing.
    After these four calls, any exchange of up to 2^63 IP packets, sent by either
    end in any order, each handed over before the next is sent, is delivered: what
    one end encapsulates comes out of [decapsulate] of the other as it went in. *)
Theorem tunnels_connect envA envB envA' envB' addrA addrB dst_len wa wb :
  can_connect envA envB dst_len wa wb → now envA ≤ now envA' → now envB ≤ now envB' →
  ∃ d1 d2 d3 wa1 wb1 wa2 wb2,
    Tunn_format_handshake_initiation envA dst_len true wa = (Ok (WriteToNetwork d1), wa1) ∧
    decapsulate envB addrA d1 dst_len wb = (Ok (WriteToNetwork d2), wb1) ∧
    decapsulate envA' addrB d2 dst_len wa1 = (Ok (WriteToNetwork d3), wa2) ∧
    decapsulate envB' addrA d3 dst_len wb1 = (Ok Done, wb2) ∧
    ∀ l, Z.of_nat (length l) ≤ 2 ^ 63 → messages_ok (s_of s4 (tunn wb)) (now envA') (now envB') l → talk l wa2 wb2.
Proof.
  intros Hcan Hta Htb. destruct (connect_first envA envB (now envA') dst_len wa wb Hcan)
    as (d1 & ty & m & i & wa1 & E1 & Hwa1 & Etc1 & Erl1 & Es1 & Epa1 & Hty & Hl & Hs & Hp & Hwi & Hd & Hans).
  destruct Hcan as [Hwa Hwb Etc Hu Hpe _ Hadma Hadmb Hroom Hkeep].
  destruct (connect_second envB addrA dst_len _ d1 ty m i wb Hwb Hu Hadmb (pe_b _ _ Hpe) Hroom Hty Hl Hs Hp Hwi Hd Hans)
    as (d2 & ty2 & m2 & sb & wb1 & E2 & Hwb1 & Hty2 & Hl2 & Hs2 & Ha2 & Hd2 & Etcb & Esb & Hn).
  assert (tc (tunn wa1) = tc (tunn wb)) as Etc' by congruence. rewrite <- Etc' in Hu, Hkeep, Hty2, Ha2, Hd2.
  assert (s_of s1 (tunn wa1) = s_of s1 (tunn wb) ∧ s_of s2 (tunn wa1) = s_of s2 (tunn wb)) as [F1 F2]
    by (unfold s_of; by rewrite Etc').
  rewrite <- F1 in Hroom. rewrite <- F2 in Hd2.
  destruct (connect_third envA' addrB dst_len d2 ty2 m2 sb wa1) as
    (d3 & pad & sa & k1 & k2 & ia & ib & wa2 & E3 & Hwa2 & Hia & Hib & -> & -> & Hd3 & Hl3 & Hfit & Etc2 & Es2 & Ec2);
    try done; [by eapply ok_from| |by unfold own_mac1; rewrite Epa1, <- (pe_ba _ _ Hpe)|].
  { unfold admitting. by rewrite Erl1, Epa1, Etc1. }
  assert (tc (tunn wa1) = tc (tunn wb1)) as Etc1b by congruence. rewrite Etc1b in Hu, Hkeep, Hd3. unfold s_of in Hl3. rewrite Etc1b in Hl3.
  destruct (connect_fourth envB' addrA dst_len d3 pad ia ib k1 k2 wb1) as
    (b' & wb2 & E4 & Hwb2 & Etcb2 & Hsb & Hcb & Hsend & Hpair & Href); try done; [by eapply ok_from| |].
  { eapply (stored_at (tunn wb)); [apply Hwb|exact Esb]. }
  pose proof (stored_at (tunn wa1) (tunn wa2) ia _ (ok_sessions _ _ (proj1 Hwa1)) Es2) as Hsa.
  assert (tc (tunn wa2) = tc (tunn wb2)) as Ett by congruence.
  exists d1, d2, d3, wa1, wb1, wa2, wb2. split_and!; try done. intros l Hlen Hmsg.
  eapply conversing_talk; [|unfold s_of in *; rewrite Etcb2, Etcb; exact Hmsg].
  split; [exact Hwa2|exact Hwb2|exact Ett|by rewrite Etcb2|].
  destruct Hsend as (Hsk & Hsi & Hsc). exists (bump_sending (Session_new ia ib k2 k1)), b'. rewrite Ec2, Hcb.
  split_and!; try done.
  - by rewrite Hsi.
  - unfold ahead. change (sending_key_counter (bump_sending (Session_new ia ib k2 k1))) with 1. change N_BITS with 1024.
    split_and!; [lia|lia|]. eexists. split; [exact Href|done].
  - unfold ahead. rewrite Hsc. change (sending_key_counter (Session_new ib ia k1 k2)) with 0. change N_BITS with 1024.
    split_and!; [lia|lia|]. eexists. split; [apply refines_default|done].
Qed.

(** Tunnels that are fresh from the constructor, each with a limiter of its own,
    can connect. *)
Lemma new_can_connect skA skB psk ka kb indexA indexB config systemA systemB t0 secretA nkeyA secretB nkeyB (gA gB gA' gB' : R) ta tb envA envB dst_len :
  new_with_amnezia3 skA (x25519_public skB) psk ka indexA None config systemA t0 secretA nkeyA gA = Ok (ta, gA') →
  new_with_amnezia3 skB (x25519_public skA) psk kb indexB None config systemB t0 secretB nkeyB gB = Ok (tb, gB') →
  usable config → rng_ok gA → rng_ok gB → t0 ≤ now envA → t0 ≤ now envB →
  s1 (paddings config) = s2 (paddings config) → s2 (paddings config) = s3 (paddings config) → s3 (paddings config) = s4 (paddings config) →
  (∃ t, Tai64N_parse (stamp (TimeStamper_new systemA t0) (now envA)) = Ok t ∧ Tai64N_after t Tai64N_zero = true) →
  (Z.to_nat (s1 (paddings config)) + HANDSHAKE_INIT_SZ ≤ dst_len)%nat →
  (∀ r, content_padding_addition config = Some r → (Z.to_nat (s4 (paddings config)) + 32 + Z.to_nat (hi r) ≤ dst_len)%nat) →
  can_connect envA envB dst_len (mkWorld ta gA') (mkWorld tb gB').
Proof.
  intros Ea Eb Hu HgA HgB HtA HtB H12 H23 H34 Hstamp Hroom Hkeep.
  destruct (tunn_new_ok _ _ _ _ _ _ _ _ _ _ _ _ _ _ Hu HgA Ea) as [HokA HgA'].
  destruct (tunn_new_ok _ _ _ _ _ _ _ _ _ _ _ _ _ _ Hu HgB Eb) as [HokB HgB'].
  unfold new_with_amnezia3 in Ea, Eb. apply bind_ok in Ea as ([] & _ & Ea). apply bind_ok in Eb as ([] & _ & Eb).
  destruct (Timers_new ka _ _ _ _) as [tmA g1]. destruct (Timers_new kb _ _ _ _) as [tmB g2].
  apply Ok_inj, pair_equal_spec in Ea as [<- _]. apply Ok_inj, pair_equal_spec in Eb as [<- _].
  split; cbn [tunn]; [split; [by eapply tunn_ok_later|done]..|done|done| |exact Hstamp| | |done|exact Hkeep].
  - by split.
  - split; [done|by right].
  - split; [done|by right].
Qed.
End connect.

(** ** Two tunnels *)
Section sample.
#[local] Existing Instances sum_stream Rfc4648.engine ToyNoise.crypto ToyAead.cipher.

(** The sample configuration, with one padding length. *)
Definition uniform_config : Amnezia3Config :=
  mkConfig (junk sample_config) (mkPaddingConfig 15 15 15 15) (headers sample_config) (init_packets sample_config)
    (header_protection_key sample_config) None (timing_ranges sample_config) true false 1420.

Lemma usable_uniform : usable uniform_config.
Proof.
  destruct usable_sample as [[[] _] Hc]. split; [|exact Hc]. split; [|by vm_compute].
  by split.
Qed.

Definition alice_new : result ConfigError (Tunn * Pattern) :=
  new_with_amnezia3 ToyNoise.alice (x25519_public ToyNoise.bob) None (Some 25) 1 None uniform_config
    1700000000000000000 0 (replicate 32 1) (replicate 32 2) counting_bytes.
Definition bob_new : result ConfigError (Tunn * Pattern) :=
  new_with_amnezia3 ToyNoise.bob (x25519_public ToyNoise.alice) None None 2 None uniform_config
    1700000000000000000 0 (replicate 32 3) (replicate 32 4) counting_bytes.

Lemma sample_built sk peer ka i secret nkey :
  ∃ t g, new_with_amnezia3 sk peer None ka i None uniform_config 1700000000000000000 0 secret nkey counting_bytes = Ok (t, g).
Proof.
  unfold new_with_amnezia3. replace (Amnezia3Config_validate uniform_config) with (@Ok ConfigError () ()) by (by vm_compute).
  cbn [mbind result_bind]. destruct (Timers_new _ _ _ _ _) as [tm g]. by eexists _, g.
Qed.

(** A packet from Bob, the same packet from Alice, and two more from Bob. *)
Definition sample_message (from_alice : bool) : Message :=
  mkMessage from_alice sample_env sample_env None sample_ipv4 (WriteToTunnelV4 sample_ipv4 [10; 0; 0; 1]) 300 300.
Definition sample_talk : list Message := sample_message <$> [false; true; false; false].

Lemma tunnels_connect_witness :
  ∃ ta ga tb gb d1 d2 d3 wa1 wb1 wa2 wb2, alice_new = Ok (ta, ga) ∧ bob_new = Ok (tb, gb) ∧
    Tunn_format_handshake_initiation sample_env 300 true (mkWorld ta ga) = (Ok (WriteToNetwork d1), wa1) ∧
    decapsulate sample_env None d1 300 (mkWorld tb gb) = (Ok (WriteToNetwork d2), wb1) ∧
    decapsulate sample_env None d2 300 wa1 = (Ok (WriteToNetwork d3), wa2) ∧
    decapsulate sample_env None d3 300 wb1 = (Ok Done, wb2) ∧ talk sample_talk wa2 wb2.
Proof.
  destruct (sample_built ToyNoise.alice (x25519_public ToyNoise.bob) (Some 25) 1 (replicate 32 1) (replicate 32 2)) as (ta & ga & Ea).
  destruct (sample_built ToyNoise.bob (x25519_public ToyNoise.alice) None 2 (replicate 32 3) (replicate 32 4)) as (tb & gb & Eb).
  assert (can_connect sample_env sample_env 300 (mkWorld ta ga) (mkWorld tb gb)) as Hcan.
  { eapply new_can_connect; [exact Ea|exact Eb|exact usable_uniform|exact counting_bytes_ok|exact counting_bytes_ok
      |cbn; lia|cbn; lia|reflexivity|reflexivity|reflexivity| |vm_compute; lia|discriminate].
    eexists. split; [vm_compute; reflexivity|reflexivity]. }
  destruct (tunnels_connect sample_env sample_env sample_env sample_env None None 300 _ _ Hcan (Z.le_refl _) (Z.le_refl _))
    as (d1 & d2 & d3 & wa1 & wb1 & wa2 & wb2 & E1 & E2 & E3 & E4 & Htalk).
  assert (s_of s4 tb = 15%nat) as Hs4.
  { unfold new_with_amnezia3 in Eb. apply bind_ok in Eb as ([] & _ & Eb).
    destruct (Timers_new _ _ _ _ _) as [tm g]. apply Ok_inj, pair_equal_spec in Eb as [<- _]. reflexivity. }
  exists ta, ga, tb, gb, d1, d2, d3, wa1, wb1, wa2, wb2. split_and!; try assumption.
  apply Htalk; [discriminate|]. cbn [tunn]. rewrite Hs4.
  assert (∀ f, message_ok 15 (sample_message f)) as Hm.
  { intros f. split; [by apply (bool_decide_eq_true_1 _)|]. split; [apply ip_v4; [reflexivity|cbn; lia|reflexivity]|cbn; lia]. }
  cbn [sample_talk fmap list_fmap messages_ok m_from_a sample_message m_send m_receive].
  split_and!; first [apply Hm|apply Z.le_refl|exact I].
Defined.

(** Alice's tunnel with one session that has received the counters 0, 1, 4 and 3,
    the last one twice: one packet of five is missing, and the estimate is what
    [1.0 - 0.8] is in [f32], 3355443 of 2^24. *)
Lemma loss_is_a_share_witness : ∃ t g x,
  alice_new = Ok (t, g) ∧
  estimate_loss (store_session 0 (Some (receive_all (Session_new 1 2 [] []) [0; 1; 4; 3; 3])) t) = Some x ∧
  0 ≤ x ≤ F32.lit 1 ∧ x * 2 ^ 24 = F32.lit 3355443.
Proof.
  destruct (sample_built ToyNoise.alice (x25519_public ToyNoise.bob) (Some 25) 1 (replicate 32 1) (replicate 32 2))
    as (t & g & E). exists t, g.
  assert (sessions t = replicate N_SESSIONS None ∧ current t = 0) as [Hs Hc].
  { clear - E. unfold new_with_amnezia3 in E. apply bind_ok in E as ([] & _ & E).
    destruct (Timers_new _ _ _ _ _) as [tm g']. apply Ok_inj, pair_equal_spec in E as [<- _]. by split. }
  destruct (loss_is_a_share (store_session 0 (Some (receive_all (Session_new 1 2 [] []) [0; 1; 4; 3; 3])) t))
    as (x & Hx & Hb & _).
  - intros s Hin. exists 1, 2, [], [], [0; 1; 4; 3; 3]. split.
    + repeat constructor; by vm_compute.
    + revert Hin. change (sessions _) with (<[O := Some (receive_all (Session_new 1 2 [] []) [0; 1; 4; 3; 3])]> (sessions t)). rewrite Hs. generalize (receive_all (Session_new 1 2 [] []) [0; 1; 4; 3; 3]) as s0. cbn. intros s0. rewrite !elem_of_cons, elem_of_nil. naive_solver.
  - exists x. split; [exact E|]. split; [exact Hx|]. split; [exact Hb|].
    clear - Hx Hs Hc. destruct t. cbn in Hs, Hc. subst. vm_compute in Hx. injection Hx as <-. by vm_compute.
Defined.
End sample.
