(* ===== verification/TunnelTimers.v ===== *)
(** * TunnelTimers: what the timer state machine does

    [update_timers] of [Tunnel] on its branches: which sessions it erases, when
    it gives the handshake up and what it leaves then, when it retransmits, and
    how an expired tunnel comes back; and the one call that can panic in a
    buffer that holds its keepalive, [handle_handshake_response] with content
    padding configured. *)

From Stdlib Require Import ZArith Lia.
From stdpp Require Import base list option strings sets tactics.
From S2P Require Import Prelude Clock Random Codec Amnezia Cps Config Packet.
From S2P Require Import Session Handshake RateLimiter Timers Tunnel TunnelSafe.
Open Scope Z_scope.

Section timers.
Context `{CC : ChaCha20} `{B64 : Base64} `{NC : NoiseCrypto} `{AE : Aead} `{RS : RandomSource R}.
#[local] Abbreviation World := (@World R).
Implicit Types w : World.
Implicit Types X : World → Prop.

(** ** Session expiry *)

(** Slot [j] is older than [reject]. *)
Definition outdated (t : Tunn) (time_now reject : Z) (j : nat) : bool :=
  reject <? time_now - nth j (session_timers (tunn_timers t)) 0.

(** The tunnel with the outdated slots below [n] erased and restarted. *)
Definition expired_below (n : nat) (t : Tunn) (time_now reject : Z) : Tunn :=
  on_timers
    (set_session_timers (imap (λ j st, if bool_decide (j < n)%nat && outdated t time_now reject j
                                       then time_now else st) (session_timers (tunn_timers t))))
    (set_sessions (imap (λ j s, if bool_decide (j < n)%nat && outdated t time_now reject j
                                then None else s) (sessions t)) t).

Lemma imap_id {A} (l : list A) f : (∀ j a, f j a = a) → imap f l = l.
Proof.
  intros Hf. apply list_eq. intros j. rewrite list_lookup_imap.
  destruct (l !! j); cbn; [by rewrite Hf|done].
Qed.

Lemma expired_below_0 t time_now reject : expired_below 0 t time_now reject = t.
Proof. unfold expired_below. rewrite !imap_id by done. by destruct t as [? ? ? ? ? []]. Qed.

(** One more slot. *)
Lemma imap_below {A} n (p : nat → bool) (x : A) l :
  imap (λ j a, if bool_decide (j < S n)%nat && p j then x else a) l =
  if p n then <[n := x]> (imap (λ j a, if bool_decide (j < n)%nat && p j then x else a) l)
  else imap (λ j a, if bool_decide (j < n)%nat && p j then x else a) l.
Proof.
  apply list_eq. intros j. destruct (decide (j = n)) as [->|Hne].
  - destruct (p n) eqn:E.
    + rewrite list_lookup_imap. destruct (l !! n) eqn:El; cbn.
      * rewrite E, bool_decide_eq_true_2 by lia. cbn.
        rewrite list_lookup_insert_eq; [done|]. rewrite length_imap. by eapply lookup_lt_Some.
      * symmetry. apply lookup_ge_None. rewrite length_insert, length_imap. by apply lookup_ge_None.
    + rewrite !list_lookup_imap, E, !andb_false_r. done.
  - transitivity (imap (λ j a, if bool_decide (j < n)%nat && p j then x else a) l !! j).
    + rewrite !list_lookup_imap. destruct (l !! j); cbn; [|done].
      assert (bool_decide (j < S n)%nat = bool_decide (j < n)%nat) as ->
        by (apply bool_decide_ext; lia). done.
    + destruct (p n); [|done]. by rewrite list_lookup_insert_ne.
Qed.

Lemma nth_imap_below n (p : nat → bool) (x : Z) l :
  nth n (imap (λ j a, if bool_decide (j < n)%nat && p j then x else a) l) 0 = nth n l 0.
Proof.
  rewrite !nth_lookup, list_lookup_imap. destruct (l !! n); cbn; [|done].
  by rewrite bool_decide_eq_false_2 by lia.
Qed.

Lemma expired_below_S n t time_now reject :
  expired_below (S n) t time_now reject =
  if outdated t time_now reject n then
    on_timers (λ tm, set_session_timers (<[n := time_now]> (session_timers tm)) tm)
      (set_sessions (<[n := None]> (sessions (expired_below n t time_now reject)))
         (expired_below n t time_now reject))
  else expired_below n t time_now reject.
Proof.
  unfold expired_below. rewrite !(imap_below n (outdated t time_now reject)).
  by destruct (outdated t time_now reject n).
Qed.

Lemma expire_sessions_eq n i t time_now reject (g : R) :
  (∀ j, nth j (session_timers (tunn_timers t)) 0 ≤ time_now) →
  expire_sessions n time_now reject (Z.of_nat i) (mkWorld (expired_below i t time_now reject) g) =
  (Ok tt, mkWorld (expired_below (i + n) t time_now reject) g).
Proof.
  intros Hb. revert i. induction n as [|n IH]; intros i; [by rewrite Nat.add_0_r|].
  cbn [expire_sessions].
  assert (expire_session time_now reject (Z.of_nat i)
            (mkWorld (expired_below i t time_now reject) g) =
          (Ok tt, mkWorld (expired_below (S i) t time_now reject) g)) as E.
  { unfold expire_session, mbind, ST_bind, get, gets. cbn [tunn]. rewrite Nat2Z.id.
    assert (nth i (session_timers (tunn_timers (expired_below i t time_now reject))) 0
            = nth i (session_timers (tunn_timers t)) 0) as ->
      by (exact (nth_imap_below i (outdated t time_now reject) time_now _)).
    unfold dsub. rewrite (proj2 (Z.ltb_ge _ _)) by apply Hb. cbn [mret ST_ret].
    rewrite expired_below_S. unfold outdated. by destruct (_ <? _). }
  unfold mbind, ST_bind. rewrite E. replace (Z.of_nat i + 1) with (Z.of_nat (S i)) by lia.
  rewrite IH. do 3 f_equal. lia.
Qed.

(** The head of [update_timers], up to the checks. *)
Definition advanced (env : Env) (t : Tunn) : Tunn :=
  let time_now := elapsed_ns (now env) (time_started (tunn_timers t)) in
  let t := if should_reset_rr (tunn_timers t)
           then set_limiter (reset_count (rate_limiter t) (now env)) t else t in
  let t := on_timers (timer_set TimeCurrent time_now) t in
  expired_below N_SESSIONS t time_now (Timers_reject_after_time (tunn_timers t)).

Lemma update_timers_advanced env dst_len w :
  ok env w →
  let time_now := elapsed_ns (now env) (time_started (tunn_timers (tunn w))) in
  update_timers env dst_len w =
  (t ← get;
   if is_expired (handshake t) then mret (TErr ConnectionExpired) else
   action ← timer_checks env time_now;
   match action with
   | Expire =>
       _ ← upd_tunn (λ t, set_handshake (set_expired (handshake t)) t);
       _ ← clear_all env;
       mret (TErr ConnectionExpired)
   | SendHandshake => Tunn_format_handshake_initiation env dst_len true
   | SendKeepalive => encapsulate env [] dst_len
   | NoAction => mret Done
   end) (mkWorld (advanced env (tunn w)) (rng w)) ∧
  at_time env time_now (mkWorld (advanced env (tunn w)) (rng w)).
Proof.
  intros Hw time_now. pose proof (proj1 Hw) as Hok.
  set (t1 := if should_reset_rr (tunn_timers (tunn w))
             then set_limiter (reset_count (rate_limiter (tunn w)) (now env)) (tunn w) else tunn w).
  set (t2 := on_timers (timer_set TimeCurrent time_now) t1).
  assert (tunn_ok (now env) t1 ∧ tunn_timers t1 = tunn_timers (tunn w)) as [Ht1 Et1].
  { unfold t1. destruct (should_reset_rr _); [|done]. split; [by apply ok_set_limiter|done]. }
  destruct (timer_set_current_ok (tunn_timers t1) time_now) as [Hset Hcur];
    [by destruct Ht1|rewrite Et1; by destruct Hok|].
  assert (tunn_ok (now env) t2) as Ht2.
  { apply ok_on_timers; [done|done| |done]. rewrite Hcur, Et1. done. }
  assert (∀ j, nth j (session_timers (tunn_timers t2)) 0 ≤ time_now) as Hb.
  { intros j. rewrite <- Hcur. by apply session_timer_bound. }
  assert (update_session_timers time_now (mkWorld t2 (rng w)) =
          (Ok tt, mkWorld (advanced env (tunn w)) (rng w))) as Hust.
  { unfold update_session_timers, mbind, ST_bind, get, gets. cbn [tunn].
    pose proof (expire_sessions_eq N_SESSIONS 0 t2 time_now
      (Timers_reject_after_time (tunn_timers t2)) (rng w) Hb) as E.
    rewrite expired_below_0 in E. destruct Ht2 as [_ _ _ Htk _ _ _]. by rewrite (tk_sessions _ Htk). }
  split.
  - unfold update_timers at 1, mbind, ST_bind, get, gets, upd_tunn, modify.
    fold time_now. unfold t2, t1 in Hust.
    destruct (should_reset_rr (tunn_timers (tunn w))); cbn [mret ST_ret tunn rng] in *;
      by rewrite Hust.
  - pose proof (expire_sessions_runs env (X := λ _, False) N_SESSIONS time_now
      (Timers_reject_after_time (tunn_timers t2)) 0 (mkWorld t2 (rng w))) as H.
    unfold update_session_timers, mbind, ST_bind, get, gets in Hust. cbn [tunn] in Hust.
    destruct Ht2 as [? ? ? Htk ? ? ?] eqn:Eq. rewrite (tk_sessions _ Htk) in Hust.
    unfold runs in H. rewrite Hust in H. apply H. split; [split; [exact Ht2|apply Hw]|done].
Qed.

(** [update_session_timers] erases exactly the sessions older than
    [REJECT_AFTER_TIME] (180 s, or the upper end of the configured range) and
    restarts their slots' timers; every other slot keeps its session and timer.
    It never underflows while the slots' timers are in the past. *)
Lemma update_session_timers_spec w time_now :
  length (sessions (tunn w)) = N_SESSIONS →
  length (session_timers (tunn_timers (tunn w))) = N_SESSIONS →
  Forall (λ st, st ≤ time_now) (session_timers (tunn_timers (tunn w))) → 0 ≤ time_now →
  ∃ w', update_session_timers time_now w = (Ok tt, w') ∧
    ∀ j st s, session_timers (tunn_timers (tunn w)) !! j = Some st → sessions (tunn w) !! j = Some s →
      let old := outdated (tunn w) time_now (Timers_reject_after_time (tunn_timers (tunn w))) j in
      sessions (tunn w') !! j = Some (if old then None else s) ∧
      session_timers (tunn_timers (tunn w')) !! j = Some (if old then time_now else st).
Proof.
  intros Hs Hl Hb H0. set (reject := Timers_reject_after_time (tunn_timers (tunn w))).
  assert (∀ j, nth j (session_timers (tunn_timers (tunn w))) 0 ≤ time_now) as Hb'.
  { intros j. rewrite nth_lookup. destruct (_ !! j) as [d|] eqn:E; cbn; [|done].
    by eapply Forall_lookup_1 in Hb. }
  exists (mkWorld (expired_below N_SESSIONS (tunn w) time_now reject) (rng w)). split.
  - unfold update_session_timers, mbind, ST_bind, get, gets. rewrite Hl. fold reject.
    pose proof (expire_sessions_eq N_SESSIONS 0 (tunn w) time_now reject (rng w) Hb') as E.
    rewrite expired_below_0 in E. by destruct w.
  - intros j st x Hst Hx old. unfold expired_below.
    cbn [tunn tunn_timers sessions session_timers on_timers set_sessions set_session_timers].
    assert (j < N_SESSIONS)%nat as Hj by (rewrite <- Hs; by eapply lookup_lt_Some).
    rewrite !list_lookup_imap, Hst, Hx. cbn. rewrite !bool_decide_eq_true_2 by done. done.
Qed.

(** ** Giving up *)
Lemma advanced_keeps env t :
  handshake (advanced env t) = handshake t ∧ tc (advanced env t) = tc t ∧
  rekey_attempt_deadline (tunn_timers (advanced env t)) = rekey_attempt_deadline (tunn_timers t) ∧
  rekey_timeout_current (tunn_timers (advanced env t)) = rekey_timeout_current (tunn_timers t) ∧
  (∀ n, n ≠ TimeCurrent → timer_get (tunn_timers (advanced env t)) n = timer_get (tunn_timers t) n).
Proof.
  unfold advanced. destruct (should_reset_rr _); (split_and!; [done..|]);
    intros n Hn; unfold timer_get; cbn; rewrite !nth_lookup, list_lookup_insert_ne by (by destruct n);
    done.
Qed.

(** The tunnel after an expiry. *)
Definition given_up (t : Tunn) : Prop :=
  is_expired (handshake t) = true ∧ Forall (λ s, s = None) (sessions t) ∧
  packet_queue t = [] ∧ network_outgoing t = [].

(** The two places of the checks that expire the tunnel. *)
Definition expires (env : Env) (t : Tunn) : Prop :=
  let age n := elapsed_ns (now env) (time_started (tunn_timers t)) - timer_get (tunn_timers t) n in
  Timers_reject_after_time (tunn_timers t) * 3 ≤ age TimeSessionEstablished ∨
  is_Some (Handshake_timer (handshake t)) ∧
    rekey_attempt_deadline (tunn_timers t) ≤ age TimeLastHandshakeStarted.

Lemma timer_checks_expire env time_now w :
  at_time env time_now w →
  (Timers_reject_after_time (tunn_timers (tunn w)) * 3 ≤
     time_now - timer_get (tunn_timers (tunn w)) TimeSessionEstablished ∨
   is_Some (Handshake_timer (handshake (tunn w))) ∧
     rekey_attempt_deadline (tunn_timers (tunn w)) ≤
       time_now - timer_get (tunn_timers (tunn w)) TimeLastHandshakeStarted) →
  runs (timer_checks env time_now) w (λ _, False) (λ a _, a = Expire).
Proof.
  intros Hw He. unfold timer_checks. apply runs_bind, get_runs.
  assert (table_below (tunn_timers (tunn w)) time_now) as Hb.
  { intros n. destruct Hw as [Hw <-]. apply timer_get_bound. by destruct (proj1 Hw). }
  eapply runs_seq; [apply aged_runs, Hb|]. intros stale w' [-> _].
  apply (runs_seq _ _ _ _ (λ _ _, True));
    [destruct stale; [by apply upd_runs|by apply runs_ret]|]. intros [] w1 _.
  eapply runs_seq; [apply aged_runs, Hb|]. intros idle w' [-> Hidle].
  destruct idle; [by apply runs_ret|].
  destruct He as [He|[[time_sent Hsome] He]]; [discriminate (proj2 Hidle (conj eq_refl He))|].
  rewrite Hsome. eapply runs_seq; [apply aged_runs, Hb|]. intros gave_up w' [-> Hg].
  destruct gave_up; [by apply runs_ret|]. discriminate (proj2 Hg (conj eq_refl He)).
Qed.

(** [update_timers], called again and again; what each call returns. *)
Fixpoint update_all (calls : list (Env * nat)) : T (R := R) (list TunnResult) :=
  match calls with
  | [] => mret []
  | (env, dst_len) :: calls => r ← update_timers env dst_len; rs ← update_all calls; mret (r :: rs)
  end.

(** Calls at non-decreasing times from [time] on. *)
Fixpoint in_order (time : Z) (calls : list (Env * nat)) : Prop :=
  match calls with
  | [] => True
  | (env, _) :: calls => time ≤ now env ∧ in_order (now env) calls
  end.

Lemma advanced_given_up env t : given_up t → given_up (advanced env t).
Proof.
  intros (He & Hs & Hq & Ho). unfold advanced. set (t1 := if should_reset_rr _ then _ else _).
  assert (sessions t1 = sessions t ∧ handshake t1 = handshake t ∧ packet_queue t1 = packet_queue t
    ∧ network_outgoing t1 = network_outgoing t) as (E1 & E2 & E3 & E4) by (unfold t1; by destruct (should_reset_rr _)).
  unfold given_up, expired_below. cbn. rewrite E1, E2, E3, E4. split_and!; try done.
  apply Forall_lookup. intros j x. rewrite list_lookup_imap. destruct (sessions t !! j) as [y|] eqn:Ey; [|done].
  eapply Forall_lookup in Hs; [|exact Ey]. intros [= <-]. by destruct (_ && _).
Qed.

(** A tunnel that has given up stays so under its timers. *)
Lemma stays_given_up env dst_len w :
  ok env w → given_up (tunn w) →
  ∃ w', update_timers env dst_len w = (Ok (TErr ConnectionExpired), w') ∧ given_up (tunn w') ∧ ok env w'.
Proof.
  intros Hw Hg. destruct (update_timers_advanced env dst_len w Hw) as [Eu [Ha _]].
  rewrite Eu. unfold mbind, ST_bind, get, gets. cbn [tunn].
  destruct (advanced_keeps env (tunn w)) as (Eh & _). rewrite Eh, (proj1 Hg).
  eexists. split; [reflexivity|]. split; [by apply advanced_given_up|done].
Qed.

Lemma update_all_given_up calls : ∀ env w,
  ok env w → given_up (tunn w) → in_order (now env) calls →
  ∃ w', update_all calls w = (Ok (replicate (length calls) (TErr ConnectionExpired)), w') ∧ given_up (tunn w').
Proof.
  induction calls as [|[env' dst_len] calls IH]; intros env w Hw Hg Ho; [by exists w|].
  destruct Ho as [Hle Ho]. assert (Hw' : ok env' w) by (destruct Hw; split; [by eapply tunn_ok_later|done]).
  destruct (stays_given_up env' dst_len w Hw' Hg) as (w1 & E1 & Hg1 & Hw1).
  destruct (IH env' w1 Hw1 Hg1 Ho) as (w2 & E2 & Hg2). exists w2. split; [|done].
  cbn. unfold mbind, ST_bind. by rewrite E1, E2.
Qed.

(** C22: Giving up: when a handshake has been retried past its deadline, or no
    session has been established for three times [REJECT_AFTER_TIME],
    [update_timers] reports [ConnectionExpired], erases every session and drops
    both queues; and however often it is called after that, at non-decreasing
    times, every call reports [ConnectionExpired] and leaves the tunnel without
    sessions and with empty queues, as long as nothing else is asked of the
    tunnel. *)
Theorem update_timers_gives_up env dst_len w calls :
  ok env w → is_expired (handshake (tunn w)) = false → expires env (tunn w) → in_order (now env) calls →
  ∃ w', update_timers env dst_len w = (Ok (TErr ConnectionExpired), w') ∧ given_up (tunn w') ∧
    ∃ w'', update_all calls w' = (Ok (replicate (length calls) (TErr ConnectionExpired)), w'') ∧ given_up (tunn w'').
Proof.
  intros Hw Hne He Ho. destruct (update_timers_advanced env dst_len w Hw) as [Eu Ha].
  set (time_now := elapsed_ns _ _) in *. destruct (advanced_keeps env (tunn w)) as (Eh & Ec & Ed & _ & Et).
  pose proof (timer_checks_expire env time_now _ Ha) as Hx.
  pose proof (timer_checks_runs env (X := λ _, False) time_now _ Ha) as Hk.
  unfold runs in Hx, Hk. cbn [tunn] in *.
  rewrite Eh, Ed, !Et in Hx by done.
  specialize (Hx ltac:(destruct He as [He|He]; [left|right]; [|exact He];
    revert He; unfold advanced; by destruct (should_reset_rr _))).
  rewrite Eu. unfold mbind, ST_bind, get, gets. cbn [tunn]. rewrite Eh, Hne.
  destruct (timer_checks env time_now _) as [[a|e|] w1]; [|done|done]. subst a.
  destruct Hk as [[Hw1 _] _].
  eexists. split; [reflexivity|]. cbn [tunn].
  match goal with |- context [update_all calls ?w'] => set (w2 := w') end.
  assert (Hg : given_up (tunn w2)) by (split; [done|]; split; [|done]; cbn; by apply Forall_map, Forall_true).
  split; [exact Hg|]. apply (update_all_given_up calls env w2); [|exact Hg|exact Ho].
  split; [|apply Hw1]. apply ok_clear_timers, ok_set_outgoing, ok_set_queue; [|cbn; lia].
  apply ok_no_sessions, ok_set_handshake; [apply Hw1|]. by destruct (ok_handshake _ _ (proj1 Hw1)).
Qed.

(** ** Starting and retrying a handshake *)

(** What an emitted initiation leaves: a handshake in flight, the state it
    replaced kept as the previous one. *)
Lemma initiation_state h room ty eph t m h' :
  (HANDSHAKE_INIT_SZ ≤ room)%nat →
  format_handshake_initiation h room ty eph t = (Ok m, h') →
  previous h' = state h ∧ Handshake_timer h' = Some t ∧ is_expired h' = false.
Proof.
  intros Hr E. destruct (format_initiation_spec h room ty eph t Hr)
    as (msg & hash & ck & macs & h1 & _ & Ef & _ & _ & Hp & Hs).
  rewrite Ef in E. apply pair_equal_spec in E as [_ <-].
  unfold Handshake_timer, is_expired. by rewrite Hs.
Qed.

(** [queue_packet]: the oldest 256 packets are kept. *)
Definition enqueued (q : list bytes) (p : bytes) : list bytes :=
  if decide (length q < MAX_QUEUE_DEPTH)%nat then q ++ [p] else q.

(** With no session, a packet to send is queued (while the queue has room)
    and starts a handshake when none is in flight, also when the tunnel has
    expired: the datagram written is the initiation, and the tunnel is then no
    longer expired.  With one in flight nothing is written. *)
Lemma encapsulate_starts_handshake env src dst_len w :
  ok env w → session_at (tunn w) (current (tunn w)) = None →
  (s_of s1 (tunn w) + HANDSHAKE_INIT_SZ ≤ dst_len)%nat →
  ∃ r w', encapsulate env src dst_len w = (Ok r, w') ∧
    packet_queue (tunn w') = enqueued (packet_queue (tunn w)) src ∧
    if is_in_progress (handshake (tunn w)) then r = Done ∧ handshake (tunn w') = handshake (tunn w)
    else (∃ d, r = WriteToNetwork d) ∧ Handshake_timer (handshake (tunn w')) = Some (now env) ∧
      is_expired (handshake (tunn w')) = false.
Proof.
  intros Hw Hs Hd. unfold encapsulate, mbind, ST_bind, get, gets. rewrite Hs.
  unfold queue_packet, upd_tunn, modify.
  set (w1 := mkWorld _ _).
  assert (packet_queue (tunn w1) = enqueued (packet_queue (tunn w)) src ∧
    tc (tunn w1) = tc (tunn w) ∧ handshake (tunn w1) = handshake (tunn w)) as (Eq & Ec & Eh)
    by (unfold w1, enqueued; cbn; by destruct (decide _)).
  assert (ok env w1) as Hw1 by (split; [by apply ok_queue_packet, Hw|apply Hw]).
  rewrite <- Eq, <- Eh. destruct (is_in_progress (handshake (tunn w1))) eqn:Ep.
  - exists Done, w1. unfold Tunn_format_handshake_initiation, mbind, ST_bind, get, gets.
    by rewrite Ep.
  - assert (s_of s1 (tunn w1) = s_of s1 (tunn w)) as Es by (unfold s_of; by rewrite Ec).
    rewrite <- Es in Hd.
    pose proof (initiation_runs env (X := λ _, False) dst_len false w1 Hw1) as Hi.
    rewrite Ep in Hi. specialize (Hi eq_refl Hd). unfold runs in Hi.
    destruct (Tunn_format_handshake_initiation env dst_len false w1) as [[r|e|] w']; [|done|done].
    destruct Hi as (_ & d & ty & m & h' & -> & _ & _ & Ef & _ & Hcore).
    apply core_eq in Hcore as (_ & Eh' & _ & _ & Eq' & _).
    apply initiation_state in Ef as (_ & Ht & He); [|lia]. cbn in Eh'.
    exists (WriteToNetwork d), w'. rewrite Eh'. split_and!; [done|done|by exists d|done|done].
Qed.

Lemma timer_checks_resend env time_now w time_init_sent :
  let w0 := mkWorld (advanced env (tunn w)) (rng w) in
  at_time env time_now w0 → Handshake_timer (handshake (tunn w)) = Some time_init_sent →
  ¬ expires env (tunn w) →
  rekey_timeout_current (tunn_timers (tunn w)) ≤ elapsed_ns (now env) time_init_sent →
  time_now = elapsed_ns (now env) (time_started (tunn_timers (tunn w))) →
  runs (timer_checks env time_now) w0 (λ _, False) (λ a w', a = SendHandshake ∧ ok env w' ∧
    tc (tunn w') = tc (tunn w) ∧ state (handshake (tunn w')) = state (handshake (tunn w))).
Proof.
  intros w0 Ha Hsent Hnx Hlate ->. set (time_now := elapsed_ns _ _) in *.
  destruct (advanced_keeps env (tunn w)) as (Eh & Ec & Ed & Er & Et).
  unfold timer_checks. apply runs_bind, get_runs.
  assert (table_below (tunn_timers (tunn w0)) time_now) as Hb.
  { intros n. destruct Ha as [Ha <-]. apply timer_get_bound. by destruct (proj1 Ha). }
  eapply runs_seq; [apply aged_runs, Hb|]. intros stale w' [-> _].
  apply (runs_seq _ _ _ _ (λ _ w', ok env w' ∧ tc (tunn w') = tc (tunn w) ∧
    state (handshake (tunn w')) = state (handshake (tunn w)))).
  { destruct stale; [apply upd_runs|apply runs_ret; by rewrite <- Eh; split_and!; [apply Ha|..]].
    rewrite <- Eh. split_and!; [|exact Ec|done]. apply (upd_ok env (set_handshake _)); [apply Ha|].
    apply ok_set_handshake; [apply Ha|]. by destruct (ok_handshake _ _ (proj1 (proj1 Ha))). }
  intros [] w1 Hw1. eapply runs_seq; [apply aged_runs, Hb|]. intros idle w' [-> Hidle].
  destruct idle.
  { destruct Hnx. left. pose proof (proj1 Hidle eq_refl) as [_ H]. cbn [tunn w0] in H.
    rewrite Et in H by done. revert H. unfold advanced. by destruct (should_reset_rr _). }
  cbn [tunn w0]. rewrite Eh, Hsent.
  eapply runs_seq; [apply aged_runs, Hb|]. intros gave_up w' [-> Hg]. destruct gave_up.
  { destruct Hnx. right. split; [by rewrite Hsent|]. pose proof (proj1 Hg eq_refl) as [_ H].
    cbn [tunn w0] in H. by rewrite Et, Ed in H. }
  rewrite Er, (proj2 (Z.leb_le _ _)) by done. apply runs_ret. by split.
Qed.

(** Retransmission: while a handshake is unanswered and its deadline not
    reached, [update_timers] writes a fresh initiation as soon as the drawn
    retransmit timeout has passed, and keeps the one it replaces answerable. *)
Lemma update_timers_retransmits env dst_len w time_init_sent :
  ok env w → Handshake_timer (handshake (tunn w)) = Some time_init_sent → ¬ expires env (tunn w) →
  rekey_timeout_current (tunn_timers (tunn w)) ≤ elapsed_ns (now env) time_init_sent →
  (s_of s1 (tunn w) + HANDSHAKE_INIT_SZ ≤ dst_len)%nat →
  ∃ d w', update_timers env dst_len w = (Ok (WriteToNetwork d), w') ∧
    Handshake_timer (handshake (tunn w')) = Some (now env) ∧
    previous (handshake (tunn w')) = state (handshake (tunn w)).
Proof.
  intros Hw Hsent Hnx Hlate Hd. destruct (update_timers_advanced env dst_len w Hw) as [Eu Ha].
  set (time_now := elapsed_ns _ _) in Eu, Ha.
  destruct (advanced_keeps env (tunn w)) as (Eh & Ec & Ed & Er & Et).
  set (w0 := mkWorld (advanced env (tunn w)) (rng w)) in *.
  pose proof (timer_checks_resend env time_now w time_init_sent Ha Hsent Hnx Hlate eq_refl) as Hrun.
  cbv zeta in Hrun. fold w0 in Hrun.
  rewrite Eu. unfold mbind, ST_bind, get, gets. unfold runs in Hrun.
  assert (is_expired (handshake (tunn w0)) = false) as ->.
  { cbn [tunn w0]. rewrite Eh. unfold Handshake_timer, is_expired in *. by destruct (state _). }
  destruct (timer_checks env time_now w0) as [[a|e|] w1]; [|done|done].
  destruct Hrun as (-> & Hw1 & Ec1 & Est1).
  assert (s_of s1 (tunn w1) = s_of s1 (tunn w)) as Es by (unfold s_of; by rewrite Ec1).
  rewrite <- Es in Hd.
  pose proof (initiation_runs env (X := λ _, False) dst_len true w1 Hw1 (andb_false_r _) Hd) as Hi.
  unfold runs in Hi.
  destruct (Tunn_format_handshake_initiation env dst_len true w1) as [[r|e|] w']; [|done|done].
  destruct Hi as (_ & d & ty & m & h' & -> & _ & _ & Ef & _ & Hcore).
  apply core_eq in Hcore as (_ & Eh' & _). apply initiation_state in Ef as (Hp & Ht & _); [|lia].
  cbn in Eh'. exists d, w'. rewrite Eh', <- Est1. done.
Qed.

(** ** The keepalive that answers a response *)

(** The buffer holds the bare keepalive, not the keepalive with [lo range] bytes
    of padding, and neither the UDP window nor the MTU shortens the padding. *)
Definition tight_buffer (t : Tunn) (range : U32Range) (dst_len : nat) : Prop :=
  (s_of s4 t + 32 ≤ dst_len < s_of s4 t + 32 + Z.to_nat (lo range))%nat ∧
  Z.of_nat dst_len ≤ udp_window t ∧ (tunn_mtu t = 0 ∨ Z.of_nat dst_len ≤ tunn_mtu t).

(** With a fixed content padding of [lo r] bytes, a receive buffer that
    holds the unpadded keepalive but not the padded one makes a valid handshake
    response panic the tunnel: the addition is clamped to the whole buffer
    instead of the room behind the keepalive. *)
Lemma response_keepalive_panics env p dst_len w s h range :
  receive_handshake_response (handshake (tunn w)) p (now env) = (Ok s, h) →
  content_padding (tc (tunn w)) = Some range → lo range = hi range →
  tight_buffer (tunn w) range dst_len →
  (handle_verified_packet env (PktResponse p) dst_len w).1 = Panic.
Proof.
  intros Hresp Hc Hfix (Hd & Hwin & Hmtu).
  unfold handle_verified_packet, handle_handshake_response, attempt, mbind, ST_bind, get, gets.
  rewrite decide_False by (unfold DATA_OVERHEAD_SZ; lia).
  unfold on_handshake. rewrite Hresp.
  set (w1 := mkWorld _ _).
  assert (∃ pad, Tunn_content_padding_addition 0 dst_len w1 = (Ok pad, w1) ∧
    (dst_len < s_of s4 (tunn w) + 32 + pad)%nat) as (pad & -> & Hpad).
  { unfold Tunn_content_padding_addition, mbind, ST_bind, get, gets. cbn [tunn w1].
    change (content_padding (tc (set_handshake h (tunn w)))) with (content_padding (tc (tunn w))).
    rewrite Hc. unfold checked_sub. rewrite decide_True by lia.
    unfold rand, U32Range_generate, gen_range_u32. rewrite Hfix, Z.leb_refl.
    eexists. split; [reflexivity|]. cbn [tunn_mtu udp_window set_handshake].
    destruct (decide _); rewrite <- Hfix in *; lia. }
  unfold format_transport_packet, mbind, ST_bind, get, gets, rand.
  destruct (HeaderRange_generate _ _) as [ty g]. unfold checked_sub.
  change (s_of s4 (tunn w1)) with (s_of s4 (tunn w)). rewrite decide_True by lia.
  cbn [must mret ST_ret lift]. unfold format_packet_data, lift, DATA_OVERHEAD_SZ.
  by rewrite decide_True by (cbn [length]; lia).
Qed.
End timers.

(** ** Concrete runs *)
Section sample.
#[local] Existing Instances sum_stream Rfc4648.engine ToyNoise.crypto ToyAead.cipher.

Definition at_second (n : Z) : Env := mkEnv (n * SEC) (replicate 32 9) (λ _ _, 0).

(** A tunnel fresh from the constructor, idle at time zero. *)
Lemma sample_fresh n :
  0 ≤ n →
  ∃ t g, sample_new sample_config = Ok (t, g) ∧ ok (at_second n) (mkWorld t g) ∧
    state (handshake t) = HNone ∧ session_at t (current t) = None ∧ s_of s1 t = 12%nat ∧
    packet_queue t = [] ∧ tunn_timers t = (Timers_new (Some 25) true (timing_ranges sample_config)
                                             0 counting_bytes).1.
Proof.
  intros Hn. destruct sample_new_ok as (t & g & E). exists t, g. split; [done|].
  pose proof E as E'. unfold sample_new in E'.
  destruct (tunn_new_ok _ _ _ _ _ _ _ _ _ _ _ _ _ _ usable_sample counting_bytes_ok E') as [Ht Hg].
  split; [split; [eapply tunn_ok_later; [exact Ht|cbn; unfold SEC; lia]|exact Hg]|].
  unfold new_with_amnezia3 in E'. apply bind_ok in E' as ([] & _ & E').
  change (bool_decide (None = None)) with true in E'.
  destruct (Timers_new (Some 25) _ _ _ _) as [tm g1] eqn:Etm.
  apply Ok_inj, pair_equal_spec in E' as [<- _].
  by split_and!.
Qed.

Lemma update_timers_gives_up_witness :
  ∃ t g w' w'', sample_new sample_config = Ok (t, g) ∧
    update_timers (at_second 600) 300 (mkWorld t g) = (Ok (TErr ConnectionExpired), w') ∧ given_up (tunn w') ∧
    update_all [(at_second 600, 300%nat); (at_second 900, O)] w' = (Ok [TErr ConnectionExpired; TErr ConnectionExpired], w'') ∧
    given_up (tunn w'').
Proof.
  destruct (sample_fresh 600 ltac:(lia)) as (t & g & E & Hok & Hst & _ & _ & _ & Htm).
  destruct (update_timers_gives_up (at_second 600) 300 (mkWorld t g) [(at_second 600, 300%nat); (at_second 900, O)] Hok)
    as (w' & H & Hg & w'' & H' & Hg').
  - unfold is_expired. cbn [tunn]. by rewrite Hst.
  - left. cbn [tunn]. rewrite Htm. vm_compute. discriminate.
  - by vm_compute.
  - by exists t, g, w', w''.
Defined.

(** An initiator waiting for [sample_response], with 64 bytes of content padding. *)
Definition sample_padded : @World Pattern :=
  mkWorld
    (mkTunn (mkTunnConfig HeaderConfig_wireguard_compatible (mkPaddingConfig 0 0 0 0)
               (mkJunkConfig 0 0 0) (mkInitPackets None None None None None) None
               (Some (mkU32Range 64 64)) false false)
       exchange.1.2 (replicate N_SESSIONS None) 0 []
       (Timers_new None true TimingRanges_default 0 counting_bytes).1 0 0
       (RateLimiter_new [] 10 [] [] 0) 1420 500 [])
    counting_bytes.

Lemma sample_response_accepted : ∃ s h,
  receive_handshake_response (handshake (tunn sample_padded)) sample_response (now (at_second 1))
    = (Ok s, h).
Proof.
  assert (is_ok (receive_handshake_response (handshake (tunn sample_padded)) sample_response
    (now (at_second 1))).1 = true) as H by (vm_compute; reflexivity).
  destruct (receive_handshake_response _ _ _) as [[s|e|] h]; [by exists s, h|done|done].
Qed.

End sample.
