(* ===== verification/TunnelIdentity.v ===== *)
(** * TunnelIdentity: what a tunnel keeps across its calls

    A device finds the peer of an inbound message by the high 24 bits of its
    receiver index, and trusts a tunnel to keep the identity it was built with.
    [identity] says so of a tunnel: its configuration, its keys, and that every
    index it has handed out (the next one, those of the handshakes in flight and
    those of its sessions) carries the peer's 24 bits.  Every method of [Tunn]
    keeps it, whatever the network sends and however the method ends. *)

From Stdlib Require Import ZArith Lia.
From stdpp Require Import base list option strings sets tactics.
From S2P Require Import Prelude Clock Random Codec Amnezia Cps Config Packet.
From S2P Require Import Session Handshake RateLimiter Timers Tunnel.
Open Scope Z_scope.

(** The identifier of an index is its high 24 bits. *)
Definition index_of (i x : Z) : Prop := Z.shiftr x 8 = i.

Definition state_indexed (i : Z) (s : HandshakeState) : Prop :=
  match s with InitSent st => index_of i (local_index st) | _ => True end.

Record handshake_indexed (i : Z) (h : Handshake) : Prop := {
  hi_next : u32_ok (next_index h) ∧ index_of i (next_index h);
  hi_previous : state_indexed i (previous h);
  hi_state : state_indexed i (state h)
}.

Definition session_indexed (i : Z) (s : Session) : Prop := index_of i (Session_local_index s).
Definition sessions_indexed (i : Z) (l : list (option Session)) : Prop :=
  Forall (from_option (session_indexed i) True) l.

(** Own public and private key, the peer's public key, the preshared key. *)
Definition keys_of (p : NoiseParams) : bytes * bytes * bytes * option bytes :=
  (static_public p, static_private p, peer_static_public p, preshared_key p).

Record identity (i : Z) (cfg : TunnConfig) (keys : bytes * bytes * bytes * option bytes) (t : Tunn) : Prop := {
  id_config : tc t = cfg;
  id_keys : keys_of (params (handshake t)) = keys;
  id_handshake : handshake_indexed i (handshake t);
  id_sessions : sessions_indexed i (sessions t)
}.

(** ** The handshake *)
Lemma inc_index_indexed i h :
  handshake_indexed i h →
  index_of i (inc_index h).1 ∧ handshake_indexed i (inc_index h).2.
Proof.
  intros [[Hn Hi] Hp Hs]. pose proof (inc_index_eq h Hn) as E. pose proof (inc_index_ok h Hn) as Hok.
  assert (Hx : index_of i (inc_index h).1).
  { unfold index_of in *. rewrite E, Z.shiftr_div_pow2 in * by lia. change (2 ^ 8) with 256 in *.
    Z.to_euclidean_division_equations. lia. }
  split; [done|]. by split.
Qed.

Section handshake.
Context `{NC : NoiseCrypto} `{AE : Aead} (i : Z) (h : Handshake) (Hh : handshake_indexed i h).

(** A handshake method's effect on the identity. *)
Definition handshake_keeps {A} (m : result WireGuardError A * Handshake) (Q : A → Prop) : Prop :=
  handshake_indexed i m.2 ∧ keys_of (params m.2) = keys_of (params h)
  ∧ match m.1 with Ok a => Q a | _ => True end.

Lemma initiation_keeps dst_len ty eph now :
  handshake_keeps (format_handshake_initiation h dst_len ty eph now) (λ _, True).
Proof.
  unfold handshake_keeps, format_handshake_initiation. case_decide; [done|].
  pose proof (inc_index_indexed i h Hh) as [Hx Hh']. destruct (inc_index h) as [idx h'] eqn:E.
  assert (Hpar : params h' = params h) by (unfold inc_index in E; by simplify_eq).
  destruct (initiation_message _ _ _ _) as [[msg hash] ck]. cbn. rewrite Hpar.
  split; [|done]. destruct Hh'. by split.
Qed.

Lemma response_keeps h' dst_len ty eph :
  handshake_indexed i h' → keys_of (params h') = keys_of (params h) →
  handshake_keeps (format_handshake_response h' dst_len ty eph) (λ '(_, s), session_indexed i s).
Proof.
  intros Hh' Hk. unfold handshake_keeps, format_handshake_response. case_decide; [done|].
  destruct (state h') as [| |hash ck pe pidx|]; try done.
  assert (Hn : handshake_indexed i (hs_set_states (previous h') HNone h')) by (destruct Hh'; by split).
  pose proof (inc_index_indexed _ _ Hn) as [Hx Hi].
  destruct (inc_index (hs_set_states _ _ _)) as [idx h1] eqn:E.
  assert (Hpar : params h1 = params h') by (unfold inc_index in E; by simplify_eq).
  destruct (response_message _ _ _ _ _ _ _) as [[msg t2] t3]. cbn. rewrite Hpar.
  split; [|done]. destruct Hi. by split.
Qed.

Lemma receive_init_keeps packet dst_len ty eph :
  handshake_keeps (receive_handshake_initialization h packet dst_len ty eph) (λ '(_, s), session_indexed i s).
Proof.
  unfold receive_handshake_initialization.
  destruct (consume_initiation _ _) as [[[ts hash] ck]|e|]; try done. destruct (Tai64N_after _ _); [|done].
  apply response_keeps; [|done]. destruct Hh. by split.
Qed.

Lemma receive_response_keeps packet now :
  handshake_keeps (receive_handshake_response h packet now) (session_indexed i).
Proof.
  unfold handshake_keeps, receive_handshake_response.
  destruct (awaiting_response h _) as [[st prev]|] eqn:E; [|done].
  destruct (consume_response _ _ _) as [[t2 t3]|e|]; [|done..].
  assert (Hst : index_of i (local_index st)).
  { destruct Hh as [_ Hp Hs]. unfold awaiting_response in E.
    destruct (state h); try destruct (_ =? _); try (by simplify_eq);
      destruct (previous h); try destruct (_ =? _); by simplify_eq. }
  destruct Hh. split; [by destruct prev; split|]. split; [by destruct prev|done].
Qed.

Lemma receive_cookie_keeps packet : handshake_keeps (receive_cookie_reply h packet) (λ _, True).
Proof.
  unfold handshake_keeps, receive_cookie_reply.
  destruct (last_mac1 _); [|done]. destruct (negb _); [done|]. case_decide; [|done].
  destruct (xaead_open _ _ _ _); [|done]. case_decide; [|done]. split; [|done]. destruct Hh. by split.
Qed.
End handshake.

(** ** Methods that keep a property of the tunnel *)
Section keeps.
Context `{RS : RandomSource R} (P : Tunn → Prop).

(** [m] keeps [P], even when it fails; a value it returns satisfies [Q]. *)
Definition keeps {A} (m : T (R := R) A) (Q : A → Prop) : Prop :=
  ∀ w, P (tunn w) → P (tunn (m w).2) ∧ match (m w).1 with Ok a => Q a | _ => True end.

Lemma keeps_bind {A B} (m : T A) (f : A → T B) Q Q' :
  keeps m Q → (∀ a, Q a → keeps (f a) Q') → keeps (m ≫= f) Q'.
Proof.
  intros Hm Hf w Hw. specialize (Hm w Hw). unfold mbind, ST_bind.
  destruct (m w) as [[a|e|] w']; destruct Hm as [Hp Hq]; [|done..]. by apply (Hf a Hq).
Qed.
Lemma keeps_seq {A B} (m : T A) (f : A → T B) Q' :
  keeps m (λ _, True) → (∀ a, keeps (f a) Q') → keeps (m ≫= f) Q'.
Proof. intros Hm Hf. eapply keeps_bind; [exact Hm|]. intros a _. apply Hf. Qed.
Lemma keeps_weaken {A} (m : T A) (Q Q' : A → Prop) : keeps m Q → (∀ a, Q a → Q' a) → keeps m Q'.
Proof. intros Hm HQ w Hw. destruct (Hm w Hw) as [? Hv]. split; [done|]. destruct (m w).1; auto. Qed.
Lemma keeps_ret {A} (a : A) (Q : A → Prop) : Q a → keeps (mret a) Q.
Proof. by intros HQ w Hw. Qed.
Lemma keeps_get : keeps get P.
Proof. by intros w Hw. Qed.
Lemma keeps_upd f : (∀ t, P t → P (f t)) → keeps (upd_tunn f) (λ _, True).
Proof. intros Hf w Hw. split; [|done]. by apply Hf. Qed.
Lemma keeps_rand {A} (f : R → A * R) : keeps (rand f) (λ _, True).
Proof. intros w Hw. unfold rand. by destruct (f (rng w)). Qed.
Lemma keeps_lift {A} (r : result WireGuardError A) Q : (∀ a, r = Ok a → Q a) → keeps (lift r) Q.
Proof. intros HQ w Hw. split; [done|]. cbn. destruct r; auto. Qed.
Lemma keeps_must {A} (o : option A) Q : (∀ a, o = Some a → Q a) → keeps (must o) Q.
Proof. intros HQ w Hw. destruct o; cbn; auto. Qed.
Lemma keeps_throw {A} e (Q : A → Prop) : keeps (throw e) Q.
Proof. by intros w Hw. Qed.
Lemma keeps_panic {A} (Q : A → Prop) : keeps panic Q.
Proof. by intros w Hw. Qed.
Lemma keeps_attempt {A} (m : T A) (Q : A → Prop) :
  keeps m Q → keeps (attempt m) (λ r, match r with Ok a => Q a | _ => True end).
Proof.
  intros Hm w Hw. specialize (Hm w Hw). unfold attempt. by destruct (m w) as [[a|e|] w'], Hm.
Qed.
End keeps.

(** Walk a method: each step keeps the property and says nothing of its value. *)
Ltac keep_step :=
  match goal with
  | |- keeps _ (mbind _ _) _ => apply keeps_seq
  | |- keeps _ (mret _) _ => apply keeps_ret
  | |- keeps _ get _ => eapply keeps_weaken; [apply keeps_get|]
  | |- keeps _ (rand _) _ => eapply keeps_weaken; [apply keeps_rand|]
  | |- keeps _ (fill_some _) _ => unfold fill_some, draw_bytes
  | |- keeps _ (lift _) _ => apply keeps_lift
  | |- keeps _ (must _) _ => apply keeps_must
  | |- keeps _ (throw _) _ => apply keeps_throw
  | |- keeps _ panic _ => apply keeps_panic
  | |- keeps _ (if ?b then _ else _) _ => destruct b
  | |- keeps _ (match ?x with _ => _ end) _ => destruct x
  | |- keeps _ (let '_ := ?x in _) _ => destruct x
  | |- forall _, _ => intro
  end.
Ltac keep := repeat (keep_step; try done); try done.

(** Methods that only draw random bytes keep every property. *)
Section drawing.
Context `{CC : ChaCha20} `{NC : NoiseCrypto} `{RS : RandomSource R} (P : Tunn → Prop).
Abbreviation kept m := (keeps (R := R) P m (λ _, True)).

Lemma content_padding_keeps n dst_len : kept (Tunn_content_padding_addition n dst_len).
Proof. unfold Tunn_content_padding_addition. keep. Qed.
Lemma trailer_keeps n dst_len : kept (trailer_for n dst_len).
Proof. unfold trailer_for. keep. Qed.
Lemma transport_padding_keeps n dst_len : kept (transport_padding n dst_len).
Proof. unfold transport_padding. keep; [apply content_padding_keeps|apply trailer_keeps]. Qed.
Lemma frame_message_keeps n msg dst_len : kept (frame_message n msg dst_len).
Proof. unfold frame_message. keep; apply trailer_keeps. Qed.

Lemma draw_prefix_keeps n t c r p hd : kept (draw_prefix n t c r p hd).
Proof. revert p hd. induction n as [|n IH]; intros p hd; cbn [draw_prefix]; keep; apply IH. Qed.

End drawing.

Section methods.
Context `{CC : ChaCha20} `{B64 : Base64} `{NC : NoiseCrypto} `{AE : Aead} `{RS : RandomSource R}.
Context (i : Z) (cfg : TunnConfig) (keys : bytes * bytes * bytes * option bytes).
Implicit Types t : Tunn.

Abbreviation ID := (identity i cfg keys).
Abbreviation kept m := (keeps (R := R) ID m (λ _, True)).

Lemma id_other t t' :
  tc t' = tc t → handshake t' = handshake t → sessions t' = sessions t → ID t → ID t'.
Proof. intros E1 E2 E3 []. split; congruence. Qed.

Lemma id_store_session n s t : from_option (session_indexed i) True s → ID t → ID (store_session n s t).
Proof.
  intros Hs []. split; try done. cbn. unfold sessions_indexed. by apply Forall_insert.
Qed.

Lemma id_session_at t n s : ID t → session_at t n = Some s → session_indexed i s.
Proof.
  intros [_ _ _ Hs] He. unfold session_at in He.
  destruct (sessions t !! _) as [o|] eqn:Hl; [|done]. cbn in He. subst.
  by apply (Forall_lookup_1 _ _ _ _ Hs) in Hl.
Qed.

Lemma id_no_sessions t : ID t → ID (set_sessions (map (λ _, None) (sessions t)) t).
Proof. intros []. split; try done. cbn. apply Forall_map. by apply Forall_true. Qed.

Lemma on_handshake_keeps {A} (f : Handshake → result WireGuardError A * Handshake) Q :
  (∀ h, handshake_indexed i h → handshake_keeps i h (f h) Q) → keeps (R := R) ID (on_handshake f) Q.
Proof.
  intros Hf w [Hc Hk Hh Hs]. specialize (Hf _ Hh). unfold on_handshake.
  destruct (f (handshake (tunn w))) as [r h'] eqn:E. destruct Hf as (Hh' & Hk' & HQ). cbn in *.
  split; [|done]. split; cbn; try done. congruence.
Qed.

Lemma upd_keeps f :
  (∀ t, tc (f t) = tc t ∧ handshake (f t) = handshake t ∧ sessions (f t) = sessions t) →
  kept (upd_tunn f).
Proof. intros Hf. apply keeps_upd. intros t. destruct (Hf t) as (? & ? & ?). by apply id_other. Qed.

Lemma tick_keeps n : kept (timer_tick n).
Proof. by apply upd_keeps. Qed.
Lemma tick_established_keeps b n : kept (timer_tick_session_established b n).
Proof. by apply upd_keeps. Qed.
Lemma observe_keeps n : kept (observe_datagram n).
Proof. by apply upd_keeps. Qed.
Lemma queue_packet_keeps p : kept (queue_packet p).
Proof. apply upd_keeps. intros t. by case_decide. Qed.
Lemma requeue_packet_keeps p : kept (requeue_packet p).
Proof. apply upd_keeps. intros t. by case_decide. Qed.
Lemma set_current_session_keeps n : kept (set_current_session n).
Proof. apply upd_keeps. intros t. cbn beta zeta. destruct (current t =? n); [done|]. by repeat case_match. Qed.
Lemma dequeue_keeps : kept dequeue_packet.
Proof. unfold dequeue_packet. keep. by apply upd_keeps. Qed.
Lemma poll_keeps : kept poll_outgoing_packet.
Proof. unfold poll_outgoing_packet. keep. by apply upd_keeps. Qed.

Lemma format_packet_data_index s src room ty pad p s' :
  format_packet_data s src room ty pad = Ok (p, s') → receiving_index s' = receiving_index s.
Proof. unfold format_packet_data. repeat case_decide; intros; by simplify_eq. Qed.

Lemma receive_packet_data_index s p n d s' :
  receive_packet_data s p n = Ok (d, s') → receiving_index s' = receiving_index s.
Proof.
  unfold receive_packet_data. case_decide; [done|]. destruct (negb _); [done|].
  intros (_ & _ & Hr)%bind_ok. apply bind_ok in Hr as (pt & _ & Hr). apply bind_ok in Hr as (s1 & H1 & Hr).
  unfold receiving_counter_mark in H1. apply bind_ok in H1 as (v & _ & <-%Ok_inj). by simplify_eq.
Qed.

Lemma format_transport_packet_keeps s src pad dst_len :
  session_indexed i s →
  keeps (R := R) ID (format_transport_packet s src pad dst_len) (λ '(_, s'), session_indexed i s').
Proof.
  intros Hs. unfold format_transport_packet. do 3 (apply keeps_seq; [keep|intros ?]).
  eapply keeps_bind; [apply keeps_lift; intros x Hx; exact Hx|].
  intros [p s'] E%format_packet_data_index. cbn beta iota.
  apply keeps_seq; [apply draw_prefix_keeps|]. intros [pre hd]. apply keeps_ret.
  unfold session_indexed, Session_local_index in *. congruence.
Qed.

Lemma queue_init_packets_keeps env n chains : kept (queue_init_packets env n chains).
Proof.
  revert n. induction chains as [|c cs IH]; intros n; cbn [queue_init_packets]; [keep|].
  apply keeps_seq.
  { intros w Hw. by destruct (CpsChain_generate_for_init _ _ _) as [[]| |]. }
  intros p. apply keeps_seq; [|intros _; apply IH]. case_decide; [keep|]. by apply upd_keeps.
Qed.
Lemma queue_pre_keeps env : kept (queue_pre_handshake_packets env).
Proof. unfold queue_pre_handshake_packets. keep; [apply queue_init_packets_keeps|by apply upd_keeps]. Qed.

Lemma initiate_keeps env dst_len force : kept (Tunn_format_handshake_initiation env dst_len force).
Proof.
  unfold Tunn_format_handshake_initiation. keep;
    try (by apply upd_keeps); try apply queue_pre_keeps; try apply frame_message_keeps;
    try apply tick_keeps.
  eapply keeps_weaken; [apply keeps_attempt, on_handshake_keeps|done].
  intros h Hh. by apply initiation_keeps.
Qed.

Lemma encapsulate_keeps env src dst_len : kept (encapsulate env src dst_len).
Proof.
  unfold encapsulate. eapply keeps_bind; [apply keeps_get|]. intros t Ht.
  destruct (session_at t (current t)); [|keep; [apply queue_packet_keeps|apply initiate_keeps]].
  case_decide; [keep|]. apply keeps_seq; [apply observe_keeps|intros _].
  apply keeps_seq; [apply transport_padding_keeps|intros pad].
  eapply keeps_bind; [apply keeps_get|]. intros t1 Ht1.
  eapply keeps_bind; [apply keeps_must; intros s' Hs'; exact (id_session_at _ _ _ Ht1 Hs')|].
  intros s1 Hs1. eapply keeps_bind; [by apply format_transport_packet_keeps|]. intros [p s2] Hs2.
  apply keeps_seq; [apply keeps_upd; intros t2; by apply id_store_session|intros _].
  keep; try apply tick_keeps. by apply upd_keeps.
Qed.

Lemma send_queued_keeps env dst_len : kept (send_queued_packet env dst_len).
Proof.
  unfold send_queued_packet. keep;
    [apply dequeue_keeps|apply encapsulate_keeps|apply requeue_packet_keeps].
Qed.

Lemma validate_keeps p : kept (validate_decapsulated_packet p).
Proof.
  unfold validate_decapsulated_packet, finish_validate.
  keep; try apply tick_keeps; by apply upd_keeps.
Qed.

Lemma handle_data_keeps p dst_len : kept (handle_data p dst_len).
Proof.
  unfold handle_data. keep_step; [keep|intros t0]. keep_step; [apply observe_keeps|intros _].
  eapply keeps_bind; [apply keeps_get|]. intros t Ht.
  eapply keeps_bind.
  { apply (keeps_lift ID _ (session_indexed i)). intros s Hs.
    destruct (session_at t _) as [s'|] eqn:E; [|done]. apply id_session_at in E; [|done]. cbn in Hs. by simplify_eq. }
  intros s Hs. eapply keeps_bind; [apply keeps_lift; intros x Hx; exact Hx|].
  intros [d s1] E%receive_packet_data_index. cbn beta iota.
  apply keeps_seq; [apply keeps_upd; intros t2; apply id_store_session|intros _].
  { cbn. unfold session_indexed, Session_local_index in *. congruence. }
  keep; [apply set_current_session_keeps|apply tick_keeps|apply validate_keeps].
Qed.

Lemma handle_init_keeps env p dst_len : kept (handle_handshake_init env p dst_len).
Proof.
  unfold handle_handshake_init. do 2 (keep_step; [keep|intros ?]). cbn zeta. case_decide; [keep|].
  eapply keeps_bind; [apply on_handshake_keeps; intros h Hh; by apply receive_init_keeps|].
  intros [pk s] Hs. apply keeps_seq; [apply keeps_upd; intros t2; by apply id_store_session|intros _].
  keep; [apply frame_message_keeps|apply tick_keeps..|apply tick_established_keeps].
Qed.

Lemma handle_response_keeps env p dst_len : kept (handle_handshake_response env p dst_len).
Proof.
  unfold handle_handshake_response. keep_step; [keep|intros ?]. case_decide; [keep|].
  eapply keeps_bind; [apply on_handshake_keeps; intros h Hh; by apply receive_response_keeps|].
  intros s Hs. apply keeps_seq; [apply content_padding_keeps|intros pad].
  eapply keeps_bind; [by apply format_transport_packet_keeps|]. intros [pk s1] Hs1.
  apply keeps_seq; [apply keeps_upd; intros t2; by apply id_store_session|intros _].
  keep; [apply tick_keeps|apply tick_established_keeps|apply set_current_session_keeps].
Qed.

Lemma handle_cookie_keeps p : kept (handle_cookie_reply p).
Proof.
  unfold handle_cookie_reply. apply keeps_seq; [|keep; apply tick_keeps].
  apply on_handshake_keeps. intros h Hh. by apply receive_cookie_keeps.
Qed.

Lemma handle_verified_keeps env p dst_len : kept (handle_verified_packet env p dst_len).
Proof.
  unfold handle_verified_packet. apply keeps_seq; [|intros []; keep].
  eapply keeps_weaken; [apply (keeps_attempt _ _ (λ _, True))|done].
  destruct p; [apply handle_init_keeps|apply handle_response_keeps|apply handle_cookie_keeps|apply handle_data_keeps].
Qed.

Lemma decapsulate_keeps env addr datagram dst_len : kept (decapsulate env addr datagram dst_len).
Proof.
  unfold decapsulate, strip_protection, handle_verdict. case_decide; [apply send_queued_keeps|].
  keep; try apply handle_verified_keeps; try apply frame_message_keeps;
    (intros w Hw; unfold verify; destruct (verify_packet _ _ _ _ _ _ _ _) as [[r rl] g];
     split; [by apply (id_other (tunn w))|done]).
Qed.

Lemma aged_keeps b now since after : kept (aged b now since after).
Proof. unfold aged, dsub. keep. Qed.
Lemma expire_sessions_keeps n now reject k : kept (expire_sessions n now reject k).
Proof.
  revert k. induction n as [|n IH]; intros k; cbn [expire_sessions]; [keep|].
  apply keeps_seq; [|intros _; apply IH].
  unfold expire_session, dsub. keep. apply keeps_upd. intros t [Hc Hk Hh Hs]. split; try done.
  cbn. by apply Forall_insert.
Qed.
Lemma clear_all_keeps env : kept (clear_all env).
Proof. apply keeps_upd. intros t Ht. apply (id_other (set_sessions (map (λ _, None) (sessions t)) t)); try done. by apply id_no_sessions. Qed.
Lemma take_wants_keeps : kept take_want_handshake ∧ kept take_want_keepalive.
Proof. split; unfold take_want_handshake, take_want_keepalive; keep; by apply upd_keeps. Qed.

Lemma timer_checks_keeps env now : kept (timer_checks env now).
Proof.
  destruct take_wants_keeps as [Hh Hk].
  unfold timer_checks, initiator_rekey_due, unanswered_due, keepalive_due, pick.
  eapply keeps_bind; [apply keeps_get|]. intros t Ht. cbn zeta.
  apply keeps_seq; [apply aged_keeps|intros stale]. apply keeps_seq.
  { destruct stale; [|keep]. apply keeps_upd. intros t1 Ht1. destruct Ht as [? Hk1 Hi1 ?], Ht1.
    split; try done. destruct Hi1. by split. }
  keep; try apply aged_keeps; try done; by apply upd_keeps.
Qed.

Lemma update_timers_keeps env dst_len : kept (update_timers env dst_len).
Proof.
  unfold update_timers, update_session_timers.
  keep; try (by apply upd_keeps); try apply expire_sessions_keeps; try apply timer_checks_keeps;
    try apply initiate_keeps; try apply encapsulate_keeps; try apply clear_all_keeps.
  apply keeps_upd. intros t [? ? [] ?]. by split.
Qed.
End methods.

(** ** Construction and rekeying *)
Definition config_of (a : Amnezia3Config) : TunnConfig :=
  mkTunnConfig (headers a) (paddings a) (junk a) (init_packets a) (Amnezia3Config_header_protection a)
    (content_padding_addition a) (random_trailers a) (disable_cookies a).

Section construction.
Context `{CC : ChaCha20} `{B64 : Base64} `{NC : NoiseCrypto} `{AE : Aead} `{RS : RandomSource R}.

Lemma new_identity sk peer psk keepalive index limiter config system_time time secret nkey (g g' : R) t :
  new_with_amnezia3 sk peer psk keepalive index limiter config system_time time secret nkey g = Ok (t, g') →
  0 ≤ index < 2 ^ 24 →
  identity index (config_of config) (x25519_public sk, sk, peer, psk) t.
Proof.
  intros H Hi. unfold new_with_amnezia3 in H. apply bind_ok in H as ([] & _ & H).
  destruct (Timers_new _ _ _ _ _) as [tm g1]. injection H as <- _.
  split; try done; cbn; [|by repeat constructor].
  split; try done. cbn. unfold index_of. rewrite Z.shiftl_mul_pow2 by lia.
  change (2 ^ 24) with 16777216 in Hi. widths. change (2 ^ 8) with 256. rewrite Z.mod_small by lia.
  split; [lia|]. rewrite Z.shiftr_div_pow2 by lia. change (2 ^ 8) with 256. by rewrite Z.div_mul.
Qed.

Lemma set_static_private_identity i cfg keys sk limiter secret nkey env (w : World (R := R)) :
  identity i cfg keys (tunn w) →
  ∃ w', set_static_private sk (x25519_public sk) limiter secret nkey env w = (Ok tt, w')
    ∧ identity i cfg (x25519_public sk, sk, keys.1.2, keys.2) (tunn w')
    ∧ rate_limiter (tunn w') = default (RateLimiter_new (x25519_public sk) PEER_HANDSHAKE_RATE_LIMIT
                                          secret nkey (now env)) limiter.
Proof.
  intros [Hc Hk [] Hs]. eexists. split.
  { unfold set_static_private, upd_tunn, get, mbind, ST_bind, modify, gets, lift,
      Handshake_set_static_private, NoiseParams_set_static_private.
    rewrite decide_True by done. cbn. reflexivity. }
  split; [|done]. split; cbn; try done; [by rewrite <- Hk|]. apply Forall_map. by apply Forall_true.
Qed.
End construction.
