(* ===== verification/EventPoll.v ===== *)
(** * EventPoll: the registry of pollable events

    Models [awgtun/src/device/epoll.rs]: the vector of boxed events indexed by
    file descriptor, and the calls that register, replace and remove an event,
    wait for one, re-arm it and raise or stop a notification.  [epoll] and the
    descriptors are the kernel's: a system call of the registry is emitted as a
    [Ctl], and its result is an argument.  The counter behind a notifier is an
    [EventFd]. *)

From Stdlib Require Import ZArith Lia.
From stdpp Require Import base list option strings sets tactics.
From S2P Require Import Prelude.
Open Scope Z_scope.

Definition EPOLLIN : Z := 1.
Definition EPOLLOUT : Z := 4.
Definition EPOLLHUP : Z := 16.
Definition EPOLLONESHOT : Z := Z.shiftl 1 30.
Definition EPOLLET : Z := Z.shiftl 1 31.

Record Event (H : Type) := mkEvent {
  ev_events : Z;
  ev_fd : Z;
  ev_handler : H;
  ev_notifier : bool;
  ev_needs_read : bool
}.
Arguments mkEvent {H}.
Arguments ev_events {H}.
Arguments ev_fd {H}.
Arguments ev_handler {H}.
Arguments ev_notifier {H}.
Arguments ev_needs_read {H}.

(** The [epoll_ctl] calls of the registry, and its calls on a descriptor. *)
Inductive Ctl :=
  | CtlAdd (fd flags : Z) | CtlDel (fd : Z) | CtlMod (fd flags : Z)
  | CloseFd (fd : Z) | ReadFd (fd : Z) | SetTime (fd sec nsec : Z).

Inductive PollError := EventQueue | Timer.

Inductive WaitResult (H : Type) := WaitOk (ev : Event H) | WaitEoF (ev : Event H) | WaitError.
Arguments WaitOk {H}.
Arguments WaitEoF {H}.
Arguments WaitError {H}.

Section registry.
Context {H : Type}.

(** [EventPoll::events]. *)
Abbreviation Events := (list (option (Event H))).

(** The padding loop of [insert_at]. *)
Definition pad_to (evs : Events) (index : nat) : Events := evs ++ replicate (S index - length evs) None.

Definition insert_at (evs : Events) (index : nat) (data : Event H) : Events * list Ctl :=
  let evs := pad_to evs index in
  let ctl := match evs !! index with Some (Some _) => [CtlDel (Z.of_nat index)] | _ => [] end in
  (<[index := Some data]> evs, ctl).

(** The event stays in the vector when [epoll_ctl] fails. *)
Definition register_event (evs : Events) (ev : Event H) (added : bool)
    : result PollError Z * Events * list Ctl :=
  let trigger := ev_fd ev in
  let '(evs, ctl) := insert_at evs (Z.to_nat trigger) ev in
  (if added then Ok trigger else Err EventQueue, evs, ctl ++ [CtlAdd trigger (ev_events ev)]).

Definition new_event (evs : Events) (trigger : Z) (handler : H) (added : bool)
    : result PollError Z * Events * list Ctl :=
  register_event evs (mkEvent (Z.lor EPOLLIN EPOLLONESHOT) trigger handler false false) added.

Definition new_write_event (evs : Events) (trigger : Z) (handler : H) (added : bool)
    : result PollError Z * Events * list Ctl :=
  register_event evs
    (mkEvent (Z.lor EPOLLOUT (Z.lor EPOLLET EPOLLONESHOT)) trigger handler false false) added.

(** [clear_event_by_fd]: the assertion on the sign, the indexing of the vector. *)
Definition clear_event_by_fd (evs : Events) (index : Z) : result PollError (Events * list Ctl) :=
  if index <? 0 then Panic else
  match evs !! Z.to_nat index with
  | None => Panic
  | Some (Some _) => Ok (<[Z.to_nat index := None]> evs, [CtlDel index])
  | Some None => Ok (evs, [])
  end.

(** The checks before [trigger_notification] and [stop_notification] touch the
    descriptor. *)
Definition notifier_at (evs : Events) (trigger : Z) : result PollError () :=
  match evs !! Z.to_nat trigger with
  | Some (Some ev) => if ev_notifier ev then Ok tt else Panic
  | _ => Panic
  end.

(** [EventPoll::new]: what [epoll_create] returned. *)
Definition EventPoll_new (epoll : Z) : result PollError Events :=
  if epoll =? -1 then Err EventQueue else Ok [].

(** [new_periodic_event]: [boottime] and [monotonic] are what the two attempts at
    [timerfd_create] return, [armed] whether [timerfd_settime] succeeds. *)
Definition new_periodic_event (evs : Events) (handler : H) (sec nsec : Z) (boottime monotonic : Z)
    (armed added : bool) : result PollError Z * Events * list Ctl :=
  let tfd := if boottime =? -1 then monotonic else boottime in
  if tfd =? -1 then (Err Timer, evs, []) else
  if armed then
    let '(r, evs, ctl) :=
      register_event evs (mkEvent (Z.lor EPOLLIN EPOLLONESHOT) tfd handler false true) added in
    (r, evs, SetTime tfd sec nsec :: ctl)
  else (Err Timer, evs, [SetTime tfd sec nsec; CloseFd tfd]).

(** [new_notifier]: [efd] is what [eventfd] returns; no [EPOLLONESHOT]. *)
Definition new_notifier (evs : Events) (handler : H) (efd : Z) (added : bool)
    : result PollError Z * Events * list Ctl :=
  if efd =? -1 then (Err EventQueue, evs, []) else
  register_event evs (mkEvent EPOLLIN efd handler true false) added.

(** [new_signal_event]: [sfd] is what [signalfd] returns. *)
Definition new_signal_event (evs : Events) (handler : H) (sfd : Z) (added : bool)
    : result PollError Z * Events * list Ctl :=
  if sfd =? -1 then (Err EventQueue, evs, []) else
  register_event evs (mkEvent (Z.lor EPOLLIN EPOLLONESHOT) sfd handler false true) added.

(** [wait]: [epoll_wait] returned [n]; [event] is what the reported pointer leads
    to and [flags] the reported flags. *)
Definition wait (n : Z) (event : option (Event H)) (flags : Z) : result PollError (WaitResult H) :=
  if n =? -1 then Ok WaitError
  else if n =? 1 then
    match event with
    | Some ev => Ok (if Z.land flags EPOLLHUP =? 0 then WaitOk ev else WaitEoF ev)
    | None => Panic
    end
  else Ok WaitError.

(** [EventGuard::drop] reads a timer or signal until there is nothing left
    ([pending] reads succeed, one more fails), then re-arms the event; [cancel]
    removes it instead. *)
Definition EventGuard_drop (ev : Event H) (pending : nat) : list Ctl :=
  (if ev_needs_read ev then replicate (S pending) (ReadFd (ev_fd ev)) else [])
  ++ [CtlMod (ev_fd ev) (ev_events ev)].
Definition EventGuard_cancel (evs : Events) (ev : Event H) : result PollError (Events * list Ctl) :=
  clear_event_by_fd evs (ev_fd ev).
Definition notify_writable (enabled : bool) (ev : Event H) : Event H :=
  mkEvent (if enabled then Z.lor EPOLLOUT (Z.lor EPOLLIN (Z.lor EPOLLET EPOLLONESHOT))
           else Z.lor EPOLLIN EPOLLONESHOT)
    (ev_fd ev) (ev_handler ev) (ev_notifier ev) (ev_needs_read ev).

(** The event registered under a descriptor. *)
Definition event_at (evs : Events) (fd : Z) : option (Event H) := mjoin (evs !! Z.to_nat fd).

Lemma pad_to_lookup evs index i : mjoin (pad_to evs index !! i) = mjoin (evs !! i).
Proof.
  unfold pad_to. destruct (decide (i < length evs)%nat); [by rewrite lookup_app_l|].
  rewrite lookup_app_r by lia. rewrite (lookup_ge_None_2 evs) by lia.
  destruct (replicate _ _ !! _) as [o|] eqn:Ho; [|done]. by apply lookup_replicate in Ho as [-> _].
Qed.

Lemma length_pad_to evs index : (index < length (pad_to evs index))%nat.
Proof. unfold pad_to. rewrite length_app, length_replicate. lia. Qed.

(** Registering puts the event under its own descriptor and leaves the others. *)
Lemma event_at_register evs ev added fd :
  0 ≤ fd → 0 ≤ ev_fd ev →
  event_at (register_event evs ev added).1.2 fd = if decide (fd = ev_fd ev) then Some ev else event_at evs fd.
Proof.
  intros Hfd Hev. unfold event_at, register_event, insert_at. cbn. case_decide as Heq.
  - subst. rewrite list_lookup_insert_eq by apply length_pad_to. done.
  - rewrite list_lookup_insert_ne by lia. apply pad_to_lookup.
Qed.

(** Clearing a descriptor the vector reaches leaves every other event. *)
Lemma event_at_clear evs index evs' ctl fd :
  clear_event_by_fd evs index = Ok (evs', ctl) → 0 ≤ fd →
  event_at evs' fd = if decide (fd = index) then None else event_at evs fd.
Proof.
  unfold clear_event_by_fd, event_at. intros Hc Hfd. destruct (Z.ltb_spec index 0); [done|].
  destruct (evs !! Z.to_nat index) as [[ev|]|] eqn:He; simplify_eq; case_decide as Heq; subst.
  - rewrite list_lookup_insert_eq by (by apply lookup_lt_Some in He). done.
  - by rewrite list_lookup_insert_ne by lia.
  - by rewrite He.
  - done.
Qed.
End registry.

(** ** Notifications *)

(** An [eventfd] opened with [EFD_NONBLOCK], as eventfd(2) documents it: a write
    of a value below [2^64 - 1] adds it to the counter, or changes nothing when
    the sum would be too large, and is never lost on an empty counter; a read
    empties the counter; the descriptor is readable while the counter is not
    zero. *)
Class EventFd (C : Type) := {
  eventfd_new : C;
  eventfd_write : Z → C → C;
  eventfd_read : C → C;
  eventfd_readable : C → bool;
  eventfd_new_quiet : eventfd_readable eventfd_new = false;
  eventfd_write_readable v c : 0 < v < 2 ^ 64 - 1 → eventfd_readable (eventfd_write v c) = true;
  eventfd_read_quiet c : eventfd_readable (eventfd_read c) = false
}.

Section notification.
Context `{EF : EventFd C} {H : Type}.
Abbreviation Events := (list (option (Event H))).

(** The value a notifier writes. *)
Definition NOTIFY : Z := 2 ^ 64 - 2.

(** [trigger_notification] and [stop_notification]: the event is looked up and
    must be a notifier, then its counter is written or read. *)
Definition trigger_notification (evs : Events) (trigger : Z) (c : C) : result PollError C :=
  _ ← notifier_at evs trigger; Ok (eventfd_write NOTIFY c).
Definition stop_notification (evs : Events) (trigger : Z) (c : C) : result PollError C :=
  _ ← notifier_at evs trigger; Ok (eventfd_read c).

Lemma notifier_registered (evs : Events) handler efd (evs' : Events) ctl :
  0 ≤ efd → new_notifier evs handler efd true = (Ok efd, evs', ctl) → notifier_at evs' efd = Ok tt.
Proof.
  intros He. unfold new_notifier. rewrite (proj2 (Z.eqb_neq efd (-1))) by lia. intros E.
  pose proof (event_at_register evs (mkEvent EPOLLIN efd handler true false) true efd He He) as Hat.
  rewrite E in Hat. cbn in Hat. rewrite decide_True in Hat by done.
  unfold event_at in Hat. unfold notifier_at. destruct (evs' !! Z.to_nat efd) as [[ev|]|]; try done.
  cbn in Hat. by injection Hat as ->.
Qed.

(** Raising a notification twice is raising it once, and stopping it undoes any
    number of raises. *)
Lemma trigger_pends (evs : Events) t c c' : trigger_notification evs t c = Ok c' → eventfd_readable c' = true.
Proof.
  unfold trigger_notification. intros (_ & _ & [= <-])%bind_ok. apply eventfd_write_readable. unfold NOTIFY. lia.
Qed.
Lemma stop_quiets (evs : Events) t c c' : stop_notification evs t c = Ok c' → eventfd_readable c' = false.
Proof. unfold stop_notification. intros (_ & _ & [= <-])%bind_ok. apply eventfd_read_quiet. Qed.
End notification.

(** The counter eventfd(2) describes. *)
Module Counter.
Definition write (v c : Z) : Z := if c + v <=? 2 ^ 64 - 2 then c + v else c.

Lemma write_readable v c : 0 ≤ c → 0 < v < 2 ^ 64 - 1 → negb (write v c =? 0) = true.
Proof. unfold write. intros. destruct (Z.leb_spec (c + v) (2 ^ 64 - 2)); rewrite negb_true_iff, Z.eqb_neq; lia. Qed.

Record counter := mkCounter { count : Z; count_ok : bool_decide (0 ≤ count) = true }.
Definition at_least (z : Z) : counter := mkCounter (Z.max 0 z) (bool_decide_eq_true_2 _ (Z.le_max_l 0 z)).

Lemma write_counter v c : 0 < v < 2 ^ 64 - 1 → negb (count (at_least (write v (count c))) =? 0) = true.
Proof.
  intros Hv. destruct c as [c Hok]. cbn [count at_least]. pose proof (bool_decide_eq_true_1 _ Hok) as Hc.
  pose proof (write_readable v c Hc Hv) as Hw. rewrite negb_true_iff, Z.eqb_neq in *.
  unfold write in *. destruct (_ <=? _); lia.
Qed.

#[export] Instance eventfd : EventFd counter := {|
  eventfd_new := at_least 0;
  eventfd_write v c := at_least (write v (count c));
  eventfd_read _ := at_least 0;
  eventfd_readable c := negb (count c =? 0);
  eventfd_new_quiet := eq_refl;
  eventfd_write_readable := write_counter;
  eventfd_read_quiet _ := eq_refl
|}.
End Counter.
