(* ===== verification/EventGuards.v ===== *)
(** * EventGuards: the pointers between the registry, the kernel and the workers

    [EventPoll::register_event] hands [epoll] the address of the boxed event as
    user data, [wait] turns the address that the kernel reports back into a
    reference and wraps it in an [EventGuard], and the box is freed by the vector
    slot that owns it.  Nothing in the types ties these together.  This file
    follows the addresses: the registry of [EventPoll], whose events carry the
    address of their box, the interest list of the kernel, and the guards the
    workers hold, under any sequence of registrations, removals, waits and drops
    of guards.  Each call is one step; nothing happens in the middle of one. *)

From Stdlib Require Import ZArith Lia.
From stdpp Require Import base list option strings sets tactics countable gmap fin_maps.
From S2P Require Import Prelude EventPoll.
Open Scope Z_scope.

(** An entry of the interest list: the user data, the flags, and whether the
    descriptor is enabled. *)
Record Entry := mkEntry { en_ptr : nat; en_flags : Z; en_armed : bool }.

Definition oneshot (flags : Z) : bool := Z.testbit flags 30.

(** [epoll] as epoll_ctl(2) and epoll_wait(2) document it.  [ep_ctl] is [None]
    for a call that fails; [ep_report] is a wait that reports a descriptor. *)
Class Epoll (K : Type) := {
  ep_new : K;
  ep_entry : K → Z → option Entry;
  ep_ctl : Ctl → nat → K → option K;
  ep_report : Z → K → option K;
  ep_new_empty fd : ep_entry ep_new fd = None;
  (** ADD and MOD set the entry of their descriptor and enable it. *)
  ep_add_entry fd flags p k k' g : ep_ctl (CtlAdd fd flags) p k = Some k' →
    ep_entry k' g = if decide (g = fd) then Some (mkEntry p flags true) else ep_entry k g;
  ep_mod_entry fd flags p k k' g : ep_ctl (CtlMod fd flags) p k = Some k' →
    ep_entry k' g = if decide (g = fd) then Some (mkEntry p flags true) else ep_entry k g;
  (** DEL removes the entry, and fails only when there is none. *)
  ep_del_entry fd p k k' g : ep_ctl (CtlDel fd) p k = Some k' →
    ep_entry k' g = if decide (g = fd) then None else ep_entry k g;
  ep_del_absent fd p k : ep_ctl (CtlDel fd) p k = None → ep_entry k fd = None;
  (** Only an enabled descriptor is reported; with [EPOLLONESHOT] it is disabled
      by the report. *)
  ep_report_entry fd k k' : ep_report fd k = Some k' →
    ∃ e, ep_entry k fd = Some e ∧ en_armed e = true
      ∧ ∀ g, ep_entry k' g =
          if decide (g = fd) then Some (mkEntry (en_ptr e) (en_flags e) (negb (oneshot (en_flags e))))
          else ep_entry k g
}.

(** What a worker registers, with the descriptor the kernel gave it. *)
Inductive Registration (H : Type) :=
  | REvent (fd : Z) (handler : H)
  | RWrite (fd : Z) (handler : H)
  | RPeriodic (fd : Z) (handler : H) (sec nsec : Z)
  | RNotifier (fd : Z) (handler : H)
  | RSignal (fd : Z) (handler : H).
Arguments REvent {H}.
Arguments RWrite {H}.
Arguments RPeriodic {H}.
Arguments RNotifier {H}.
Arguments RSignal {H}.

Definition r_fd {H} (r : Registration H) : Z :=
  match r with REvent fd _ | RWrite fd _ | RPeriodic fd _ _ _ | RNotifier fd _ | RSignal fd _ => fd end.

Inductive PollOp (H : Type) :=
  | ORegister (r : Registration H)
  | OClear (fd : Z)          (* clear_event_by_fd *)
  | OWait (fd : Z)           (* wait returns a guard for the event of fd *)
  | ODrop (i : nat)          (* the i-th guard goes out of scope *)
  | OCancel (i : nat).       (* cancel on the i-th guard *)
Arguments ORegister {H}.
Arguments OClear {H}.
Arguments OWait {H}.
Arguments ODrop {H}.
Arguments OCancel {H}.

Section guards.
Context `{EP : Epoll K} {H : Type}.

(** The events of the registry with the address of their box. *)
Abbreviation Boxed := (Event (nat * H)).
Definition box (ev : Boxed) : nat := (ev_handler ev).1.

(** The registry, the kernel, the next free address, and the guards: the address
    each holds and the descriptor it came with. *)
Record Poll := mkPoll {
  po_events : list (option Boxed);
  po_kernel : K;
  po_next : nat;
  po_guards : list (nat * Z)
}.

Definition poll_new : Poll := mkPoll [] ep_new 0 [].

(** The system calls of the registry, made one after the other; a failure is not
    looked at. *)
Definition ctl_all (p : nat) (l : list Ctl) (k : K) : K :=
  foldl (λ k c, match c with CtlAdd _ _ | CtlDel _ | CtlMod _ _ => default k (ep_ctl c p k) | _ => k end) k l.

(** The registration through the call of [EventPoll] that makes it. *)
Definition registered (r : Registration H) (b : nat) (evs : list (option Boxed))
    : result PollError Z * list (option Boxed) * list Ctl :=
  match r with
  | REvent fd h => new_event evs fd (b, h) true
  | RWrite fd h => new_write_event evs fd (b, h) true
  | RPeriodic fd h sec nsec => new_periodic_event evs (b, h) sec nsec fd fd true true
  | RNotifier fd h => new_notifier evs (b, h) fd true
  | RSignal fd h => new_signal_event evs (b, h) fd true
  end.

(** One call; [None] when it panics, when the kernel has nothing to report, or when
    it goes through a guard whose box is gone. *)
Definition poll_step (op : PollOp H) (s : Poll) : option Poll :=
  match op with
  | ORegister r =>
      if r_fd r <? 0 then None else
      let '(_, evs, ctl) := registered r (po_next s) (po_events s) in
      Some (mkPoll evs (ctl_all (po_next s) ctl (po_kernel s)) (S (po_next s)) (po_guards s))
  | OClear fd =>
      match clear_event_by_fd (po_events s) fd with
      | Ok (evs, ctl) => Some (mkPoll evs (ctl_all 0 ctl (po_kernel s)) (po_next s) (po_guards s))
      | _ => None
      end
  | OWait fd =>
      e ← ep_entry (po_kernel s) fd;
      k ← ep_report fd (po_kernel s);
      Some (mkPoll (po_events s) k (po_next s) ((en_ptr e, fd) :: po_guards s))
  | ODrop i =>
      g ← po_guards s !! i;
      ev ← event_at (po_events s) g.2;
      if decide (box ev = g.1) then
        Some (mkPoll (po_events s) (ctl_all g.1 (EventGuard_drop ev 0) (po_kernel s)) (po_next s) (delete i (po_guards s)))
      else None
  | OCancel i =>
      g ← po_guards s !! i;
      ev ← event_at (po_events s) g.2;
      if decide (box ev = g.1) then
        match EventGuard_cancel (po_events s) ev with
        | Ok (evs, ctl) => Some (mkPoll evs (ctl_all 0 ctl (po_kernel s)) (po_next s) (delete i (po_guards s)))
        | _ => None
        end
      else None
  end.

Fixpoint poll_run (ops : list (PollOp H)) (s : Poll) : option Poll :=
  match ops with [] => Some s | op :: ops => s' ← poll_step op s; poll_run ops s' end.

(** No worker holds a guard that came with the descriptor. *)
Definition unguarded (fd : Z) (s : Poll) : Prop := ∀ p, (p, fd) ∉ po_guards s.

(** The condition that the comments of [clear_event_by_fd] and [EventGuard] ask
    of the callers: nothing is registered over, or cleared, while a guard for it is
    held; a notifier is not cancelled. *)
Definition disciplined (op : PollOp H) (s : Poll) : Prop :=
  match op with
  | ORegister r => unguarded (r_fd r) s
  | OClear fd => unguarded fd s
  | OCancel i => ∀ g ev, po_guards s !! i = Some g → event_at (po_events s) g.2 = Some ev → ev_notifier ev = false
  | _ => True
  end.
Fixpoint all_disciplined (ops : list (PollOp H)) (s : Poll) : Prop :=
  match ops with
  | [] => True
  | op :: ops => disciplined op s ∧ ∀ s', poll_step op s = Some s' → all_disciplined ops s'
  end.

(** The box at an address is live while a slot owns it: the address leads to the
    event of the descriptor. *)
Definition live (p : nat) (fd : Z) (s : Poll) : Prop :=
  ∃ ev, event_at (po_events s) fd = Some ev ∧ box ev = p.

Record poll_inv (s : Poll) : Prop := {
  pi_slot fd ev : event_at (po_events s) fd = Some ev → 0 ≤ fd →
    ev_fd ev = fd ∧ (ev_notifier ev = false → oneshot (ev_events ev) = true);
  pi_kernel fd e : ep_entry (po_kernel s) fd = Some e → 0 ≤ fd ∧
    ∃ ev, event_at (po_events s) fd = Some ev ∧ box ev = en_ptr e ∧ en_flags e = ev_events ev;
  pi_guard p fd : (p, fd) ∈ po_guards s → 0 ≤ fd ∧
    ∃ ev, event_at (po_events s) fd = Some ev ∧ box ev = p
      ∧ (ev_notifier ev = false → ∀ e, ep_entry (po_kernel s) fd = Some e → en_armed e = false);
  pi_once i j p q fd ev : po_guards s !! i = Some (p, fd) → po_guards s !! j = Some (q, fd) →
    event_at (po_events s) fd = Some ev → ev_notifier ev = false → i = j
}.

Lemma registered_event r b evs :
  0 ≤ r_fd r → ∃ ev, box ev = b ∧ ev_fd ev = r_fd r ∧ (ev_notifier ev = false → oneshot (ev_events ev) = true)
    ∧ (registered r b evs).1.2 = (register_event evs ev true).1.2
    ∧ ∀ k, ctl_all b (registered r b evs).2 k = ctl_all b (register_event evs ev true).2 k.
Proof.
  assert (N : ∀ fd, 0 ≤ fd → (fd =? -1) = false) by (intros; apply Z.eqb_neq; lia).
  destruct r as [fd h|fd h|fd h sec nsec|fd h|fd h]; cbn [r_fd]; intros Hfd; unfold registered.
  - by exists (mkEvent (Z.lor EPOLLIN EPOLLONESHOT) fd (b, h) false false).
  - by exists (mkEvent (Z.lor EPOLLOUT (Z.lor EPOLLET EPOLLONESHOT)) fd (b, h) false false).
  - exists (mkEvent (Z.lor EPOLLIN EPOLLONESHOT) fd (b, h) false true). unfold new_periodic_event. by rewrite !(N fd Hfd).
  - exists (mkEvent EPOLLIN fd (b, h) true false). unfold new_notifier. by rewrite N.
  - exists (mkEvent (Z.lor EPOLLIN EPOLLONESHOT) fd (b, h) false true). unfold new_signal_event. by rewrite N.
Qed.

(** The kernel after a registration: the other descriptors are as they were, and
    an entry under this one is the new one. *)
Lemma register_kernel evs (ev : Boxed) k g e :
  0 ≤ ev_fd ev → (event_at evs (ev_fd ev) = None → ep_entry k (ev_fd ev) = None) →
  ep_entry (ctl_all (box ev) (register_event evs ev true).2 k) g = Some e →
  if decide (g = ev_fd ev) then e = mkEntry (box ev) (ev_events ev) true else ep_entry k g = Some e.
Proof.
  intros Hfd Hslot. unfold register_event, insert_at. cbn [fst snd].
  set (ctl := match _ with Some (Some _) => _ | _ => _ end).
  assert (Hdel : ∀ k', k' = ctl_all (box ev) ctl k →
    ep_entry k' (ev_fd ev) = None ∧ ∀ g, g ≠ ev_fd ev → ep_entry k' g = ep_entry k g).
  { intros k' ->. subst ctl. pose proof (pad_to_lookup evs (Z.to_nat (ev_fd ev)) (Z.to_nat (ev_fd ev))) as Hp.
    unfold event_at in Hslot. destruct (pad_to _ _ !! _) as [[ev0|]|] eqn:Ep; cbn in Hp; [|by (split; [by apply Hslot|done])..].
    unfold ctl_all. cbn [foldl]. rewrite Z2Nat.id by done.
    destruct (ep_ctl (CtlDel (ev_fd ev)) (box ev) k) as [k'|] eqn:Ed; cbn.
    - split; [|intros h Hh]; rewrite (ep_del_entry _ _ _ _ _ Ed); [by rewrite decide_True|by rewrite decide_False].
    - by apply ep_del_absent in Ed. }
  unfold ctl_all. rewrite foldl_app. fold (ctl_all (box ev) ctl k). destruct (Hdel _ eq_refl) as [Hn Ho].
  cbn [foldl]. destruct (ep_ctl _ _ (ctl_all _ _ _)) as [k'|] eqn:Ea; cbn.
  - rewrite (ep_add_entry _ _ _ _ _ g Ea). case_decide; [by intros [= <-]|]. by rewrite Ho.
  - case_decide; [subst; by rewrite Hn|]. by rewrite Ho.
Qed.

(** The kernel after a removal. *)
Lemma clear_kernel (evs : list (option Boxed)) fd evs' ctl k g e :
  clear_event_by_fd evs fd = Ok (evs', ctl) → (event_at evs fd = None → ep_entry k fd = None) →
  ep_entry (ctl_all 0 ctl k) g = Some e → g ≠ fd ∧ ep_entry k g = Some e.
Proof.
  unfold clear_event_by_fd, event_at. intros Hc Hslot. destruct (Z.ltb_spec fd 0); [done|].
  destruct (evs !! Z.to_nat fd) as [[ev|]|]; try done; injection Hc as <- <-; cbn.
  - destruct (ep_ctl (CtlDel fd) 0 k) as [k'|] eqn:Ed; cbn.
    + rewrite (ep_del_entry _ _ _ _ g Ed). case_decide; [done|]. done.
    + apply ep_del_absent in Ed. intros He. split; [|done]. intros ->. congruence.
  - intros He. split; [|done]. intros ->. rewrite (Hslot eq_refl) in He. done.
Qed.

Lemma no_slot_no_entry s fd : poll_inv s → event_at (po_events s) fd = None → ep_entry (po_kernel s) fd = None.
Proof.
  intros I Hn. destruct (ep_entry (po_kernel s) fd) as [e|] eqn:Ee; [|done].
  apply (pi_kernel _ I) in Ee as (_ & ev & Hev & _). congruence.
Qed.

(** Removing the event of a descriptor that no guard is held for. *)
Lemma cleared_inv s fd evs ctl gs :
  poll_inv s → clear_event_by_fd (po_events s) fd = Ok (evs, ctl) →
  (∀ p g, (p, g) ∈ gs → (p, g) ∈ po_guards s ∧ g ≠ fd) →
  (∀ i j p q g, gs !! i = Some (p, g) → gs !! j = Some (q, g) → i ≠ j →
     ∃ i' j', po_guards s !! i' = Some (p, g) ∧ po_guards s !! j' = Some (q, g) ∧ i' ≠ j') →
  poll_inv (mkPoll evs (ctl_all 0 ctl (po_kernel s)) (po_next s) gs).
Proof.
  intros I Hc Hgs Hij. pose proof (λ g, event_at_clear (po_events s) fd evs ctl g Hc) as Hat.
  assert (Hsub : ∀ g ev, 0 ≤ g → event_at evs g = Some ev → g ≠ fd ∧ event_at (po_events s) g = Some ev).
  { intros g ev Hg E. rewrite Hat in E by done. by case_decide. }
  assert (Hk : ∀ g e, ep_entry (ctl_all 0 ctl (po_kernel s)) g = Some e → g ≠ fd ∧ ep_entry (po_kernel s) g = Some e).
  { intros g e. eapply clear_kernel; [done|]. by apply no_slot_no_entry. }
  split; cbn [po_events po_kernel po_guards].
  - intros g ev E Hg. apply (pi_slot _ I); [|done]. by apply Hsub.
  - intros g e [Hne He]%Hk. destruct (pi_kernel _ I g e He) as (Hg & ev & Hev & Hb). split; [done|].
    exists ev. split; [|done]. rewrite Hat by done. by rewrite decide_False.
  - intros p g Hin. destruct (Hgs p g Hin) as [Hin' Hne]. destruct (pi_guard _ I p g Hin') as (Hg & ev & Hev & Hb & Ha).
    split; [done|]. exists ev. split; [rewrite Hat by done; by rewrite decide_False|]. split; [done|].
    intros Hn e [_ He]%Hk. by apply Ha.
  - intros i j p q g ev Hi Hj E Hn. destruct (decide (i = j)) as [|Hne]; [done|].
    destruct (Hij i j p q g Hi Hj Hne) as (i' & j' & Hi' & Hj' & Hne'). destruct Hne'.
    destruct (pi_guard _ I p g) as (Hg & _); [by eapply list_elem_of_lookup_2|].
    eapply (pi_once _ I); [done|done| |done]. by apply Hsub.
Qed.

Lemma delete_guards {A} (l : list A) k i j x y :
  delete k l !! i = Some x → delete k l !! j = Some y → i ≠ j →
  ∃ i' j', l !! i' = Some x ∧ l !! j' = Some y ∧ i' ≠ j' ∧ i' ≠ k ∧ j' ≠ k.
Proof.
  intros Hi Hj Hne. rewrite list_lookup_delete in Hi. rewrite list_lookup_delete in Hj.
  exists (if decide (i < k)%nat then i else S i), (if decide (j < k)%nat then j else S j).
  repeat case_decide; split_and!; try done; lia.
Qed.

Lemma register_inv r s s' : poll_inv s → unguarded (r_fd r) s → poll_step (ORegister r) s = Some s' → poll_inv s'.
Proof.
  intros I Hq. cbn [poll_step]. destruct (Z.ltb_spec (r_fd r) 0) as [|Hfd]; [done|].
  destruct (registered_event r (po_next s) (po_events s) Hfd) as (ev & Hb & Hev & Hone & He & Hk).
  destruct (registered _ _ _) as [[x evs] ctl]. cbn [fst snd] in He, Hk. intros [= <-].
  assert (Hat : ∀ g, 0 ≤ g → event_at evs g = if decide (g = r_fd r) then Some ev else event_at (po_events s) g).
  { intros g Hg. rewrite He, event_at_register by (rewrite ?Hev; done). by rewrite Hev. }
  assert (Hen : ∀ g e, ep_entry (ctl_all (po_next s) ctl (po_kernel s)) g = Some e →
    if decide (g = r_fd r) then e = mkEntry (box ev) (ev_events ev) true else ep_entry (po_kernel s) g = Some e).
  { intros g e. rewrite Hk, <- Hb, <- Hev. apply register_kernel; [by rewrite Hev|]. by apply no_slot_no_entry. }
  split; cbn [po_events po_kernel po_guards].
  - intros g ev' E Hg. rewrite Hat in E by done. case_decide; [|by apply (pi_slot _ I)]. injection E as <-. by subst g.
  - intros g e E%Hen. case_decide as Hg.
    + subst g e. split; [done|]. exists ev. rewrite Hat by done. by rewrite decide_True.
    + destruct (pi_kernel _ I g e E) as (H0 & ev' & Hev' & Hb'). split; [done|]. exists ev'. rewrite Hat by done. by rewrite decide_False.
  - intros p g Hin. assert (Hg : g ≠ r_fd r) by (intros ->; by apply (Hq p)).
    destruct (pi_guard _ I p g Hin) as (H0 & ev' & Hev' & Hb' & Ha). split; [done|]. exists ev'.
    rewrite Hat by done. rewrite decide_False by done. split_and!; [done|done|]. intros Hn e E%Hen. rewrite decide_False in E by done. by apply Ha.
  - intros i j p q g ev' Hi Hj E Hn. destruct (pi_guard _ I p g) as (H0 & _); [by eapply list_elem_of_lookup_2|].
    assert (Hg : g ≠ r_fd r) by (intros ->; apply (Hq p); by eapply list_elem_of_lookup_2).
    rewrite Hat in E by done. rewrite decide_False in E by done. by eapply (pi_once _ I).
Qed.

Lemma wait_inv fd s s' : poll_inv s → poll_step (OWait fd) s = Some s' → poll_inv s'.
Proof.
  intros I. cbn [poll_step]. destruct (ep_entry (po_kernel s) fd) as [e|] eqn:Ee; [|done]. cbn [mbind option_bind].
  destruct (ep_report fd (po_kernel s)) as [k|] eqn:Er; [|done]. cbn. intros [= <-].
  apply ep_report_entry in Er as (e' & Ee' & Ha & Hk). rewrite Ee in Ee'. injection Ee' as <-.
  destruct (pi_kernel _ I fd e Ee) as (H0 & ev & Hev & Hb & Hf). destruct (pi_slot _ I fd ev Hev H0) as [Hfd Hone].
  split; cbn [po_events po_kernel po_guards].
  - apply I.
  - intros g e1. rewrite Hk. case_decide as Hg; [|apply I]. subst g. intros [= <-]. split; [done|]. by exists ev.
  - intros p g Hin. apply elem_of_cons in Hin as [[= -> ->]|Hin].
    + split; [done|]. exists ev. split_and!; [done|done|]. intros Hn e1. rewrite Hk, decide_True by done. intros [= <-]. cbn [en_armed].
      by rewrite Hf, Hone.
    + destruct (pi_guard _ I p g Hin) as (H1 & ev' & Hev' & Hb' & Hd). split; [done|]. exists ev'. split_and!; [done|done|].
      intros Hn e1. rewrite Hk. case_decide as Hg; [|by apply Hd]. subst g. specialize (Hd Hn e Ee). congruence.
  - assert (Hno : ∀ q ev', (q, fd) ∈ po_guards s → event_at (po_events s) fd = Some ev' → ev_notifier ev' = false → False).
    { intros q ev' Hin Hev' Hn. destruct (pi_guard _ I q fd Hin) as (_ & ev2 & Hev2 & _ & Hd).
      rewrite Hev' in Hev2. injection Hev2 as <-. specialize (Hd Hn e Ee). congruence. }
    intros [|i] [|j] p q g ev'; cbn; intros Hi Hj E Hn; [done|..].
    + injection Hi as _ <-. destruct (Hno q ev'); [by eapply list_elem_of_lookup_2|done|done].
    + injection Hj as _ <-. destruct (Hno p ev'); [by eapply list_elem_of_lookup_2|done|done].
    + f_equal. by eapply (pi_once _ I).
Qed.

Lemma drop_inv i s s' : poll_inv s → poll_step (ODrop i) s = Some s' → poll_inv s'.
Proof.
  intros I. cbn [poll_step]. destruct (po_guards s !! i) as [[p fd]|] eqn:Hi; [|done]. cbn.
  destruct (event_at (po_events s) fd) as [ev|] eqn:Hev; [|done]. cbn. case_decide as Hb; [|done]. intros [= <-].
  destruct (pi_guard _ I p fd) as (H0 & _); [by eapply list_elem_of_lookup_2|]. destruct (pi_slot _ I fd ev Hev H0) as [Hfd Hone].
  assert (Hctl : ctl_all p (EventGuard_drop ev 0) (po_kernel s) = default (po_kernel s) (ep_ctl (CtlMod fd (ev_events ev)) p (po_kernel s))).
  { unfold EventGuard_drop. rewrite Hfd. by destruct (ev_needs_read ev). }
  assert (Hk : ∀ g e, ep_entry (ctl_all p (EventGuard_drop ev 0) (po_kernel s)) g = Some e →
    (g = fd ∧ e = mkEntry p (ev_events ev) true) ∨ ep_entry (po_kernel s) g = Some e ∧ (g = fd → ep_ctl (CtlMod fd (ev_events ev)) p (po_kernel s) = None)).
  { intros g e. rewrite Hctl. destruct (ep_ctl _ _ _) as [k|] eqn:Em; cbn; [|by right].
    rewrite (ep_mod_entry _ _ _ _ _ g Em). case_decide; [intros [= <-]; by left|by right]. }
  assert (Hin : ∀ q g, (q, g) ∈ delete i (po_guards s) → (q, g) ∈ po_guards s).
  { intros q g (j & Hj)%list_elem_of_lookup. rewrite list_lookup_delete in Hj. case_decide; by eapply list_elem_of_lookup_2. }
  split; cbn [po_events po_kernel po_guards].
  - apply I.
  - intros g e [[-> ->]|[He _]]%Hk; [|by apply I]. split; [done|]. by exists ev.
  - intros q g Hq. destruct (pi_guard _ I q g (Hin q g Hq)) as (H1 & ev' & Hev' & Hb' & Hd). split; [done|].
    exists ev'. split_and!; [done|done|]. intros Hn e [[-> ->]|[He _]]%Hk; [|by apply Hd].
    apply list_elem_of_lookup in Hq as [j Hj]. exfalso. rewrite list_lookup_delete in Hj.
    case_decide as Hlt; pose proof (pi_once _ I _ _ _ _ _ _ Hi Hj Hev' Hn); lia.
  - intros a b q q' g ev' Ha Hb' E Hn. destruct (decide (a = b)) as [|Hne]; [done|].
    destruct (delete_guards _ _ _ _ _ _ Ha Hb' Hne) as (a' & b' & Ha' & Hb'' & Hne' & _). destruct Hne'. by eapply (pi_once _ I).
Qed.

Lemma cancel_inv i s s' : poll_inv s → disciplined (OCancel i) s → poll_step (OCancel i) s = Some s' → poll_inv s'.
Proof.
  intros I Hd. cbn [poll_step disciplined] in *. destruct (po_guards s !! i) as [[p fd]|] eqn:Hi; [|done]. cbn.
  destruct (event_at (po_events s) fd) as [ev|] eqn:Hev; [|done]. cbn. case_decide as Hb; [|done]. unfold EventGuard_cancel.
  specialize (Hd _ ev eq_refl Hev).
  destruct (pi_guard _ I p fd) as (H0 & _); [by eapply list_elem_of_lookup_2|]. destruct (pi_slot _ I fd ev Hev H0) as [Hfd _].
  rewrite Hfd. destruct (clear_event_by_fd (po_events s) fd) as [[evs ctl]| |] eqn:Ec; try done. intros [= <-].
  eapply cleared_inv; [done|exact Ec| |].
  - intros q g (j & Hj)%list_elem_of_lookup. rewrite list_lookup_delete in Hj.
    case_decide as Hlt; (split; [by eapply list_elem_of_lookup_2|]); intros ->; pose proof (pi_once _ I _ _ _ _ _ _ Hi Hj Hev Hd); lia.
  - intros a b q q' g Ha Hb' Hne. destruct (delete_guards _ _ _ _ _ _ Ha Hb' Hne) as (a' & b' & ? & ? & ? & _). by exists a', b'.
Qed.

Lemma poll_step_inv op s s' : poll_inv s → disciplined op s → poll_step op s = Some s' → poll_inv s'.
Proof.
  intros I. destruct op as [r|fd|fd|i|i].
  - by apply register_inv.
  - cbn. intros Hq. destruct (clear_event_by_fd _ _) as [[evs ctl]| |] eqn:Ec; try done. intros [= <-].
    eapply cleared_inv; [done|exact Ec| |].
    + intros p g Hin. split; [done|]. intros ->. by apply (Hq p).
    + intros i j p q g Hi Hj Hne. by exists i, j.
  - intros _. by apply wait_inv.
  - intros _. by apply drop_inv.
  - by apply cancel_inv.
Qed.

Lemma poll_new_inv : poll_inv poll_new.
Proof.
  split; cbn.
  - intros fd ev E. unfold event_at in E. by rewrite lookup_nil in E.
  - intros fd e. by rewrite ep_new_empty.
  - intros p fd Hin. by apply not_elem_of_nil in Hin.
  - done.
Qed.

Lemma poll_run_inv ops s s' : poll_inv s → all_disciplined ops s → poll_run ops s = Some s' → poll_inv s'.
Proof.
  revert s. induction ops as [|op ops IH]; cbn; intros s I Hd; [by intros [= <-]|]. destruct Hd as [Hop Hrest].
  destruct (poll_step op s) as [s1|] eqn:E; [|done]. cbn. apply IH; [by eapply poll_step_inv|by apply Hrest].
Qed.

Lemma disciplined_cons op ops s s' :
  poll_step op s = Some s' → disciplined op s → all_disciplined ops s' → all_disciplined (op :: ops) s.
Proof. intros E Hd Hr. split; [done|]. intros s1 E1. rewrite E in E1. by injection E1 as <-. Qed.

(** C13: No pointer of the event registry dangles.  From an empty registry, after
    any sequence of registrations of every kind, removals, waits, drops and
    cancellations of guards in which nothing is registered over or removed while
    a guard for it is held: every address the kernel can report leads to a live
    event, the one registered under the reported descriptor; every guard that a
    worker holds refers to a live event; and no two guards share an event unless
    it is a notifier, so a handler runs in one worker at a time. *)
Theorem guarded_pointers_live ops s :
  all_disciplined ops poll_new → poll_run ops poll_new = Some s →
  (∀ fd e, ep_entry (po_kernel s) fd = Some e → live (en_ptr e) fd s)
  ∧ (∀ p fd, (p, fd) ∈ po_guards s → live p fd s)
  ∧ (∀ i j p q fd ev, po_guards s !! i = Some (p, fd) → po_guards s !! j = Some (q, fd) → i ≠ j →
       event_at (po_events s) fd = Some ev → ev_notifier ev = true).
Proof.
  intros Hd Hr. pose proof (poll_run_inv _ _ _ poll_new_inv Hd Hr) as I. split_and!.
  - intros fd e He. destruct (pi_kernel _ I fd e He) as (_ & ev & Hev & Hb & _). by exists ev.
  - intros p fd Hin. destruct (pi_guard _ I p fd Hin) as (_ & ev & Hev & Hb & _). by exists ev.
  - intros i j p q fd ev Hi Hj Hne Hev. destruct (ev_notifier ev) eqn:Hn; [done|]. destruct Hne. by eapply (pi_once _ I).
Qed.
End guards.

(** ** An interest list as a map *)
Module Interest.
Definition ctl (c : Ctl) (p : nat) (k : gmap Z Entry) : option (gmap Z Entry) :=
  match c with
  | CtlAdd fd flags => match k !! fd with None => Some (<[fd := mkEntry p flags true]> k) | Some _ => None end
  | CtlMod fd flags => match k !! fd with Some _ => Some (<[fd := mkEntry p flags true]> k) | None => None end
  | CtlDel fd => match k !! fd with Some _ => Some (delete fd k) | None => None end
  | _ => None
  end.
Definition report (fd : Z) (k : gmap Z Entry) : option (gmap Z Entry) :=
  match k !! fd with
  | Some (mkEntry p flags true) => Some (<[fd := mkEntry p flags (negb (oneshot flags))]> k)
  | _ => None
  end.

Lemma insert_entry fd (e : Entry) (k : gmap Z Entry) g :
  <[fd := e]> k !! g = if decide (g = fd) then Some e else k !! g.
Proof. case_decide; [subst; apply lookup_insert_eq|by apply lookup_insert_ne]. Qed.

#[export, refine] Instance epoll : Epoll (gmap Z Entry) := {|
  ep_new := ∅; ep_entry k fd := k !! fd; ep_ctl := ctl; ep_report := report
|}.
Proof.
  - intros fd. apply lookup_empty.
  - intros fd flags p k k' g. cbn. destruct (k !! fd); [done|]. intros [= <-]. apply insert_entry.
  - intros fd flags p k k' g. cbn. destruct (k !! fd); [|done]. intros [= <-]. apply insert_entry.
  - intros fd p k k' g. cbn. destruct (k !! fd); [|done]. intros [= <-]. case_decide; [subst; apply lookup_delete_eq|by apply lookup_delete_ne].
  - intros fd p k. cbn. by destruct (k !! fd).
  - intros fd k k'. unfold report. destruct (k !! fd) as [[p flags []]|]; try done. intros [= <-].
    eexists. split; [done|]. split; [done|]. intros g. apply insert_entry.
Defined.
End Interest.

Section sample.
Local Existing Instance Interest.epoll.

(** A socket, a timer and a notifier are registered; two workers take the
    notifier, one the socket, whose guard is then cancelled; the timer is removed. *)
Definition sample_ops : list (PollOp Z) :=
  [ORegister (REvent 5 50); ORegister (RPeriodic 6 60 1 0); ORegister (RNotifier 4 40);
   OWait 4; OWait 4; OWait 5; OCancel 0; OClear 6; ORegister (REvent 6 61); OWait 6; ODrop 1].

Lemma guarded_pointers_live_witness :
  ∃ s, poll_run sample_ops poll_new = Some s ∧ (3%nat, 6) ∈ po_guards s ∧ live 3 6 s ∧ live 2 4 s.
Proof.
  eexists. split; [vm_compute; reflexivity|]. split; [vm_compute; by left|].
  edestruct (guarded_pointers_live sample_ops) as (Hk & Hg & _); [|vm_compute; reflexivity|].
  - assert (Hnil : ∀ fd, unguarded (K := gmap Z Entry) (H := Z) fd (mkPoll [] ∅ 0 [])) by (intros fd p; apply not_elem_of_nil).
    do 3 (eapply disciplined_cons; [vm_compute; reflexivity|apply Hnil|]).
    do 3 (eapply disciplined_cons; [vm_compute; reflexivity|exact I|]).
    eapply disciplined_cons; [vm_compute; reflexivity| |].
    { intros g ev Hg Hev. injection Hg as <-. vm_compute in Hev. by injection Hev as <-. }
    do 2 (eapply disciplined_cons; [vm_compute; reflexivity| |];
      [intros p Hin; repeat (apply elem_of_cons in Hin as [Hin|Hin]; [discriminate Hin|]); by apply not_elem_of_nil in Hin|]).
    do 2 (eapply disciplined_cons; [vm_compute; reflexivity|exact I|]). exact I.
  - split; [apply Hg; vm_compute; by left|]. apply (Hk 4 (mkEntry 2 1 true)). reflexivity.
Defined.

(** Registering over a descriptor whose guard is held frees the handler that is
    running: the guard's address no longer leads anywhere.  [event_loop] does this
    when the interface was given as a descriptor: [TunSocket::new] on the numeric
    name yields the same descriptor for every worker, and each worker after the
    first registers the interface again. *)
Lemma registering_over_a_guard_dangles :
  ∃ s, poll_run [ORegister (REvent 7 70); OWait 7; ORegister (REvent 7 71)] poll_new = Some s ∧
    (0%nat, 7) ∈ po_guards s ∧ ∀ fd, 0 ≤ fd → ¬ live 0 fd s.
Proof.
  eexists. split; [vm_compute; reflexivity|]. split; [by left|].
  intros fd Hfd (ev & Hev & Hb). unfold event_at in Hev. cbn [po_events] in Hev.
  destruct (decide (fd = 7)) as [->|Hne]; [vm_compute in Hev; injection Hev as <-; discriminate Hb|].
  destruct (decide (fd < 8)) as [Hlt|Hge].
  - assert (fd = 0 ∨ fd = 1 ∨ fd = 2 ∨ fd = 3 ∨ fd = 4 ∨ fd = 5 ∨ fd = 6) as Hc by lia.
    destruct Hc as [->|[->|[->|[->|[->|[->| ->]]]]]]; discriminate Hev.
  - rewrite lookup_ge_None_2 in Hev; [discriminate Hev|]. cbn. lia.
Qed.
End sample.
