(* ===== verification/Kqueue.v ===== *)
(** * Kqueue: the registry of pollable events on Darwin and BSD

    Models [awgtun/src/device/kqueue.rs]: the three vectors of boxed events
    (descriptors, timers and notifiers, signals), the calls that register and
    remove an event, wait for one and raise or stop a notification.  The calls to
    [kevent] and [signal] are emitted as [KCall]s and their results are arguments;
    the kernel's queue is a [Kernel], as kqueue(2) documents it. *)

From Stdlib Require Import ZArith Lia.
From stdpp Require Import base list option strings sets tactics countable gmap fin_maps.
From S2P Require Import Prelude.
Open Scope Z_scope.

Definition EV_ADD : Z := 1.
Definition EV_DELETE : Z := 2.
Definition EV_ENABLE : Z := 4.
Definition EV_DISABLE : Z := 8.
Definition EV_DISPATCH : Z := 128.
Definition EV_EOF : Z := 32768.
Definition NOTE_NSECONDS : Z := 4.
Definition NOTE_TRIGGER : Z := Z.shiftl 1 24.

Inductive Filter := EVFILT_READ | EVFILT_TIMER | EVFILT_USER | EVFILT_SIGNAL.
#[export] Instance Filter_eq_dec : EqDecision Filter.
Proof. solve_decision. Defined.
#[export, refine] Instance Filter_countable : Countable Filter :=
  inj_countable' (λ f, match f with EVFILT_READ => 0 | EVFILT_TIMER => 1 | EVFILT_USER => 2 | EVFILT_SIGNAL => 3 end)%nat
    (λ n, match n with 0 => EVFILT_READ | 1 => EVFILT_TIMER | 2 => EVFILT_USER | _ => EVFILT_SIGNAL end)%nat _.
Proof. by intros []. Defined.

(** [kevent]; [udata] is the address of the box. *)
Record Kevent := mkKevent {
  ident : Z; filter : Filter; flags : Z; fflags : Z; kdata : Z; udata : nat
}.
Definition set_flags (f : Z) (k : Kevent) : Kevent :=
  mkKevent (ident k) (filter k) f (fflags k) (kdata k) (udata k).
Definition set_fflags (f : Z) (k : Kevent) : Kevent :=
  mkKevent (ident k) (filter k) (flags k) f (kdata k) (udata k).

Inductive EventKind := FD | Notifier | Signal | Timer.
#[export] Instance EventKind_eq_dec : EqDecision EventKind.
Proof. solve_decision. Defined.

Record Event (H : Type) := mkEvent { event : Kevent; handler : H; kind : EventKind }.
Arguments mkEvent {H}.
Arguments event {H}.
Arguments handler {H}.
Arguments kind {H}.

Inductive KCall := Submit (k : Kevent) | SigIgn (signal : Z).

Section kqueue.
Context {H : Type}.

Abbreviation Events := (list (option (Event H))).
Record EventPoll := mkEventPoll { events : Events; custom : Events; signals : Events }.

Definition EventPoll_new (kqueue : Z) : result () EventPoll :=
  if kqueue =? -1 then Err tt else Ok (mkEventPoll [] [] []).

(** The vector an event of a kind goes to. *)
Definition table (k : EventKind) (s : EventPoll) : Events :=
  match k with FD => events s | Timer | Notifier => custom s | Signal => signals s end.
Definition set_table (k : EventKind) (l : Events) (s : EventPoll) : EventPoll :=
  match k with
  | FD => mkEventPoll l (custom s) (signals s)
  | Timer | Notifier => mkEventPoll (events s) l (signals s)
  | Signal => mkEventPoll (events s) (custom s) l
  end.

Definition pad_to (evs : Events) (index : nat) : Events := evs ++ replicate (S index - length evs) None.

(** [register_event]: [b] is the address of the new box, [added] whether the
    [kevent] call with [EV_ADD] succeeds. *)
Definition register_event (s : EventPoll) (ev : Event H) (b : nat) (added : bool)
    : result () Z * EventPoll * list KCall :=
  let evs := table (kind ev) s in
  let '(trigger, index) :=
    match kind ev with
    | FD | Signal => (ident (event ev), Z.to_nat (ident (event ev)))
    | Timer | Notifier => (- Z.of_nat (length evs) - 1, length evs)
    end in
  let evs := pad_to evs index in
  let ke := mkKevent (wrap 64 trigger) (filter (event ev)) (flags (event ev)) (fflags (event ev)) (kdata (event ev)) b in
  let add := Submit (set_flags (Z.lor (flags ke) EV_ADD) ke) in
  if added then
    let del := match evs !! index with
               | Some (Some old) => [Submit (set_flags EV_DELETE (event old))]
               | _ => []
               end in
    let ign := match kind ev with Signal => [SigIgn trigger] | _ => [] end in
    (Ok trigger, set_table (kind ev) (<[index := Some (mkEvent ke (handler ev) (kind ev))]> evs) s,
     add :: del ++ ign)
  else (Err tt, set_table (kind ev) evs s, [add]).

Definition new_event (s : EventPoll) (trigger : Z) (h : H) (b : nat) (added : bool) :=
  register_event s (mkEvent (mkKevent trigger EVFILT_READ (Z.lor EV_ENABLE EV_DISPATCH) 0 0 0) h FD) b added.

(** The period in nanoseconds, [None] where the checked arithmetic overflows. *)
Definition period_ns (secs subsec_nanos : Z) : option Z :=
  if secs * 1000000000 <? 2 ^ 64 then
    if secs * 1000000000 + subsec_nanos <? 2 ^ 64 then Some (secs * 1000000000 + subsec_nanos) else None
  else None.
Definition new_periodic_event (s : EventPoll) (h : H) (secs subsec_nanos : Z) (b : nat) (added : bool)
    : result () Z * EventPoll * list KCall :=
  match period_ns secs subsec_nanos with
  | None => (Panic, s, [])
  | Some ns =>
      register_event s (mkEvent (mkKevent 0 EVFILT_TIMER (Z.lor EV_ENABLE EV_DISPATCH) NOTE_NSECONDS ns 0) h Timer) b added
  end.

Definition new_notifier (s : EventPoll) (h : H) (b : nat) (added : bool) :=
  register_event s (mkEvent (mkKevent 0 EVFILT_USER EV_ENABLE 0 0 0) h Notifier) b added.

Definition new_signal_event (s : EventPoll) (signal : Z) (h : H) (b : nat) (added : bool) :=
  register_event s (mkEvent (mkKevent signal EVFILT_SIGNAL (Z.lor EV_ENABLE EV_DISPATCH) 0 0 0) h Signal) b added.

(** [wait]: [n] is what [kevent] returned, [ev] what the reported address leads
    to and [fl] the reported flags. *)
Inductive WaitResult := WaitOk (ev : Event H) | WaitEoF (ev : Event H) | WaitError.
Definition wait (n : Z) (ev : option (Event H)) (fl : Z) : result () WaitResult :=
  if n =? -1 then Ok WaitError else
  match ev with
  | Some ev => Ok (if Z.land fl EV_EOF =? 0 then WaitOk ev else WaitEoF ev)
  | None => Panic
  end.

(** The event of a notifier's reference: the vector is indexed with
    [-trigger - 1]. *)
Definition notifier_of (s : EventPoll) (trigger : Z) : result () (Event H) :=
  if - trigger - 1 <? 0 then Panic else
  match custom s !! Z.to_nat (- trigger - 1) with
  | Some (Some ev) => if decide (kind ev = Notifier) then Ok ev else Panic
  | _ => Panic
  end.
Definition trigger_notification (s : EventPoll) (trigger : Z) : result () KCall :=
  ev ← notifier_of s trigger; Ok (Submit (set_fflags NOTE_TRIGGER (event ev))).
Definition stop_notification (s : EventPoll) (trigger : Z) : result () KCall :=
  ev ← notifier_of s trigger; Ok (Submit (set_fflags 0 (set_flags EV_DISABLE (event ev)))).

(** [clear_event_by_fd]: a negative index is a timer's or a notifier's. *)
Definition clear_event_by_fd (s : EventPoll) (index : Z) : result () (EventPoll * list KCall) :=
  let '(k, i) := if 0 <=? index then (FD, Z.to_nat index) else (Timer, Z.to_nat (- index - 1)) in
  match table k s !! i with
  | None => Panic
  | Some (Some ev) => Ok (set_table k (<[i := None]> (table k s)) s, [Submit (set_flags EV_DELETE (event ev))])
  | Some None => Ok (s, [])
  end.

(** [EventGuard::drop] submits the event as it was registered; [cancel] removes
    it, with the identifier read back as a descriptor. *)
Definition EventGuard_drop (ev : Event H) : KCall := Submit (event ev).
Definition as_fd (z : Z) : Z := let r := wrap 32 z in if r <? 2 ^ 31 then r else r - 2 ^ 32.
Definition EventGuard_cancel (s : EventPoll) (ev : Event H) : result () (EventPoll * list KCall) :=
  clear_event_by_fd s (as_fd (ident (event ev))).
End kqueue.
Arguments EventPoll : clear implicits.

(** ** The kernel's queue *)

(** kqueue(2): an event is named by its identifier and its filter; adding an event
    that is there already modifies it; deleting fails only when there is none. *)
Class Kernel (K : Type) := {
  kq_new : K;
  kq_udata : K → Z → Filter → option nat;
  kq_submit : Kevent → K → option K;
  kq_new_empty i f : kq_udata kq_new i f = None;
  kq_add c k k' i f : Z.testbit (flags c) 0 = true → kq_submit c k = Some k' →
    kq_udata k' i f = if decide ((i, f) = (ident c, filter c)) then Some (udata c) else kq_udata k i f;
  kq_delete c k k' i f : flags c = EV_DELETE → kq_submit c k = Some k' →
    kq_udata k' i f = if decide ((i, f) = (ident c, filter c)) then None else kq_udata k i f;
  kq_delete_absent c k : flags c = EV_DELETE → kq_submit c k = None → kq_udata k (ident c) (filter c) = None
}.

(** What is registered, with its parameters. *)
Inductive Registration (H : Type) :=
  | REvent (fd : Z) (h : H)
  | RPeriodic (secs nanos : Z) (h : H)
  | RNotifier (h : H)
  | RSignal (signal : Z) (h : H).
Arguments REvent {H}.
Arguments RPeriodic {H}.
Arguments RNotifier {H}.
Arguments RSignal {H}.

Inductive KqOp (H : Type) := KRegister (r : Registration H) | KClear (index : Z).
Arguments KRegister {H}.
Arguments KClear {H}.

Section queue.
Context `{KE : Kernel K} {H : Type}.

(** The registry and the kernel. *)
Record Kq := mkKq { kq_poll : EventPoll H; kq_kernel : K; kq_next : nat }.
Definition kq_start : Kq := mkKq (mkEventPoll [] [] []) kq_new 0.

Definition submit_all (l : list KCall) (k : K) : K :=
  foldl (λ k c, match c with Submit c => default k (kq_submit c k) | SigIgn _ => k end) k l.

Definition registered (r : Registration H) (s : EventPoll H) (b : nat) (added : bool)
    : result () Z * EventPoll H * list KCall :=
  match r with
  | REvent fd h => new_event s fd h b added
  | RPeriodic secs nanos h => new_periodic_event s h secs nanos b added
  | RNotifier h => new_notifier s h b added
  | RSignal signal h => new_signal_event s signal h b added
  end.

(** Whether the kernel takes the first of the calls. *)
Definition taken (l : list KCall) (k : K) : bool :=
  match l with Submit c :: _ => match kq_submit c k with Some _ => true | None => false end | _ => false end.

Definition kq_step (op : KqOp H) (s : Kq) : option Kq :=
  match op with
  | KRegister r =>
      let added := taken (registered r (kq_poll s) (kq_next s) true).2 (kq_kernel s) in
      match registered r (kq_poll s) (kq_next s) added with
      | (Panic, _, _) => None
      | (_, p, calls) => Some (mkKq p (submit_all calls (kq_kernel s)) (S (kq_next s)))
      end
  | KClear index =>
      match clear_event_by_fd (kq_poll s) index with
      | Ok (p, calls) => Some (mkKq p (submit_all calls (kq_kernel s)) (kq_next s))
      | _ => None
      end
  end.
Fixpoint kq_run (ops : list (KqOp H)) (s : Kq) : option Kq :=
  match ops with [] => Some s | op :: ops => s' ← kq_step op s; kq_run ops s' end.

(** Descriptors and signals are small, there are fewer than [2^31] timers and
    notifiers, and nothing is registered over a registered event. *)
Definition fresh (op : KqOp H) (s : Kq) : Prop :=
  match op with
  | KRegister (REvent fd _) => 0 ≤ fd < 2 ^ 31 ∧ mjoin (events (kq_poll s) !! Z.to_nat fd) = None
  | KRegister (RSignal sig _) => 0 ≤ sig < 2 ^ 31 ∧ mjoin (signals (kq_poll s) !! Z.to_nat sig) = None
  | KRegister _ => Z.of_nat (length (custom (kq_poll s))) < 2 ^ 31
  | KClear _ => True
  end.
Fixpoint all_fresh (ops : list (KqOp H)) (s : Kq) : Prop :=
  match ops with [] => True | op :: ops => fresh op s ∧ ∀ s', kq_step op s = Some s' → all_fresh ops s' end.

(** ** The registry agrees with the kernel *)

(** The vectors by one of their kinds. *)
Definition canon (k : EventKind) : EventKind := match k with Notifier => Timer | k => k end.

Lemma table_canon k (s : EventPoll H) : table (canon k) s = table k s.
Proof. by destruct k. Qed.
Lemma table_set k k' l (s : EventPoll H) :
  table k' (set_table k l s) = if decide (canon k' = canon k) then l else table k' s.
Proof. by destruct k, k'. Qed.

(** The identifier of the event in a slot, and the filters of a vector. *)
Definition ident_of (k : EventKind) (i : nat) : Z :=
  match k with FD | Signal => Z.of_nat i | _ => 2 ^ 64 - 1 - Z.of_nat i end.
Definition filter_ok (k : EventKind) (f : Filter) : bool :=
  match k, f with
  | FD, EVFILT_READ | Signal, EVFILT_SIGNAL | (Timer | Notifier), (EVFILT_TIMER | EVFILT_USER) => true
  | _, _ => false
  end.
Definition in_slot (s : EventPoll H) (k : EventKind) (i : nat) (ev : Event H) : Prop :=
  table k s !! i = Some (Some ev).

Record kq_inv (s : Kq) : Prop := {
  ki_slot k i ev : in_slot (kq_poll s) k i ev →
    Z.of_nat i < 2 ^ 31 ∧ ident (event ev) = ident_of k i ∧ filter_ok k (filter (event ev)) = true;
  ki_kernel i f p : kq_udata (kq_kernel s) i f = Some p ↔
    ∃ k n ev, in_slot (kq_poll s) k n ev ∧ ident (event ev) = i ∧ filter (event ev) = f ∧ udata (event ev) = p
}.

(** The name of an event determines its slot. *)
Lemma slot_of_name k k' i i' f :
  Z.of_nat i < 2 ^ 31 → Z.of_nat i' < 2 ^ 31 → filter_ok k f = true → filter_ok k' f = true →
  ident_of k i = ident_of k' i' → canon k = canon k' ∧ i = i'.
Proof. destruct k, k', f; cbn; try done; intros; (split; [done|lia]). Qed.

Lemma pad_to_slot (evs : list (option (Event H))) n i ev :
  pad_to evs n !! i = Some (Some ev) ↔ evs !! i = Some (Some ev).
Proof.
  unfold pad_to. destruct (decide (i < length evs)%nat); [by rewrite lookup_app_l|].
  rewrite lookup_app_r by lia. rewrite (lookup_ge_None_2 evs) by lia. split; [|done].
  intros [? _]%lookup_replicate. done.
Qed.
Lemma pad_to_length (evs : list (option (Event H))) n : (n < length (pad_to evs n))%nat.
Proof. unfold pad_to. rewrite length_app, length_replicate. lia. Qed.

Lemma kq_start_inv : kq_inv kq_start.
Proof.
  assert (N : ∀ k i ev, ¬ in_slot (kq_poll kq_start) k i ev) by (by intros [] i ev).
  split; cbn [kq_kernel kq_start]; [intros k i ev []%N|]. intros i f p. rewrite kq_new_empty.
  split; [done|]. intros (k & n & ev & []%N & _).
Qed.

(** A new event [ev] in the slot [n] of the vector of kind [k]. *)
Lemma insert_inv s k n (ev : Event H) kern b :
  kq_inv s → Z.of_nat n < 2 ^ 31 → ident (event ev) = ident_of k n → filter_ok k (filter (event ev)) = true →
  mjoin (table k (kq_poll s) !! n) = None →
  (∀ i f, kq_udata kern i f =
     if decide ((i, f) = (ident (event ev), filter (event ev))) then Some (udata (event ev)) else kq_udata (kq_kernel s) i f) →
  kq_inv (mkKq (set_table k (<[n := Some ev]> (pad_to (table k (kq_poll s)) n)) (kq_poll s)) kern b).
Proof.
  intros I Hn Hid Hf Hfree Hk. set (s' := mkKq _ _ _).
  assert (Hslot : ∀ k' i e, in_slot (kq_poll s') k' i e ↔
    (canon k' = canon k ∧ i = n ∧ e = ev) ∨ ((canon k' ≠ canon k ∨ i ≠ n) ∧ in_slot (kq_poll s) k' i e)).
  { intros k' i e. unfold in_slot, s'. cbn [kq_poll]. rewrite table_set. case_decide as Hc; [|naive_solver].
    rewrite <- (table_canon k'), Hc, table_canon. destruct (decide (i = n)) as [->|Hi].
    - rewrite list_lookup_insert_eq by apply pad_to_length. naive_solver.
    - rewrite list_lookup_insert_ne, pad_to_slot by done. naive_solver. }
  split; cbn [kq_kernel].
  - intros k' i e [(Hc & -> & ->)|[_ Hs]]%Hslot; [|by apply I]. split; [done|].
    destruct k, k'; cbn in *; try done.
  - intros i f p. subst s'. cbn [kq_kernel]. rewrite Hk. case_decide as Hkey.
    + injection Hkey as -> ->. split.
      * intros [= <-]. exists k, n, ev. split_and!; try done. apply Hslot. by left.
      * intros (k' & i & e & [(_ & _ & ->)|[Hne Hs]]%Hslot & Hi & Hfe & Hp); [by subst|].
        destruct (ki_slot _ I k' i e Hs) as (H1 & H2 & H3).
        destruct (slot_of_name k' k i n (filter (event ev))) as [Hc ->]; [done|done|congruence|done|congruence|].
        unfold in_slot in Hs. rewrite <- table_canon, Hc, table_canon in Hs. rewrite Hs in Hfree. done.
    + rewrite (ki_kernel _ I). split; intros (k' & j & e & Hs & Hi & Hfe & Hp); exists k', j, e; split_and!; try done.
      * apply Hslot. right. split; [|done]. destruct (decide (j = n)) as [->|]; [|by right]. left. intros Hc.
        unfold in_slot in Hs. rewrite <- table_canon, Hc, table_canon in Hs. rewrite Hs in Hfree. done.
      * apply Hslot in Hs as [(_ & _ & ->)|[_ Hs]]; [|done]. by destruct Hkey; subst.
Qed.

(** Padding a vector changes no event. *)
Lemma pad_inv s k n b : kq_inv s → kq_inv (mkKq (set_table k (pad_to (table k (kq_poll s)) n) (kq_poll s)) (kq_kernel s) b).
Proof.
  intros I. set (s' := mkKq _ _ _).
  assert (Hslot : ∀ k' i e, in_slot (kq_poll s') k' i e ↔ in_slot (kq_poll s) k' i e).
  { intros k' i e. unfold in_slot, s'. cbn [kq_poll]. rewrite table_set. case_decide as Hc; [|done].
    rewrite <- (table_canon k'), Hc, table_canon. apply pad_to_slot. }
  split.
  - intros k' i e Hs%Hslot. by apply I.
  - intros i f p. subst s'. cbn [kq_kernel]. rewrite (ki_kernel _ I). by setoid_rewrite Hslot.
Qed.

(** The slot that [register_event] puts an event in. *)
Definition slot_index (s : EventPoll H) (ev : Event H) : nat :=
  match kind ev with FD | Signal => Z.to_nat (ident (event ev)) | _ => length (table (kind ev) s) end.
Definition registrable (s : EventPoll H) (ev : Event H) : Prop :=
  mjoin (table (kind ev) s !! slot_index s ev) = None ∧ Z.of_nat (slot_index s ev) < 2 ^ 31
  ∧ match kind ev with FD | Signal => 0 ≤ ident (event ev) | _ => True end
  ∧ filter_ok (kind ev) (filter (event ev)) = true ∧ Z.testbit (Z.lor (flags (event ev)) EV_ADD) 0 = true.

Lemma wrap_custom n : Z.of_nat n < 2 ^ 31 → wrap 64 (- Z.of_nat n - 1) = 2 ^ 64 - 1 - Z.of_nat n.
Proof. intros Hn. unfold wrap. rewrite <- (Z.mod_add _ 1) by done. rewrite Z.mod_small; lia. Qed.

Lemma register_event_inv s ev b :
  kq_inv s → registrable (kq_poll s) ev →
  let added := taken (register_event (kq_poll s) ev b true).2 (kq_kernel s) in
  let '(_, p, calls) := register_event (kq_poll s) ev b added in
  kq_inv (mkKq p (submit_all calls (kq_kernel s)) (S b)).
Proof.
  intros I (Hfree & Hn & Hid & Hf & Hadd). unfold register_event.
  set (t := match kind ev with FD | Signal => _ | _ => _ end).
  assert (Ht : wrap 64 t.1 = ident_of (kind ev) (slot_index (kq_poll s) ev) ∧ t.2 = slot_index (kq_poll s) ev).
  { unfold t, slot_index, ident_of in *. destruct (kind ev); cbn [fst snd]; (split; [|done]);
      first [rewrite Z2Nat.id in * by done; unfold wrap; apply Z.mod_small; lia|by apply wrap_custom]. }
  destruct t as [trigger index]. cbn [fst snd] in Ht. destruct Ht as [Et ->]. rewrite Et.
  assert (Hdel : pad_to (table (kind ev) (kq_poll s)) (slot_index (kq_poll s) ev) !! slot_index (kq_poll s) ev = Some None).
  { destruct (lookup_lt_is_Some_2 _ _ (pad_to_length (table (kind ev) (kq_poll s)) (slot_index (kq_poll s) ev))) as [[e|] E]; [|done].
    apply pad_to_slot in E. rewrite E in Hfree. done. }
  rewrite Hdel. cbn [snd taken].
  destruct (kq_submit _ (kq_kernel s)) as [k1|] eqn:Es.
  - set (ke := mkKevent _ _ _ _ _ _) in *. set (calls := Submit _ :: _).
    assert (Ek : submit_all calls (kq_kernel s) = k1).
    { unfold submit_all, calls. cbn [foldl]. rewrite Es. cbn. by destruct (kind ev). }
    rewrite Ek. apply insert_inv; try done. intros i f. by rewrite (kq_add (set_flags (Z.lor (flags ke) EV_ADD) ke) _ _ i f Hadd Es).
  - unfold submit_all. cbn [foldl]. rewrite Es. cbn. by apply pad_inv.
Qed.

Lemma kq_register_inv r s s' : kq_inv s → fresh (KRegister r) s → kq_step (KRegister r) s = Some s' → kq_inv s'.
Proof.
  intros I Hfr Hs. cbn [kq_step] in Hs.
  assert (Hev : ∀ ev, (∀ added, registered r (kq_poll s) (kq_next s) added = register_event (kq_poll s) ev (kq_next s) added) →
    registrable (kq_poll s) ev → kq_inv s').
  { intros ev E Hr. rewrite !E in Hs. pose proof (register_event_inv s ev (kq_next s) I Hr) as Hi. cbn zeta in Hi.
    destruct (register_event _ _ _ (taken _ _)) as [[o p] calls]. by destruct o; try done; injection Hs as <-. }
  assert (Hlast : mjoin (custom (kq_poll s) !! length (custom (kq_poll s))) = None) by (by rewrite lookup_ge_None_2).
  destruct r as [fd h|secs nanos h|h|sig h]; cbn [fresh] in Hfr.
  - eapply Hev; [intros; reflexivity|]. unfold registrable, slot_index. cbn. destruct Hfr as [? ?]. rewrite Z2Nat.id by lia. split_and!; try done; lia.
  - cbn [registered] in *. unfold new_periodic_event in *. destruct (period_ns secs nanos) as [ns|] eqn:En; [|done].
    eapply Hev; [intros; reflexivity|]. by unfold registrable, slot_index.
  - eapply Hev; [intros; reflexivity|]. by unfold registrable, slot_index.
  - eapply Hev; [intros; reflexivity|]. unfold registrable, slot_index. cbn. destruct Hfr as [? ?]. rewrite Z2Nat.id by lia. split_and!; try done; lia.
Qed.

Lemma kq_clear_inv index s s' : kq_inv s → kq_step (KClear index) s = Some s' → kq_inv s'.
Proof.
  intros I. cbn [kq_step]. unfold clear_event_by_fd.
  set (t := if 0 <=? index then _ else _). destruct t as [k n].
  destruct (table k (kq_poll s) !! n) as [[ev|]|] eqn:E; [|by intros [= <-]; destruct s|done].
  intros [= <-]. cbn [submit_all foldl]. set (c := set_flags EV_DELETE (event ev)).
  assert (Hk : ∀ i f, kq_udata (default (kq_kernel s) (kq_submit c (kq_kernel s))) i f =
    if decide ((i, f) = (ident (event ev), filter (event ev))) then None else kq_udata (kq_kernel s) i f).
  { intros i f. destruct (kq_submit c (kq_kernel s)) as [k1|] eqn:Es; cbn [from_option id].
    - by rewrite (kq_delete c _ _ i f eq_refl Es).
    - case_decide as Hkey; [|done]. injection Hkey as -> ->. apply (kq_delete_absent c _ eq_refl Es). }
  destruct (ki_slot _ I k n ev E) as (Hn & Hid & Hf).
  assert (Hslot : ∀ k' i e, table k' (set_table k (<[n := None]> (table k (kq_poll s))) (kq_poll s)) !! i = Some (Some e) ↔
    (canon k' ≠ canon k ∨ i ≠ n) ∧ in_slot (kq_poll s) k' i e).
  { intros k' i e. unfold in_slot. rewrite table_set. case_decide as Hc; [|naive_solver].
    rewrite <- (table_canon k'), Hc, table_canon. destruct (decide (i = n)) as [->|Hi].
    - rewrite list_lookup_insert_eq by (by eapply lookup_lt_Some). naive_solver.
    - rewrite list_lookup_insert_ne by done. naive_solver. }
  split; cbn [kq_kernel kq_poll].
  - intros k' i e [_ Hs]%Hslot. by apply I.
  - intros i f p. rewrite Hk. unfold in_slot. setoid_rewrite Hslot. case_decide as Hkey.
    + injection Hkey as -> ->. split; [done|]. intros (k' & j & e & [Hne Hs] & Hi & Hfe & _). exfalso.
      destruct (ki_slot _ I k' j e Hs) as (H1 & H2 & H3).
      destruct (slot_of_name k' k j n (filter (event ev))) as [Hc ->]; [done|done|congruence|done|congruence|]. naive_solver.
    + rewrite (ki_kernel _ I). split; intros (k' & j & e & Hs & Hi & Hfe & Hp); exists k', j, e.
      * split_and!; try done. destruct (decide (j = n)) as [->|]; [|by right]. left. intros Hc.
        unfold in_slot in Hs. rewrite <- table_canon, Hc, table_canon, E in Hs. injection Hs as <-. by destruct Hkey; subst.
      * by destruct Hs as [_ Hs].
Qed.

Lemma kq_run_inv ops s s' : kq_inv s → all_fresh ops s → kq_run ops s = Some s' → kq_inv s'.
Proof.
  revert s. induction ops as [|op ops IH]; cbn [kq_run all_fresh]; intros s I Hf; [by intros [= <-]|]. destruct Hf as [Hop Hrest].
  destruct (kq_step op s) as [s1|] eqn:E; [|done]. cbn. apply IH; [|by apply Hrest].
  destruct op; [by eapply kq_register_inv|by eapply kq_clear_inv].
Qed.

(** The kqueue registry and the kernel agree.  After any sequence of
    registrations (of descriptors, timers, notifiers and signals) and removals in
    which no descriptor or signal is registered over, whatever the kernel accepts
    or refuses, an event is in the kernel's queue exactly when it is in one of the
    three vectors, under its own identifier and filter and with the address of its
    box: no event is lost, and none points at a box that is gone. *)
Lemma kqueue_agrees ops s i f p :
  all_fresh ops kq_start → kq_run ops kq_start = Some s →
  kq_udata (kq_kernel s) i f = Some p ↔
  ∃ k n ev, in_slot (kq_poll s) k n ev ∧ ident (event ev) = i ∧ filter (event ev) = f ∧ udata (event ev) = p.
Proof. intros Hf Hr. apply (kq_run_inv ops kq_start s kq_start_inv Hf Hr). Qed.

(** Registering over a descriptor loses both events: the new one takes the place of
    the old one in the kernel, and the deletion of the old one that follows names
    the same identifier and filter. *)
Lemma registering_over_loses_event s fd h b old k1 :
  0 ≤ fd < 2 ^ 31 → in_slot (kq_poll s) FD (Z.to_nat fd) old → ident (event old) = fd → filter (event old) = EVFILT_READ →
  let calls := (new_event (kq_poll s) fd h b true).2 in
  kq_submit (mkKevent fd EVFILT_READ 133 0 0 b) (kq_kernel s) = Some k1 →
  kq_udata k1 fd EVFILT_READ = Some b ∧ kq_udata (submit_all calls (kq_kernel s)) fd EVFILT_READ = None.
Proof.
  intros Hfd Hs Hid Hf calls Hadd. split; [rewrite (kq_add (mkKevent fd EVFILT_READ 133 0 0 b) _ _ _ _ eq_refl Hadd); by rewrite decide_True|].
  assert (Hcalls : calls = [Submit (mkKevent fd EVFILT_READ 133 0 0 b); Submit (set_flags EV_DELETE (event old))]).
  { unfold calls, new_event, register_event. cbn [kind event ident table].
    rewrite (proj2 (pad_to_slot (events (kq_poll s)) (Z.to_nat fd) (Z.to_nat fd) old) Hs). cbn [snd].
    unfold wrap. rewrite Z.mod_small by lia. done. }
  rewrite Hcalls. unfold submit_all. cbn [foldl]. rewrite Hadd. cbn [from_option id].
  destruct (kq_submit (set_flags EV_DELETE (event old)) k1) as [k2|] eqn:Ed; cbn [from_option id].
  - rewrite (kq_delete (set_flags EV_DELETE (event old)) _ _ _ _ eq_refl Ed). cbn. rewrite Hid, Hf. by rewrite decide_True.
  - apply (kq_delete_absent (set_flags EV_DELETE (event old)) _ eq_refl) in Ed. cbn in Ed. by rewrite Hid, Hf in Ed.
Qed.

(** Raising and stopping work on the notifiers that were registered. *)
Lemma kq_notifier_registered (s : EventPoll H) h b t s' calls :
  new_notifier s h b true = (Ok t, s', calls) →
  ∃ c c', trigger_notification s' t = Ok (Submit c) ∧ stop_notification s' t = Ok (Submit c')
    ∧ ident c = wrap 64 t ∧ ident c' = wrap 64 t ∧ filter c = EVFILT_USER ∧ filter c' = EVFILT_USER
    ∧ fflags c = NOTE_TRIGGER ∧ flags c = EV_ENABLE ∧ flags c' = EV_DISABLE.
Proof.
  unfold new_notifier, register_event. cbn [kind table event].
  intros [= <- <- <-]. unfold trigger_notification, stop_notification, notifier_of.
  destruct (Z.ltb_spec (- (- Z.of_nat (length (custom s)) - 1) - 1) 0); [lia|].
  replace (Z.to_nat (- (- Z.of_nat (length (custom s)) - 1) - 1)) with (length (custom s)) by lia.
  cbn [set_table custom]. rewrite list_lookup_insert_eq by apply pad_to_length. cbn.
  eexists _, _. by split_and!.
Qed.
End queue.

(** ** A queue as a list *)
Module Queue.
Definition Entries := list ((Z * Filter) * nat).
Fixpoint find (key : Z * Filter) (l : Entries) : option nat :=
  match l with [] => None | (k, p) :: l => if decide (key = k) then Some p else find key l end.
Fixpoint remove (key : Z * Filter) (l : Entries) : Entries :=
  match l with [] => [] | (k, p) :: l => if decide (key = k) then remove key l else (k, p) :: remove key l end.
Definition submit (c : Kevent) (l : Entries) : option Entries :=
  let key := (ident c, filter c) in
  if Z.testbit (flags c) 0 then Some ((key, udata c) :: remove key l)
  else match find key l with
       | None => None
       | Some _ => Some (if decide (flags c = EV_DELETE) then remove key l else l)
       end.

Lemma find_remove key key' l : find key (remove key' l) = if decide (key = key') then None else find key l.
Proof.
  induction l as [|[k p] l IH]; cbn; repeat case_decide; cbn; repeat case_decide; congruence.
Qed.

#[export, refine] Instance kernel : Kernel Entries := {|
  kq_new := []; kq_udata l i f := find (i, f) l; kq_submit := submit
|}.
Proof.
  - done.
  - intros c k k' i f Hc. unfold submit. rewrite Hc. intros [= <-]. cbn [find]. rewrite find_remove. by case_decide.
  - intros c k k' i f Hc. unfold submit. rewrite Hc. cbn. destruct (find _ k); [|done]. intros [= <-]. apply find_remove.
  - intros c k Hc. unfold submit. rewrite Hc. cbn. by destruct (find _ k).
Defined.
End Queue.

Section sample.
Local Existing Instance Queue.kernel.

Definition sample_ops : list (KqOp Z) :=
  [KRegister (RNotifier 10); KRegister (REvent 5 50); KRegister (RPeriodic 1 0 20); KRegister (RSignal 2 30);
   KClear 5; KRegister (REvent 5 51); KClear (-1)].

End sample.
