(* ===== verification/DevLock.v ===== *)
(** The device lock: src/awgtun/src/device/dev_lock.rs.

    Worker threads hold a read guard on the device most of the time and a thread
    that must change the device upgrades its guard.  The two-stage protocol is a
    state machine per thread: [PC] names every point of [read] and
    [try_writeable] at which the thread may be descheduled or may block, and
    [step] is one such step.  The [parking_lot] mutex, condition variable and
    read/write lock are represented by the guards the threads hold: a thread
    takes the mutex when no thread holds it, a read guard when no thread holds
    the write guard, the write guard when no thread holds either, and a waiter of
    the condition variable sleeps until [notify_all] sends it back to the mutex.

    A schedule is a list of moves of threads, so every theorem on [run] holds of
    every interleaving: a writer is alone and nobody's value changes under its
    guard, the lock does not deadlock as long as no writer has panicked, and a
    panic inside [try_writeable] closes the lock to all later readers. *)
From Stdlib Require Import ZArith Lia.
From stdpp Require Import base list option tactics.
From S2P Require Import Prelude.

(** The points of a thread between two steps. *)
Inductive PC :=
  | Idle      (* no guard, outside the lock *)
  | RLock     (* read: about to lock the mutex *)
  | RCheck    (* read: holds the mutex, tests wants_write *)
  | RWait     (* read: sleeps on the condition variable *)
  | RAcquire  (* read: holds the mutex, about to take the inner read guard *)
  | Reading   (* holds a LockReadGuard *)
  | WLock     (* try_writeable: about to lock the mutex, holds the read guard *)
  | WUnlock   (* holds the mutex and the read guard, about to drop the guard *)
  | WCheck    (* holds the mutex, tests wants_write *)
  | WWait     (* sleeps on the condition variable *)
  | WRelock   (* woken, about to lock the mutex again *)
  | WReread   (* wants_write set: about to take the read guard back *)
  | WPrep     (* runs prep_func under the read guard *)
  | WWrite    (* dropped the read guard, about to take the write guard *)
  | Writing   (* runs mut_func under the write guard *)
  | WReread2  (* dropped the write guard, about to take the read guard back *)
  | WDone     (* holds the read guard, about to lock the mutex *)
  | WClear    (* holds both, about to clear wants_write and notify *)
  | PReread   (* unwinding from mut_func: takes the read guard back *)
  | PHeld     (* unwinding: the LockReadGuard is about to be dropped *)
  | Crashed   (* the thread is gone *)
  | Dropped.  (* the thread is gone: its caller panicked under a read guard, which unwinding dropped *)

#[global] Instance PC_eq_dec : EqDecision PC.
Proof. solve_decision. Defined.

(** The guards a thread holds at each point. *)
Definition holds_mutex (p : PC) : bool :=
  match p with RCheck | RAcquire | WUnlock | WCheck | WClear => true | _ => false end.

Definition holds_read (p : PC) : bool :=
  match p with Reading | WLock | WUnlock | WPrep | WDone | WClear | PHeld => true | _ => false end.

Definition holds_write (p : PC) : bool :=
  match p with Writing => true | _ => false end.

(** The condition variable's [notify_all]. *)
Definition wake (p : PC) : PC :=
  match p with RWait => RLock | WWait => WRelock | p => p end.

(** What a thread does next: [Go] is the lock's own code, the others are the
    choices of its caller. *)
Inductive Move (T : Type) :=
  | Read                 (* calls Lock::read *)
  | Release              (* drops its LockReadGuard *)
  | TryWriteable         (* calls LockReadGuard::try_writeable *)
  | Go
  | Mutate (f : T → T)   (* mut_func returns *)
  | Panic (f : T → T).   (* prep_func, mut_func after some writes, or the holder of a read guard panics *)
Arguments Read {T}.
Arguments Release {T}.
Arguments TryWriteable {T}.
Arguments Go {T}.
Arguments Mutate {T} f.
Arguments Panic {T} f.

(** [Lock<T>] with the threads that use it. *)
Record Lock (T : Type) := mkLock { wants_write : bool; inner : T; threads : list PC }.
Arguments mkLock {T} _ _ _.
Arguments wants_write {T} _.
Arguments inner {T} _.
Arguments threads {T} _.

Section lock.
Context {T : Type}.
Implicit Types (s : Lock T) (i j : nat).

(** [Lock::new], shared by [n] threads. *)
Definition Lock_new (user_data : T) (n : nat) : Lock T :=
  mkLock false user_data (replicate n Idle).

Definition mutex_free s : bool := forallb (λ p, negb (holds_mutex p)) (threads s).
Definition no_writer s : bool := forallb (λ p, negb (holds_write p)) (threads s).
Definition no_holder s : bool :=
  forallb (λ p, negb (holds_read p) && negb (holds_write p)) (threads s).

Definition goto i (p : PC) s : Lock T :=
  mkLock (wants_write s) (inner s) (<[i := p]> (threads s)).

Definition when (b : bool) (s : Lock T) : option (Lock T) := if b then Some s else None.

(** [Lock::read] after the call: lock, wait while a writer is announced, take the
    inner guard while the mutex is still held. *)
Definition read_step i (p : PC) s : option (Lock T) :=
  match p with
  | RLock => when (mutex_free s) (goto i RCheck s)
  | RCheck => if wants_write s then Some (goto i RWait s) else Some (goto i RAcquire s)
  | RAcquire => when (no_writer s) (goto i Reading s)
  | _ => None
  end.

(** [LockReadGuard::try_writeable] after the call. *)
Definition try_writeable_step i (p : PC) s : option (Lock T) :=
  match p with
  | WLock => when (mutex_free s) (goto i WUnlock s)
  | WUnlock => Some (goto i WCheck s)
  | WCheck =>
      if wants_write s then Some (goto i WWait s)
      else Some (mkLock true (inner s) (<[i := WReread]> (threads s)))
  | WRelock => when (mutex_free s) (goto i WCheck s)
  | WReread => when (no_writer s) (goto i WPrep s)
  | WPrep => Some (goto i WWrite s)
  | WWrite => when (no_holder s) (goto i Writing s)
  | WReread2 => when (no_writer s) (goto i WDone s)
  | WDone => when (mutex_free s) (goto i WClear s)
  | WClear => Some (mkLock false (inner s) (wake <$> <[i := Reading]> (threads s)))
  | _ => None
  end.

(** Unwinding out of [try_writeable]: [RwLockReadGuard::unlocked] takes the read
    guard back, then the [LockReadGuard] is dropped.  Nothing clears
    [wants_write]. *)
Definition unwind_step i (p : PC) s : option (Lock T) :=
  match p with
  | PReread => when (no_writer s) (goto i PHeld s)
  | PHeld => Some (goto i Crashed s)
  | _ => None
  end.

Definition go i (p : PC) s : option (Lock T) :=
  match p with
  | RLock | RCheck | RAcquire => read_step i p s
  | PReread | PHeld => unwind_step i p s
  | _ => try_writeable_step i p s
  end.

(** One move of thread [i]; [None] when the thread cannot make it now. *)
Definition step i (m : Move T) s : option (Lock T) :=
  p ← threads s !! i;
  match m, p with
  | Read, Idle => Some (goto i RLock s)
  | Release, Reading => Some (goto i Idle s)
  | TryWriteable, Reading => Some (goto i WLock s)
  | Mutate f, Writing => Some (mkLock (wants_write s) (f (inner s)) (<[i := WReread2]> (threads s)))
  | Panic _, Reading => Some (goto i Dropped s)
  | Panic _, WPrep => Some (goto i PHeld s)
  | Panic f, Writing => Some (mkLock (wants_write s) (f (inner s)) (<[i := PReread]> (threads s)))
  | Go, p => go i p s
  | _, _ => None
  end.

Fixpoint run (schedule : list (nat * Move T)) s : option (Lock T) :=
  match schedule with
  | [] => Some s
  | (i, m) :: schedule => s' ← step i m s; run schedule s'
  end.

End lock.

(** ** The invariant *)

(** Points between setting [wants_write] and clearing it. *)
Definition announced (p : PC) : bool :=
  match p with
  | WReread | WPrep | WWrite | Writing | WReread2 | WDone | WClear | PReread | PHeld | Crashed => true
  | _ => false
  end.

Definition waiting (p : PC) : bool := match p with RWait | WWait => true | _ => false end.

Section invariant.
Context {T : Type}.
Implicit Types (s : Lock T) (i j : nat) (p q : PC).

(** The thread [i] is at a point where [P] holds. *)
Definition at_pc (P : PC → bool) i s : Prop := ∃ p, threads s !! i = Some p ∧ P p.

Definition is_at p i s : Prop := threads s !! i = Some p.

Record lock_inv s : Prop := {
  li_mutex : ∀ i j, at_pc holds_mutex i s → at_pc holds_mutex j s → i = j;
  li_owner : ∀ i j, at_pc announced i s → at_pc announced j s → i = j;
  li_announced : ∀ i, at_pc announced i s → wants_write s = true;
  li_owned : wants_write s = true → ∃ i, at_pc announced i s;
  li_waiting : ∀ i, at_pc waiting i s → wants_write s = true;
  li_acquire : ∀ i, is_at RAcquire i s → wants_write s = false;
  li_write : ∀ i j, at_pc holds_write i s → at_pc holds_read j s → False }.

Lemma forallb_at (f : PC → bool) s :
  forallb f (threads s) = true ↔ ∀ i p, threads s !! i = Some p → f p = true.
Proof.
  rewrite forallb_forall. setoid_rewrite <-list_elem_of_In. setoid_rewrite list_elem_of_lookup.
  naive_solver.
Qed.

Lemma forallb_not_at (f : PC → bool) s :
  forallb f (threads s) = false → ∃ i p, threads s !! i = Some p ∧ f p = false.
Proof.
  intros E%not_true_iff_false. rewrite <-Is_true_true, forallb_True in E.
  apply not_Forall_Exists, list.Exists_exists in E as (q & Hin & Hq); [|intros ?; apply _].
  apply list_elem_of_lookup in Hin as [k Ek]. exists k, q. split; [done|].
  by apply not_true_iff_false; rewrite <-Is_true_true.
Qed.

Lemma mutex_free_spec s : mutex_free s = true ↔ ∀ i, ¬ at_pc holds_mutex i s.
Proof.
  unfold mutex_free, at_pc. rewrite forallb_at. setoid_rewrite negb_true_iff.
  split; [intros H i (p & E & Hp); rewrite (H _ _ E) in Hp; done|].
  intros H i p E. destruct (holds_mutex p) eqn:Ep; [|done]. destruct (H i). exists p. by rewrite Ep.
Qed.

Lemma no_writer_spec s : no_writer s = true ↔ ∀ i, ¬ at_pc holds_write i s.
Proof.
  unfold no_writer, at_pc. rewrite forallb_at. setoid_rewrite negb_true_iff.
  split; [intros H i (p & E & Hp); rewrite (H _ _ E) in Hp; done|].
  intros H i p E. destruct (holds_write p) eqn:Ep; [|done]. destruct (H i). exists p. by rewrite Ep.
Qed.

Lemma no_holder_spec s :
  no_holder s = true ↔ ∀ i, ¬ at_pc holds_read i s ∧ ¬ at_pc holds_write i s.
Proof.
  unfold no_holder, at_pc. rewrite forallb_at. setoid_rewrite andb_true_iff. setoid_rewrite negb_true_iff.
  split.
  - intros H i. split; intros (p & E & Hp); destruct (H _ _ E) as [H1 H2]; rewrite ?H1, ?H2 in Hp; done.
  - intros H i p E. destruct (H i) as [H1 H2].
    destruct (holds_read p) eqn:E1; [destruct H1; exists p; by rewrite E1|].
    destruct (holds_write p) eqn:E2; [destruct H2; exists p; by rewrite E2|done].
Qed.

(** Where a thread is after thread [i] moved to [p]. *)
Lemma at_pc_move (P : PC → bool) w v i j p s :
  at_pc P j (mkLock w v (<[i := p]> (threads s))) →
  (j = i ∧ P p = true) ∨ (j ≠ i ∧ at_pc P j s).
Proof.
  intros (q & E & Hq). cbn [threads] in E. apply list_lookup_insert_Some in E.
  destruct E as [(-> & -> & _)|[Hne E]]; [left|right; split; [done|by exists q]].
  split; [done|by apply Is_true_eq_true].
Qed.

Lemma at_pc_stay (P : PC → bool) w v i j p s :
  j ≠ i → at_pc P j s → at_pc P j (mkLock w v (<[i := p]> (threads s))).
Proof.
  intros Hne (q & E & Hq). exists q. split; [|done]. cbn [threads].
  by rewrite list_lookup_insert_ne.
Qed.

Lemma at_pc_arrive (P : PC → bool) w v i p q s :
  threads s !! i = Some q → P p = true → at_pc P i (mkLock w v (<[i := p]> (threads s))).
Proof.
  intros E Hp. exists p. split; [|by rewrite Hp]. cbn [threads].
  apply list_lookup_insert_eq. by eapply lookup_lt_Some.
Qed.

Lemma at_pc_here (P : PC → bool) i p s : threads s !! i = Some p → P p = true → at_pc P i s.
Proof. intros E H. exists p. by rewrite H. Qed.

(** A move that neither announces nor retires a writer. *)
Lemma move_inv v i p p' s :
  lock_inv s → threads s !! i = Some p →
  announced p' = announced p →
  (holds_mutex p' = true → holds_mutex p = true ∨ mutex_free s = true) →
  (holds_read p' = true → holds_read p = true ∨ no_writer s = true) →
  (holds_write p' = true → no_holder s = true) →
  (waiting p' = true → wants_write s = true) →
  (p' = RAcquire → wants_write s = false) →
  lock_inv (mkLock (wants_write s) v (<[i := p']> (threads s))).
Proof.
  intros [Hm Ho Ha Hw Hwt Hac Hwr] E Ean Cm Cr Cw Cwt Cac.
  assert (Man : ∀ j, at_pc announced j (mkLock (wants_write s) v (<[i := p']> (threads s))) →
                at_pc announced j s).
  { intros j [[-> H]|[_ H]]%at_pc_move; [|done].
    apply (at_pc_here _ _ _ _ E). by rewrite <-Ean. }
  constructor; cbn [wants_write].
  - intros j k [[-> H1]|[N1 H1]]%at_pc_move [[-> H2]|[N2 H2]]%at_pc_move; [done| | |by apply Hm].
    + destruct (Cm H1) as [H|H]; [apply Hm; [exact (at_pc_here _ _ _ _ E H)|done]|].
      destruct (proj1 (mutex_free_spec s) H k H2).
    + destruct (Cm H2) as [H|H]; [apply Hm; [done|exact (at_pc_here _ _ _ _ E H)]|].
      destruct (proj1 (mutex_free_spec s) H j H1).
  - intros j k H1%Man H2%Man. by apply Ho.
  - intros j H%Man. by eapply Ha.
  - intros H. destruct (Hw H) as [j Hj]. destruct (decide (j = i)) as [->|N].
    + exists i. apply (at_pc_arrive _ _ _ _ _ _ _ E). rewrite Ean.
      destruct Hj as (q & E' & Hq). rewrite E in E'. simplify_eq. by apply Is_true_eq_true.
    + exists j. by apply at_pc_stay.
  - intros j [[-> H]|[_ H]]%at_pc_move; [by apply Cwt|by eapply Hwt].
  - unfold is_at. cbn [threads]. intros j [(_ & Ep & _)|[_ H]]%list_lookup_insert_Some; [by apply Cac|by eapply Hac].
  - intros j k [[-> H1]|[N1 H1]]%at_pc_move [[-> H2]|[N2 H2]]%at_pc_move.
    + by destruct p'.
    + destruct (proj1 (no_holder_spec s) (Cw H1) k) as [H _]. by apply H.
    + destruct (Cr H2) as [H|H]; [exact (Hwr j i H1 (at_pc_here _ _ _ _ E H))|].
      destruct (proj1 (no_writer_spec s) H j H1).
    + exact (Hwr j k H1 H2).
Qed.

(** A writer announces itself: the mutex is held, so nobody is past the test in
    [read]. *)
Lemma announce_inv i s :
  lock_inv s → threads s !! i = Some WCheck → wants_write s = false →
  lock_inv (mkLock true (inner s) (<[i := WReread]> (threads s))).
Proof.
  intros [Hm Ho Ha Hw Hwt Hac Hwr] E Ef.
  assert (N : ∀ j, ¬ at_pc announced j s) by (intros j H%Ha; congruence).
  constructor; cbn [wants_write]; try done.
  - intros j k [[_ ?]|[N1 H1]]%at_pc_move [[_ ?]|[N2 H2]]%at_pc_move; try done. by apply Hm.
  - intros j k [[-> _]|[_ H]]%at_pc_move; [|by destruct (N j)].
    intros [[-> _]|[_ H]]%at_pc_move; [done|by destruct (N k)].
  - intros _. exists i. by apply (at_pc_arrive _ _ _ _ _ _ _ E).
  - intros j. unfold is_at. cbn [threads]. intros [(_ & Ep & _)|[Hne H]]%list_lookup_insert_Some; [done|].
    destruct Hne. apply Hm; [by apply (at_pc_here _ _ _ _ E)|by apply (at_pc_here _ _ _ _ H)].
  - intros j k [[_ ?]|[_ H1]]%at_pc_move [[_ ?]|[_ H2]]%at_pc_move; try done. by apply (Hwr j k).
Qed.

Lemma at_pc_wake (P : PC → bool) w v j (l : list PC) :
  (∀ p, P (wake p) = true → P p = true) →
  at_pc P j (mkLock (T := T) w v (wake <$> l)) → at_pc P j (mkLock w v l).
Proof.
  intros HP (q & E & Hq). cbn [threads] in E.
  apply list_lookup_fmap_Some in E as (p & -> & E). exists p. split; [done|].
  rewrite HP; [done|by apply Is_true_eq_true].
Qed.

(** The writer leaves: it was the only one, and every waiter wakes. *)
Lemma clear_inv i s :
  lock_inv s → threads s !! i = Some WClear →
  lock_inv (mkLock false (inner s) (wake <$> <[i := Reading]> (threads s))).
Proof.
  intros [Hm Ho Ha Hw Hwt Hac Hwr] E.
  assert (N : ∀ j, ¬ at_pc announced j (mkLock false (inner s) (wake <$> <[i := Reading]> (threads s)))).
  { intros j H. apply at_pc_wake in H; [|by intros []]. apply at_pc_move in H as [[_ ?]|[Hne H]]; [done|].
    apply Hne, Ho; [done|by apply (at_pc_here _ _ _ _ E)]. }
  constructor; cbn [wants_write]; try done.
  - intros j k H1 H2. apply at_pc_wake in H1; [|by intros []]. apply at_pc_wake in H2; [|by intros []].
    apply at_pc_move in H1 as [[_ ?]|[_ H1]], H2 as [[_ ?]|[_ H2]]; try done. by apply Hm.
  - intros j k H. by destruct (N j).
  - intros j H. by destruct (N j).
  - intros j (q & H & Hq). exfalso. cbn [threads] in H.
    apply list_lookup_fmap_Some in H as ([] & -> & _); done.
  - intros j k (q & H & Hq) _. apply (N j). exists q. split; [done|by destruct q].
Qed.

Lemma when_Some b s s' : when b s = Some s' → b = true ∧ s' = s.
Proof. destruct b; simpl; naive_solver. Qed.

Ltac moved :=
  eapply move_inv; [eassumption|eassumption|..]; cbn;
  first [reflexivity | let H := fresh in intros H;
         first [discriminate H | left; reflexivity | right; assumption | assumption]].

Lemma go_inv i p s s' : lock_inv s → threads s !! i = Some p → go i p s = Some s' → lock_inv s'.
Proof.
  intros I E. destruct p; simpl; try done; try (intros [Hf ->]%when_Some; moved);
    try (intros [= <-]; moved).
  - destruct (wants_write s) eqn:Ew; intros [= <-]; unfold goto; rewrite <-?Ew; moved.
  - destruct (wants_write s) eqn:Ew; intros [= <-]; [unfold goto; moved|by apply announce_inv].
  - intros [= <-]. by apply clear_inv.
Qed.

Lemma step_inv i m s s' : lock_inv s → step i m s = Some s' → lock_inv s'.
Proof.
  intros I. unfold step. destruct (threads s !! i) as [p|] eqn:E; simpl; [|done].
  destruct m; try (by apply go_inv); destruct p; try done; intros [= <-]; moved.
Qed.

Lemma run_inv schedule s s' : lock_inv s → run schedule s = Some s' → lock_inv s'.
Proof.
  revert s. induction schedule as [|[i m] rest IH]; simpl; intros s I; [naive_solver|].
  destruct (step i m s) as [s1|] eqn:E; simpl; [|done]. apply IH. by eapply step_inv.
Qed.

Lemma new_inv (v : T) n : lock_inv (Lock_new v n).
Proof.
  assert (N : ∀ P j, P Idle = false → ¬ at_pc P j (Lock_new v n)).
  { intros P j H (p & [-> _]%lookup_replicate & Hp). by rewrite H in Hp. }
  constructor; simpl; try done.
  all: try (intros ? ? H; by apply N in H).
  all: try (intros ? H; by apply N in H).
Qed.

End invariant.

(** ** Properties of every schedule *)

Section properties.
Context {T : Type}.
Implicit Types (s : Lock T) (i j : nat) (p q : PC).

(** A value changes only under the write guard. *)
Lemma step_inner i m s s' :
  step i m s = Some s' → inner s' = inner s ∨ is_at Writing i s.
Proof.
  unfold step, is_at. destruct (threads s !! i) as [p|] eqn:E; simpl; [|done].
  destruct m, p; simpl; try done; try (intros [_ ->]%when_Some; by left);
    try (intros [= <-]; first [by left|by right]);
    destruct (wants_write s); intros [= <-]; by left.
Qed.

(** From the announcement of a writer up to its write. *)
Definition preparing (p : PC) : bool := match p with WReread | WPrep | WWrite | Writing => true | _ => false end.

Lemma preparing_announced i s : at_pc preparing i s → at_pc announced i s.
Proof. intros (p & E & Hp). exists p. split; [done|by destruct p]. Qed.

(** The others while a writer is announced: they give up guards and get none. *)
Lemma bystander_step i k m s s' :
  lock_inv s → at_pc announced i s → k ≠ i → step k m s = Some s' →
  inner s' = inner s ∧ (∀ q, threads s !! i = Some q → threads s' !! i = Some q)
  ∧ ∀ j, at_pc holds_read j s' → at_pc holds_read j s.
Proof.
  intros I A Hne. pose proof (li_announced _ I i A) as W.
  unfold step. destruct (threads s !! k) as [p|] eqn:E; simpl; [|done].
  assert (Ho : announced p = false).
  { destruct (announced p) eqn:Ap; [|done]. destruct Hne. exact (li_owner _ I _ _ (at_pc_here _ _ _ _ E Ap) A). }
  assert (Hr : p ≠ RAcquire) by (intros ->; pose proof (li_acquire _ I _ E); congruence).
  assert (M : ∀ p', (holds_read p' = true → holds_read p = true) →
    inner s = inner s ∧ (∀ q, threads s !! i = Some q → <[k := p']> (threads s) !! i = Some q)
    ∧ ∀ j, at_pc holds_read j (mkLock (wants_write s) (inner s) (<[k := p']> (threads s))) → at_pc holds_read j s).
  { intros p' Hp'. split; [done|]. split; [intros q Hq; by rewrite list_lookup_insert_ne|].
    intros j [[-> H]|[_ H]]%at_pc_move; [|done]. apply (at_pc_here _ _ _ _ E), Hp', H. }
  destruct m, p; simpl; try done; try (intros [_ ->]%when_Some; by apply M); try (intros [= <-]; by apply M);
    rewrite W; intros [= <-]; by apply M.
Qed.

(** The writer itself. *)
Lemma upgrade_step i s s' :
  lock_inv s → at_pc preparing i s → step i Go s = Some s' →
  inner s' = inner s ∧ at_pc preparing i s' ∧ ∀ j, j ≠ i → at_pc holds_read j s' → at_pc holds_read j s.
Proof.
  intros I (p & E & Hp). unfold step. rewrite E. simpl.
  assert (M : ∀ p', preparing p' = true → inner (goto i p' s) = inner s ∧ at_pc preparing i (goto i p' s)
    ∧ ∀ j, j ≠ i → at_pc holds_read j (goto i p' s) → at_pc holds_read j s).
  { intros p' Hp'. split; [done|]. split; [by apply (at_pc_arrive _ _ _ _ _ _ _ E)|].
    intros j Hj [[-> _]|[_ H]]%at_pc_move; done. }
  destruct p; simpl; try done; try (intros [_ ->]%when_Some; by apply M); intros [= <-]; by apply M.
Qed.

(** C19: An upgrade of the device lock is atomic.  Take any number of threads after
    any interleaving, one of them announced as a writer, and let them go on in any
    order until that thread is in mut_func: no other thread announces itself, no
    thread gets a guard that did not hold one, and the value stays the one that
    prep_func saw under its read guard.  So mut_func changes the value that
    prep_func prepared for, and while it runs no other thread holds a guard of
    either kind. *)
Theorem upgrade_is_atomic (v : T) n before s i after s' :
  run before (Lock_new v n) = Some s → at_pc preparing i s →
  run after s = Some s' → (∀ m, (i, m) ∈ after → m = Go) →
  inner s' = inner s ∧ at_pc preparing i s'
  ∧ ∀ j, j ≠ i → ¬ at_pc announced j s' ∧ (at_pc holds_read j s' → at_pc holds_read j s)
      ∧ (is_at Writing i s' → ¬ at_pc holds_read j s' ∧ ¬ at_pc holds_write j s').
Proof.
  intros R. pose proof (run_inv _ _ _ (new_inv v n) R) as I. clear R. revert s I.
  induction after as [|[k m] after IH]; simpl; intros s I U.
  - intros [= <-] _. split; [done|]. split; [done|]. intros j Hj.
    assert (N : ¬ at_pc announced j s) by (intros H; apply Hj, (li_owner _ I); [done|by apply preparing_announced]).
    split; [done|]. split; [done|]. intros Hw. split.
    + intros H. by eapply (li_write _ I i j); [apply (at_pc_here _ _ _ _ Hw)|].
    + intros (q & Eq & Hq). apply N. exists q. split; [done|by destruct q].
  - destruct (step k m s) as [s1|] eqn:E; simpl; [|done]. intros R Hgo.
    assert (inner s1 = inner s ∧ at_pc preparing i s1 ∧ ∀ j, j ≠ i → at_pc holds_read j s1 → at_pc holds_read j s)
      as (Ei & U1 & H1).
    { destruct (decide (k = i)) as [->|Hne].
      - assert (m = Go) as -> by (apply Hgo; left). by apply upgrade_step.
      - destruct (bystander_step i k m s s1 I (preparing_announced _ _ U) Hne E) as (Ei & Hi & Hr).
        split; [done|]. split; [|intros j _; apply Hr]. destruct U as (q & Eq & Hq). exists q. by rewrite (Hi q Eq). }
    destruct (IH s1 (step_inv _ _ _ _ I E) U1 R) as (Ei' & U' & H'); [intros m' Hm'; apply Hgo; by right|].
    split; [congruence|]. split; [done|]. intros j Hj. destruct (H' j Hj) as (N & Hr & Hw). split; [exact N|]. split; [auto|exact Hw].
Qed.

(** The threads that can always take their next step. *)
Lemma go_enabled i p s :
  lock_inv s → threads s !! i = Some p →
  match p with
  | RCheck | RAcquire | WUnlock | WCheck | WClear | WReread | WPrep | WReread2 | PReread | PHeld => True
  | RLock | WLock | WRelock | WDone => mutex_free s = true
  | WWrite => no_holder s = true
  | _ => False
  end → ∃ s', step i Go s = Some s'.
Proof.
  intros I E. unfold step. rewrite E. simpl.
  assert (Hw : announced p = true ∨ wants_write s = false → holds_write p = false → no_writer s = true).
  { intros Hp Hnw. apply no_writer_spec. intros j (q & Eq & Hq).
    assert (A : at_pc announced j s) by (apply (at_pc_here _ _ _ _ Eq); by destruct q).
    destruct Hp as [Hp|Hp]; [|by rewrite (li_announced _ I _ A) in Hp].
    assert (j = i) as -> by exact (li_owner _ I _ _ A (at_pc_here _ _ _ _ E Hp)).
    rewrite E in Eq. simplify_eq. by rewrite Hnw in Hq. }
  assert (Ha : p = RAcquire → wants_write s = false) by (intros ->; exact (li_acquire _ I _ E)).
  destruct p; simpl; try done; try (intros ->; eauto); try (rewrite Hw by auto; eauto);
    destruct (wants_write s); eauto.
Qed.

(** A thread that is asleep, or about to write, is not stuck: the announced
    writer moves, or a thread that holds the mutex or queues for it does. *)
Lemma owner_goes j p s :
  lock_inv s → threads s !! j = Some p → announced p = true → p ≠ Crashed →
  mutex_free s = true → (∀ i, ¬ is_at Reading i s) →
  ∃ i, is_at Writing i s ∨ ∃ s', step i Go s = Some s'.
Proof.
  intros I E A NC F NR.
  destruct (decide (p = Writing)) as [->|NW]; [exists j; by left|].
  destruct (decide (p = WWrite)) as [->|NWW].
  2:{ exists j. right. apply (go_enabled _ _ _ I E). by destruct p. }
  destruct (no_holder s) eqn:EH; [exists j; right; by apply (go_enabled _ _ _ I E)|].
  apply forallb_not_at in EH as (k & q & Ek & Hq).
  assert (L : q = WLock).
  { assert (O : announced q = true → k = j)
      by (intros Aq; exact (li_owner _ I _ _ (at_pc_here _ _ _ _ Ek Aq) (at_pc_here _ _ _ _ E A))).
    pose proof (proj1 (mutex_free_spec s) F k) as NM.
    destruct q; try done; try (rewrite O in Ek by done; congruence).
    - by destruct (NR k).
    - destruct NM. by apply (at_pc_here _ _ _ _ Ek). }
  subst q. exists k. right. by apply (go_enabled _ _ _ I Ek).
Qed.

Lemma owner_moves j p s :
  lock_inv s → threads s !! j = Some p → announced p = true → p ≠ Crashed →
  mutex_free s = true → (∀ i, ¬ is_at Reading i s) →
  ∃ i m s', m ≠ Read ∧ step i m s = Some s'.
Proof.
  intros I E A NC F NR. destruct (owner_goes j p s I E A NC F NR) as (k & [Hw|[s' H]]); [|by exists k, Go, s'].
  exists k, (Mutate id). unfold step. rewrite Hw. eexists. by split.
Qed.

Lemma mutex_dec s : mutex_free s = true ∨ ∃ i p, threads s !! i = Some p ∧ holds_mutex p = true.
Proof.
  unfold mutex_free. destruct (forallb _ (threads s)) eqn:E; [by left|right].
  apply forallb_not_at in E as (k & q & Ek & Hq). exists k, q. split; [done|]. by destruct q.
Qed.

(** The device lock does not deadlock.  In every state that any interleaving
    of any number of threads reaches, when no thread holds an idle read guard
    and no writer has panicked, either every thread is outside the lock (or gone) or some
    thread inside it can take its next step: a writer that waits for the readers
    to yield, readers and writers that wait for the writer to finish, and
    threads that queue for the mutex never wait for one another in a cycle. *)
Lemma lock_no_deadlock (v : T) n schedule s :
  run schedule (Lock_new v n) = Some s →
  (∀ i, ¬ is_at Reading i s) → (∀ i, ¬ is_at Crashed i s) →
  (∀ i p, threads s !! i = Some p → p = Idle ∨ p = Dropped) ∨
  ∃ i m s', m ≠ Read ∧ step i m s = Some s'.
Proof.
  intros R NR NC. pose proof (run_inv _ _ _ (new_inv v n) R) as I.
  destruct (mutex_dec s) as [F|(i & p & E & Hp)].
  2:{ right. destruct (go_enabled i p s I E) as [s' H]; [by destruct p|]. by exists i, Go, s'. }
  destruct (decide (Forall (λ p, p = Idle ∨ p = Dropped) (threads s))) as [A|A].
  { left. intros i p E. by eapply Forall_lookup_1 in A. }
  right. apply not_Forall_Exists, list.Exists_exists in A as (p & Hin & Hp); [|intros ?; apply _].
  apply list_elem_of_lookup in Hin as [i E].
  destruct (waiting p) eqn:Ew.
  - destruct (li_owned _ I (li_waiting _ I i (at_pc_here _ _ _ _ E Ew))) as (j & q & Ej & Hq).
    apply (owner_moves j q s I Ej); [by apply Is_true_eq_true| |done|done].
    intros ->. by apply (NC j).
  - destruct (announced p) eqn:Ea.
    + apply (owner_moves i p s I E Ea); [intros ->; by apply (NC i)|done|done].
    + destruct (go_enabled i p s I E) as [s' H]; [|by exists i, Go, s'].
      cbn in Hp. destruct p; try done; try (by destruct Hp; auto). by apply (NR i).
Qed.


Lemma abandoned_step i j m s s' :
  lock_inv s → is_at Crashed j s → step i m s = Some s' →
  is_at Crashed j s' ∧ (∀ k, is_at Reading k s' → is_at Reading k s).
Proof.
  intros I C. unfold step. destruct (threads s !! i) as [p|] eqn:E; simpl; [|done].
  assert (W : wants_write s = true) by (by apply (li_announced _ I j), (at_pc_here _ _ _ _ C)).
  assert (Hij : p ≠ Crashed → j ≠ i) by (intros H ->; unfold is_at in C; congruence).
  assert (Ho : announced p = true → p = Crashed).
  { intros A. destruct (decide (p = Crashed)) as [|N]; [done|]. destruct (Hij N).
    exact (li_owner _ I _ _ (at_pc_here _ _ _ _ C eq_refl) (at_pc_here _ _ _ _ E A)). }
  assert (Hr : p = RAcquire → False).
  { intros ->. pose proof (li_acquire _ I _ E). congruence. }
  assert (M : ∀ w v q, p ≠ Crashed → q ≠ Reading →
    is_at Crashed j (mkLock (T := T) w v (<[i := q]> (threads s))) ∧
    ∀ k, is_at Reading k (mkLock w v (<[i := q]> (threads s))) → is_at Reading k s).
  { intros w v q Np Nq. unfold is_at. cbn [threads]. split.
    - rewrite list_lookup_insert_ne by (symmetry; auto). done.
    - intros k [(_ & -> & _)|[_ H]]%list_lookup_insert_Some; done. }
  destruct m, p; simpl; try done; try (by discriminate Ho); try (by destruct Hr);
    try (intros [_ ->]%when_Some; by apply M); try (intros [= <-]; by apply M);
    rewrite W; intros [= <-]; by apply M.
Qed.

(** C38: A panic under the device lock shuts it for good.  When a thread has
    unwound out of try_writeable, whatever the threads do afterwards, no thread
    that was not already holding an idle read guard ever holds one again: every
    later call of read, and every pending upgrade, waits for ever. *)
Theorem panic_shuts_lock (v : T) n before s j after s' k :
  run before (Lock_new v n) = Some s → is_at Crashed j s →
  run after s = Some s' → is_at Reading k s' → is_at Reading k s.
Proof.
  intros R C. pose proof (run_inv _ _ _ (new_inv v n) R) as I. clear R. revert s I C.
  induction after as [|[i m] rest IH]; simpl; intros s I C; [naive_solver|].
  destruct (step i m s) as [s1|] eqn:E; simpl; [|done]. intros R H.
  destruct (abandoned_step i j m s s1 I C E) as [C1 B].
  apply B, (IH s1); [by eapply step_inv|done|done|done].
Qed.

End properties.

(** ** Sample schedules *)

(** Thread 1 holds a guard when thread 0 panics in prep_func; thread 2 then calls
    read. *)
Definition sample_panic : list (nat * Move Z) :=
  [(1, Read); (1, Go); (1, Go); (1, Go); (0, Read); (0, Go); (0, Go); (0, Go); (0, TryWriteable); (0, Go);
   (0, Go); (0, Go); (0, Go); (0, Panic id); (0, Go)]%nat.

(** Threads 0 and 1 both hold a guard; thread 0 announces itself. *)
Definition sample_announced : list (nat * Move Z) :=
  [(0, Read); (0, Go); (0, Go); (0, Go); (1, Read); (1, Go); (1, Go); (1, Go); (0, TryWriteable); (0, Go); (0, Go); (0, Go)]%nat.

(** Thread 1 asks for write access too and sleeps; thread 0 gets it. *)
Definition sample_contended : list (nat * Move Z) :=
  [(1, TryWriteable); (1, Go); (0, Go); (1, Go); (0, Go); (1, Go); (0, Go)]%nat.

Lemma upgrade_is_atomic_witness :
  ∃ s s', run sample_announced (Lock_new 7%Z 2) = Some s ∧ at_pc holds_read 1 s ∧ run sample_contended s = Some s'
    ∧ is_at Writing 0 s' ∧ is_at WWait 1 s' ∧ inner s' = inner s ∧ ¬ at_pc holds_read 1 s'.
Proof.
  eexists _, _. split; [vm_compute; reflexivity|]. split; [by exists Reading|]. split; [vm_compute; reflexivity|].
  split; [reflexivity|]. split; [reflexivity|].
  edestruct (λ s s', upgrade_is_atomic 7%Z 2 sample_announced s 0 sample_contended s') as (E & _ & H);
    [vm_compute; reflexivity|by exists WReread|vm_compute; reflexivity| |].
  - intros m Hm. unfold sample_contended in Hm. rewrite !elem_of_cons, elem_of_nil in Hm. naive_solver.
  - split; [exact E|]. exact (proj1 (proj2 (proj2 (H 1%nat ltac:(lia))) eq_refl)).
Defined.

Lemma panic_shuts_lock_witness :
  ∃ s s', run sample_panic (Lock_new 7%Z 3) = Some s ∧
    run [(2, Read); (2, Go); (2, Go)]%nat s = Some s' ∧ is_at RWait 2 s' ∧ is_at Reading 1 s.
Proof.
  eexists _, _. split; [vm_compute; reflexivity|]. split; [vm_compute; reflexivity|].
  split; [reflexivity|].
  eapply (panic_shuts_lock 7%Z 3 sample_panic _ 0 [(2, Read); (2, Go); (2, Go)]%nat); by vm_compute.
Defined.
