(* ===== verification/Device.v ===== *)
(** * Device: the peers of an interface and its configuration

    Models the control plane of [awgtun/src/device/mod.rs] and the [Peer] of
    [awgtun/src/device/peer.rs].  An [Arc<Mutex<Peer>>] is an identifier into
    [d_heap]: the maps by key, by index and by address, and the handlers of
    connected sockets, hold identifiers of the same peer, and what one changes
    the others see.  A rate limiter shared between the device and its peers is an
    identifier into [d_limiters] the same way.  An identifier no map holds is an
    [Arc] that was dropped.

    What a call reads from outside is its [Host]: the order in which a
    [HashMap] is walked, clocks and keys, and the outcome of every system call. *)

From Stdlib Require Import ZArith Lia.
From stdpp Require Import base list option strings sets tactics countable gmap fin_maps.
From S2P Require Import Prelude Clock Random Codec Keys Lfsr Amnezia Cps Config Packet Ip AllowedIps.
From S2P Require Import Session Handshake RateLimiter Timers Tunnel EventPoll.
Open Scope Z_scope.

Definition HANDSHAKE_RATE_LIMIT : Z := 100.
Definition MAX_UDP_SIZE : nat := Z.to_nat (2 ^ 16 - 1).
Definition MAX_ITR : nat := 100.

(** The variants of [Error], without their payload. *)
Inductive Error :=
  | IoError | SocketError | BindError | FCntl | EventQueueError | IOCtl | ConnectError
  | SetSockOpt | InvalidTunnelName | GetSockOpt | GetSockName | TimerError | IfaceRead | DropPrivileges | ApiSocket.

#[export] Instance Error_eq_dec : EqDecision Error.
Proof. solve_decision. Defined.

(** A descriptor and the open socket it names: [try_clone] makes another
    descriptor of the same socket. *)
Record Socket := mkSocket { s_fd : Z; s_file : nat }.

#[export] Instance Socket_eq_dec : EqDecision Socket.
Proof. solve_decision. Defined.

Record Endpoint := mkEndpoint { ep_addr : option SocketAddr; ep_conn : option Socket }.

(** The registered handlers: the closures of [register_udp_handler],
    [register_conn_handler] and [register_iface_handler] with what they capture,
    and those of the API, the monitor, the signals, the two notices and the two
    timers. *)
Inductive Handler :=
  | HUdp (udp : Socket)
  | HConn (peer : nat) (udp : Socket) (peer_addr : IpAddr)
  | HIface
  | HApi | HMonitor | HSignal | HYield | HExit | HMaintenance | HTimers.

(** The outside of a call. *)
Record Seed := mkSeed { seed_time : Z; seed_secret : bytes; seed_nonce : bytes }.
Record Host := mkHost {
  (** The order in which [self.peers] is walked. *)
  h_order : gmap bytes nat → list (bytes * nat);
  (** The [i]-th reading of the clocks, and the keys of the [i]-th tunnel built. *)
  h_env : nat → Env;
  h_seed : nat → Seed;
  (** [shutdown] on a connected socket. *)
  h_shutdown : Socket → bool;
  (** Opening a listening socket of a family and binding it to a port. *)
  h_open : bool → Z → result Error Socket;
  h_local_port : Socket → result Error Z;
  (** Opening a socket connected to an endpoint. *)
  h_connect : SocketAddr → Z → option Z → result Error Socket;
  h_clone : Socket → option Z;
  h_epoll_add : Z → bool;
  h_set_mark : Socket → Z → bool
}.

(** A walk visits every entry once. *)
Definition host_ok (h : Host) : Prop := ∀ m, h_order h m ≡ₚ map_to_list m.

Section device.
Context `{CC : ChaCha20} `{B64 : Base64} `{NC : NoiseCrypto} `{AE : Aead} `{RS : RandomSource R}.
Context `{TB : IpNetworkTable}.

(** [p_limiter] names the limiter the tunnel shares; with [None] its own is in
    the tunnel. *)
Record Peer := mkPeer {
  p_tunnel : Tunn;
  p_index : Z;
  p_endpoint : Endpoint;
  p_allowed_ips : AllowedIps ();
  p_preshared_key : option bytes;
  p_keepalive_range : option U32Range;
  p_limiter : option nat
}.

Definition p_set_tunnel (t : Tunn) (p : Peer) : Peer :=
  mkPeer t (p_index p) (p_endpoint p) (p_allowed_ips p) (p_preshared_key p) (p_keepalive_range p) (p_limiter p).
Definition p_set_endpoint (e : Endpoint) (p : Peer) : Peer :=
  mkPeer (p_tunnel p) (p_index p) e (p_allowed_ips p) (p_preshared_key p) (p_keepalive_range p) (p_limiter p).
Definition p_set_limiter (l : option nat) (p : Peer) : Peer :=
  mkPeer (p_tunnel p) (p_index p) (p_endpoint p) (p_allowed_ips p) (p_preshared_key p) (p_keepalive_range p) l.

Record Device := mkDevice {
  d_key_pair : option (bytes * bytes);
  d_queue : list (option (Event Handler));
  d_listen_port : Z;
  d_fwmark : option Z;
  d_udp4 : option Socket;
  d_udp6 : option Socket;
  d_peers : gmap bytes nat;
  d_peers_by_ip : AllowedIps nat;
  d_peers_by_idx : gmap Z nat;
  d_next_index : IndexLfsr;
  d_use_connected_socket : bool;
  d_amnezia : Amnezia3Config;
  d_mtu : Z;
  d_rate_limiter : option nat;
  d_heap : gmap nat Peer;
  d_limiters : gmap nat RateLimiter
}.

Definition d_set_key_pair (k : option (bytes * bytes)) (d : Device) : Device :=
  mkDevice k (d_queue d) (d_listen_port d) (d_fwmark d) (d_udp4 d) (d_udp6 d) (d_peers d)
    (d_peers_by_ip d) (d_peers_by_idx d) (d_next_index d) (d_use_connected_socket d) (d_amnezia d)
    (d_mtu d) (d_rate_limiter d) (d_heap d) (d_limiters d).
Definition d_set_queue (q : list (option (Event Handler))) (d : Device) : Device :=
  mkDevice (d_key_pair d) q (d_listen_port d) (d_fwmark d) (d_udp4 d) (d_udp6 d) (d_peers d)
    (d_peers_by_ip d) (d_peers_by_idx d) (d_next_index d) (d_use_connected_socket d) (d_amnezia d)
    (d_mtu d) (d_rate_limiter d) (d_heap d) (d_limiters d).
Definition d_set_sockets (port : Z) (s4 s6 : option Socket) (d : Device) : Device :=
  mkDevice (d_key_pair d) (d_queue d) port (d_fwmark d) s4 s6 (d_peers d)
    (d_peers_by_ip d) (d_peers_by_idx d) (d_next_index d) (d_use_connected_socket d) (d_amnezia d)
    (d_mtu d) (d_rate_limiter d) (d_heap d) (d_limiters d).
Definition d_set_fwmark (m : option Z) (d : Device) : Device :=
  mkDevice (d_key_pair d) (d_queue d) (d_listen_port d) m (d_udp4 d) (d_udp6 d) (d_peers d)
    (d_peers_by_ip d) (d_peers_by_idx d) (d_next_index d) (d_use_connected_socket d) (d_amnezia d)
    (d_mtu d) (d_rate_limiter d) (d_heap d) (d_limiters d).
Definition d_set_maps (p : gmap bytes nat) (ip : AllowedIps nat) (idx : gmap Z nat) (d : Device) : Device :=
  mkDevice (d_key_pair d) (d_queue d) (d_listen_port d) (d_fwmark d) (d_udp4 d) (d_udp6 d) p ip idx
    (d_next_index d) (d_use_connected_socket d) (d_amnezia d)
    (d_mtu d) (d_rate_limiter d) (d_heap d) (d_limiters d).
Definition d_set_lfsr (l : IndexLfsr) (d : Device) : Device :=
  mkDevice (d_key_pair d) (d_queue d) (d_listen_port d) (d_fwmark d) (d_udp4 d) (d_udp6 d) (d_peers d)
    (d_peers_by_ip d) (d_peers_by_idx d) l (d_use_connected_socket d) (d_amnezia d)
    (d_mtu d) (d_rate_limiter d) (d_heap d) (d_limiters d).
Definition d_set_amnezia (a : Amnezia3Config) (d : Device) : Device :=
  mkDevice (d_key_pair d) (d_queue d) (d_listen_port d) (d_fwmark d) (d_udp4 d) (d_udp6 d) (d_peers d)
    (d_peers_by_ip d) (d_peers_by_idx d) (d_next_index d) (d_use_connected_socket d) a
    (d_mtu d) (d_rate_limiter d) (d_heap d) (d_limiters d).
Definition d_set_mtu (m : Z) (d : Device) : Device :=
  mkDevice (d_key_pair d) (d_queue d) (d_listen_port d) (d_fwmark d) (d_udp4 d) (d_udp6 d) (d_peers d)
    (d_peers_by_ip d) (d_peers_by_idx d) (d_next_index d) (d_use_connected_socket d) (d_amnezia d)
    m (d_rate_limiter d) (d_heap d) (d_limiters d).
Definition d_set_heap (h : gmap nat Peer) (d : Device) : Device :=
  mkDevice (d_key_pair d) (d_queue d) (d_listen_port d) (d_fwmark d) (d_udp4 d) (d_udp6 d) (d_peers d)
    (d_peers_by_ip d) (d_peers_by_idx d) (d_next_index d) (d_use_connected_socket d) (d_amnezia d)
    (d_mtu d) (d_rate_limiter d) h (d_limiters d).
Definition d_set_limiters (r : option nat) (l : gmap nat RateLimiter) (d : Device) : Device :=
  mkDevice (d_key_pair d) (d_queue d) (d_listen_port d) (d_fwmark d) (d_udp4 d) (d_udp6 d) (d_peers d)
    (d_peers_by_ip d) (d_peers_by_idx d) (d_next_index d) (d_use_connected_socket d) (d_amnezia d)
    (d_mtu d) r (d_heap d) l.

(** A body over the device and the random generator. *)
Record DWorld := mkDWorld { dev : Device; drng : R }.
Definition D (A : Type) : Type := ST DWorld Error A.

Definition get_dev : D Device := gets dev.
Definition upd_dev (f : Device → Device) : D () := modify (λ w, mkDWorld (f (dev w)) (drng w)).
Definition must_dev {A} (o : option A) : D A := match o with Some a => mret a | None => panic end.
Definition assert_dev (b : bool) : D () := if b then mret tt else panic.

(** [peer.lock()]: an [Arc] always names a peer. *)
Definition lock_peer (id : nat) : D Peer := d ← get_dev; must_dev (d_heap d !! id).
Definition store_peer (id : nat) (p : Peer) : D () := upd_dev (λ d, d_set_heap (<[id := p]> (d_heap d)) d).

(** The tunnel of a peer with the limiter it shares. *)
Definition load_tunnel (d : Device) (p : Peer) : Tunn :=
  match p_limiter p ≫= (λ l, d_limiters d !! l) with
  | Some r => set_limiter r (p_tunnel p)
  | None => p_tunnel p
  end.
Definition save_tunnel (id : nat) (p : Peer) (t : Tunn) (d : Device) : Device :=
  let d := d_set_heap (<[id := p_set_tunnel t p]> (d_heap d)) d in
  match p_limiter p with
  | Some l => d_set_limiters (d_rate_limiter d) (<[l := rate_limiter t]> (d_limiters d)) d
  | None => d
  end.

(** A method of the tunnel of a locked peer. *)
Definition on_tunnel {A} (id : nat) (m : T (R := R) A) : D (result WireGuardError A) := λ w,
  match d_heap (dev w) !! id with
  | None => (Panic, w)
  | Some p =>
      let '(r, tw) := m (mkWorld (load_tunnel (dev w) p) (drng w)) in
      let w' := mkDWorld (save_tunnel id p (tunn tw) (dev w)) (rng tw) in
      match r with Panic => (Panic, w') | r => (Ok r, w') end
  end.
Definition tunnel_call (id : nat) (m : T (R := R) TunnResult) : D TunnResult :=
  r ← on_tunnel id m;
  match r with Ok x => mret x | Err e => mret (TErr e) | Panic => panic end.
Definition tunnel_do {A} (id : nat) (m : T (R := R) A) : D A :=
  r ← on_tunnel id m;
  match r with Ok a => mret a | _ => panic end.

(** ** [Peer] *)
Definition Peer_new (tunnel : Tunn) (index : Z) (endpoint : option SocketAddr) (allowed_ips : list AllowedIP)
    (preshared_key : option bytes) (keepalive_range : option U32Range) : result Error Peer :=
  ips ← AllowedIps_from_iter ((λ ip, (ip, tt)) <$> allowed_ips);
  Ok (mkPeer tunnel index (mkEndpoint endpoint None) ips preshared_key keepalive_range None).

(** [drain_outgoing]: [while let Some(packet) = poll_outgoing_packet()], one turn
    per queued packet and one that finds the queue empty. *)
Fixpoint drain_loop (n : nat) : T (R := R) (list bytes) :=
  packet ← poll_outgoing_packet;
  match packet, n with
  | None, _ => mret []
  | Some p, S n' => rest ← drain_loop n'; mret (p :: rest)
  | Some _, O => panic
  end.
Definition drain_outgoing : T (R := R) (list bytes) :=
  t ← get; drain_loop (length (network_outgoing t)).

Definition shutdown_endpoint (h : Host) (id : nat) : D () :=
  p ← lock_peer id;
  match ep_conn (p_endpoint p) with
  | Some conn =>
      _ ← store_peer id (p_set_endpoint (mkEndpoint (ep_addr (p_endpoint p)) None) p);
      assert_dev (h_shutdown h conn)
  | None => mret tt
  end.

Definition set_endpoint (h : Host) (id : nat) (addr : SocketAddr) : D bool :=
  p ← lock_peer id;
  if decide (ep_addr (p_endpoint p) = Some addr) then mret false else
  _ ← shutdown_endpoint h id;
  _ ← store_peer id (p_set_endpoint (mkEndpoint (Some addr) None) p);
  mret true.

Definition connect_endpoint (h : Host) (id : nat) (port : Z) (fwmark : option Z) : D Socket :=
  p ← lock_peer id;
  match ep_conn (p_endpoint p) with
  | Some _ => throw ConnectError
  | None =>
      addr ← must_dev (ep_addr (p_endpoint p));
      udp_conn ← lift (h_connect h addr port fwmark);
      fd ← must_dev (h_clone h udp_conn);
      _ ← store_peer id (p_set_endpoint (mkEndpoint (Some addr) (Some (mkSocket fd (s_file udp_conn)))) p);
      mret udp_conn
  end.

Definition is_allowed_ip (p : Peer) (addr : IpAddr) : bool :=
  bool_decide (is_Some (AllowedIps_find (p_allowed_ips p) addr)).

Definition Peer_allowed_ips (p : Peer) : list (IpAddr * Z) :=
  (λ '(_, ip, cidr), (ip, cidr)) <$> AllowedIps_iter (p_allowed_ips p).

Definition Peer_persistent_keepalive (p : Peer) : option Z := Tunn_persistent_keepalive (p_tunnel p).

Definition set_tunnel (tunnel : Tunn) (index : Z) (p : Peer) : Peer :=
  mkPeer tunnel index (p_endpoint p) (p_allowed_ips p) (p_preshared_key p) (p_keepalive_range p) None.

(** ** [Device]: peers *)
Definition Device_next_index : D Z := λ w,
  let '(r, l) := IndexLfsr_next (d_next_index (dev w)) in
  (r, mkDWorld (d_set_lfsr l (dev w)) (drng w)).

(** [for x in l]: the body takes the position too. *)
Fixpoint for_each {A} (l : list A) (i : nat) (body : nat → A → D ()) : D () :=
  match l with
  | [] => mret tt
  | x :: l' => _ ← body i x; for_each l' (S i) body
  end.

Definition remove_peer (h : Host) (pub_key : bytes) : D () :=
  d ← get_dev;
  match d_peers d !! pub_key with
  | Some peer =>
      _ ← upd_dev (λ d, d_set_maps (delete pub_key (d_peers d)) (d_peers_by_ip d) (d_peers_by_idx d) d);
      _ ← shutdown_endpoint h peer;
      p ← lock_peer peer;
      upd_dev (λ d, d_set_maps (d_peers d)
        (AllowedIps_remove (d_peers_by_ip d) (Nat.eqb peer)) (delete (p_index p) (d_peers_by_idx d)) d)
  | None => mret tt
  end.

Definition peer_amnezia_config (d : Device) : Amnezia3Config :=
  let a := d_amnezia d in
  mkConfig (junk a) (paddings a) (headers a) (init_packets a) (header_protection_key a)
    (content_padding_addition a) (timing_ranges a) (random_trailers a) (disable_cookies a)
    (wrap 32 (d_mtu d)).

(** [amnezia.timing_ranges.persistent_keepalive = range]. *)
Definition with_keepalive_range (range : option U32Range) (a : Amnezia3Config) : Amnezia3Config :=
  match range with
  | None => a
  | Some r =>
      let t := timing_ranges a in
      mkConfig (junk a) (paddings a) (headers a) (init_packets a) (header_protection_key a)
        (content_padding_addition a)
        (mkTimingRanges (rekey_after_time t) (rekey_timeout t) (reject_after_time t)
           (keepalive_timeout t) (max_handshake_attempts t) r)
        (random_trailers a) (disable_cookies a) (mtu a)
  end.

(** [Tunn::new_with_amnezia3] with no limiter, [i]-th of this call. *)
Definition build_tunnel (h : Host) (i : nat) (private_key pub_key : bytes) (psk : option bytes)
    (keepalive : option Z) (index : Z) (config : Amnezia3Config) : D (result ConfigError Tunn) := λ w,
  let s := h_seed h i in
  match new_with_amnezia3 private_key pub_key psk keepalive index None config
          (seed_time s) (now (h_env h i)) (seed_secret s) (seed_nonce s) (drng w) with
  | Ok (t, g) => (Ok (Ok t), mkDWorld (dev w) g)
  | Err e => (Ok (Err e), w)
  | Panic => (Panic, w)
  end.

(** [for AllowedIP { addr, cidr } in allowed_ips]. *)
Definition route_to (peer : nat) (allowed_ips : list AllowedIP) : D () :=
  for_each allowed_ips 0 (λ _ a,
    d ← get_dev;
    '(_, t) ← lift (AllowedIps_insert (d_peers_by_ip d) (ai_addr a) (ai_cidr a) peer);
    upd_dev (λ d, d_set_maps (d_peers d) t (d_peers_by_idx d) d)).

Definition update_peer (h : Host) (pub_key : bytes) (remove replace_ips : bool)
    (endpoint : option SocketAddr) (allowed_ips : list AllowedIP) (keepalive : option Z)
    (keepalive_range : option U32Range) (preshared_key : option bytes) : D () :=
  if remove then remove_peer h pub_key else
  d ← get_dev;
  _ ← assert_dev (bool_decide (d_peers d !! pub_key = None));
  next ← Device_next_index;
  '(private_key, _) ← must_dev (d_key_pair d);
  tunn ← build_tunnel h 0 private_key pub_key preshared_key keepalive next
           (with_keepalive_range keepalive_range (peer_amnezia_config d));
  match tunn with
  | Err _ => mret tt
  | Panic => panic
  | Ok tunn =>
      peer ← lift (Peer_new tunn next endpoint allowed_ips preshared_key keepalive_range);
      d ← get_dev;
      let id := fresh (dom (d_heap d)) in
      _ ← upd_dev (λ d, d_set_heap (<[id := peer]> (d_heap d))
            (d_set_maps (<[pub_key := id]> (d_peers d)) (d_peers_by_ip d)
               (<[next := id]> (d_peers_by_idx d)) d));
      route_to id allowed_ips
  end.

(** One peer of the rebuilding loop. *)
Definition rebuild_peer (h : Host) (base : Amnezia3Config) (private_key : bytes) (i : nat)
    (entry : bytes * nat) : D () :=
  let '(pub_key, peer) := entry in
  p ← lock_peer peer;
  let keepalive_range := p_keepalive_range p in
  let keepalive := match keepalive_range with Some _ => None | None => Peer_persistent_keepalive p end in
  index ← Device_next_index;
  tunn ← build_tunnel h i private_key pub_key (p_preshared_key p) keepalive index
           (with_keepalive_range keepalive_range base);
  match tunn with
  | Err _ => mret tt
  | Panic => panic
  | Ok tunn =>
      _ ← upd_dev (λ d, d_set_maps (d_peers d) (d_peers_by_ip d) (delete (p_index p) (d_peers_by_idx d)) d);
      _ ← store_peer peer (set_tunnel tunn index p);
      upd_dev (λ d, d_set_maps (d_peers d) (d_peers_by_ip d) (<[index := peer]> (d_peers_by_idx d)) d)
  end.

Definition set_amnezia_config (h : Host) (amnezia : Amnezia3Config) : D () :=
  d ← get_dev;
  if decide (d_amnezia d = amnezia) then mret tt else
  _ ← upd_dev (d_set_amnezia amnezia);
  d ← get_dev;
  match d_key_pair d with
  | None => mret tt
  | Some (private_key, _) =>
      for_each (h_order h (d_peers d)) 0 (rebuild_peer h (peer_amnezia_config d) private_key)
  end.

Definition clear_peers : D () := upd_dev (λ d, d_set_maps ∅ (AllowedIps_clear (d_peers_by_ip d)) ∅ d).

(** ** [Device]: keys and sockets *)

(** [set_static_private] on a peer, whose limiter becomes the device's. *)
Definition rekey_peer (h : Host) (private_key public_key : bytes) (l : nat) (i : nat) (entry : bytes * nat)
    : D () :=
  let peer := entry.2 in
  p ← lock_peer peer;
  _ ← store_peer peer (p_set_limiter (Some l) p);
  d ← get_dev;
  tunnel_do peer (set_static_private private_key public_key (d_limiters d !! l) [] [] (h_env h i)).

Definition set_key (h : Host) (private_key : bytes) : D () :=
  let public_key := x25519_public private_key in
  d ← get_dev;
  if decide (Some public_key = snd <$> d_key_pair d) then mret tt else
  let s := h_seed h 0 in
  let limiter := RateLimiter_new public_key HANDSHAKE_RATE_LIMIT (seed_secret s) (seed_nonce s)
    (now (h_env h 0)) in
  let l := fresh (dom (d_limiters d)) in
  _ ← upd_dev (λ d, d_set_limiters (d_rate_limiter d) (<[l := limiter]> (d_limiters d)) d);
  _ ← for_each (h_order h (d_peers d)) 0 (rekey_peer h private_key public_key l);
  upd_dev (λ d, d_set_limiters (Some l) (d_limiters d)
    (d_set_key_pair (Some (private_key, public_key)) d)).

Definition clear_event (fd : Z) : D () :=
  d ← get_dev;
  match clear_event_by_fd (d_queue d) fd with
  | Ok (q, _) => upd_dev (d_set_queue q)
  | _ => panic
  end.

Definition register (h : Host) (fd : Z) (handler : Handler) : D () :=
  d ← get_dev;
  let '(r, q, _) := new_event (d_queue d) fd handler (h_epoll_add h fd) in
  _ ← upd_dev (d_set_queue q);
  match r with Ok _ => mret tt | Err _ => throw EventQueueError | Panic => panic end.

Definition register_udp_handler (h : Host) (udp : Socket) : D () := register h (s_fd udp) (HUdp udp).
Definition register_conn_handler (h : Host) (peer : nat) (udp : Socket) (peer_addr : IpAddr) : D () :=
  register h (s_fd udp) (HConn peer udp peer_addr).

(** [sock.try_clone().unwrap()]. *)
Definition try_clone (h : Host) (s : Socket) : D Socket :=
  fd ← must_dev (h_clone h s); mret (mkSocket fd (s_file s)).

Definition open_listen_socket (h : Host) (port : Z) : D () :=
  d ← get_dev;
  _ ← upd_dev (λ d, d_set_sockets (d_listen_port d) None (d_udp6 d) d);
  _ ← match d_udp4 d with Some s => clear_event (s_fd s) | None => mret tt end;
  _ ← upd_dev (λ d, d_set_sockets (d_listen_port d) None None d);
  _ ← match d_udp6 d with Some s => clear_event (s_fd s) | None => mret tt end;
  _ ← for_each (h_order h (d_peers d)) 0 (λ _ e, shutdown_endpoint h e.2);
  udp_sock4 ← lift (h_open h true port);
  port ← (if port =? 0 then lift (h_local_port h udp_sock4) else mret port);
  udp_sock6 ← lift (h_open h false port);
  clone4 ← try_clone h udp_sock4;
  _ ← register_udp_handler h clone4;
  clone6 ← try_clone h udp_sock6;
  _ ← register_udp_handler h clone6;
  upd_dev (d_set_sockets port (Some udp_sock4) (Some udp_sock6)).

Definition set_mark (h : Host) (mark : Z) (s : option Socket) : D () :=
  match s with
  | Some s => if h_set_mark h s mark then mret tt else throw IoError
  | None => mret tt
  end.

Definition set_fwmark (h : Host) (mark : Z) : D () :=
  _ ← upd_dev (d_set_fwmark (Some mark));
  d ← get_dev;
  _ ← set_mark h mark (d_udp4 d);
  _ ← set_mark h mark (d_udp6 d);
  for_each (h_order h (d_peers d)) 0 (λ _ e, p ← lock_peer e.2; set_mark h mark (ep_conn (p_endpoint p))).

(** [Device::new], with the interface's MTU and the draws of the index
    generator; the handlers it registers are not peers' nor sockets'. *)
Definition Device_new (use_connected : bool) (mtu : Z) (lfsr : IndexLfsr)
    (queue : list (option (Event Handler))) : Device :=
  mkDevice None queue 0 None None None ∅ AllowedIps_new ∅ lfsr use_connected
    Amnezia3Config_default mtu None ∅ ∅.
End device.
