(* ===== verification/DeviceInv.v ===== *)
(** * DeviceInv: the maps of a device agree

    The invariant [device_ok] of a device and that every operation of [Device]
    keeps it.  The three maps name the same peers: a peer registered by key is
    registered under the index of its tunnel and nothing else is, an allowed IP
    routes only to a registered peer, no index is in use twice.  And every
    registered peer agrees with the device: its tunnel has the device's key pair,
    the peer's public key, the device's AmneziaWG configuration, and keeps the
    peer's index in every index it hands out. *)

From Stdlib Require Import ZArith Lia.
From stdpp Require Import base list option strings sets tactics countable gmap fin_maps.
From S2P Require Import Prelude Clock Random Codec Keys Lfsr Amnezia Cps Config Packet Ip AllowedIps.
From S2P Require Import Session Handshake RateLimiter Timers Tunnel EventPoll TunnelIdentity Device.
Open Scope Z_scope.

(** ** The index generator *)
Definition drawn (s : IndexLfsr) (k : nat) : Prop :=
  lfsr_ok s ∧ lfsr s = Nat.iter k lfsr_step (lfsr_initial s) ∧ Z.of_nat k < Z.pos PERIOD.

Lemma next_drawn {E} s k :
  drawn s k →
  match IndexLfsr_next (E := E) s with
  | (Ok i, s') => i = index_at s k ∧ drawn s' (S k) ∧ ∀ j, index_at s' j = index_at s j
  | (Err _, _) => False
  | (Panic, _) => True
  end.
Proof.
  intros (Hs & Hk & Hlt). rewrite (next_at s k Hs Hk Hlt).
  destruct (Z.eqb_spec (Z.of_nat k + 1) (Z.pos PERIOD)); [done|].
  split; [done|]. split; [|done]. destruct Hs as (Hi & Hm & _).
  split; [|split; [done|lia]]. split; [done|]. split; [done|]. exists (S k). split; [done|lia].
Qed.

(** ** Configurations with a peer's keepalive range *)
Definition range_valid (r : U32Range) : Prop := lo r ≤ hi r.

Lemma U32Range_validate_ok r f : U32Range_validate r f = Ok () ↔ range_valid r.
Proof. unfold U32Range_validate, range_valid. destruct (Z.ltb_spec (hi r) (lo r)); split; (done || lia). Qed.

Lemma TimingRanges_validate_ok t :
  TimingRanges_validate t = Ok () ↔
  range_valid (rekey_after_time t) ∧ range_valid (rekey_timeout t) ∧ range_valid (reject_after_time t)
  ∧ range_valid (keepalive_timeout t) ∧ range_valid (max_handshake_attempts t)
  ∧ range_valid (persistent_keepalive t).
Proof.
  unfold TimingRanges_validate. rewrite <- !(U32Range_validate_ok _ "x"%string).
  split.
  - intros H. repeat (apply bind_ok in H as ([] & ?%U32Range_validate_ok & H)).
    apply U32Range_validate_ok in H. rewrite !U32Range_validate_ok. tauto.
  - rewrite !U32Range_validate_ok. intros (?&?&?&?&?&?).
    repeat (apply bind_ok; exists tt; split; [by apply U32Range_validate_ok|]). by apply U32Range_validate_ok.
Qed.

Definition set_cfg_mtu (m : Z) (a : Amnezia3Config) : Amnezia3Config :=
  mkConfig (junk a) (paddings a) (headers a) (init_packets a) (header_protection_key a)
    (content_padding_addition a) (timing_ranges a) (random_trailers a) (disable_cookies a) m.

Lemma validate_mtu m a : Amnezia3Config_validate (set_cfg_mtu m a) = Amnezia3Config_validate a.
Proof. done. Qed.

(** Discharge the first check of the goal with the one known to have passed. *)
Ltac step_ok H :=
  let E := fresh "E" in
  apply bind_ok in H as ([] & E & H); rewrite E; cbn [mbind result_bind].

Lemma validate_with_range r a :
  Amnezia3Config_validate a = Ok () → from_option range_valid True r →
  Amnezia3Config_validate (with_keepalive_range r a) = Ok ().
Proof.
  destruct r as [r|]; [|done]. unfold Amnezia3Config_validate, with_keepalive_range. cbn [from_option].
  intros H Hr. cbn [junk paddings init_packets headers content_padding_addition timing_ranges
    header_protection_key].
  do 5 step_ok H. apply bind_ok in H as ([] & H2 & H).
  apply TimingRanges_validate_ok in H2 as (?&?&?&?&?&_).
  rewrite (proj2 (TimingRanges_validate_ok _)) by (split_and!; done). exact H.
Qed.

Lemma validate_range_valid r a :
  Amnezia3Config_validate (with_keepalive_range r a) = Ok () → from_option range_valid True r.
Proof.
  destruct r as [r|]; [|done]. unfold Amnezia3Config_validate, with_keepalive_range. cbn [from_option].
  intros H. do 5 (apply bind_ok in H as ([] & _ & H)).
  apply bind_ok in H as ([] & H%TimingRanges_validate_ok & _). apply H.
Qed.

Lemma config_of_range r a : config_of (with_keepalive_range r a) = config_of a.
Proof. by destruct r. Qed.

(** ** The invariant *)
Section invariant.
Context `{CC : ChaCha20} `{B64 : Base64} `{NC : NoiseCrypto} `{AE : Aead} `{RS : RandomSource R}.
Context `{TB : IpNetworkTable}.

Record peer_ok (d : Device) (k : bytes) (p : Peer) : Prop := {
  pk_identity : ∃ sk pk, d_key_pair d = Some (sk, pk) ∧
    identity (p_index p) (config_of (d_amnezia d)) (pk, sk, k, p_preshared_key p) (p_tunnel p);
  pk_range : from_option range_valid True (p_keepalive_range p)
}.

Record maps_ok (d : Device) (P : bytes → Peer → Prop) : Prop := {
  mk_peers k id : d_peers d !! k = Some id →
    ∃ p, d_heap d !! id = Some p ∧ P k p ∧ d_peers_by_idx d !! p_index p = Some id;
  mk_inj k k' id : d_peers d !! k = Some id → d_peers d !! k' = Some id → k = k';
  mk_idx i id : d_peers_by_idx d !! i = Some id →
    ∃ k p, d_peers d !! k = Some id ∧ d_heap d !! id = Some p ∧ p_index p = i;
  mk_ip n id : exact_match (d_peers_by_ip d) n = Some id → ∃ k, d_peers d !! k = Some id;
  mk_lfsr : ∃ k, drawn (d_next_index d) k ∧
    ∀ i, is_Some (d_peers_by_idx d !! i) → ∃ j, (j < k)%nat ∧ i = index_at (d_next_index d) j
}.

Record device_ok (d : Device) : Prop := {
  dk_key sk pk : d_key_pair d = Some (sk, pk) → pk = x25519_public sk;
  dk_amnezia : config_ok (d_amnezia d);
  dk_maps : maps_ok d (peer_ok d)
}.

(** [m] leaves a device that satisfies [Q] when it returns and [X] when it fails;
    a panic ends the device. *)
Definition ends {A} (m : D (R := R) A) (w : DWorld) (X : Device → Prop) (Q : A → Device → Prop) : Prop :=
  match m w with
  | (Ok a, w') => Q a (dev w')
  | (Err _, w') => X (dev w')
  | (Panic, _) => True
  end.

Section rules.
Context {X : Device → Prop}.

Lemma ends_bind {A B} (m : D A) (f : A → D B) w Q :
  match m w with
  | (Ok a, w') => ends (f a) w' X Q
  | (Err _, w') => X (dev w')
  | (Panic, _) => True
  end → ends (m ≫= f) w X Q.
Proof. unfold ends, mbind, ST_bind. by destruct (m w) as [[a|e|] w']. Qed.

(** A step with a known contract; what follows may use any device it leaves. *)
Lemma ends_seq {A B} (m : D A) (f : A → D B) w P Q :
  ends m w X P → (∀ a w', P a (dev w') → ends (f a) w' X Q) → ends (m ≫= f) w X Q.
Proof.
  intros Hm Hf. apply ends_bind. unfold ends in Hm. destruct (m w) as [[a|e|] w']; auto.
Qed.
Lemma ends_mono {A} (m : D A) w (P Q : A → Device → Prop) :
  ends m w X P → (∀ a d, P a d → Q a d) → ends m w X Q.
Proof. unfold ends. destruct (m w) as [[a|e|] w']; auto. Qed.
Lemma ends_get {A} (f : Device → D A) w Q : ends (f (dev w)) w X Q → ends (d ← get_dev; f d) w X Q.
Proof. done. Qed.
Lemma ends_upd f w Q : Q tt (f (dev w)) → ends (upd_dev f) w X Q.
Proof. done. Qed.
Lemma ends_ret {A} (a : A) w Q : Q a (dev w) → ends (mret a : D A) w X Q.
Proof. done. Qed.
Lemma ends_must {A} (o : option A) w Q : (∀ a, o = Some a → Q a (dev w)) → ends (must_dev o) w X Q.
Proof. unfold ends, must_dev. destruct o; cbn; auto. Qed.
Lemma ends_assert b w Q : (b = true → Q tt (dev w)) → ends (assert_dev b) w X Q.
Proof. unfold assert_dev. destruct b; [by intros H; apply H|done]. Qed.
Lemma ends_lift {A} (r : result Error A) w Q :
  (∀ a, r = Ok a → Q a (dev w)) → X (dev w) → ends (lift r) w X Q.
Proof. unfold ends, lift. destruct r; auto. Qed.
Lemma ends_panic {A} w Q : ends (panic : D A) w X Q.
Proof. done. Qed.
End rules.

(** ** Updates that keep it *)

(** The fields the invariant reads. *)
Definition core_of (d : Device) :=
  (d_key_pair d, d_amnezia d, d_peers d, d_peers_by_ip d, d_peers_by_idx d, d_next_index d, d_heap d).

Lemma device_ok_same d d' : core_of d' = core_of d → device_ok d → device_ok d'.
Proof.
  unfold core_of. intros E [Hk Ha [H1 H2 H3 H4 H5]].
  injection E as E1 E2 E3 E4 E5 E6 E7.
  split; [by rewrite E1|by rewrite E2|]. split; rewrite ?E3, ?E4, ?E5, ?E6, ?E7; try done.
  intros k id Hid. destruct (H1 k id Hid) as (p & Hp & [Hi Hr] & Hx). exists p. split; [done|].
  split; [|done]. split; [by rewrite E1, E2|done].
Qed.

Lemma maps_ok_registered d (P P' : bytes → Peer → Prop) :
  maps_ok d P → (∀ k id p, d_peers d !! k = Some id → P k p → P' k p) → maps_ok d P'.
Proof.
  intros [H1 H2 H3 H4 H5] HP. split; try done. intros k id Hid.
  destruct (H1 k id Hid) as (p & Hp & HPp & Hx). exists p. eauto.
Qed.
Lemma maps_ok_mono d (P P' : bytes → Peer → Prop) :
  maps_ok d P → (∀ k p, P k p → P' k p) → maps_ok d P'.
Proof. intros Hm HP. apply (maps_ok_registered d P); auto. Qed.
Lemma peer_ok_same d d' k p :
  d_key_pair d' = d_key_pair d → d_amnezia d' = d_amnezia d → peer_ok d k p → peer_ok d' k p.
Proof. intros E1 E2 []. split; [by rewrite E1, E2|done]. Qed.

(** A peer changes but stays the same peer. *)
Record evolves (p p' : Peer) : Prop := {
  ev_index : p_index p' = p_index p;
  ev_psk : p_preshared_key p' = p_preshared_key p;
  ev_range : p_keepalive_range p' = p_keepalive_range p;
  ev_identity i cfg keys : identity i cfg keys (p_tunnel p) → identity i cfg keys (p_tunnel p')
}.

Lemma maps_ok_store d id p p' (P P' : bytes → Peer → Prop) :
  maps_ok d P → d_heap d !! id = Some p → p_index p' = p_index p →
  (∀ k, d_peers d !! k = Some id → P k p → P' k p') →
  (∀ k id' q, d_peers d !! k = Some id' → id' ≠ id → P k q → P' k q) →
  maps_ok (d_set_heap (<[id := p']> (d_heap d)) d) P'.
Proof.
  intros [H1 H2 H3 H4 H5] Hp Hi HP HP'. split; cbn; try done.
  - intros k id' Hid. destruct (H1 k id' Hid) as (q & Hq & HPq & Hx).
    destruct (decide (id' = id)) as [->|Hne].
    + rewrite lookup_insert_eq. exists p'. rewrite Hi. rewrite Hp in Hq. simplify_eq. auto.
    + rewrite lookup_insert_ne by done. exists q. eauto.
  - intros i id' Hid. destruct (H3 i id' Hid) as (k & q & Hk & Hq & Hx).
    destruct (decide (id' = id)) as [->|Hne].
    + rewrite lookup_insert_eq. exists k, p'. rewrite Hp in Hq. simplify_eq. by rewrite Hi.
    + rewrite lookup_insert_ne by done. by exists k, q.
Qed.

Lemma device_ok_evolve d id p p' :
  device_ok d → d_heap d !! id = Some p → evolves p p' →
  device_ok (d_set_heap (<[id := p']> (d_heap d)) d).
Proof.
  intros [Hk Ha Hm] Hp [Hi Hs Hr He]. split; [done|done|].
  apply (maps_ok_store d id p p' (peer_ok d)); [done..| |].
  - intros k _ [(sk & pk & Hkp & Hid) Hv]. split; [|by rewrite Hr].
    exists sk, pk. split; [done|]. rewrite Hi, Hs. by apply He.
  - intros k id' q _ _ [? ?]. by split.
Qed.

Lemma evolves_endpoint e p : evolves p (p_set_endpoint e p).
Proof. by split. Qed.

(** ** Bodies that keep it *)
Definition dkeeps {A} (m : D (R := R) A) : Prop :=
  ∀ w, device_ok (dev w) → ends m w device_ok (λ _, device_ok).

Lemma dkeeps_bind {A B} (m : D A) (f : A → D B) : dkeeps m → (∀ a, dkeeps (f a)) → dkeeps (m ≫= f).
Proof.
  intros Hm Hf w Hw. eapply ends_seq; [by apply Hm|]. intros a w' Hw'. by apply Hf.
Qed.
Lemma dkeeps_pure {A} (m : D A) : (∀ w, (m w).2 = w) → dkeeps m.
Proof. intros Hm w Hw. unfold ends. specialize (Hm w). by destruct (m w) as [[]], Hm. Qed.
Lemma dkeeps_get : dkeeps get_dev.
Proof. by apply dkeeps_pure. Qed.
Lemma dkeeps_upd f : (∀ d, device_ok d → device_ok (f d)) → dkeeps (upd_dev f).
Proof. intros Hf w Hw. by apply Hf. Qed.
Lemma dkeeps_same f : (∀ d, core_of (f d) = core_of d) → dkeeps (upd_dev f).
Proof. intros Hf. apply dkeeps_upd. intros d. by apply device_ok_same. Qed.
Lemma dkeeps_for {A} (l : list A) n body : (∀ i x, dkeeps (body i x)) → dkeeps (for_each l n body).
Proof.
  intros Hb. revert n. induction l as [|x l IH]; intros n; [by apply dkeeps_pure|].
  cbn [for_each]. apply dkeeps_bind; [done|]. intros _. apply IH.
Qed.
Lemma dkeeps_must {A} (o : option A) : dkeeps (must_dev o).
Proof. apply dkeeps_pure. intros w. by destruct o. Qed.
Lemma dkeeps_lock id : dkeeps (lock_peer id).
Proof. apply dkeeps_bind; [apply dkeeps_get|]. intros d. apply dkeeps_must. Qed.

Lemma identity_load d p i cfg keys :
  identity i cfg keys (p_tunnel p) → identity i cfg keys (load_tunnel d p).
Proof.
  unfold load_tunnel. destruct (p_limiter p ≫= _); [|done]. by apply id_other.
Qed.

(** A tunnel method that keeps the identity keeps the device. *)
Lemma on_tunnel_keeps {A} id (m : T (R := R) A) :
  (∀ i cfg keys, keeps (identity i cfg keys) m (λ _, True)) → dkeeps (on_tunnel id m).
Proof.
  intros Hm w Hw. unfold ends, on_tunnel.
  destruct (d_heap (dev w) !! id) as [p|] eqn:Hp; [|done].
  destruct (m _) as [r tw] eqn:E.
  assert (He : evolves p (p_set_tunnel (tunn tw) p)).
  { split; try done. intros i cfg keys Hi. cbn.
    destruct (Hm i cfg keys (mkWorld (load_tunnel (dev w) p) (drng w))) as [Hi' _]; [by apply identity_load|].
    by rewrite E in Hi'. }
  assert (Hok : device_ok (save_tunnel id p (tunn tw) (dev w))).
  { unfold save_tunnel. pose proof (device_ok_evolve _ _ _ _ Hw Hp He) as Hd.
    destruct (p_limiter p); [|done]. by apply (device_ok_same (d_set_heap (<[id:=p_set_tunnel (tunn tw) p]> (d_heap (dev w))) (dev w))). }
  by destruct r.
Qed.
Lemma tunnel_call_keeps id (m : T (R := R) TunnResult) :
  (∀ i cfg keys, keeps (identity i cfg keys) m (λ _, True)) → dkeeps (tunnel_call id m).
Proof.
  intros Hm. apply dkeeps_bind; [by apply on_tunnel_keeps|]. intros []; by apply dkeeps_pure.
Qed.
Lemma tunnel_do_keeps {A} id (m : T (R := R) A) :
  (∀ i cfg keys, keeps (identity i cfg keys) m (λ _, True)) → dkeeps (tunnel_do id m).
Proof.
  intros Hm. apply dkeeps_bind; [by apply on_tunnel_keeps|]. intros []; by apply dkeeps_pure.
Qed.

(** ** Endpoints and sockets *)
Lemma shutdown_endpoint_spec h id (w : DWorld (R := R)) :
  match shutdown_endpoint h id w with
  | (Ok _, w') => ∃ p, d_heap (dev w) !! id = Some p ∧
      w' = mkDWorld (d_set_heap (<[id := p_set_endpoint (mkEndpoint (ep_addr (p_endpoint p)) None) p]>
                                   (d_heap (dev w))) (dev w)) (drng w)
  | (Err _, _) => False
  | (Panic, _) => True
  end.
Proof.
  unfold shutdown_endpoint, lock_peer, mbind, ST_bind, get_dev, gets.
  destruct (d_heap (dev w) !! id) as [p|] eqn:Hp; [|done]. cbn.
  destruct p as [t ix [addr [conn|]] ips psk kr lim]; cbn.
  - destruct (h_shutdown h conn); [|done]. by eexists.
  - eexists. split; [done|]. unfold p_set_endpoint. cbn. rewrite insert_id by done. by destruct w as [[] ?].
Qed.

Lemma store_keeps (w : DWorld (R := R)) id p p' :
  device_ok (dev w) → d_heap (dev w) !! id = Some p → evolves p p' →
  ends (store_peer id p') w device_ok (λ _, device_ok).
Proof. intros. by eapply device_ok_evolve. Qed.

Lemma shutdown_endpoint_keeps h id : dkeeps (shutdown_endpoint h id).
Proof.
  intros w Hw. unfold ends. pose proof (shutdown_endpoint_spec h id w) as Hs.
  destruct (shutdown_endpoint h id w) as [[[]|e|] w']; [|done..]. destruct Hs as (p & Hp & ->).
  by eapply device_ok_evolve, evolves_endpoint.
Qed.

Lemma set_endpoint_keeps h id addr : dkeeps (set_endpoint h id addr).
Proof.
  intros w Hw. unfold set_endpoint, lock_peer. apply ends_bind.
  unfold mbind at 1, ST_bind, get_dev, gets. destruct (d_heap (dev w) !! id) as [p|] eqn:Hp; [|done].
  cbn [must_dev]. cbn. case_decide; [done|]. apply ends_bind.
  pose proof (shutdown_endpoint_spec h id w) as Hs.
  destruct (shutdown_endpoint h id w) as [[[]|e|] w']; [|done..]. destruct Hs as (q & Hq & ->).
  rewrite Hp in Hq. injection Hq as <-. apply (ends_seq _ _ _ (λ _, device_ok)); [|by intros ? w' ?].
  eapply store_keeps; [|cbn; by rewrite lookup_insert_eq|by split].
  by eapply device_ok_evolve, evolves_endpoint.
Qed.

Lemma connect_endpoint_keeps h id port mark : dkeeps (connect_endpoint h id port mark).
Proof.
  intros w Hw. unfold connect_endpoint, lock_peer. apply ends_bind.
  unfold mbind at 1, ST_bind, get_dev, gets. destruct (d_heap (dev w) !! id) as [p|] eqn:Hp; [|done]. cbn.
  destruct (ep_conn (p_endpoint p)); [done|].
  apply ends_bind. destruct (ep_addr (p_endpoint p)) as [addr|]; [|done]. cbn.
  apply ends_bind. unfold lift. destruct (h_connect h addr port mark) as [s|e|]; [|done..].
  apply ends_bind. destruct (h_clone h s); [|done]. cbn.
  apply (ends_seq _ _ _ (λ _, device_ok)); [|by intros ? w' ?]. by eapply store_keeps; [..|apply evolves_endpoint].
Qed.

Lemma clear_event_keeps fd : dkeeps (clear_event fd).
Proof.
  apply dkeeps_bind; [apply dkeeps_get|]. intros d.
  destruct (clear_event_by_fd _ _) as [[]| |]; [by apply dkeeps_same|by apply dkeeps_pure..].
Qed.

Lemma register_keeps h fd handler : dkeeps (register h fd handler).
Proof.
  apply dkeeps_bind; [apply dkeeps_get|]. intros d. destruct (new_event _ _ _ _) as [[r q] c].
  apply dkeeps_bind; [by apply dkeeps_same|]. intros _. destruct r; by apply dkeeps_pure.
Qed.

Lemma open_listen_socket_keeps h port : dkeeps (open_listen_socket h port).
Proof.
  unfold open_listen_socket, try_clone, register_udp_handler.
  apply dkeeps_bind; [apply dkeeps_get|]. intros d.
  apply dkeeps_bind; [by apply dkeeps_same|]. intros _.
  apply dkeeps_bind; [destruct (d_udp4 d); [apply clear_event_keeps|by apply dkeeps_pure]|]. intros _.
  apply dkeeps_bind; [by apply dkeeps_same|]. intros _.
  apply dkeeps_bind; [destruct (d_udp6 d); [apply clear_event_keeps|by apply dkeeps_pure]|]. intros _.
  apply dkeeps_bind; [apply dkeeps_for; intros; apply shutdown_endpoint_keeps|]. intros _.
  apply dkeeps_bind; [by apply dkeeps_pure|]. intros s4.
  apply dkeeps_bind; [by destruct (port =? 0); apply dkeeps_pure|]. intros port'.
  apply dkeeps_bind; [by apply dkeeps_pure|]. intros s6.
  do 2 (apply dkeeps_bind; [apply dkeeps_bind; [apply dkeeps_must|intros; by apply dkeeps_pure]|]; intros ?;
        apply dkeeps_bind; [apply register_keeps|]; intros _).
  by apply dkeeps_same.
Qed.

Lemma set_mark_keeps h mark s : dkeeps (set_mark h mark s).
Proof. unfold set_mark. destruct s; [destruct (h_set_mark _ _ _)|]; by apply dkeeps_pure. Qed.

Lemma set_fwmark_keeps h mark : dkeeps (set_fwmark h mark).
Proof.
  unfold set_fwmark. apply dkeeps_bind; [by apply dkeeps_same|]. intros _.
  apply dkeeps_bind; [apply dkeeps_get|]. intros d.
  do 2 (apply dkeeps_bind; [apply set_mark_keeps|]; intros _).
  apply dkeeps_for. intros i x. apply dkeeps_bind; [apply dkeeps_lock|]. intros p. apply set_mark_keeps.
Qed.

(** ** Adding and removing peers *)
Lemma maps_ok_clear d P : maps_ok d P → maps_ok (d_set_maps ∅ (AllowedIps_clear (d_peers_by_ip d)) ∅ d) P.
Proof.
  intros [_ _ _ _ (k & Hk & _)]. split; cbn.
  - intros ? ? H. by rewrite lookup_empty in H.
  - intros ? ? ? H. by rewrite lookup_empty in H.
  - intros ? ? H. by rewrite lookup_empty in H.
  - intros n id H. unfold AllowedIps_clear in H. by rewrite match_new in H.
  - exists k. split; [done|]. intros i [? H]. by rewrite lookup_empty in H.
Qed.

Lemma clear_peers_keeps : dkeeps clear_peers.
Proof.
  apply dkeeps_upd. intros d [Hk Ha Hm]. split; [done|done|]. cbn. apply maps_ok_clear in Hm.
  destruct Hm. by split.
Qed.

Lemma maps_ok_remove d k id p P :
  maps_ok d P → d_peers d !! k = Some id → d_heap d !! id = Some p →
  maps_ok (d_set_maps (delete k (d_peers d)) (AllowedIps_remove (d_peers_by_ip d) (Nat.eqb id))
             (delete (p_index p) (d_peers_by_idx d)) d) P.
Proof.
  intros [H1 H2 H3 H4 (n & Hn & Hu)] Hk Hp.
  destruct (H1 k id Hk) as (p' & Hp' & _ & Hx). rewrite Hp in Hp'. injection Hp' as <-.
  split; cbn.
  - intros k' id' [Hne Hk']%lookup_delete_Some. destruct (H1 k' id' Hk') as (q & Hq & HP & Hqx).
    exists q. split_and!; [done..|]. rewrite lookup_delete_ne; [done|]. intros E.
    rewrite E in Hx. rewrite Hx in Hqx. injection Hqx as ->. by destruct (Hne (H2 _ _ _ Hk Hk')).
  - intros k1 k2 id' [_ E1]%lookup_delete_Some [_ E2]%lookup_delete_Some. by eapply H2.
  - intros i id' [Hne Hi]%lookup_delete_Some. destruct (H3 i id' Hi) as (k' & q & Hk' & Hq & Hqi).
    exists k', q. split_and!; [|done..]. rewrite lookup_delete_ne; [done|]. intros <-.
    rewrite Hk in Hk'. injection Hk' as <-. rewrite Hp in Hq. by simplify_eq.
  - intros m id' Hm. unfold AllowedIps_remove in Hm. rewrite match_retain in Hm.
    destruct (exact_match (d_peers_by_ip d) m) as [x|] eqn:Hx'; [|done].
    destruct (Nat.eqb_spec id x); [done|]. cbn in Hm. injection Hm as <-.
    destruct (H4 m x Hx') as [k' Hk']. exists k'. rewrite lookup_delete_ne; [done|]. intros <-. by simplify_eq.
  - exists n. split; [done|]. intros i [x [_ Hx']%lookup_delete_Some]. by apply Hu.
Qed.

(** What [remove_peer] leaves when it returns. *)
Lemma remove_peer_spec h k (w : DWorld (R := R)) id :
  d_peers (dev w) !! k = Some id →
  ends (remove_peer h k) w (λ _, False) (λ _ d', ∃ p,
    d_heap (dev w) !! id = Some p ∧
    d' = d_set_maps (delete k (d_peers (dev w))) (AllowedIps_remove (d_peers_by_ip (dev w)) (Nat.eqb id))
           (delete (p_index p) (d_peers_by_idx (dev w)))
         (d_set_heap (<[id := p_set_endpoint (mkEndpoint (ep_addr (p_endpoint p)) None) p]> (d_heap (dev w)))
           (dev w))).
Proof.
  intros Hk. unfold remove_peer. apply ends_get. rewrite Hk. apply ends_bind. cbn. apply ends_bind.
  set (w1 := mkDWorld _ _). pose proof (shutdown_endpoint_spec h id w1) as Hs.
  destruct (shutdown_endpoint h id w1) as [[[]|e|] w']; [|done..]. destruct Hs as (p & Hp & ->).
  apply ends_bind. unfold lock_peer, mbind, ST_bind, get_dev, gets. cbn.
  rewrite lookup_insert_eq. cbn. exists p. by split.
Qed.

Lemma remove_peer_keeps h k : dkeeps (remove_peer h k).
Proof.
  intros w Hw. destruct (d_peers (dev w) !! k) as [id|] eqn:Hk.
  - pose proof (remove_peer_spec h k w id Hk) as Hs. unfold ends in *.
    destruct (remove_peer h k w) as [[[]|e|] w']; [|done..]. destruct Hs as (p & Hp & ->).
    pose proof (device_ok_evolve _ id p (p_set_endpoint (mkEndpoint (ep_addr (p_endpoint p)) None) p)
      Hw Hp (evolves_endpoint _ _)) as [Hkey Ha Hm].
    split; [done..|]. eapply maps_ok_remove in Hm; [|exact Hk|cbn; by rewrite lookup_insert_eq].
    eapply maps_ok_mono; [exact Hm|]. intros k' q. by apply peer_ok_same.
  - unfold remove_peer. apply ends_get. by rewrite Hk.
Qed.

(** An index drawn and not yet given to a peer. *)
Definition reserved (d : Device) (i : Z) : Prop :=
  d_peers_by_idx d !! i = None ∧ 0 ≤ i < 2 ^ 24 ∧
  ∃ k, drawn (d_next_index d) k ∧
    ∀ x, is_Some (d_peers_by_idx d !! x) ∨ x = i → ∃ j, (j < k)%nat ∧ x = index_at (d_next_index d) j.

Lemma next_index_spec (w : DWorld (R := R)) P :
  maps_ok (dev w) P →
  match Device_next_index w with
  | (Ok i, w') => ∃ l, w' = mkDWorld (d_set_lfsr l (dev w)) (drng w)
      ∧ maps_ok (dev w') P ∧ reserved (dev w') i
  | (Err _, _) => False
  | (Panic, _) => True
  end.
Proof.
  intros [H1 H2 H3 H4 (k & Hk & Hu)]. unfold Device_next_index.
  pose proof (next_drawn (E := Error) _ _ Hk) as Hn.
  destruct (IndexLfsr_next _) as [[i|e|] l]; [|done..]. destruct Hn as (-> & Hl & Heq).
  assert (Hused : ∀ x, is_Some (d_peers_by_idx (dev w) !! x) → ∃ j, (j < k)%nat ∧ x = index_at l j).
  { intros x Hx. destruct (Hu x Hx) as (j & Hj & ->). exists j. by rewrite Heq. }
  exists l. split; [done|]. split.
  - split; cbn; try done. exists (S k). split; [done|]. intros x Hx.
    destruct (Hused x Hx) as (j & ? & ->). exists j. split; [lia|done].
  - split; [|split]; cbn.
    + apply eq_None_not_Some. intros Hs. destruct (Hu _ Hs) as (j & Hj & E).
      destruct Hk as (Hok & _ & Hlt). apply index_at_inj in E; [lia|done|lia|lia].
    + apply index_at_range, Hk.
    + exists (S k). split; [done|]. intros x [Hx|Hx].
      * destruct (Hused x Hx) as (j & ? & ->). exists j. split; [lia|done].
      * exists k. split; [lia|]. by rewrite Heq.
Qed.

Lemma maps_ok_add d k id p P :
  maps_ok d P → d_peers d !! k = None → d_heap d !! id = None → reserved d (p_index p) → P k p →
  maps_ok (d_set_heap (<[id := p]> (d_heap d))
            (d_set_maps (<[k := id]> (d_peers d)) (d_peers_by_ip d) (<[p_index p := id]> (d_peers_by_idx d)) d)) P.
Proof.
  intros [H1 H2 H3 H4 H5] Hk Hid (Hfree & _ & n & Hn & Hu) HP.
  assert (Hno : ∀ k', d_peers d !! k' ≠ Some id).
  { intros k' Hk'. destruct (H1 k' id Hk') as (q & Hq & _). congruence. }
  split; cbn.
  - intros k' id' [[<- <-]|[Hne Hk']]%lookup_insert_Some.
    + exists p. by rewrite !lookup_insert_eq.
    + destruct (H1 k' id' Hk') as (q & Hq & HPq & Hx). exists q.
      rewrite !lookup_insert_ne; [done| |]; [intros E; rewrite E in Hfree|intros ->]; congruence.
  - intros k1 k2 id' [[<- <-]|[? E1]]%lookup_insert_Some [[<- E]|[? E2]]%lookup_insert_Some;
      [done|by destruct (Hno k2)|subst; by destruct (Hno k1)|by eapply H2].
  - intros i id' [[<- <-]|[Hne Hi]]%lookup_insert_Some.
    + exists k, p. by rewrite !lookup_insert_eq.
    + destruct (H3 i id' Hi) as (k' & q & Hk' & Hq & Hqi). exists k', q.
      rewrite !lookup_insert_ne; [done| |]; intros ->; congruence.
  - intros m id' Hm. destruct (H4 m id' Hm) as [k' Hk']. exists k'.
    rewrite lookup_insert_ne; [done|]. intros ->. congruence.
  - exists n. split; [done|]. intros x [y [[<- _]|[_ Hy]]%lookup_insert_Some]; apply Hu; [by right|left; by exists y].
Qed.

(** A walk with an invariant of its own. *)
Lemma ends_for {A} (l : list A) n body (I : Device → Prop) (w : DWorld (R := R)) :
  I (dev w) →
  (∀ i x w', x ∈ l → I (dev w') → ends (body i x) w' I (λ _, I)) →
  ends (for_each l n body) w I (λ _, I).
Proof.
  intros Hw Hb. revert n w Hw. induction l as [|x l IH]; intros n w Hw; [done|]. cbn [for_each].
  eapply ends_seq; [apply Hb; [left|done]|]. intros a w' Hw'. apply IH; [|done].
  intros i y w1 Hy. apply Hb. by right.
Qed.

Lemma route_to_keeps k id ips (w : DWorld (R := R)) :
  device_ok (dev w) → d_peers (dev w) !! k = Some id → ends (route_to id ips) w device_ok (λ _, device_ok).
Proof.
  intros Hw Hk.
  assert (Hpost : ends (route_to id ips) w (λ d, device_ok d ∧ d_peers d !! k = Some id)
    (λ _ d, device_ok d ∧ d_peers d !! k = Some id)).
  { apply ends_for; [done|]. intros i a w' _ [Hd Hp]. apply ends_get. apply ends_bind. unfold lift.
    destruct (AllowedIps_insert _ _ _ _) as [[o t]|e|] eqn:E; [|done..]. apply ends_upd.
    split; [|done]. destruct Hd as [H1 H2 [M1 M2 M3 M4 M5]]. split; [done..|]. split; cbn; try done.
    - intros k' id' Hid. destruct (M1 k' id' Hid) as (q & Hq & [] & Hx). exists q. by repeat split.
    - intros m id' Hm. unfold AllowedIps_insert in E. destruct (new_truncate _ _) as [net|]; [|done].
      apply Ok_inj in E. change t with (o, t).2 in Hm. rewrite <- E, match_insert in Hm.
      case_decide; [injection Hm as <-; by exists k|by eapply M4]. }
  unfold ends in *. destruct (route_to id ips w) as [[[]|e|] w']; naive_solver.
Qed.

Lemma build_tunnel_spec h i sk pub psk keepalive index config (w : DWorld (R := R)) :
  0 ≤ index < 2 ^ 24 →
  match build_tunnel h i sk pub psk keepalive index config w with
  | (Ok (Ok t), w') => dev w' = dev w ∧ Amnezia3Config_validate config = Ok ()
      ∧ identity index (config_of config) (x25519_public sk, sk, pub, psk) t
  | (Ok (Err _), w') => dev w' = dev w ∧ Amnezia3Config_validate config ≠ Ok ()
  | (Ok Panic, _) | (Err _, _) => False
  | (Panic, _) => True
  end.
Proof.
  intros Hi. unfold build_tunnel. destruct (new_with_amnezia3 _ _ _ _ _ _ _ _ _ _ _ _) as [[t g]|e|] eqn:E; [|split; [done|]|done].
  - split; [done|]. split; [|by eapply new_identity].
    unfold new_with_amnezia3 in E. by apply bind_ok in E as ([] & Hv & _).
  - intros Hv. unfold new_with_amnezia3 in E. rewrite Hv in E. cbn in E.
    by destruct (Timers_new _ _ _ _ _).
Qed.

Lemma validate_peer_config r d :
  config_ok (d_amnezia d) → from_option range_valid True r →
  Amnezia3Config_validate (with_keepalive_range r (peer_amnezia_config d)) = Ok ().
Proof. intros [_ Ha] Hr. apply validate_with_range; [|done]. by rewrite <- (validate_mtu (wrap 32 (d_mtu d))) in Ha. Qed.

Lemma fresh_heap (d : Device) : d_heap d !! fresh (dom (d_heap d)) = None.
Proof. apply not_elem_of_dom, is_fresh. Qed.

Lemma update_peer_keeps h k remove replace endpoint ips keepalive range psk :
  dkeeps (update_peer h k remove replace endpoint ips keepalive range psk).
Proof.
  intros w Hw. unfold update_peer. destruct remove; [by apply remove_peer_keeps|].
  apply ends_get, ends_bind. unfold assert_dev. case_bool_decide as Hk; [|done]. cbn.
  apply ends_bind. destruct Hw as [Hkey Ha Hm]. pose proof (next_index_spec w _ Hm) as Hn.
  destruct (Device_next_index w) as [[next|e|] w1]; [|done..]. destruct Hn as (l & -> & Hm1 & Hres).
  apply ends_bind. destruct (d_key_pair (dev w)) as [[sk pk]|] eqn:Hkp in |- *; [|done]. cbn.
  apply ends_bind. set (w1 := mkDWorld _ _) in *.
  assert (Hok1 : device_ok (dev w1)).
  { split; [exact Hkey|exact Ha|]. eapply maps_ok_mono; [exact Hm1|]. intros k' q. by apply peer_ok_same. }
  pose proof (build_tunnel_spec h 0 sk k psk keepalive next
    (with_keepalive_range range (peer_amnezia_config (dev w))) w1 (proj1 (proj2 Hres))) as Hb.
  destruct (build_tunnel _ _ _ _ _ _ _ _ w1) as [[[t|e|]|e|] w2]; try done.
  2: { destruct Hb as [Hd _]. apply ends_ret. by rewrite Hd. }
  destruct Hb as (Hd2 & Hv & Hid). rewrite config_of_range in Hid. apply validate_range_valid in Hv.
  apply ends_bind. unfold lift, Peer_new.
  destruct (AllowedIps_from_iter _) as [t_ips|e|]; cbn; [|by rewrite Hd2|done].
  apply ends_get. apply ends_bind. cbn. rewrite Hd2.
  set (p := mkPeer _ _ _ _ _ _ _). set (id := fresh _).
  apply (route_to_keeps k); [|cbn; apply lookup_insert_eq].
  split; [exact Hkey|exact Ha|]. eapply maps_ok_mono; [|intros k' q; by apply (peer_ok_same (dev w1))].
  apply (maps_ok_add (dev w1) k id p); [apply Hok1|done|apply (fresh_heap (dev w))|done|].
  split; [|done]. exists sk, pk. split; [done|]. by rewrite (Hkey sk pk Hkp).
Qed.

(** ** Walks over every peer

    A walk brings the peers from one agreement to another; [todo] are the keys
    it has still to visit. *)
Lemma maps_ok_reindex d k id p p' (P P' : bytes → Peer → Prop) :
  maps_ok d P → d_peers d !! k = Some id → d_heap d !! id = Some p → reserved d (p_index p') →
  P' k p' → (∀ k' q, k' ≠ k → P k' q → P' k' q) →
  maps_ok (d_set_maps (d_peers d) (d_peers_by_ip d) (<[p_index p' := id]> (delete (p_index p) (d_peers_by_idx d)))
    (d_set_heap (<[id := p']> (d_heap d)) d)) P'.
Proof.
  intros [H1 H2 H3 H4 H5] Hk Hp (Hfree & _ & n & Hn & Hu) HP HP'.
  destruct (H1 k id Hk) as (p0 & Hp0 & _ & Hx). rewrite Hp in Hp0. injection Hp0 as <-.
  assert (Hother : ∀ k' id' q, d_peers d !! k' = Some id' → k' ≠ k → d_heap d !! id' = Some q →
    d_peers_by_idx d !! p_index q = Some id' → id' ≠ id ∧ p_index q ≠ p_index p' ∧ p_index q ≠ p_index p).
  { intros k' id' q Hk' Hne Hq Hqx. assert (id' ≠ id) by (intros ->; by destruct (Hne (H2 _ _ _ Hk' Hk))).
    split_and!; [done|intros E; rewrite E in Hqx; congruence|intros E; rewrite E in Hqx; congruence]. }
  split; cbn.
  - intros k' id' Hk'. destruct (decide (k' = k)) as [->|Hne].
    + rewrite Hk in Hk'. injection Hk' as <-. exists p'. by rewrite !lookup_insert_eq.
    + destruct (H1 k' id' Hk') as (q & Hq & HPq & Hqx). exists q.
      destruct (Hother k' id' q Hk' Hne Hq Hqx) as (? & ? & ?).
      rewrite !lookup_insert_ne by done. rewrite lookup_delete_ne by done. auto.
  - done.
  - intros i id' [[<- <-]|[Hne [Hnp Hi]%lookup_delete_Some]]%lookup_insert_Some.
    + exists k, p'. by rewrite lookup_insert_eq.
    + destruct (H3 i id' Hi) as (k' & q & Hk' & Hq & Hqi). exists k', q. split; [done|].
      rewrite lookup_insert_ne; [done|]. intros <-. rewrite Hp in Hq. by simplify_eq.
  - done.
  - exists n. split; [done|]. intros x [y [[<- _]|[_ [_ Hy]%lookup_delete_Some]]%lookup_insert_Some];
      apply Hu; [by right|left; by exists y].
Qed.

(** A peer whose tunnel may have another configuration or other keys. *)
Definition peer_at (C : TunnConfig → Prop) (K : bytes → bytes → Prop) (k : bytes) (p : Peer) : Prop :=
  (∃ sk pk cfg, K sk pk ∧ C cfg ∧ identity (p_index p) cfg (pk, sk, k, p_preshared_key p) (p_tunnel p))
  ∧ from_option range_valid True (p_keepalive_range p).

Lemma peer_ok_at d k p :
  peer_ok d k p ↔ peer_at (eq (config_of (d_amnezia d))) (λ sk pk, d_key_pair d = Some (sk, pk)) k p.
Proof. split; [intros [(sk & pk & ? & ?) ?]|intros [(sk & pk & cfg & ? & <- & ?) ?]]; split; eauto 10. Qed.

Definition walking (m : gmap bytes nat) (sk pk : bytes) (a : Amnezia3Config) (todo : list bytes) (d : Device) : Prop :=
  d_peers d = m ∧ d_key_pair d = Some (sk, pk) ∧ d_amnezia d = a ∧
  maps_ok d (λ k, peer_at (λ cfg, k ∉ todo → cfg = config_of a) (λ sk' pk', sk' = sk ∧ pk' = pk) k).

Lemma rebuild_peer_walks h m sk a base i k id todo (w : DWorld (R := R)) :
  walking m sk (x25519_public sk) a (k :: todo) (dev w) → m !! k = Some id →
  config_of base = config_of a → Amnezia3Config_validate base = Ok () →
  ends (rebuild_peer h base sk i (k, id)) w (λ _, False) (λ _, walking m sk (x25519_public sk) a todo).
Proof.
  intros (Hpm & Hkp & Ham & Hm) Hk Hbase Hv. unfold rebuild_peer. apply ends_bind.
  rewrite <- Hpm in Hk. destruct (mk_peers _ _ Hm k id Hk) as (p & Hp & [_ Hr] & Hx).
  unfold lock_peer, mbind at 1, ST_bind, get_dev, gets. rewrite Hp. cbn.
  apply ends_bind. pose proof (next_index_spec w _ Hm) as Hn.
  destruct (Device_next_index w) as [[idx|e|] w1]; [|done..]. destruct Hn as (l & -> & Hm1 & Hres).
  apply ends_bind. set (w1 := mkDWorld _ _) in *.
  pose proof (build_tunnel_spec h i sk k (p_preshared_key p)
    (match p_keepalive_range p with Some _ => None | None => Peer_persistent_keepalive p end) idx
    (with_keepalive_range (p_keepalive_range p) base) w1 (proj1 (proj2 Hres))) as Hb.
  destruct (build_tunnel _ _ _ _ _ _ _ _ w1) as [[[t|e|]|e|] w2]; try done.
  2: { destruct Hb as [_ []]. by apply validate_with_range. }
  destruct Hb as (Hd2 & _ & Hid). rewrite config_of_range, Hbase in Hid.
  unfold ends, mbind, ST_bind, store_peer, upd_dev, modify. cbn. rewrite Hd2.
  split_and!; [done..|].
  apply (maps_ok_reindex (dev w1) k id p (set_tunnel t idx p)
    (λ k', peer_at (λ cfg, k' ∉ k :: todo → cfg = config_of a) (λ sk' pk', sk' = sk ∧ pk' = x25519_public sk) k')); [done..| |].
  - split; [|done]. exists sk, (x25519_public sk), (config_of a). by split_and!.
  - intros k' q Hne [(sk' & pk' & cfg & HK & HC & HI) Hq]. split; [|done]. exists sk', pk', cfg.
    split; [done|]. split; [|done]. intros Hn. apply HC. set_solver.
Qed.

(** The keys of a walk are those of the map. *)
Lemma order_elem (h : Host) (m : gmap bytes nat) k id : host_ok h → (k, id) ∈ h_order h m ↔ m !! k = Some id.
Proof. intros Hh. by rewrite (Hh m), elem_of_map_to_list. Qed.

Lemma walk_ends (step : nat → bytes * nat → D (R := R) ()) (m : gmap bytes nat) (I : list bytes → Device → Prop) l n (w : DWorld) :
  (∀ k id, (k, id) ∈ l → m !! k = Some id) →
  (∀ i k id todo w', m !! k = Some id → I (k :: todo) (dev w') →
     ends (step i (k, id)) w' (λ _, False) (λ _, I todo)) →
  I l.*1 (dev w) → ends (for_each l n step) w (λ _, False) (λ _, I []).
Proof.
  intros Hl Hs. revert n w. induction l as [|[k id] l IH]; intros n w Hw; [done|]. cbn [for_each].
  eapply ends_seq; [apply Hs; [apply Hl; left|exact Hw]|]. intros a w' Hw'. apply IH; [|done].
  intros k' id' Hin. apply Hl. by right.
Qed.

Lemma ends_no_err {A} (m : D (R := R) A) w X Q : ends m w (λ _, False) Q → ends m w X Q.
Proof. unfold ends. by destruct (m w) as [[]]. Qed.

(** Pushing a configuration: every peer is rebuilt from it, none is lost. *)
Lemma set_amnezia_config_spec h a (w : DWorld (R := R)) :
  host_ok h → config_ok a → device_ok (dev w) →
  ends (set_amnezia_config h a) w (λ _, False) (λ _ d', device_ok d' ∧ d_amnezia d' = a
    ∧ d_peers d' = d_peers (dev w) ∧ d_key_pair d' = d_key_pair (dev w)).
Proof.
  intros Hh Hv [Hkey Ha Hm]. unfold set_amnezia_config. apply ends_get. case_decide; [by apply ends_ret|].
  apply ends_bind. cbn. apply ends_get. cbn. set (w1 := mkDWorld _ _).
  destruct (d_key_pair (dev w)) as [[sk pk]|] eqn:Hkp in |- *.
  - pose proof (Hkey sk pk Hkp); subst pk. eapply ends_mono.
    + apply (walk_ends _ (d_peers (dev w)) (walking (d_peers (dev w)) sk (x25519_public sk) a)).
      * intros k id. by apply order_elem.
      * intros i k id todo w' Hk Hw'. apply rebuild_peer_walks; [done..|].
        destruct Hv as [_ Hv]. by rewrite <- (validate_mtu (wrap 32 (d_mtu (dev w)))) in Hv.
      * split_and!; [done..|]. apply (maps_ok_registered (dev w1) (peer_ok (dev w))); [by destruct Hm|].
        intros k id p Hk [(sk' & pk' & cfg & HK & HC & HI) Hr]%peer_ok_at. split; [|done].
        exists sk', pk', cfg. split; [by simplify_eq|]. split; [|done]. intros Hn. destruct Hn.
        apply list_elem_of_fmap. exists (k, id). split; [done|]. by apply order_elem.
    + intros _ d (Hp & Hkp' & Ha' & Hm'). rewrite Hkp'. split_and!; [split|done|done|done].
      * intros sk' pk' E. by simplify_eq.
      * by rewrite Ha'.
      * eapply maps_ok_mono; [exact Hm'|]. intros k p [(sk' & pk' & cfg & [-> ->] & HC & HI) Hr].
        split; [|done]. exists sk, (x25519_public sk). split; [done|]. rewrite Ha'.
        rewrite <- HC; [done|set_solver].
  - split_and!; [|done..]. split; [done..|]. destruct Hm as [M1 M2 M3 M4 M5]. split; try done. intros k id Hk.
    destruct (M1 k id Hk) as (p & _ & [(sk & pk & Hs & _) _] & _). congruence.
Qed.

Lemma set_amnezia_config_keeps h a : host_ok h → config_ok a → dkeeps (set_amnezia_config h a).
Proof.
  intros Hh Ha w Hw. apply ends_no_err. eapply ends_mono; [by apply set_amnezia_config_spec|].
  by intros _ d [? _].
Qed.

Definition rekeying (m : gmap bytes nat) (sk : bytes) (a : Amnezia3Config) (todo : list bytes) (d : Device) : Prop :=
  d_peers d = m ∧ d_amnezia d = a ∧
  maps_ok d (λ k, peer_at (eq (config_of a)) (λ sk' pk', k ∉ todo → sk' = sk ∧ pk' = x25519_public sk) k).

Lemma rekey_peer_walks h m sk a l i k id todo (w : DWorld (R := R)) :
  rekeying m sk a (k :: todo) (dev w) → m !! k = Some id →
  ends (rekey_peer h sk (x25519_public sk) l i (k, id)) w (λ _, False) (λ _, rekeying m sk a todo).
Proof.
  intros (Hpm & Ham & Hm) Hk. rewrite <- Hpm in Hk.
  destruct (mk_peers _ _ Hm k id Hk) as (p & Hp & [(sk0 & pk0 & cfg & _ & <- & Hid) Hr] & Hx).
  unfold rekey_peer, lock_peer, store_peer, tunnel_do, ends, mbind, ST_bind, get_dev, gets, upd_dev, modify.
  cbn. rewrite Hp. cbn. unfold on_tunnel. cbn. rewrite lookup_insert_eq. cbn.
  set (d1 := d_set_heap _ _). set (w1 := mkWorld _ _).
  assert (Hid1 : identity (p_index p) (config_of a) (pk0, sk0, k, p_preshared_key p) (tunn w1))
    by (by apply identity_load).
  destruct (set_static_private_identity _ _ _ sk (d_limiters (dev w) !! l) [] [] (h_env h i) w1 Hid1)
    as (tw & E & Hid2 & _). rewrite E. cbn.
  apply (maps_ok_store _ id p (p_set_tunnel (tunn tw) (p_set_limiter (Some l) p)) _
    (λ k', peer_at (eq (config_of a)) (λ sk' pk', k' ∉ todo → sk' = sk ∧ pk' = x25519_public sk) k')) in Hm;
    [|done|done| |].
  - split_and!; [done..|]. unfold save_tunnel. cbn. destruct Hm as [M1 M2 M3 M4 M5]. split; try done; cbn;
      rewrite insert_insert_eq; done.
  - intros k' Hk' _. replace k' with k by (by eapply mk_inj). split; [|done].
    exists sk, (x25519_public sk), (config_of a). split; [done|]. by split.
  - intros k' id' q Hk' Hne [(sk' & pk' & cfg & HK & HC & HI) Hq]. split; [|done]. exists sk', pk', cfg.
    split; [|done]. intros Hn. apply HK. intros [->|?]%elem_of_cons; [congruence|done].
Qed.

Lemma set_key_keeps h sk : host_ok h → dkeeps (set_key h sk).
Proof.
  intros Hh w [Hkey Ha Hm]. unfold set_key. apply ends_get. case_decide; [by apply ends_ret|].
  cbn zeta. apply ends_bind. cbn. set (w1 := mkDWorld _ _).
  eapply ends_seq.
  - apply ends_no_err, (walk_ends _ (d_peers (dev w)) (rekeying (d_peers (dev w)) sk (d_amnezia (dev w)))).
    + intros k id. by apply order_elem.
    + intros i k id todo w' Hk Hw'. by apply rekey_peer_walks.
    + split_and!; [done..|]. apply (maps_ok_registered (dev w1) (peer_ok (dev w))); [by destruct Hm|].
      intros k id p Hk [(sk' & pk' & cfg & HK & HC & HI) Hr]%peer_ok_at. split; [|done].
      exists sk', pk', cfg. split; [|done]. intros Hn. destruct Hn.
      apply list_elem_of_fmap. exists (k, id). split; [done|]. by apply order_elem.
  - intros _ w2 (Hp & Ha' & Hm'). apply ends_upd. split; cbn.
    + intros sk' pk' E. by simplify_eq.
    + by rewrite Ha'.
    + apply (maps_ok_mono _ (λ k, peer_at (eq (config_of (d_amnezia (dev w))))
        (λ sk' pk', k ∉ [] → sk' = sk ∧ pk' = x25519_public sk) k)); [by destruct Hm'|].
      intros k p [(sk' & pk' & cfg & HK & <- & HI) Hr].
      split; [|done]. destruct HK as [-> ->]; [set_solver|]. exists sk, (x25519_public sk).
      split; [done|]. cbn. by rewrite Ha'.
Qed.
End invariant.
