(* ===== verification/DeviceData.v ===== *)
(** * DeviceData: the handlers that move packets

    Models the closures of [awgtun/src/device/mod.rs] the event loop runs: the
    anonymous UDP handler, the handler of a connected socket, the interface
    handler and the two timers.  What a system call hands over (datagrams, packets
    read from the interface) is an argument, and what a handler sends is the list
    of [Output]s it returns, in order.  A send or write whose result the source
    ignores always succeeds here. *)

From Stdlib Require Import ZArith Lia.
From stdpp Require Import base list option strings sets tactics countable gmap fin_maps.
From S2P Require Import Prelude Clock Random Codec Keys Lfsr Amnezia Cps Config Packet Ip AllowedIps.
From S2P Require Import Session Handshake RateLimiter Timers Tunnel EventPoll Device.
Open Scope Z_scope.

Inductive Action := Continue | Yield | Exit.

Inductive Output :=
  | SendTo (udp : Socket) (data : bytes) (addr : SocketAddr)
  | Send (conn : Socket) (data : bytes)
  | Write4 (packet : bytes)
  | Write6 (packet : bytes).

(** What a read of the interface returns: a packet, [Interrupted] or
    [WouldBlock], another error. *)
Inductive IfaceRead := ReadPacket (src : bytes) | ReadBlocked | ReadFailed.

Section handlers.
Context `{CC : ChaCha20} `{B64 : Base64} `{NC : NoiseCrypto} `{AE : Aead} `{RS : RandomSource R}.
Context `{TB : IpNetworkTable}.

(** ** Flushing the queue of a tunnel *)

(** One turn of the loop: the datagrams to send, or the [break]. *)
Definition flush_turn (env : Env) : T (R := R) (option (list bytes)) :=
  result ← decapsulate env None [] MAX_UDP_SIZE;
  match result with
  | WriteToNetwork packet => queued ← drain_outgoing; mret (Some (queued ++ [packet]))
  | _ => mret None
  end.

(** [n] turns at most; [None] when the loop is still running after them. *)
Fixpoint flush_loop (n : nat) (env : nat → Env) (i : nat) : T (R := R) (option (list bytes)) :=
  match n with
  | O => mret None
  | S n' =>
      turn ← flush_turn (env i);
      match turn with
      | None => mret (Some [])
      | Some sent => rest ← flush_loop n' env (S i); mret (app sent <$> rest)
      end
  end.

(** The queue empties one packet a turn, or a handshake starts and the next turn
    breaks: [flush_terminates] shows that these turns are enough. *)
Definition flush (env : nat → Env) : T (R := R) (list bytes) :=
  t ← get;
  sent ← flush_loop (length (packet_queue t) + 2) env 0;
  must sent.

(** ** The anonymous UDP handler *)

(** The datagram with its padding and trailer stripped and its header decrypted. *)
Definition strip_datagram (a : Amnezia3Config) (src : bytes) : D (R := R) bytes :=
  classified ← lift (map_err (λ _, IoError)
    (PacketClassifier_classify (PacketClassifier_from_config a) src));
  let padding := default O (padding <$> classified) in
  let protected_len := default O (protected_len <$> classified) in
  room ← must_dev (checked_sub (length src) padding);
  let protected := (protected_len `min` room)%nat in
  let message := drop padding src in
  message ←
    match (if decide (protected = TRANSPORT_HEADER_SZ) then classified ≫= header_mask else None) with
    | Some mask => mret (xor_into message mask)
    | None =>
        if decide (0 < protected)%nat then
          match Amnezia3Config_header_protection a with
          | Some hp =>
              m ← lift (HeaderProtection_apply hp (take padding src) (take protected message));
              mret (m ++ drop protected message)
          | None => mret message
          end
        else mret message
    end;
  mret (match classified ≫= msg_size with
        | Some size => if decide (padding + size ≤ length src)%nat then take size message else message
        | None => message
        end).

(** The device's limiter. *)
Definition verify_datagram (env : Env) (a : Amnezia3Config) (limiter : nat) (addr : IpAddr) (packet : bytes)
    : D (R := R) (result TunnResult Packet) := λ w,
  match d_limiters (dev w) !! limiter with
  | None => (Panic, w)
  | Some rl =>
      let '(r, rl, g) := verify_packet rl (Some addr) packet COOKIE_REPLY_SZ (headers a)
        (disable_cookies a) (now env) (drng w) in
      (Ok r, mkDWorld (d_set_limiters (d_rate_limiter (dev w)) (<[limiter := rl]> (d_limiters (dev w)))
                         (dev w)) g)
  end.

Definition draw (n : nat) : D (R := R) bytes := λ w,
  if decide (0 < n)%nat then let '(b, g) := fill_bytes n (drng w) in (Ok b, mkDWorld (dev w) g)
  else (Ok [], w).

(** A cookie reply behind the S3 padding; it carries no random trailer. *)
Definition frame_cookie (a : Amnezia3Config) (cookie_reply : bytes) : D (R := R) (option bytes) :=
  let s3 := Z.to_nat (s3 (paddings a)) in
  if decide (MAX_UDP_SIZE < s3 + length cookie_reply)%nat then mret None else
  prefix ← draw s3;
  match Amnezia3Config_header_protection a with
  | Some hp => m ← lift (HeaderProtection_apply hp prefix cookie_reply); mret (Some (prefix ++ m))
  | None => mret (Some (prefix ++ cookie_reply))
  end.

(** Which peer a message is for. *)
Definition find_peer (d : Device) (private_key public_key : bytes) (packet : Packet) : option nat :=
  match packet with
  | PktInit p =>
      match parse_handshake_anon private_key public_key p with
      | Ok hh => d_peers d !! half_peer_static_public hh
      | _ => None
      end
  | PktResponse p => d_peers_by_idx d !! Z.shiftr (hr_receiver_idx p) 8
  | PktCookie p => d_peers_by_idx d !! Z.shiftr (cr_receiver_idx p) 8
  | PktData p => d_peers_by_idx d !! Z.shiftr (pd_receiver_idx p) 8
  end.

(** A packet the tunnel decrypted, written to the interface when its source is
    an allowed IP of the peer. *)
Definition deliver (p : Peer) (result : TunnResult) : list Output :=
  match result with
  | WriteToTunnelV4 packet addr => if is_allowed_ip p (V4 addr) then [Write4 packet] else []
  | WriteToTunnelV6 packet addr => if is_allowed_ip p (V6 addr) then [Write6 packet] else []
  | _ => []
  end.

(** The reply and what was waiting for it. *)
Definition send_and_flush (env : nat → Env) (peer : nat) (send : bytes → Output) (result : TunnResult)
    : D (R := R) (list Output) :=
  match result with
  | WriteToNetwork packet =>
      sent ← tunnel_do peer (flush env);
      mret (send packet :: map send sent)
  | _ => mret []
  end.

(** The endpoint the packet came from, and a connected socket to it. *)
Definition adopt_endpoint (h : Host) (d : Device) (peer : nat) (addr : SocketAddr) : D (R := R) () :=
  changed ← set_endpoint h peer addr;
  _ ← (if (changed : bool) then tunnel_do peer reset_udp_window else mret tt);
  if d_use_connected_socket d then
    sock ← attempt (connect_endpoint h peer (d_listen_port d) (d_fwmark d));
    match sock with
    | Ok sock =>
        r ← attempt (register_conn_handler h peer sock (sock_ip addr));
        match r with Ok _ => mret tt | _ => panic end
    | _ => mret tt
    end
  else mret tt.

(** A message the limiter let through; the [bool] says that the packet counts
    towards [MAX_ITR]. *)
Definition udp_verified (h : Host) (d : Device) (private_key public_key : bytes) (udp : Socket)
    (addr : SocketAddr) (packet : Packet) : D (R := R) (list Output * bool) :=
  match find_peer d private_key public_key packet with
  | None => mret ([], false)
  | Some peer =>
      result ← tunnel_call peer (handle_verified_packet (h_env h 1) packet MAX_UDP_SIZE);
      match result with
      | TErr _ => mret ([], false)
      | result =>
          p ← lock_peer peer;
          out ← send_and_flush (λ i, h_env h (S (S i))) peer (λ b, SendTo udp b addr) result;
          _ ← adopt_endpoint h d peer addr;
          mret (out ++ deliver p result, true)
      end
  end.

(** One datagram. *)
Definition udp_packet (h : Host) (private_key public_key : bytes) (limiter : nat) (udp : Socket)
    (src : bytes) (addr : SocketAddr) : D (R := R) (list Output * bool) :=
  d ← get_dev;
  packet ← strip_datagram (d_amnezia d) src;
  verdict ← verify_datagram (h_env h 0) (d_amnezia d) limiter (sock_ip addr) packet;
  match verdict with
  | Ok parsed => udp_verified h d private_key public_key udp addr parsed
  | Err (WriteToNetwork cookie_reply) =>
      reply ← frame_cookie (d_amnezia d) cookie_reply;
      mret (match reply with Some r => [SendTo udp r addr] | None => [] end, false)
  | Err _ => mret ([], false)
  | Panic => panic
  end.

Fixpoint udp_loop (h : nat → Host) (private_key public_key : bytes) (limiter : nat) (udp : Socket)
    (i iter : nat) (rx : list (bytes * SocketAddr)) : D (R := R) (list Output) :=
  match rx with
  | [] => mret []
  | (src, addr) :: rx' =>
      '(out, counted) ← udp_packet (h i) private_key public_key limiter udp src addr;
      let iter := if (counted : bool) then (iter - 1)%nat else iter in
      if counted && bool_decide (iter = O) then mret out else
      rest ← udp_loop h private_key public_key limiter udp (S i) iter rx';
      mret (out ++ rest)
  end.

Definition udp_handler (h : nat → Host) (udp : Socket) (rx : list (bytes * SocketAddr))
    : D (R := R) (list Output * Action) :=
  d ← get_dev;
  '(private_key, public_key) ← must_dev (d_key_pair d);
  limiter ← must_dev (d_rate_limiter d);
  out ← udp_loop h private_key public_key limiter udp 0 MAX_ITR rx;
  mret (out, Continue).

(** ** The handler of a connected socket *)
Definition conn_packet (h : Host) (peer : nat) (udp : Socket) (peer_addr : IpAddr) (src : bytes)
    : D (R := R) (list Output) :=
  result ← tunnel_call peer (decapsulate (h_env h 0) (Some peer_addr) src MAX_UDP_SIZE);
  p ← lock_peer peer;
  out ← send_and_flush (λ i, h_env h (S i)) peer (Send udp) result;
  mret (out ++ deliver p result).

Fixpoint conn_loop (h : nat → Host) (peer : nat) (udp : Socket) (peer_addr : IpAddr) (i iter : nat)
    (rx : list bytes) : D (R := R) (list Output) :=
  match rx with
  | [] => mret []
  | src :: rx' =>
      out ← conn_packet (h i) peer udp peer_addr src;
      if decide (iter = 1%nat) then mret out else
      rest ← conn_loop h peer udp peer_addr (S i) (iter - 1) rx';
      mret (out ++ rest)
  end.

Definition conn_handler (h : nat → Host) (peer : nat) (udp : Socket) (peer_addr : IpAddr) (rx : list bytes)
    : D (R := R) (list Output * Action) :=
  out ← conn_loop h peer udp peer_addr 0 MAX_ITR rx;
  mret (out, Continue).

(** ** The interface handler *)

(** How a datagram leaves for the peer's endpoint. *)
Definition endpoint_send (e : Endpoint) (udp4 udp6 : Socket) : option (bytes → Output) :=
  match ep_conn e, ep_addr e with
  | Some conn, _ => Some (Send conn)
  | None, Some (SockV4 _ _ as addr) => Some (λ b, SendTo udp4 b addr)
  | None, Some (SockV6 _ _ _ _ as addr) => Some (λ b, SendTo udp6 b addr)
  | None, None => None
  end.

(** A method of the tunnel, and the datagrams it queued when it has one to send. *)
Definition call_and_drain (peer : nat) (m : T (R := R) TunnResult) : D (R := R) (TunnResult * list bytes) :=
  result ← tunnel_call peer m;
  queued ← match result with
           | WriteToNetwork _ => tunnel_do peer drain_outgoing
           | _ => mret []
           end;
  mret (result, queued).

Definition iface_packet (h : Host) (udp4 udp6 : Socket) (src : bytes) : D (R := R) (list Output) :=
  d ← get_dev;
  match dst_address src ≫= AllowedIps_find (d_peers_by_ip d) with
  | None => mret []
  | Some peer =>
      '(result, queued) ← call_and_drain peer (encapsulate (h_env h 0) src MAX_UDP_SIZE);
      match result with
      | Done | TErr _ => mret []
      | WriteToNetwork packet =>
          p ← lock_peer peer;
          mret (match endpoint_send (p_endpoint p) udp4 udp6 with
                | Some send => map send (queued ++ [packet])
                | None => []
                end)
      | _ => panic
      end
  end.

Fixpoint iface_loop (h : nat → Host) (udp4 udp6 : Socket) (i n : nat) (rx : list IfaceRead)
    : D (R := R) (list Output * Action) :=
  match n, rx with
  | O, _ | _, [] | _, ReadBlocked :: _ => mret ([], Continue)
  | _, ReadFailed :: _ => mret ([], Exit)
  | S n', ReadPacket src :: rx' =>
      out ← iface_packet (h i) udp4 udp6 src;
      '(rest, action) ← iface_loop h udp4 udp6 (S i) n' rx';
      mret (out ++ rest, action)
  end.

(** [expect] on the two sockets, and [t.src_buf[..mtu]] before every read. *)
Definition iface_handler (h : nat → Host) (rx : list IfaceRead) : D (R := R) (list Output * Action) :=
  d ← get_dev;
  udp4 ← must_dev (d_udp4 d);
  udp6 ← must_dev (d_udp6 d);
  _ ← assert_dev (d_mtu d <=? Z.of_nat MAX_UDP_SIZE);
  iface_loop h udp4 udp6 0 MAX_ITR rx.

(** ** The timers *)
Definition peer_timer (h : Host) (udp4 udp6 : Socket) (i : nat) (entry : bytes * nat)
    : D (R := R) (list Output) :=
  let peer := entry.2 in
  p ← lock_peer peer;
  match ep_addr (p_endpoint p) with
  | None => mret []
  | Some addr =>
      '(result, queued) ← call_and_drain peer (update_timers (h_env h i) MAX_UDP_SIZE);
      match result with
      | Done => mret []
      | TErr ConnectionExpired => _ ← shutdown_endpoint h peer; mret []
      | TErr _ => mret []
      | WriteToNetwork packet =>
          let udp := match addr with SockV4 _ _ => udp4 | SockV6 _ _ _ _ => udp6 end in
          mret (map (λ b, SendTo udp b addr) (queued ++ [packet]))
      | _ => panic
      end
  end.

Fixpoint timer_loop (h : Host) (udp4 udp6 : Socket) (i : nat) (l : list (bytes * nat))
    : D (R := R) (list Output) :=
  match l with
  | [] => mret []
  | e :: l' => out ← peer_timer h udp4 udp6 i e; rest ← timer_loop h udp4 udp6 (S i) l'; mret (out ++ rest)
  end.

Definition timers_handler (h : Host) : D (R := R) (list Output * Action) :=
  d ← get_dev;
  match d_udp4 d, d_udp6 d with
  | Some udp4, Some udp6 => out ← timer_loop h udp4 udp6 0 (h_order h (d_peers d)); mret (out, Continue)
  | _, _ => mret ([], Continue)
  end.

(** The one-second timer: the limiter's count, and an MTU change pushed into every
    tunnel.  [mtu] is what the interface answers. *)
Definition maintenance_handler (h : Host) (mtu : option Z) : D (R := R) Action :=
  d ← get_dev;
  _ ← match d_rate_limiter d with
      | Some l => upd_dev (λ d, match d_limiters d !! l with
                               | Some r => d_set_limiters (Some l)
                                   (<[l := reset_count r (now (h_env h 0))]> (d_limiters d)) d
                               | None => d
                               end)
      | None => mret tt
      end;
  match mtu with
  | Some mtu =>
      _ ← upd_dev (d_set_mtu mtu);
      _ ← (if decide (mtu = d_mtu d) then mret tt
           else for_each (h_order h (d_peers d)) 0 (λ _ e, tunnel_do e.2 (upd_tunn (Tunn_set_mtu (wrap 32 mtu)))));
      mret Continue
  | None => mret Continue
  end.

(** [register_monitor]: the MTU is stored without telling the tunnels. *)
Definition monitor_handler (exists_ : bool) (mtu : option Z) : D (R := R) Action :=
  if exists_ then
    _ ← match mtu with Some mtu => upd_dev (d_set_mtu mtu) | None => mret tt end;
    mret Continue
  else mret Exit.
End handlers.
