(* ===== verification/EventLoop.v ===== *)
(** * EventLoop: the worker threads of a device

    Models [DeviceHandle::event_loop] of [awgtun/src/device/mod.rs] over the lock of
    [DevLock]: a worker takes a read guard on the device, waits for events under
    it and runs their handlers; a handler that must change the device upgrades the
    guard, raising the yield notice first ([trigger_yield]) so that the others
    give up their guards, and stopping it once it has write access
    ([cancel_yield]); the exit notice, once raised, ends every worker.

    A schedule interleaves the steps of all workers.  Which event [epoll_wait]
    reports is the schedule's choice among those that are ready: a notifier is
    ready while its counter is not zero, anything else may be at any time. *)

From Stdlib Require Import ZArith Lia.
From stdpp Require Import base list option tactics.
From S2P Require Import Prelude EventPoll DevLock DeviceData.

(** Where a worker is in [event_loop]: between handlers, in a handler, returned. *)
Inductive Phase := InLoop | InHandler | Gone.

#[global] Instance Phase_eq_dec : EqDecision Phase.
Proof. solve_decision. Defined.

(** The device under its lock, the workers, and the counters of the two
    notifiers. *)
Record Loop (C T : Type) := mkLoop {
  lk : Lock T;
  phases : list Phase;
  yield_notice : C;
  exit_notice : C
}.
Arguments mkLoop {C T}.
Arguments lk {C T}.
Arguments phases {C T}.
Arguments yield_notice {C T}.
Arguments exit_notice {C T}.

(** What a worker does next. *)
Inductive Act (T : Type) :=
  | Enter                    (* device.read() at the top of the loop *)
  | LockStep                 (* the lock's own code; prep_func raises the yield notice *)
  | TakeYield                (* wait reports the yield notice *)
  | TakeExit                 (* wait reports the exit notice *)
  | TakeEvent                (* wait reports another event: its handler starts *)
  | EndOfFile (uapi : bool)  (* wait reports end of file, on the API descriptor or not *)
  | Return (a : Action)      (* the handler returns *)
  | Upgrade                  (* the handler calls try_writeable *)
  | Mutated (f : T → T)      (* mut_func: cancel_yield, then the change *)
  | Panicked (f : T → T)     (* the handler panics: under its read guard, in prep_func or in mut_func *)
  | Serve (f : T → T).       (* the handler works under its read guard, on what has its own locks *)
Arguments Enter {T}.
Arguments LockStep {T}.
Arguments TakeYield {T}.
Arguments TakeExit {T}.
Arguments TakeEvent {T}.
Arguments EndOfFile {T}.
Arguments Return {T}.
Arguments Upgrade {T}.
Arguments Mutated {T}.
Arguments Panicked {T}.
Arguments Serve {T}.

Section event_loop.
Context `{EF : EventFd C} {T : Type}.
Implicit Types (s : Loop C T) (i j k : nat) (p q : PC).

(** [DeviceHandle::new]: [n] workers on a device whose notifiers are quiet. *)
Definition loop_new (device : T) (n : nat) : Loop C T :=
  mkLoop (Lock_new device n) (replicate n InLoop) eventfd_new eventfd_new.

Definition with_lock (s : Loop C T) (l : option (Lock T)) : option (Loop C T) :=
  (λ l, mkLoop l (phases s) (yield_notice s) (exit_notice s)) <$> l.
Definition set_phase i (ph : Phase) s : Loop C T :=
  mkLoop (lk s) (<[i := ph]> (phases s)) (yield_notice s) (exit_notice s).
Definition trigger_yield s : Loop C T :=
  mkLoop (lk s) (phases s) (eventfd_write NOTIFY (yield_notice s)) (exit_notice s).
Definition cancel_yield s : Loop C T :=
  mkLoop (lk s) (phases s) (eventfd_read (yield_notice s)) (exit_notice s).
Definition trigger_exit s : Loop C T :=
  mkLoop (lk s) (phases s) (yield_notice s) (eventfd_write NOTIFY (exit_notice s)).

(** Work under a read guard: the guards and the announcement stay as they are. *)
Definition with_inner (f : T → T) (l : Lock T) : Lock T := mkLock (wants_write l) (f (inner l)) (threads l).

(** [return] from [event_loop] after [trigger_exit]: the guard is dropped. *)
Definition leave i s : option (Loop C T) :=
  with_lock (trigger_exit (set_phase i Gone s)) (step i Release (lk s)).

(** One move of worker [i]; [None] when it cannot make it now. *)
Definition lstep i (a : Act T) s : option (Loop C T) :=
  ph ← phases s !! i;
  p ← threads (lk s) !! i;
  match a, ph, p with
  | Enter, InLoop, Idle => with_lock s (step i Read (lk s))
  | LockStep, (InLoop | InHandler), p =>
      with_lock (if decide (p = WPrep) then trigger_yield s else s) (step i Go (lk s))
  | TakeYield, InLoop, Reading =>
      if eventfd_readable (yield_notice s) then with_lock s (step i Release (lk s)) else None
  | TakeExit, InLoop, Reading => if eventfd_readable (exit_notice s) then leave i s else None
  | TakeEvent, InLoop, Reading => Some (set_phase i InHandler s)
  | EndOfFile uapi, InLoop, Reading => if (uapi : bool) then leave i s else Some s
  | Return Continue, InHandler, Reading => Some (set_phase i InLoop s)
  | Return Yield, InHandler, Reading => with_lock (set_phase i InLoop s) (step i Release (lk s))
  | Return Exit, InHandler, Reading => leave i s
  | Upgrade, InHandler, Reading => with_lock s (step i TryWriteable (lk s))
  | Mutated f, InHandler, Writing => with_lock (cancel_yield s) (step i (Mutate f) (lk s))
  | Panicked f, InHandler, Reading => with_lock s (step i (DevLock.Panic f) (with_inner f (lk s)))
  | Panicked f, InHandler, WPrep => with_lock s (step i (DevLock.Panic f) (lk s))
  | Panicked f, InHandler, Writing => with_lock (cancel_yield s) (step i (DevLock.Panic f) (lk s))
  | Serve f, InHandler, Reading => with_lock s (Some (with_inner f (lk s)))
  | _, _, _ => None
  end.

Fixpoint lrun (schedule : list (nat * Act T)) s : option (Loop C T) :=
  match schedule with
  | [] => Some s
  | (i, a) :: schedule => s' ← lstep i a s; lrun schedule s'
  end.

(** [DeviceHandle::wait] joins the workers, the last one first: it returns when all
    have left, panics when it meets one that panicked, and waits otherwise. *)
Inductive Join := Joined | JoinPanics | JoinWaits.
Fixpoint join_threads (l : list (Phase * PC)) : Join :=
  match l with
  | [] => Joined
  | (Gone, _) :: l => join_threads l
  | (_, (Crashed | Dropped)) :: _ => JoinPanics
  | _ => JoinWaits
  end.
Definition DeviceHandle_wait (s : Loop C T) : Join := join_threads (reverse (zip (phases s) (threads (lk s)))).

Lemma lrun_app l l' s : lrun (l ++ l') s = lrun l s ≫= lrun l'.
Proof.
  revert s. induction l as [|[i a] l IH]; intros s; [done|]. cbn.
  destruct (lstep i a s) as [s1|]; cbn; [apply IH|done].
Qed.
End event_loop.

(** ** The invariant *)

(** A writer that waits for the guards to go, or has write access and has not
    yet stopped the notice. *)
Definition yielding (p : PC) : bool := match p with WWrite | Writing => true | _ => false end.

(** The points of the lock a worker can be at in each phase. *)
Definition phase_ok (ph : Phase) (p : PC) : bool :=
  match ph with
  | InLoop => match p with Idle | RLock | RCheck | RWait | RAcquire | Reading => true | _ => false end
  | InHandler => match p with Idle | RLock | RCheck | RWait | RAcquire => false | _ => true end
  | Gone => match p with Idle => true | _ => false end
  end.

Section invariant.
Context `{EF : EventFd C} {T : Type}.
Implicit Types (s : Loop C T) (l : Lock T) (i j k : nat) (p q : PC).

Record loop_inv s : Prop := {
  lv_lock : lock_inv (lk s);
  lv_len : length (phases s) = length (threads (lk s));
  lv_yield : eventfd_readable (yield_notice s) = true ↔ ∃ i, at_pc yielding i (lk s);
  lv_phase i ph p : phases s !! i = Some ph → threads (lk s) !! i = Some p → phase_ok ph p = true
}.

(** How the lock's threads look after worker [i] went from [p] to [p']; a writer
    that leaves wakes the sleepers. *)
Definition moved_to l i p' l' : Prop :=
  threads l' = <[i := p']> (threads l) ∨ p' = Reading ∧ threads l' = wake <$> <[i := Reading]> (threads l).

Lemma moved_at l l' i p' j q :
  moved_to l i p' l' → threads l' !! j = Some q →
  (j = i ∧ q = p') ∨ (j ≠ i ∧ ∃ q0, threads l !! j = Some q0 ∧ (q = q0 ∨ q = wake q0)).
Proof.
  intros [E|[-> E]] Hj; rewrite E in Hj.
  - apply list_lookup_insert_Some in Hj as [(-> & -> & _)|[Hne Hj]]; [by left|right; naive_solver].
  - apply list_lookup_fmap_Some in Hj as (q0 & -> & Hj).
    apply list_lookup_insert_Some in Hj as [(-> & <- & _)|[Hne Hj]]; [by left|right; naive_solver].
Qed.

Lemma moved_length l l' i p' : moved_to l i p' l' → length (threads l') = length (threads l).
Proof. intros [->|[_ ->]]; by rewrite ?length_fmap, length_insert. Qed.

Lemma wake_yielding p : yielding (wake p) = yielding p.
Proof. by destruct p. Qed.
Lemma wake_phase ph p : phase_ok ph (wake p) = phase_ok ph p.
Proof. by destruct ph, p. Qed.

(** What [step] does to the point of the worker that moves. *)
Definition next_pc (m : Move T) p l : option PC :=
  match m, p with
  | Read, Idle => Some RLock
  | Release, Reading => Some Idle
  | TryWriteable, Reading => Some WLock
  | Mutate _, Writing => Some WReread2
  | DevLock.Panic _, Reading => Some Dropped
  | DevLock.Panic _, WPrep => Some PHeld
  | DevLock.Panic _, Writing => Some PReread
  | Go, RLock => Some RCheck
  | Go, RCheck => Some (if wants_write l then RWait else RAcquire)
  | Go, RAcquire => Some Reading
  | Go, WLock => Some WUnlock
  | Go, WUnlock => Some WCheck
  | Go, WCheck => Some (if wants_write l then WWait else WReread)
  | Go, WRelock => Some WCheck
  | Go, WReread => Some WPrep
  | Go, WPrep => Some WWrite
  | Go, WWrite => Some Writing
  | Go, WReread2 => Some WDone
  | Go, WDone => Some WClear
  | Go, WClear => Some Reading
  | Go, PReread => Some PHeld
  | Go, PHeld => Some Crashed
  | _, _ => None
  end.

Lemma step_moves i m l l' p :
  threads l !! i = Some p → step i m l = Some l' → ∃ p', next_pc m p l = Some p' ∧ moved_to l i p' l'.
Proof.
  intros E. unfold step. rewrite E. cbn [mbind option_bind].
  destruct m, p; cbn; try done; try (intros [_ ->]%when_Some); try (intros [= <-]);
    try (destruct (wants_write l); intros [= <-]); eexists; (split; [reflexivity|]); first [by left|by right].
Qed.

Lemma step_plain i m l l' p p' :
  threads l !! i = Some p → p ≠ WClear → step i m l = Some l' → next_pc m p l = Some p' →
  threads l' = <[i := p']> (threads l).
Proof.
  intros E Hc. unfold step. rewrite E. cbn [mbind option_bind].
  destruct m, p; cbn; try done; try (intros [_ ->]%when_Some [= <-]; done); try (intros [= <-] [= <-]; done);
    by destruct (wants_write l); intros [= <-] [= <-].
Qed.

Lemma yields_after l l' i p p' :
  threads l !! i = Some p → moved_to l i p' l' → yielding p' = yielding p →
  (∃ j, at_pc yielding j l') ↔ ∃ j, at_pc yielding j l.
Proof.
  intros E Hm Hy. split; intros (j & q & Hj & Hq).
  - destruct (moved_at _ _ _ _ _ _ Hm Hj) as [[-> ->]|[_ (q0 & Hq0 & Hw)]].
    + exists i. exists p. by rewrite <- Hy.
    + exists j, q0. split; [done|]. destruct Hw as [-> | ->]; [done|]. by rewrite wake_yielding in Hq.
  - destruct (decide (j = i)) as [->|Hne].
    + rewrite E in Hj. injection Hj as <-. exists i. rewrite <- Hy in Hq. destruct Hm as [Ht|[-> Ht]].
      * exists p'. rewrite Ht. split; [|done]. apply list_lookup_insert_eq. by eapply lookup_lt_Some.
      * by cbn in Hq.
    + exists j. destruct Hm as [Ht|[-> Ht]].
      * exists q. rewrite Ht, list_lookup_insert_ne by done. done.
      * exists (wake q). rewrite Ht, list_lookup_fmap, list_lookup_insert_ne by done. rewrite Hj.
        by rewrite wake_yielding.
Qed.

(** Worker [i] goes to phase [ph'] and point [p']. *)
Lemma loop_inv_move s l' phs c e i ph ph' m p p' :
  loop_inv s → phases s !! i = Some ph → threads (lk s) !! i = Some p → step i m (lk s) = Some l' →
  next_pc m p (lk s) = Some p' → phs = <[i := ph']> (phases s) → phase_ok ph' p' = true →
  (eventfd_readable c = true ↔ ∃ j, at_pc yielding j l') →
  loop_inv (mkLoop l' phs c e).
Proof.
  intros [Hl Hn Hy Hp] Hi Ht Hs Hnext -> Hok Hc.
  destruct (step_moves _ _ _ _ _ Ht Hs) as (p1 & E1 & Hm). rewrite Hnext in E1. injection E1 as <-.
  split; cbn [lk phases yield_notice].
  - by eapply step_inv.
  - rewrite length_insert, (moved_length _ _ _ _ Hm). done.
  - done.
  - intros j phj q Hj Hq. destruct (moved_at _ _ _ _ _ _ Hm Hq) as [[-> ->]|[Hne (q0 & Hq0 & Hw)]].
    + rewrite list_lookup_insert_eq in Hj by (by eapply lookup_lt_Some). injection Hj as <-. done.
    + rewrite list_lookup_insert_ne in Hj by done. specialize (Hp j phj q0 Hj Hq0).
      destruct Hw as [-> | ->]; [done|by rewrite wake_phase].
Qed.

Lemma with_lock_Some s o s' :
  with_lock s o = Some s' → ∃ l, o = Some l ∧ s' = mkLoop l (phases s) (yield_notice s) (exit_notice s).
Proof. unfold with_lock. destruct o as [l|]; [|done]. intros [= <-]. by exists l. Qed.

Lemma phase_same s i ph : phases s !! i = Some ph → phases s = <[i := ph]> (phases s).
Proof. intros E. by rewrite list_insert_id. Qed.

(** Only the announced writer is past the notice. *)
Lemma no_other_yielding l l' i p p' :
  lock_inv l → threads l !! i = Some p → announced p = true → moved_to l i p' l' → yielding p' = false →
  ¬ ∃ j, at_pc yielding j l'.
Proof.
  intros I E A Hm Hy (j & q & Hj & Hq). destruct (moved_at _ _ _ _ _ _ Hm Hj) as [[-> ->]|[Hne (q0 & Hq0 & Hw)]].
  - by rewrite Hy in Hq.
  - apply Hne, (li_owner _ I); [|by apply (at_pc_here _ _ _ _ E)]. apply (at_pc_here _ _ _ _ Hq0).
    destruct Hw as [-> | ->]; [|rewrite wake_yielding in Hq]; by destruct q0.
Qed.

(** A move inside the lock that touches neither notice nor phase. *)
Lemma plain_move s l' e i ph ph' m p p' :
  loop_inv s → phases s !! i = Some ph → threads (lk s) !! i = Some p → step i m (lk s) = Some l' →
  next_pc m p (lk s) = Some p' → phase_ok ph' p' = true → yielding p' = yielding p →
  loop_inv (mkLoop l' (<[i := ph']> (phases s)) (yield_notice s) e).
Proof.
  intros I Hi Ht Hs Hn Hok Hy. eapply loop_inv_move; try done.
  destruct (step_moves _ _ _ _ _ Ht Hs) as (p1 & E1 & Hm). rewrite Hn in E1. injection E1 as <-.
  rewrite (yields_after _ _ _ _ _ Ht Hm Hy). apply I.
Qed.

(** The end of write access: the notice is stopped. *)
Lemma cancel_move s l' i m p p' :
  loop_inv s → phases s !! i = Some InHandler → threads (lk s) !! i = Some p → step i m (lk s) = Some l' →
  next_pc m p (lk s) = Some p' → announced p = true → phase_ok InHandler p' = true → yielding p' = false →
  loop_inv (mkLoop l' (phases s) (eventfd_read (yield_notice s)) (exit_notice s)).
Proof.
  intros I Hi Ht Hs Hn Ha Hok Hy. eapply loop_inv_move; try done; [by apply phase_same|].
  destruct (step_moves _ _ _ _ _ Ht Hs) as (p1 & E1 & Hm). rewrite Hn in E1. injection E1 as <-.
  rewrite eventfd_read_quiet. split; [done|]. intros H. destruct (no_other_yielding _ _ _ _ _ (lv_lock _ I) Ht Ha Hm Hy H).
Qed.

Lemma set_phase_inv s i ph ph' p :
  loop_inv s → phases s !! i = Some ph → threads (lk s) !! i = Some p → phase_ok ph' p = true →
  loop_inv (set_phase i ph' s).
Proof.
  intros [Hl Hn Hy Hp] Hi Ht Hok. split; cbn; try done; [by rewrite length_insert|].
  intros j phj q Hj Hq. destruct (decide (j = i)) as [->|Hne].
  - rewrite list_lookup_insert_eq in Hj by (by eapply lookup_lt_Some). congruence.
  - rewrite list_lookup_insert_ne in Hj by done. by eapply Hp.
Qed.

Lemma leave_inv s s' i ph :
  loop_inv s → phases s !! i = Some ph → threads (lk s) !! i = Some Reading → leave i s = Some s' → loop_inv s'.
Proof.
  intros I Hi Ht (l & El & ->)%with_lock_Some. cbn. eapply plain_move; try done.
Qed.

Lemma with_inner_inv (f : T → T) s l :
  loop_inv s → l = with_inner f (lk s) → loop_inv (mkLoop l (phases s) (yield_notice s) (exit_notice s)).
Proof. intros [[] Hn Hy Hp] ->. split; [by constructor|done..]. Qed.

Lemma lstep_inv i a s s' : loop_inv s → lstep i a s = Some s' → loop_inv s'.
Proof.
  intros I. unfold lstep. destruct (phases s !! i) as [ph|] eqn:Hi; [|done].
  destruct (threads (lk s) !! i) as [p|] eqn:Ht; [|done]. cbn [mbind option_bind].
  pose proof (lv_phase _ I i ph p Hi Ht) as Hok.
  assert (Hrel : ∀ ph', phase_ok ph' Idle = true → ∀ l, step i Release (lk s) = Some l → p = Reading →
    loop_inv (mkLoop l (<[i := ph']> (phases s)) (yield_notice s) (exit_notice s))).
  { intros ph' Hph l El ->. by eapply plain_move. }
  destruct a as [| | | | |uapi|act| |f|f|f].
  - destruct ph, p; try done. intros (l & El & ->)%with_lock_Some. rewrite (phase_same s i InLoop Hi). by eapply plain_move.
  - assert (Hgo : with_lock (if decide (p = WPrep) then trigger_yield s else s) (step i Go (lk s)) = Some s' → loop_inv s').
    { intros (l & El & ->)%with_lock_Some. destruct (step_moves _ _ _ _ _ Ht El) as (p' & Hn & Hm).
      assert (Hok' : phase_ok ph p' = true).
      { destruct ph, p; cbn in Hn, Hok; try done; try (injection Hn as <-; try done; by destruct (wants_write (lk s))). }
      case_decide as Hp; cbn.
      - subst p. cbn in Hn. injection Hn as <-. eapply loop_inv_move; try done; [by apply phase_same|].
        rewrite eventfd_write_readable by (unfold NOTIFY; lia). split; [|done]. intros _. exists i.
        destruct Hm as [E|[? _]]; [|done]. exists WWrite. rewrite E. split; [|done].
        apply list_lookup_insert_eq. by eapply lookup_lt_Some.
      - rewrite (phase_same s i ph Hi). eapply plain_move; try done.
        destruct p; cbn in Hn; try done; injection Hn as <-; try done; by destruct (wants_write (lk s)). }
    destruct ph; [exact Hgo|exact Hgo|done].
  - destruct ph, p; try done. destruct (eventfd_readable _); [|done]. intros (l & El & ->)%with_lock_Some.
    rewrite (phase_same s i InLoop Hi). by apply Hrel.
  - destruct ph, p; try done. destruct (eventfd_readable _); [|done]. by eapply leave_inv.
  - destruct ph, p; try done. intros [= <-]. by eapply set_phase_inv.
  - destruct ph, p; try done. destruct uapi; [by eapply leave_inv|by intros [= <-]].
  - destruct act, ph, p; try done; [intros [= <-]; by eapply set_phase_inv| |by eapply leave_inv].
    intros (l & El & ->)%with_lock_Some. by apply Hrel.
  - destruct ph, p; try done. intros (l & El & ->)%with_lock_Some. rewrite (phase_same s i InHandler Hi). by eapply plain_move.
  - destruct ph, p; try done. intros (l & El & ->)%with_lock_Some. by eapply (cancel_move s).
  - destruct ph, p; try done; intros (l & El & ->)%with_lock_Some.
    + rewrite (phase_same s i InHandler Hi).
      by eapply (plain_move (mkLoop (with_inner f (lk s)) (phases s) (yield_notice s) (exit_notice s))); [apply with_inner_inv with f|..].
    + rewrite (phase_same s i InHandler Hi). by eapply plain_move.
    + by eapply (cancel_move s).
  - destruct ph, p; try done. intros (l & [= <-] & ->)%with_lock_Some. by eapply with_inner_inv.
Qed.

Lemma loop_new_inv (v : T) n : loop_inv (loop_new v n).
Proof.
  split; cbn; [apply new_inv|by rewrite !length_replicate| |].
  - rewrite eventfd_new_quiet. split; [done|]. intros (i & q & [-> _]%lookup_replicate & ?). done.
  - intros i ph p [-> _]%lookup_replicate [-> _]%lookup_replicate. done.
Qed.

Lemma lrun_inv schedule s s' : loop_inv s → lrun schedule s = Some s' → loop_inv s'.
Proof.
  revert s. induction schedule as [|[i a] rest IH]; cbn; intros s I; [by intros [= <-]|].
  destruct (lstep i a s) as [s1|] eqn:E; cbn; [|done]. apply IH. by eapply lstep_inv.
Qed.
End invariant.

(** ** Sums over the workers *)
Section sums.
Fixpoint sum_from (g : nat → nat) (a n : nat) : nat :=
  match n with O => 0 | S n => g a + sum_from g (S a) n end.

Lemma sum_from_ext g g' a n : (∀ k, (a ≤ k)%nat → g' k = g k) → sum_from g' a n = sum_from g a n.
Proof. revert a. induction n as [|n IH]; intros a Hg; cbn; [done|]. rewrite Hg, IH by (intros; try apply Hg; lia). done. Qed.

Lemma sum_from_update g g' j a n :
  (∀ k, k ≠ j → g' k = g k) → (a ≤ j < a + n)%nat →
  (sum_from g' a n + g j = sum_from g a n + g' j)%nat.
Proof.
  intros Hg. revert a. induction n as [|n IH]; intros a Hj; [lia|]. cbn.
  destruct (decide (a = j)) as [->|Hne].
  - rewrite (sum_from_ext g g') by (intros; apply Hg; lia). lia.
  - rewrite (Hg a Hne). specialize (IH (S a) ltac:(lia)). lia.
Qed.

Lemma sum_from_le g b a n : (∀ k, g k ≤ b)%nat → (sum_from g a n ≤ b * n)%nat.
Proof. intros Hb. revert a. induction n as [|n IH]; intros a; cbn; [lia|]. specialize (IH (S a)). specialize (Hb a). lia. Qed.

Lemma sum_from_pos g a n : (0 < sum_from g a n)%nat → ∃ k, (0 < g k)%nat.
Proof.
  revert a. induction n as [|n IH]; intros a Hp; cbn in Hp; [lia|]. destruct (decide (g a = 0)%nat) as [E|].
  - rewrite E in Hp. by apply (IH (S a)).
  - exists a. lia.
Qed.
End sums.

Section weights.
Context `{EF : EventFd C} {T : Type} (weight : Phase → PC → nat).
Implicit Types (s : Loop C T) (i j k : nat).

Definition weight_at s k : nat :=
  match phases s !! k, threads (lk s) !! k with Some ph, Some p => weight ph p | _, _ => 0 end.
Definition total s : nat := sum_from (weight_at s) 0 (length (threads (lk s))).

(** One worker moved and the others did not. *)
Lemma total_move s s' k ph p ph' p' :
  phases s !! k = Some ph → threads (lk s) !! k = Some p →
  phases s' = <[k := ph']> (phases s) → threads (lk s') = <[k := p']> (threads (lk s)) →
  (total s' + weight ph p = total s + weight ph' p')%nat.
Proof.
  intros Hk Ht E1 E2. unfold total. rewrite E2, length_insert.
  pose proof (lookup_lt_Some _ _ _ Hk). pose proof (lookup_lt_Some _ _ _ Ht).
  pose proof (sum_from_update (weight_at s) (weight_at s') k 0 (length (threads (lk s)))) as Hs.
  assert (weight_at s k = weight ph p) as Ew by (unfold weight_at; by rewrite Hk, Ht).
  assert (weight_at s' k = weight ph' p') as Ew'.
  { unfold weight_at. rewrite E1, E2, !list_lookup_insert_eq by done. done. }
  rewrite Ew, Ew' in Hs. apply Hs; [|lia]. intros j Hj. unfold weight_at.
  rewrite E1, E2, !list_lookup_insert_ne by done. done.
Qed.

Lemma total_pos s :
  (0 < total s)%nat → ∃ k ph p, phases s !! k = Some ph ∧ threads (lk s) !! k = Some p ∧ (0 < weight ph p)%nat.
Proof.
  intros [k Hk]%sum_from_pos. unfold weight_at in Hk.
  destruct (phases s !! k) as [ph|] eqn:E1; [|lia]. destruct (threads (lk s) !! k) as [p|] eqn:E2; [|lia].
  by exists k, ph, p.
Qed.

Lemma total_zero s k ph p :
  total s = 0%nat → phases s !! k = Some ph → threads (lk s) !! k = Some p → weight ph p = 0%nat.
Proof.
  intros Hz Hk Ht. destruct (decide (weight ph p = 0)%nat); [done|exfalso].
  unfold total in Hz.
  assert (Hlt : (k < length (threads (lk s)))%nat) by (by eapply lookup_lt_Some).
  set (g := λ j, if decide (j = k) then 0%nat else weight_at s j).
  assert (Hg : ∀ j, j ≠ k → weight_at s j = g j) by (intros j Hj; unfold g; by rewrite decide_False).
  pose proof (sum_from_update g (weight_at s) k 0 (length (threads (lk s))) Hg ltac:(lia)) as H.
  assert (g k = 0%nat) as Eg by (unfold g; by rewrite decide_True).
  assert (weight_at s k = weight ph p) as Ew by (unfold weight_at; by rewrite Hk, Ht).
  rewrite Eg, Ew in H. lia.
Qed.
End weights.

(** ** A writer gets in *)
Section writer.
Context `{EF : EventFd C} {T : Type}.
Implicit Types (s : Loop C T) (i j k : nat) (p q : PC).

(** How far a worker is from having given up its guard and the mutex, while a
    writer waits. *)
Definition guard_weight (ph : Phase) (p : PC) : nat :=
  match p with
  | Reading => match ph with InHandler => 2 | _ => 1 end
  | RLock | WRelock => 2 | RCheck | WCheck => 1
  | WLock => 3 | WUnlock => 2
  | _ => 0
  end.
Abbreviation guards := (total (C := C) (T := T) guard_weight).

(** The moves by which workers make way: handlers return, a notice is taken, and
    the lock's own code runs. *)
Definition giving_way (a : Act T) : bool :=
  match a with LockStep | TakeYield | TakeExit | Return _ => true | _ => false end.

(** While a writer waits, the notice is up, its announcement keeps newcomers
    asleep, and only it is announced. *)
Lemma writer_waits s i :
  loop_inv s → is_at WWrite i (lk s) →
  eventfd_readable (yield_notice s) = true ∧ wants_write (lk s) = true
  ∧ ∀ k p, threads (lk s) !! k = Some p → k ≠ i → announced p = false ∧ p ≠ RAcquire.
Proof.
  intros I Hi. pose proof (lv_lock _ I) as L.
  assert (A : at_pc announced i (lk s)) by (by apply (at_pc_here _ _ _ _ Hi)).
  pose proof (li_announced _ L i A) as Hw.
  split; [apply (lv_yield _ I); exists i; by apply (at_pc_here _ _ _ _ Hi)|]. split; [done|].
  intros k p Hk Hne. split.
  - destruct (announced p) eqn:Ha; [|done]. destruct Hne. exact (li_owner _ L _ _ (at_pc_here _ _ _ _ Hk Ha) A).
  - intros ->. pose proof (li_acquire _ L k Hk). congruence.
Qed.

(** What a move of another worker does while a writer waits. *)
Lemma other_moves s s' k a ph p :
  phases s !! k = Some ph → threads (lk s) !! k = Some p → wants_write (lk s) = true →
  announced p = false → p ≠ RAcquire → lstep k a s = Some s' →
  ∃ ph' p', phases s' = <[k := ph']> (phases s) ∧ threads (lk s') = <[k := p']> (threads (lk s))
    ∧ (holds_read p' = true → holds_read p = true)
    ∧ (giving_way a = true → guard_weight ph' p' < guard_weight ph p)%nat.
Proof.
  intros Hk Ht Hw Ha Hr. unfold lstep. rewrite Hk, Ht. cbn [mbind option_bind].
  assert (Hlock : ∀ m ph' s0 p', with_lock s0 (step k m (lk s)) = Some s' → phases s0 = <[k := ph']> (phases s) →
    next_pc m p (lk s) = Some p' → phases s' = <[k := ph']> (phases s) ∧ threads (lk s') = <[k := p']> (threads (lk s))).
  { intros m ph' s0 p' (l & El & ->)%with_lock_Some Hph Hn. split; [exact Hph|]. eapply step_plain; try done. by intros ->. }
  assert (Hgo : ph ≠ Gone → with_lock (if decide (p = WPrep) then trigger_yield s else s) (step k Go (lk s)) = Some s' →
    ∃ ph' p', phases s' = <[k := ph']> (phases s) ∧ threads (lk s') = <[k := p']> (threads (lk s))
      ∧ (holds_read p' = true → holds_read p = true) ∧ (true = true → guard_weight ph' p' < guard_weight ph p)%nat).
  { rewrite decide_False by (by intros ->). intros Hg Hs. exists ph.
    destruct (with_lock_Some _ _ _ Hs) as (l & El & _). destruct (step_moves _ _ _ _ _ Ht El) as (p' & Hn & _).
    exists p'. destruct (Hlock Go ph s p' Hs (phase_same s k ph Hk) Hn) as [-> ->]. split_and!; [done|done|..];
      destruct p; cbn in *; try rewrite Hw in Hn; try done; try (by destruct Hr); injection Hn as <-; try done; intros; cbn; lia. }
  destruct a as [| | | | |uapi|act| |f|f|f]; cbn [giving_way].
  - destruct ph, p; try done. intros Hs. exists InLoop, RLock.
    by destruct (Hlock Read InLoop s RLock Hs (phase_same s k InLoop Hk) eq_refl) as [-> ->].
  - destruct ph; [by apply Hgo|by apply Hgo|done].
  - destruct ph, p; try done. destruct (eventfd_readable _); [|done]. intros Hs. exists InLoop, Idle.
    destruct (Hlock Release InLoop s Idle Hs (phase_same s k InLoop Hk) eq_refl) as [-> ->]. split_and!; try done. cbn; lia.
  - destruct ph, p; try done. destruct (eventfd_readable _); [|done]. intros Hs. exists Gone, Idle.
    destruct (Hlock Release Gone _ Idle Hs eq_refl eq_refl) as [-> ->]. split_and!; try done. cbn; lia.
  - destruct ph, p; try done. intros [= <-]. exists InHandler, Reading. cbn. by rewrite (list_insert_id (threads (lk s))).
  - destruct ph, p; try done. destruct uapi.
    + intros Hs. exists Gone, Idle. by destruct (Hlock Release Gone _ Idle Hs eq_refl eq_refl) as [-> ->].
    + intros [= <-]. exists InLoop, Reading. by rewrite <- (phase_same s k InLoop Hk), (list_insert_id (threads (lk s))).
  - destruct act, ph, p; try done.
    + intros [= <-]. exists InLoop, Reading. cbn. rewrite (list_insert_id (threads (lk s))) by done. split_and!; try done. lia.
    + intros Hs. exists InLoop, Idle. destruct (Hlock Release InLoop _ Idle Hs eq_refl eq_refl) as [-> ->]. split_and!; try done. cbn; lia.
    + intros Hs. exists Gone, Idle. destruct (Hlock Release Gone _ Idle Hs eq_refl eq_refl) as [-> ->]. split_and!; try done. cbn; lia.
  - destruct ph, p; try done. intros Hs. exists InHandler, WLock.
    by destruct (Hlock TryWriteable InHandler s WLock Hs (phase_same s k InHandler Hk) eq_refl) as [-> ->].
  - by destruct ph, p.
  - destruct ph, p; try done. intros (l & El & ->)%with_lock_Some. exists InHandler, Dropped. cbn.
    rewrite <- (phase_same s k InHandler Hk). unfold step in El. cbn in El. rewrite Ht in El. injection El as <-. by split_and!.
  - destruct ph, p; try done. intros (l & [= <-] & ->)%with_lock_Some. exists InHandler, Reading. cbn.
    by rewrite <- (phase_same s k InHandler Hk), (list_insert_id (threads (lk s))).
Qed.

(** Another worker's move keeps the writer waiting under its notice and lets
    nobody in; when it makes way, there is less left to wait for. *)
Lemma way_made s s' i k a :
  loop_inv s → is_at WWrite i (lk s) → k ≠ i → lstep k a s = Some s' →
  is_at WWrite i (lk s')
  ∧ (∀ j, at_pc holds_read j (lk s') → at_pc holds_read j (lk s))
  ∧ (giving_way a = true → guards s' < guards s)%nat.
Proof.
  intros I Hi Hne Hs. destruct (writer_waits s i I Hi) as (_ & Hw & Hoth).
  destruct (phases s !! k) as [ph|] eqn:Hk; [|unfold lstep in Hs; by rewrite Hk in Hs].
  destruct (threads (lk s) !! k) as [p|] eqn:Ht; [|unfold lstep in Hs; by rewrite Hk, Ht in Hs].
  destruct (Hoth k p Ht Hne) as [Ha Hr].
  destruct (other_moves s s' k a ph p Hk Ht Hw Ha Hr Hs) as (ph' & p' & E1 & E2 & Hread & Hlt).
  split_and!.
  - unfold is_at. by rewrite E2, list_lookup_insert_ne.
  - intros j (q & Hq & Hh). rewrite E2 in Hq. apply list_lookup_insert_Some in Hq as [(-> & <- & _)|[_ Hq]].
    + exists p. split; [done|]. apply Is_true_true, Hread, Is_true_true, Hh.
    + by exists q.
  - intros Hg. specialize (Hlt Hg). pose proof (total_move guard_weight s s' k ph p ph' p' Hk Ht E1 E2). lia.
Qed.

(** A worker's lock step, away from the notice. *)
Lemma lock_step_enabled s k ph p :
  phases s !! k = Some ph → threads (lk s) !! k = Some p → ph ≠ Gone → p ≠ WPrep → p ≠ WClear →
  (∃ l, step k Go (lk s) = Some l) → ∃ s', lstep k LockStep s = Some s'
    ∧ ∀ p', next_pc Go p (lk s) = Some p' → is_at p' k (lk s').
Proof.
  intros Hk Ht Hg Hw Hc [l El]. exists (mkLoop l (phases s) (yield_notice s) (exit_notice s)).
  unfold lstep. rewrite Hk, Ht. cbn [mbind option_bind]. rewrite decide_False, El by done.
  split; [by destruct ph|]. intros p' Hn. unfold is_at. cbn. rewrite (step_plain k Go _ _ p p' Ht Hc El Hn).
  apply list_lookup_insert_eq. by eapply lookup_lt_Some.
Qed.

(** Some other worker can make way, unless nobody holds a guard. *)
Lemma someone_gives_way s i :
  loop_inv s → is_at WWrite i (lk s) → (0 < guards s)%nat →
  ∃ k a s', k ≠ i ∧ giving_way a = true ∧ lstep k a s = Some s'.
Proof.
  intros I Hi Hpos. destruct (writer_waits s i I Hi) as (Hy & Hw & Hoth).
  assert (Hlock : ∀ k p, threads (lk s) !! k = Some p → k ≠ i → phase_ok Gone p = false → (∃ l, step k Go (lk s) = Some l) →
    ∃ k a s', k ≠ i ∧ giving_way a = true ∧ lstep k a s = Some s').
  { intros k p Ht Hne Hp Hl. destruct (Hoth k p Ht Hne) as [Ha _].
    destruct (lookup_lt_is_Some_2 (phases s) k) as [ph Hk]; [rewrite (lv_len _ I); by eapply lookup_lt_Some|].
    pose proof (lv_phase _ I k ph p Hk Ht) as Hok.
    destruct (lock_step_enabled s k ph p Hk Ht) as (s' & Hs & _);
      [intros ->; congruence|by intros ->|by intros ->|done|]. by exists k, LockStep, s'. }
  destruct (mutex_dec (lk s)) as [F|(k & p & Ht & Hp)].
  - destruct (total_pos _ s Hpos) as (k & ph & p & Hk & Ht & Hwt).
    assert (Hne : k ≠ i) by (intros ->; unfold is_at in Hi; rewrite Hi in Ht; injection Ht as <-; cbn in Hwt; lia).
    pose proof (proj1 (mutex_free_spec (lk s)) F k) as NM. pose proof (lv_phase _ I k ph p Hk Ht) as Hok.
    assert (Hgo : match p with RLock | WLock | WRelock => True | _ => False end → ∃ l, step k Go (lk s) = Some l).
    { intros Hp. apply (go_enabled k p (lk s) (lv_lock _ I) Ht). by destruct p. }
    destruct p; cbn in Hwt; try lia; try (destruct NM; by apply (at_pc_here _ _ _ _ Ht)); try (by eapply Hlock; eauto).
    exists k. destruct ph; [exists TakeYield|exists (Return Continue)|done];
      (unfold lstep; rewrite Hk, Ht; cbn [mbind option_bind]); [rewrite Hy; unfold step; rewrite Ht|]; by eexists.
  - assert (Hne : k ≠ i) by (intros ->; unfold is_at in Hi; rewrite Hi in Ht; by injection Ht as <-).
    eapply (Hlock k p Ht Hne); [by destruct p|]. apply (go_enabled k p (lk s) (lv_lock _ I) Ht). by destruct p.
Qed.

(** When nobody has a guard to give up, the writer goes in. *)
Lemma writer_enters s i :
  loop_inv s → is_at WWrite i (lk s) → guards s = 0%nat →
  ∃ s', lstep i LockStep s = Some s' ∧ is_at Writing i (lk s').
Proof.
  intros I Hi Hz. destruct (writer_waits s i I Hi) as (_ & _ & Hoth).
  assert (Hph : ∀ k p, threads (lk s) !! k = Some p → ∃ ph, phases s !! k = Some ph).
  { intros k p Ht. apply lookup_lt_is_Some_2. rewrite (lv_len _ I). by eapply lookup_lt_Some. }
  destruct (Hph i _ Hi) as [ph Hk]. pose proof (lv_phase _ I i ph _ Hk Hi) as Hok.
  destruct (lock_step_enabled s i ph WWrite Hk Hi) as (s' & Hs & Hp); [by intros ->|done|done| |].
  - apply (go_enabled i WWrite (lk s) (lv_lock _ I) Hi). apply no_holder_spec.
    intros j. destruct (decide (j = i)) as [->|Hne].
    { split; intros (q & Hq & Hh); unfold is_at in Hi; rewrite Hi in Hq; by injection Hq as <-. }
    split; intros (q & Hq & Hh); destruct (Hoth j q Hq Hne) as [Ha _]; destruct (Hph j q Hq) as [phj Hj];
      pose proof (total_zero guard_weight s j phj q Hz Hj Hq) as Hw; destruct q; try done; by destruct phj.
  - exists s'. split; [done|]. by apply Hp.
Qed.

Lemma making_way s i rest s' :
  loop_inv s → is_at WWrite i (lk s) → Forall (λ m, m.1 ≠ i) rest → lrun rest s = Some s' →
  loop_inv s' ∧ is_at WWrite i (lk s')
  ∧ (∀ j, at_pc holds_read j (lk s') → at_pc holds_read j (lk s))
  ∧ (Forall (λ m, giving_way m.2 = true) rest → length rest + guards s' ≤ guards s)%nat.
Proof.
  revert s. induction rest as [|[k a] rest IH]; cbn; intros s I Hi Ho.
  { intros [= <-]. by split_and!. }
  apply list.Forall_cons in Ho as [Hne Ho]. destruct (lstep k a s) as [s1|] eqn:E; [|done]. cbn. intros Hr.
  destruct (way_made s s1 i k a I Hi Hne E) as (Hi1 & Hh1 & Hlt).
  destruct (IH s1 (lstep_inv _ _ _ _ I E) Hi1 Ho Hr) as (I' & Hi' & Hh' & Hle). split_and!; [done|done|auto|].
  intros [Hg Hgs]%list.Forall_cons. specialize (Hlt Hg). specialize (Hle Hgs). lia.
Qed.
End writer.

(** ** Shutting down *)
Section shutdown.
Context `{EF : EventFd C} {T : Type}.
Implicit Types (s : Loop C T) (i j k : nat) (p q : PC).

(** What workers do once the exit notice is up: they leave when [wait] reports
    it, finish the handlers they are in, and take the lock when they are woken. *)
Definition winding_down (a : Act T) : bool :=
  match a with Enter | LockStep | TakeExit | Return Continue | Mutated _ => true | _ => false end.

(** The points of [try_writeable], up to the wake-up of the sleepers. *)
Definition upgrading (ph : Phase) (p : PC) : nat :=
  match p with
  | WLock | WUnlock | WCheck | WWait | WRelock | WReread | WPrep | WWrite | Writing | WReread2 | WDone | WClear => 1
  | _ => 0
  end.

(** How far a worker is from having left, when nobody wakes it. *)
Definition rank (ph : Phase) (p : PC) : nat :=
  match p with
  | WLock => 12 | WUnlock | WRelock => 11 | WCheck => 10 | WWait | WReread => 9 | WPrep => 8 | WWrite => 7
  | Writing => 6 | WReread2 => 5 | WDone => 4 | WClear => 3
  | Reading => match ph with InHandler => 2 | _ => 1 end
  | RLock => 5 | RCheck => 4 | RWait | RAcquire => 3
  | Idle => match ph with Gone => 0 | _ => 6 end
  | PReread => 2 | PHeld => 1 | Crashed | Dropped => 0
  end.
Definition room s : nat := 12 * length (threads (lk s)).
Definition distance s : nat := total upgrading s * (room s + 1) + total rank s.

Lemma rank_room s : (total rank s ≤ room s)%nat.
Proof.
  unfold total, room. apply sum_from_le. intros k. unfold weight_at.
  destruct (phases s !! k) as [ph|]; [|lia]. destruct (threads (lk s) !! k) as [p|]; [|lia].
  destruct p; cbn; try lia; destruct ph; lia.
Qed.

Lemma distance_bound s : (distance s ≤ 12 * length (threads (lk s)) ^ 2 + 13 * length (threads (lk s)))%nat.
Proof.
  unfold distance. pose proof (rank_room s) as Hr.
  assert (Hu : (total upgrading s ≤ 1 * length (threads (lk s)))%nat).
  { apply sum_from_le. intros k. unfold weight_at. destruct (phases s !! k) as [ph|]; [|lia].
    destruct (threads (lk s) !! k) as [p|]; [|lia]. destruct p; cbn; lia. }
  unfold room in *. rewrite Nat.pow_2_r. nia.
Qed.

(** Waking the sleepers leaves the number of upgrading workers alone. *)
Lemma total_wake w s s' l0 :
  phases s' = phases s → threads (lk s') = wake <$> l0 → length l0 = length (threads (lk s)) →
  (∀ ph p, w ph (wake p) = w ph p) →
  total w s' = total w (mkLoop (mkLock (wants_write (lk s)) (inner (lk s)) l0) (phases s) (yield_notice s) (exit_notice s)).
Proof.
  intros E1 E2 Hl Hw. unfold total. cbn [lk threads]. rewrite E2, length_fmap. apply sum_from_ext.
  intros k _. unfold weight_at. cbn. rewrite E1, E2, list_lookup_fmap. destruct (phases s !! k) as [ph|]; [|done].
  destruct (l0 !! k) as [p|]; cbn; [apply Hw|done].
Qed.

Lemma distance_plain s s' k ph p ph' p' :
  phases s !! k = Some ph → threads (lk s) !! k = Some p →
  phases s' = <[k := ph']> (phases s) → threads (lk s') = <[k := p']> (threads (lk s)) →
  (upgrading ph' p' ≤ upgrading ph p)%nat → (rank ph' p' < rank ph p)%nat → (distance s' < distance s)%nat.
Proof.
  intros Hk Ht E1 E2 Hu Hr.
  pose proof (total_move upgrading s s' k ph p ph' p' Hk Ht E1 E2).
  pose proof (total_move rank s s' k ph p ph' p' Hk Ht E1 E2).
  unfold distance, room. rewrite E2, length_insert. nia.
Qed.

Lemma distance_wake s s' k ph :
  phases s !! k = Some ph → threads (lk s) !! k = Some WClear →
  phases s' = phases s → threads (lk s') = wake <$> <[k := Reading]> (threads (lk s)) → (distance s' < distance s)%nat.
Proof.
  intros Hk Ht E1 E2.
  pose proof (total_wake upgrading s s' _ E1 E2 ltac:(by rewrite length_insert) ltac:(by intros [] [])) as Hw.
  set (s1 := mkLoop _ _ _ _) in Hw.
  pose proof (total_move upgrading s s1 k ph WClear ph Reading Hk Ht (phase_same s k ph Hk) eq_refl) as Hu. cbn [upgrading] in Hu.
  pose proof (rank_room s') as Hr. unfold distance.
  assert (room s' = room s) as Er by (unfold room; by rewrite E2, length_fmap, length_insert).
  rewrite Er in *. assert (total upgrading s = S (total upgrading s')) as -> by lia. lia.
Qed.

(** Every step of winding down brings the end nearer. *)
Lemma winds_down s s' k a : winding_down a = true → lstep k a s = Some s' → (distance s' < distance s)%nat.
Proof.
  intros Ha. unfold lstep. destruct (phases s !! k) as [ph|] eqn:Hk; [|done].
  destruct (threads (lk s) !! k) as [p|] eqn:Ht; [|done]. cbn [mbind option_bind].
  assert (Hlock : ∀ m ph' s0 p', with_lock s0 (step k m (lk s)) = Some s' → phases s0 = <[k := ph']> (phases s) →
    p ≠ WClear → next_pc m p (lk s) = Some p' → (upgrading ph' p' ≤ upgrading ph p)%nat → (rank ph' p' < rank ph p)%nat →
    (distance s' < distance s)%nat).
  { intros m ph' s0 p' (l & El & ->)%with_lock_Some Hph Hp Hn. eapply distance_plain; [done|done|exact Hph|].
    by eapply step_plain. }
  assert (Hgo : with_lock (if decide (p = WPrep) then trigger_yield s else s) (step k Go (lk s)) = Some s' →
    (distance s' < distance s)%nat).
  { intros Hs. destruct (with_lock_Some _ _ _ Hs) as (l & El & Es).
    destruct (decide (p = WClear)) as [->|Hc].
    - unfold step in El. rewrite Ht in El. cbn in El. injection El as <-. subst s'. by eapply distance_wake.
    - destruct (step_moves _ _ _ _ _ Ht El) as (p' & Hn & _).
      eapply (Hlock Go ph); [exact Hs|case_decide; exact (phase_same s k ph Hk)|done|done|..];
        destruct p; cbn in Hn; try done; injection Hn as <-; try (destruct (wants_write (lk s))); cbn; try lia; destruct ph; lia. }
  destruct a as [| | | | |uapi|act| |f|f|f]; try done.
  - destruct ph, p; try done. intros Hs.
    eapply (Hlock Read InLoop); [exact Hs|exact (phase_same s k InLoop Hk)|done|done|cbn; lia|cbn; lia].
  - by destruct ph.
  - destruct ph, p; try done. destruct (eventfd_readable _); [|done]. intros Hs.
    eapply (Hlock Release Gone); [exact Hs|done|done|done|cbn; lia|cbn; lia].
  - destruct act, ph, p; try done. intros [= <-].
    eapply (distance_plain s _ k InHandler Reading InLoop Reading Hk Ht); [done|by cbn; rewrite (list_insert_id (threads (lk s)))|cbn; lia|cbn; lia].
  - destruct ph, p; try done. intros Hs.
    eapply (Hlock (Mutate f) InHandler); [exact Hs|exact (phase_same s k InHandler Hk)|done|done|cbn; lia|cbn; lia].
Qed.

(** A worker that has panicked, or is about to. *)
Definition panicked (p : PC) : bool := match p with PReread | PHeld | Crashed | Dropped => true | _ => false end.

(** As long as a worker is left, one of them can go on. *)
Lemma someone_winds_down s k ph :
  loop_inv s → eventfd_readable (exit_notice s) = true → (∀ i, ¬ at_pc panicked i (lk s)) →
  phases s !! k = Some ph → ph ≠ Gone → ∃ k a s', winding_down a = true ∧ lstep k a s = Some s'.
Proof.
  intros I Hx Hc Hk Hg. pose proof (lv_lock _ I) as L.
  assert (Hph : ∀ j q, threads (lk s) !! j = Some q → ∃ phj, phases s !! j = Some phj ∧ phase_ok phj q = true).
  { intros j q Hj. destruct (lookup_lt_is_Some_2 (phases s) j) as [phj E]; [rewrite (lv_len _ I); by eapply lookup_lt_Some|].
    exists phj. split; [done|]. by eapply (lv_phase _ I). }
  assert (Hlock : ∀ j, (∃ l, step j Go (lk s) = Some l) → ∃ k a s', winding_down a = true ∧ lstep k a s = Some s').
  { intros j [l El]. destruct (threads (lk s) !! j) as [q|] eqn:Hj; [|unfold step in El; by rewrite Hj in El].
    destruct (Hph j q Hj) as (phj & Ej & Hok). exists j, LockStep. unfold lstep. rewrite Ej, Hj. cbn [mbind option_bind].
    rewrite El. destruct phj; [| |by destruct q; try done; unfold step in El; rewrite Hj in El]; eexists; by split. }
  destruct (mutex_dec (lk s)) as [F|(j & q & Hj & Hq)].
  2:{ apply (Hlock j), (go_enabled j q _ L Hj). by destruct q. }
  destruct (decide (Forall (λ q, q ≠ Reading) (threads (lk s)))) as [NR|NR].
  2:{ apply not_Forall_Exists, list.Exists_exists in NR as (q & Hin & Hq); [|intros ?; apply _].
      apply list_elem_of_lookup in Hin as [j Hj]. assert (q = Reading) as -> by (by destruct (decide (q = Reading))).
      destruct (Hph j _ Hj) as (phj & Ej & Hok). exists j. destruct phj; [exists TakeExit|exists (Return Continue)|done];
        unfold lstep; rewrite Ej, Hj; cbn [mbind option_bind]; [rewrite Hx; unfold leave, step; rewrite Hj|]; eexists; by split. }
  assert (NR' : ∀ i, ¬ is_at Reading i (lk s)).
  { intros i Hi. by eapply Forall_lookup_1 in NR. }
  assert (Hown : ∀ j q, threads (lk s) !! j = Some q → announced q = true → ∃ k a s', winding_down a = true ∧ lstep k a s = Some s').
  { intros j q Hj Ha. destruct (owner_goes j q (lk s) L Hj Ha) as (i & [Hi|Hi]); [|done|done| |by apply (Hlock i)].
    - intros ->. destruct (Hc j). by apply (at_pc_here _ _ _ _ Hj).
    - destruct (Hph i _ Hi) as (phi & Ei & Hok). exists i, (Mutated id). unfold lstep. rewrite Ei, Hi. cbn [mbind option_bind].
      destruct phi; try done. unfold step. rewrite Hi. eexists. by split. }
  destruct (lookup_lt_is_Some_2 (threads (lk s)) k) as [p Ht]; [rewrite <- (lv_len _ I); by eapply lookup_lt_Some|].
  destruct (announced p) eqn:Ea; [by eapply Hown|]. destruct (waiting p) eqn:Ew.
  - destruct (li_owned _ L (li_waiting _ L k (at_pc_here _ _ _ _ Ht Ew))) as (j & q & Hj & Hq).
    eapply (Hown j q Hj). by apply Is_true_eq_true.
  - pose proof (lv_phase _ I k ph p Hk Ht) as Hok. destruct (decide (p = Idle)) as [->|Hi].
    + exists k, Enter. unfold lstep. rewrite Hk, Ht. cbn [mbind option_bind]. destruct ph; try done.
      unfold step. rewrite Ht. eexists. by split.
    + apply (Hlock k), (go_enabled k p _ L Ht).
      destruct p; try done; [by destruct (NR' k)|destruct (Hc k); by apply (at_pc_here _ _ _ _ Ht)].
Qed.

(** Nothing takes the exit notice down. *)
Lemma exit_stays k a s s' :
  eventfd_readable (exit_notice s) = true → lstep k a s = Some s' → eventfd_readable (exit_notice s') = true.
Proof.
  intros Hx. unfold lstep. destruct (phases s !! k) as [ph|]; [|done]. destruct (threads (lk s) !! k) as [p|]; [|done].
  assert (Hl : ∀ s0 o, with_lock s0 o = Some s' → exit_notice s0 = exit_notice s → eventfd_readable (exit_notice s') = true).
  { by intros s0 o (l & _ & ->)%with_lock_Some ->. }
  assert (Hleave : leave k s = Some s' → eventfd_readable (exit_notice s') = true).
  { intros (l & _ & ->)%with_lock_Some. cbn. apply eventfd_write_readable. unfold NOTIFY. lia. }
  cbn [mbind option_bind]. destruct a as [| | | | |[]|[]| |f|f|f], ph, p; try done; try (destruct (eventfd_readable (yield_notice s)); [|done]);
    try (rewrite Hx); try exact Hleave; try (by intros [= <-]); intros Hs; by apply (Hl _ _ Hs).
Qed.

Lemma exits_stay rest s s' :
  eventfd_readable (exit_notice s) = true → lrun rest s = Some s' → eventfd_readable (exit_notice s') = true.
Proof.
  revert s. induction rest as [|[k a] rest IH]; cbn; intros s Hx; [by intros [= <-]|].
  destruct (lstep k a s) as [s1|] eqn:E; [|done]. cbn. apply IH. by eapply exit_stays.
Qed.

(** What a step does to the value under the lock. *)
Lemma lstep_inner k a s s' :
  lstep k a s = Some s' →
  match a with
  | Serve f | Mutated f => inner (lk s') = f (inner (lk s))
  | Panicked _ => True
  | _ => inner (lk s') = inner (lk s)
  end.
Proof.
  unfold lstep. destruct (phases s !! k) as [ph|]; [|done]. destruct (threads (lk s) !! k) as [p|] eqn:Ht; [|done].
  cbn [mbind option_bind].
  assert (Hlock : ∀ m s0, with_lock s0 (step k m (lk s)) = Some s' → p ≠ Writing → inner (lk s') = inner (lk s)).
  { intros m s0 (l & El & ->)%with_lock_Some Hp. destruct (step_inner _ _ _ _ El) as [|Hw]; [done|].
    unfold is_at in Hw. rewrite Ht in Hw. by injection Hw as ->. }
  destruct a as [| | | | |[]|[]| |f|f|f]; [..|done|]; destruct ph, p; try done;
    try (destruct (eventfd_readable _); [|done]); try (by intros [= <-]); try (intros Hs; by eapply Hlock);
    intros (l & El & ->)%with_lock_Some; unfold step in El; rewrite ?Ht in El; cbn in El; try done; by injection El as <-.
Qed.

(** Nobody panics but by a panic. *)
Definition calm (a : Act T) : bool := match a with Panicked _ => false | _ => true end.
Lemma winding_calm a : winding_down a = true → calm a = true.
Proof. by destruct a. Qed.

Lemma still_no_panic k a s s' :
  (∀ i, ¬ at_pc panicked i (lk s)) → calm a = true → lstep k a s = Some s' → ∀ i, ¬ at_pc panicked i (lk s').
Proof.
  intros Hc Ha Hs i (q & Hq & Hp). unfold lstep in Hs. destruct (phases s !! k) as [ph|]; [|done].
  destruct (threads (lk s) !! k) as [p|] eqn:Ht; [|done]. cbn [mbind option_bind] in Hs.
  assert (Hlock : ∀ m s0, with_lock s0 (step k m (lk s)) = Some s' → (∀ p', next_pc m p (lk s) = Some p' → panicked p' = true → panicked p = true) → False).
  { intros m s0 (l & El & ->)%with_lock_Some Hn. destruct (step_moves _ _ _ _ _ Ht El) as (p' & E & Hm). cbn in Hq.
    destruct (moved_at _ _ _ _ _ _ Hm Hq) as [[-> ->]|[_ (q0 & Hq0 & Hw)]].
    - apply (Hc k). exists p. split; [done|]. apply Is_true_true, (Hn _ E), Is_true_true, Hp.
    - apply (Hc i). exists q0. split; [done|]. destruct Hw as [->| ->]; [done|]. by destruct q0. }
  assert (Hsame : threads (lk s') = threads (lk s) → False).
  { intros E. apply (Hc i). exists q. by rewrite <- E. }
  assert (Hrel : ∀ s0, p = Reading → with_lock s0 (step k Release (lk s)) = Some s' → False).
  { intros s0 -> Hl. apply (Hlock _ _ Hl). by intros p' [= <-]. }
  destruct a as [| | | | |uapi|act| |f|f|f]; [..|done|].
  - destruct ph, p; try done. apply (Hlock _ _ Hs). by intros p' [= <-].
  - destruct ph; try done; apply (Hlock _ _ Hs); intros p' Hn; destruct p; cbn in Hn; try done; injection Hn as <-; try done; by destruct (wants_write (lk s)).
  - destruct ph, p; try done. destruct (eventfd_readable _); [|done]. by apply (Hrel s).
  - destruct ph, p; try done. destruct (eventfd_readable _); [|done]. by eapply Hrel.
  - destruct ph, p; try done. injection Hs as <-. by apply Hsame.
  - destruct ph, p; try done. destruct uapi; [by eapply Hrel|injection Hs as <-; by apply Hsame].
  - destruct act, ph, p; try done; [injection Hs as <-; by apply Hsame|by eapply Hrel|by eapply Hrel].
  - destruct ph, p; try done. apply (Hlock _ _ Hs). by intros p' [= <-].
  - destruct ph, p; try done. apply (Hlock _ _ Hs). by intros p' [= <-].
  - destruct ph, p; try done. apply with_lock_Some in Hs as (l & [= <-] & ->). by apply Hsame.
Qed.

Lemma winding rest s s' :
  loop_inv s → (∀ i, ¬ at_pc panicked i (lk s)) → Forall (λ m, winding_down m.2 = true) rest → lrun rest s = Some s' →
  loop_inv s' ∧ (∀ i, ¬ at_pc panicked i (lk s')) ∧ (length rest + distance s' ≤ distance s)%nat.
Proof.
  revert s. induction rest as [|[k a] rest IH]; cbn; intros s I Hc Hw; [by intros [= <-]|].
  apply list.Forall_cons in Hw as [Ha Hw]. destruct (lstep k a s) as [s1|] eqn:E; [|done]. cbn. intros Hr.
  pose proof (winds_down s s1 k a Ha E).
  destruct (IH s1 (lstep_inv _ _ _ _ I E) (still_no_panic k a s s1 Hc (winding_calm a Ha) E) Hw Hr) as (I' & Hc' & Hd).
  split_and!; [done|done|lia].
Qed.
End shutdown.

(** ** What the workers are promised *)
Section promises.
Context `{EF : EventFd C} {T : Type}.
Implicit Types (s : Loop C T) (i j k : nat).

Lemma lrun_length schedule s s' :
  loop_inv s → lrun schedule s = Some s' → length (threads (lk s')) = length (threads (lk s)).
Proof.
  revert s. induction schedule as [|[k a] rest IH]; cbn; intros s I; [by intros [= <-]|].
  destruct (lstep k a s) as [s1|] eqn:E; [|done]. cbn. intros Hr. rewrite (IH s1 (lstep_inv _ _ _ _ I E) Hr).
  pose proof (lstep_inv _ _ _ _ I E) as I1. rewrite <- (lv_len _ I1), <- (lv_len _ I).
  unfold lstep in E. destruct (phases s !! k) as [ph|]; [|done]. destruct (threads (lk s) !! k) as [p|]; [|done].
  cbn [mbind option_bind] in E.
  destruct a as [| | | | |[]|[]| |f|f|f], ph, p; try done; repeat (case_match; try done);
    first [injection E as <-|apply with_lock_Some in E as (l & _ & ->)]; cbn; by rewrite ?length_insert.
Qed.

Lemma all_gone_joins s : Forall (λ ph, ph = Gone) (phases s) → DeviceHandle_wait s = Joined.
Proof.
  intros Hg. unfold DeviceHandle_wait.
  assert (Hz : Forall (λ x : Phase * PC, x.1 = Gone) (reverse (zip (phases s) (threads (lk s))))).
  { apply Forall_reverse. apply list.Forall_forall. intros [ph p] Hin.
    apply elem_of_zip_l in Hin. by eapply list.Forall_forall in Hg. }
  induction Hz as [|[ph p] l E _ IH]; [done|]. cbn in E. subst ph. exact IH.
Qed.

(** C11: A writer gets in, and no newcomer overtakes it.  Take any device with any
    number of workers, after any interleaving of their steps, with one of them
    waiting for write access inside a handler.  Then the yield notice is up, so
    every worker that waits for events is told to give up its guard; whatever the
    other workers do from there, nobody who holds no guard gets one and the notice
    stays up; and when they make way (handlers return, notices are taken, the
    lock's own code runs) it takes them at most three steps each, and whenever
    none of them has such a step left the writer's next step is the write access. *)
Theorem writer_gets_in (v : T) n schedule s i rest s' :
  lrun schedule (loop_new (C := C) v n) = Some s → is_at WWrite i (lk s) →
  Forall (λ m, m.1 ≠ i) rest → lrun rest s = Some s' →
  is_at WWrite i (lk s') ∧ eventfd_readable (yield_notice s') = true
  ∧ (∀ j, at_pc holds_read j (lk s') → at_pc holds_read j (lk s))
  ∧ (Forall (λ m, giving_way m.2 = true) rest → length rest ≤ 3 * n)%nat
  ∧ ((∃ k a s'', k ≠ i ∧ giving_way a = true ∧ lstep k a s' = Some s'')
     ∨ ∃ s'', lstep i LockStep s' = Some s'' ∧ is_at Writing i (lk s'')).
Proof.
  intros R Hi Ho Hr. pose proof (loop_new_inv (C := C) v n) as I0. pose proof (lrun_inv _ _ _ I0 R) as I.
  destruct (making_way s i rest s' I Hi Ho Hr) as (I' & Hi' & Hh & Hle).
  split_and!; [done|by eapply writer_waits|done| |].
  - intros Hg. specialize (Hle Hg). pose proof (lrun_length _ _ _ I0 R) as En. cbn in En. rewrite length_replicate in En.
    assert (total guard_weight s ≤ 3 * n)%nat; [|lia]. rewrite <- En. apply sum_from_le. intros k. unfold weight_at.
    destruct (phases s !! k) as [ph|]; [|lia]. destruct (threads (lk s) !! k) as [p|]; [|lia].
    destruct p; cbn; try lia; destruct ph; lia.
  - destruct (decide (total guard_weight s' = 0)%nat) as [Hz|Hz].
    + right. by apply writer_enters.
    + left. apply (someone_gives_way s' i I' Hi'). lia.
Qed.

(** C12: Shutting down reaches every worker.  Take any device with any number of
    workers, after any interleaving of their steps, with the exit notice raised and
    no worker panicked.  The notice is never taken down again, whatever the
    workers do; and when they wind down (leave when the wait reports the notice,
    finish the handlers they are in, write accesses included, and take the lock
    again when they are woken) then after at most 12 n² + 13 n steps all of them
    have left the event loop and DeviceHandle::wait returns: until then one of them
    can always go on. *)
Theorem shutdown_completes (v : T) n schedule s rest s' :
  lrun schedule (loop_new (C := C) v n) = Some s → eventfd_readable (exit_notice s) = true →
  (∀ i, ¬ at_pc panicked i (lk s)) → lrun rest s = Some s' →
  eventfd_readable (exit_notice s') = true
  ∧ (Forall (λ m, winding_down m.2 = true) rest →
     (length rest ≤ 12 * n ^ 2 + 13 * n)%nat
     ∧ (Forall (λ ph, ph = Gone) (phases s') ∧ DeviceHandle_wait s' = Joined
        ∨ ∃ k a s'', winding_down a = true ∧ lstep k a s' = Some s'')).
Proof.
  intros R Hx Hc Hr. pose proof (loop_new_inv (C := C) v n) as I0. pose proof (lrun_inv _ _ _ I0 R) as I.
  pose proof (exits_stay rest s s' Hx Hr) as Hx'. split; [done|]. intros Hw.
  destruct (winding rest s s' I Hc Hw Hr) as (I' & Hc' & Hd). split.
  - pose proof (distance_bound s) as Hb. rewrite (lrun_length _ _ _ I0 R) in Hb. cbn [lk loop_new Lock_new threads] in Hb.
    rewrite length_replicate in Hb. lia.
  - destruct (decide (Forall (λ ph, ph = Gone) (phases s'))) as [|Hn]; [left; by auto using all_gone_joins|right].
    apply not_Forall_Exists, list.Exists_exists in Hn as (ph & Hin & Hp); [|intros ?; apply _].
    apply list_elem_of_lookup in Hin as [k Hk]. by apply (someone_winds_down s' k ph).
Qed.
End promises.

(** ** Sample schedules *)
Section sample.
Local Existing Instance Counter.eventfd.

(** Worker 0 upgrades up to the write access while worker 1 holds a guard in a
    handler; worker 1 then returns and takes the notice. *)
Definition sample_writer : list (nat * Act Z) :=
  [(1, Enter); (1, LockStep); (1, LockStep); (1, LockStep); (1, TakeEvent);
   (0, Enter); (0, LockStep); (0, LockStep); (0, LockStep); (0, TakeEvent); (0, Upgrade);
   (0, LockStep); (0, LockStep); (0, LockStep); (0, LockStep); (0, LockStep)]%nat.
Definition sample_way : list (nat * Act Z) := [(1, Return Continue); (1, TakeYield)]%nat.
Definition sample_exit : list (nat * Act Z) :=
  [(0, LockStep); (0, Mutated (Z.add 1)); (0, LockStep); (0, LockStep); (0, LockStep); (0, Return Continue);
   (0, TakeEvent); (0, Return Exit); (1, Enter); (1, LockStep); (1, LockStep)]%nat.
Definition sample_last : list (nat * Act Z) := [(1, LockStep); (1, TakeExit)]%nat.

Lemma writer_gets_in_witness :
  ∃ s s' s'', lrun sample_writer (loop_new 7%Z 2) = Some s ∧ lrun sample_way s = Some s' ∧
    is_at Reading 1 (lk s) ∧ is_at WWrite 0 (lk s') ∧ eventfd_readable (yield_notice s') = true ∧
    lstep 0 LockStep s' = Some s'' ∧ is_at Writing 0 (lk s'').
Proof.
  eexists _, _, _. split; [vm_compute; reflexivity|]. split; [vm_compute; reflexivity|]. split; [reflexivity|].
  epose proof (writer_gets_in 7%Z 2 sample_writer _ 0 sample_way _ ltac:(vm_compute; reflexivity) ltac:(vm_compute; reflexivity)
    ltac:(repeat constructor; discriminate) ltac:(vm_compute; reflexivity)) as (H1 & H2 & _).
  split; [exact H1|]. split; [exact H2|]. split; [vm_compute; reflexivity|reflexivity].
Defined.

Lemma shutdown_completes_witness :
  ∃ s s', lrun (sample_writer ++ sample_way ++ sample_exit) (loop_new 7%Z 2) = Some s ∧ lrun sample_last s = Some s' ∧
    eventfd_readable (exit_notice s) = true ∧ phases s !! 1%nat = Some InLoop ∧
    eventfd_readable (exit_notice s') = true ∧ Forall (λ ph, ph = Gone) (phases s').
Proof.
  eexists _, _. split; [vm_compute; reflexivity|]. split; [vm_compute; reflexivity|]. split; [reflexivity|]. split; [reflexivity|].
  split; [|vm_compute; repeat constructor].
  eapply (shutdown_completes 7%Z 2 (sample_writer ++ sample_way ++ sample_exit) _ sample_last);
    [vm_compute; reflexivity|reflexivity| |vm_compute; reflexivity].
  intros [|[|i]] (q & Hq & Hp); cbn in Hq; try discriminate; injection Hq as <-; exact Hp.
Defined.
End sample.
