(* ===== verification/DeviceLife.v ===== *)
(** * DeviceLife: every handler keeps the device consistent

    [DeviceInv] shows it for the configuration; here the packet handlers and the
    timers keep [device_ok] too, so it holds in every state a device reaches,
    whatever configuration requests and network traffic it has seen.  The loop
    that flushes a tunnel's queue is shown to end. *)

From Stdlib Require Import ZArith Lia.
From stdpp Require Import base list option strings sets tactics countable gmap fin_maps.
From S2P Require Import Prelude Clock Random Codec Keys Lfsr Amnezia Cps Config Packet Ip AllowedIps.
From S2P Require Import Session Handshake RateLimiter Timers Tunnel EventPoll TunnelIdentity TunnelSafe.
From S2P Require Import Device DeviceInv DeviceData.
Open Scope Z_scope.

Section keeping.
Context `{CC : ChaCha20} `{B64 : Base64} `{NC : NoiseCrypto} `{AE : Aead} `{RS : RandomSource R}.
Context `{TB : IpNetworkTable}.

Section tunnel.
Context (i : Z) (cfg : TunnConfig) (keys : bytes * bytes * bytes * option bytes).
Abbreviation kept m := (keeps (R := R) (identity i cfg keys) m (λ _, True)).

Lemma drain_loop_keeps n : kept (drain_loop n).
Proof. induction n as [|n IH]; cbn [drain_loop]; keep; try apply poll_keeps; apply IH. Qed.
Lemma drain_keeps : kept drain_outgoing.
Proof. unfold drain_outgoing. keep. apply drain_loop_keeps. Qed.
Lemma flush_loop_keeps n env k : kept (flush_loop n env k).
Proof.
  revert k. induction n as [|n IH]; intros k; cbn [flush_loop]; [keep|]. unfold flush_turn.
  keep; try apply decapsulate_keeps; try apply drain_keeps; apply IH.
Qed.
Lemma flush_keeps env : kept (flush env).
Proof. unfold flush. keep. apply flush_loop_keeps. Qed.
End tunnel.

(** Steps that leave the device alone. *)
Lemma dkeeps_lift {A} (r : result Error A) : dkeeps (R := R) (lift r).
Proof. by apply dkeeps_pure. Qed.
Lemma dkeeps_attempt {A} (m : D (R := R) A) : dkeeps m → dkeeps (attempt m).
Proof.
  intros Hm w Hw. specialize (Hm w Hw). unfold ends, attempt in *. by destruct (m w) as [[]].
Qed.
Lemma dkeeps_dev {A} (m : D (R := R) A) : (∀ w, core_of (dev (m w).2) = core_of (dev w)) → dkeeps m.
Proof.
  intros Hm w Hw. unfold ends. specialize (Hm w). destruct (m w) as [[] w']; [|..|done];
    by apply (device_ok_same (dev w)).
Qed.

End keeping.

(** Walks through a body whose steps are known to keep the invariant. *)
Ltac dkeep :=
  repeat match goal with
  | |- dkeeps (mbind _ _) => apply dkeeps_bind
  | |- dkeeps get_dev => apply dkeeps_get
  | |- dkeeps (must_dev _) => apply dkeeps_must
  | |- dkeeps (lift _) => apply dkeeps_lift
  | |- dkeeps (lock_peer _) => apply dkeeps_lock
  | |- dkeeps (attempt _) => apply dkeeps_attempt
  | |- dkeeps (mret _) => by apply dkeeps_pure
  | |- dkeeps panic => by apply dkeeps_pure
  | |- dkeeps (if ?b then _ else _) => destruct b
  | |- dkeeps (match ?x with _ => _ end) => destruct x
  | |- forall _, dkeeps _ => intro
  end.

Section handlers.
Context `{CC : ChaCha20} `{B64 : Base64} `{NC : NoiseCrypto} `{AE : Aead} `{RS : RandomSource R}.
Context `{TB : IpNetworkTable}.

Lemma strip_datagram_keeps a src : dkeeps (R := R) (strip_datagram a src).
Proof. unfold strip_datagram. dkeep. Qed.
Lemma draw_keeps n : dkeeps (R := R) (draw n).
Proof. apply dkeeps_dev. intros w. unfold draw. case_decide; [|done]. by destruct (fill_bytes n (drng w)). Qed.
Lemma frame_cookie_keeps a c : dkeeps (R := R) (frame_cookie a c).
Proof. unfold frame_cookie. dkeep; apply draw_keeps. Qed.
Lemma verify_datagram_keeps env a l addr packet : dkeeps (R := R) (verify_datagram env a l addr packet).
Proof.
  apply dkeeps_dev. intros w. unfold verify_datagram. destruct (d_limiters (dev w) !! l); [|done].
  by destruct (verify_packet _ _ _ _ _ _ _ _) as [[r0 rl] g].
Qed.

Lemma send_and_flush_keeps env peer send result : dkeeps (R := R) (send_and_flush env peer send result).
Proof. unfold send_and_flush. dkeep. apply tunnel_do_keeps. intros. apply flush_keeps. Qed.

Lemma adopt_endpoint_keeps h d peer addr : dkeeps (R := R) (adopt_endpoint h d peer addr).
Proof.
  unfold adopt_endpoint, register_conn_handler.
  dkeep; [apply set_endpoint_keeps|apply tunnel_do_keeps; intros; by apply upd_keeps
         |apply connect_endpoint_keeps|apply register_keeps].
Qed.

Lemma udp_verified_keeps h d sk pk udp addr packet : dkeeps (R := R) (udp_verified h d sk pk udp addr packet).
Proof.
  unfold udp_verified. dkeep; try apply send_and_flush_keeps; try apply adopt_endpoint_keeps;
    (apply tunnel_call_keeps; intros; apply handle_verified_keeps).
Qed.

Lemma udp_packet_keeps h sk pk l udp src addr : dkeeps (R := R) (udp_packet h sk pk l udp src addr).
Proof.
  unfold udp_packet.
  dkeep; try apply strip_datagram_keeps; try apply verify_datagram_keeps; try apply frame_cookie_keeps;
    apply udp_verified_keeps.
Qed.

Lemma udp_handler_keeps h udp rx : dkeeps (R := R) (udp_handler h udp rx).
Proof.
  unfold udp_handler. dkeep. generalize O, MAX_ITR. induction rx as [|[src addr] rx IH]; intros j iter; cbn [udp_loop].
  - dkeep.
  - dkeep; [apply udp_packet_keeps|apply IH..].
Qed.

Lemma conn_packet_keeps h peer udp addr src : dkeeps (R := R) (conn_packet h peer udp addr src).
Proof.
  unfold conn_packet. dkeep; [|apply send_and_flush_keeps]. apply tunnel_call_keeps. intros. apply decapsulate_keeps.
Qed.

Lemma conn_handler_keeps h peer udp addr rx : dkeeps (R := R) (conn_handler h peer udp addr rx).
Proof.
  unfold conn_handler. dkeep. generalize O, MAX_ITR. induction rx as [|src rx IH]; intros j iter; cbn [conn_loop].
  - dkeep.
  - dkeep; [apply conn_packet_keeps|apply IH].
Qed.

Lemma call_and_drain_keeps peer (m : T (R := R) TunnResult) :
  (∀ i cfg keys, keeps (identity i cfg keys) m (λ _, True)) → dkeeps (call_and_drain peer m).
Proof.
  intros Hm. unfold call_and_drain. dkeep; [by apply tunnel_call_keeps|].
  apply tunnel_do_keeps. intros. apply drain_keeps.
Qed.

Lemma iface_packet_keeps h u4 u6 src : dkeeps (R := R) (iface_packet h u4 u6 src).
Proof. unfold iface_packet. dkeep. apply call_and_drain_keeps. intros. apply encapsulate_keeps. Qed.

Lemma iface_handler_keeps h rx : dkeeps (R := R) (iface_handler h rx).
Proof.
  unfold iface_handler, assert_dev. dkeep. generalize O, MAX_ITR.
  induction rx as [|[src| |] rx IH]; intros j [|n]; cbn [iface_loop]; dkeep; try apply IH.
  apply iface_packet_keeps.
Qed.

Lemma peer_timer_keeps h u4 u6 i e : dkeeps (R := R) (peer_timer h u4 u6 i e).
Proof.
  unfold peer_timer. dkeep; try apply shutdown_endpoint_keeps.
  apply call_and_drain_keeps. intros. apply update_timers_keeps.
Qed.

Lemma timers_handler_keeps h : dkeeps (R := R) (timers_handler h).
Proof.
  unfold timers_handler. dkeep. generalize O, (h_order h (d_peers a)). intros j l. revert j.
  induction l as [|e l IH]; intros j; cbn [timer_loop]; dkeep; try apply IH.
  apply peer_timer_keeps.
Qed.

Lemma maintenance_handler_keeps h m : dkeeps (R := R) (maintenance_handler h m).
Proof.
  unfold maintenance_handler. dkeep; try by apply dkeeps_same.
  - apply dkeeps_same. intros d. by destruct (d_limiters d !! _).
  - apply dkeeps_for. intros j e. apply tunnel_do_keeps. intros. by apply upd_keeps.
Qed.

Lemma monitor_handler_keeps b m : dkeeps (R := R) (monitor_handler b m).
Proof. unfold monitor_handler. dkeep. by apply dkeeps_same. Qed.
End handlers.

(** ** The flush loop ends *)
Section termination.
Context `{CC : ChaCha20} `{B64 : Base64} `{NC : NoiseCrypto} `{AE : Aead} `{RS : RandomSource R}.
Implicit Types w : World (R := R).

(** How many more turns the loop can take: one per queued packet while there is
    a session; without one, a handshake is started at most once. *)
Definition turns_left (t : Tunn) : nat :=
  match session_at t (current t) with
  | Some _ => S (length (packet_queue t))
  | None => if is_in_progress (handshake t) then 1 else 2
  end.

Lemma turns_left_bound t : (1 ≤ turns_left t ≤ length (packet_queue t) + 2)%nat.
Proof. unfold turns_left. destruct (session_at _ _); [lia|]. destruct (is_in_progress _); lia. Qed.

(** With a session, sending a packet leaves the session and the queue. *)
Definition with_session (c : Z) (q : list bytes) (t : Tunn) : Prop :=
  current t = c ∧ is_Some (session_at t c) ∧ packet_queue t = q.

Lemma with_session_other c q t t' :
  current t' = current t → sessions t' = sessions t → packet_queue t' = packet_queue t →
  with_session c q t → with_session c q t'.
Proof. unfold with_session, session_at. by intros -> -> ->. Qed.

Lemma with_session_upd c q f :
  (∀ t, current (f t) = current t ∧ sessions (f t) = sessions t ∧ packet_queue (f t) = packet_queue t) →
  keeps (R := R) (with_session c q) (upd_tunn f) (λ _, True).
Proof. intros Hf. apply keeps_upd. intros t. destruct (Hf t) as (?&?&?). by apply with_session_other. Qed.

Lemma with_session_store c q s t : with_session c q t → with_session c q (store_session c (Some s) t).
Proof.
  intros (? & Hs & ?). split; [done|]. split; [|done]. unfold session_at in *. cbn.
  destruct (sessions t !! session_slot c) as [o|] eqn:E; [|by destruct Hs].
  rewrite list_lookup_insert_eq by (by apply lookup_lt_Some in E). by eexists.
Qed.

Lemma encapsulate_with_session env src dst_len c q :
  keeps (R := R) (with_session c q) (encapsulate env src dst_len) (λ _, True).
Proof.
  unfold encapsulate, format_transport_packet.
  eapply keeps_bind; [apply keeps_get|]. intros t (Hc & [s Hs] & Hq). rewrite Hc, Hs.
  keep; try (by apply with_session_upd); try (apply keeps_upd; intros; by apply with_session_store);
    [apply transport_padding_keeps|apply draw_prefix_keeps].
Qed.

(** A step from one property of the tunnel to another; it may also fail. *)
Definition leads {A} (P : Tunn → Prop) (m : T (R := R) A) (Q : A → Tunn → Prop) : Prop :=
  ∀ w, P (tunn w) → match m w with (Ok a, w') => Q a (tunn w') | _ => True end.

Lemma leads_seq {A B} P (m : T (R := R) A) (f : A → T B) Q Q' :
  leads P m Q → (∀ a, leads (Q a) (f a) Q') → leads P (m ≫= f) Q'.
Proof.
  intros Hm Hf w Hw. specialize (Hm w Hw). unfold mbind, ST_bind.
  destruct (m w) as [[a|e|] w']; [|done..]. by apply Hf.
Qed.
Lemma leads_keeps {A} P (m : T (R := R) A) : keeps P m (λ _, True) → leads P m (λ _, P).
Proof. intros Hm w Hw. destruct (Hm w Hw) as [Hp _]. by destruct (m w) as [[]]. Qed.
Lemma leads_weaken {A} P (m : T (R := R) A) (Q Q' : A → Tunn → Prop) :
  leads P m Q → (∀ a t, Q a t → Q' a t) → leads P m Q'.
Proof. intros Hm HQ w Hw. specialize (Hm w Hw). destruct (m w) as [[]]; auto. Qed.

(** Without a session, a handshake may start; it is then in progress. *)
Definition no_session (t : Tunn) : Prop := session_at t (current t) = None.

Lemma no_session_upd f :
  (∀ t, current (f t) = current t ∧ sessions (f t) = sessions t) →
  keeps (R := R) no_session (upd_tunn f) (λ _, True).
Proof. intros Hf. apply keeps_upd. intros t. unfold no_session, session_at. by destruct (Hf t) as [-> ->]. Qed.

Definition shaking (t : Tunn) : Prop := no_session t ∧ is_in_progress (handshake t) = true.

Lemma shaking_upd f :
  (∀ t, current (f t) = current t ∧ sessions (f t) = sessions t ∧ handshake (f t) = handshake t) →
  keeps (R := R) shaking (upd_tunn f) (λ _, True).
Proof.
  intros Hf. apply keeps_upd. intros t [Hn Hp]. destruct (Hf t) as (E1 & E2 & E3).
  split; [unfold no_session, session_at in *; by rewrite E1, E2|by rewrite E3].
Qed.

Lemma queue_init_no_session env n chains :
  keeps (R := R) no_session (queue_init_packets env n chains) (λ _, True).
Proof.
  revert n. induction chains as [|c cs IH]; intros n; cbn [queue_init_packets]; [keep|].
  apply keeps_seq; [intros w Hw; by destruct (CpsChain_generate_for_init _ _ _) as [[]| |]|].
  intros p. apply keeps_seq; [|intros _; apply IH]. case_decide; [keep|]. by apply no_session_upd.
Qed.

Lemma initiation_leads env dst_len :
  leads no_session (Tunn_format_handshake_initiation env dst_len false)
    (λ r t, ∀ p, r = WriteToNetwork p → shaking t).
Proof.
  unfold Tunn_format_handshake_initiation, queue_pre_handshake_packets.
  eapply leads_seq; [apply leads_keeps; keep|]. intros t.
  destruct (is_in_progress (handshake t) && negb false); [by intros w Hw p|].
  case_decide; [by intros w Hw p|].
  eapply leads_seq; [apply leads_keeps; keep; by apply no_session_upd|]. intros ?. cbn zeta.
  eapply leads_seq; [apply leads_keeps; keep|]. intros t1.
  eapply leads_seq; [apply leads_keeps; keep|]. intros tm.
  eapply leads_seq; [apply leads_keeps; by apply no_session_upd|]. intros ?.
  eapply leads_seq; [apply leads_keeps; keep; try apply queue_init_no_session; by apply no_session_upd|]. intros ?.
  eapply leads_seq; [apply leads_keeps; keep|]. intros ty.
  apply (leads_seq _ _ _ (λ r t, match r with Ok _ => shaking t | _ => True end)).
  { intros w Hw. unfold attempt, on_handshake, format_handshake_initiation.
    case_decide; [done|]. destruct (inc_index _) as [idx h'].
    destruct (initiation_message _ _ _ _) as [[msg hash] ck]. by split. }
  intros [packet|e|]; [|by intros w Hw p|done].
  eapply leads_seq; [apply leads_keeps, frame_message_keeps|]. intros d.
  eapply leads_seq; [apply leads_keeps; keep; by apply shaking_upd|]. intros ?.
  eapply leads_seq; [apply leads_keeps; by apply shaking_upd|]. intros ?. by intros w Hw p.
Qed.

Lemma initiation_in_progress env dst_len w :
  is_in_progress (handshake (tunn w)) = true →
  Tunn_format_handshake_initiation env dst_len false w = (Ok Done, w).
Proof. intros Hp. unfold Tunn_format_handshake_initiation, mbind, ST_bind, get, gets. by rewrite Hp. Qed.

Lemma drain_loop_measure n w : turns_left (tunn (drain_loop n w).2) = turns_left (tunn w).
Proof.
  revert w. induction n as [|n IH]; intros w; cbn [drain_loop];
    unfold poll_outgoing_packet, mbind, ST_bind, get, gets; destruct (network_outgoing (tunn w)) as [|x q]; try done.
  cbn. specialize (IH (mkWorld (set_outgoing q (tunn w)) (rng w))).
  unfold upd_tunn, modify in *. by destruct (drain_loop n _) as [[]].
Qed.

(** Each turn that sends something brings the loop closer to its end. *)
Lemma flush_turn_measure env w sent w' :
  flush_turn env w = (Ok (Some sent), w') → (turns_left (tunn w') < turns_left (tunn w))%nat.
Proof.
  unfold flush_turn, decapsulate. rewrite decide_True by done. unfold mbind, ST_bind.
  destruct (send_queued_packet env MAX_UDP_SIZE w) as [[r|e|] w1] eqn:E; [|done..].
  intros H. assert (Hw : ∃ p, r = WriteToNetwork p ∧ turns_left (tunn w') = turns_left (tunn w1)).
  { destruct r; try done. exists packet. split; [done|]. unfold drain_outgoing, mbind, ST_bind, get, gets in H.
    pose proof (drain_loop_measure (length (network_outgoing (tunn w1))) w1) as Hm.
    destruct (drain_loop _ w1) as [[l|e|] w2]; [|done..]. apply pair_equal_spec in H as [_ <-]. exact Hm. }
  destruct Hw as (p & -> & ->). clear H. revert E.
  unfold send_queued_packet, dequeue_packet, mbind, ST_bind, get, gets.
  destruct (packet_queue (tunn w)) as [|x q] eqn:Hq; [done|]. cbn. unfold upd_tunn, modify.
  set (w0 := mkWorld (set_queue q (tunn w)) (rng w)).
  unfold turns_left at 2. destruct (session_at (tunn w) (current (tunn w))) as [ss|] eqn:Hs.
  - pose proof (encapsulate_with_session env x MAX_UDP_SIZE (current (tunn w)) q w0) as Hk.
    destruct Hk as [Hk _]; [by split_and!; [|exists ss|]|].
    destruct (encapsulate env x MAX_UDP_SIZE w0) as [[r|e|] w2]; [|done..]. cbn in Hk.
    destruct r; try done. intros [_ <-]%pair_equal_spec. destruct Hk as (Hc & [s' Hs'] & Hq').
    unfold turns_left. rewrite Hc, Hs', Hq', Hq. cbn. lia.
  - unfold encapsulate, mbind, ST_bind, get, gets. change (session_at (tunn w0) (current (tunn w0)))
      with (session_at (tunn w) (current (tunn w))). rewrite Hs. unfold queue_packet, upd_tunn, modify.
    set (w3 := mkWorld _ _).
    assert (Hn3 : no_session (tunn w3)) by (unfold w3; cbn; case_decide; exact Hs).
    assert (Hh3 : handshake (tunn w3) = handshake (tunn w)) by (unfold w3; cbn; by case_decide).
    destruct (is_in_progress (handshake (tunn w))) eqn:Hp.
    + rewrite initiation_in_progress by congruence. done.
    + pose proof (initiation_leads env MAX_UDP_SIZE w3 Hn3) as Hl.
      destruct (Tunn_format_handshake_initiation _ _ _ w3) as [[r|e|] w2]; [|done..].
      destruct r as [| |d| |]; try done. intros [_ <-]%pair_equal_spec. destruct (Hl d eq_refl) as [Hn Hp'].
      unfold turns_left. rewrite Hn, Hp'. lia.
Qed.

Lemma flush_loop_ends n env k w w' :
  (turns_left (tunn w) ≤ n)%nat → flush_loop n env k w ≠ (Ok None, w').
Proof.
  revert k w. induction n as [|n IH]; intros k w Hn.
  { pose proof (turns_left_bound (tunn w)). lia. }
  cbn [flush_loop]. unfold mbind, ST_bind.
  destruct (flush_turn (env k) w) as [[[sent|]|e|] w1] eqn:E; [|done..].
  apply flush_turn_measure in E. specialize (IH (S k) w1 ltac:(lia)).
  destruct (flush_loop n env (S k) w1) as [[[rest|]|e|] w2]; naive_solver.
Qed.

(** ** What is left when it has ended *)
Lemma drain_loop_outgoing q w :
  network_outgoing (tunn w) = q →
  drain_loop (length q) w = (Ok q, mkWorld (set_outgoing [] (tunn w)) (rng w)).
Proof.
  revert w. induction q as [|x q IH]; intros w Hq; cbn [drain_loop length];
    unfold poll_outgoing_packet, mbind, ST_bind, get, gets; rewrite Hq.
  - unfold mret, ST_ret. rewrite <- Hq. by destruct w as [[] g].
  - cbn. unfold upd_tunn, modify. by rewrite (IH (mkWorld (set_outgoing q (tunn w)) (rng w)) eq_refl).
Qed.

(** Draining takes the whole queue, in order. *)
Lemma drain_outgoing_eq w :
  drain_outgoing w = (Ok (network_outgoing (tunn w)), mkWorld (set_outgoing [] (tunn w)) (rng w)).
Proof. unfold drain_outgoing, mbind, ST_bind, get, gets. by apply drain_loop_outgoing. Qed.

(** Nothing the tunnel could send is left: the queue is empty, or it waits for a
    session, or its first packet is too long for any datagram. *)
Definition flushed (t : Tunn) : Prop :=
  packet_queue t = [] ∨ no_session t ∨
  ∃ p q, packet_queue t = p :: q ∧ (MAX_UDP_SIZE < s_of s4 t + 32 + length p)%nat.

Lemma initiation_no_session env dst_len force :
  keeps (R := R) no_session (Tunn_format_handshake_initiation env dst_len force) (λ _, True).
Proof.
  unfold Tunn_format_handshake_initiation, queue_pre_handshake_packets.
  keep; try (by apply no_session_upd); try apply queue_init_no_session; try apply frame_message_keeps.
  eapply keeps_weaken; [apply (keeps_attempt _ _ (λ _, True))|done].
  intros w Hw. unfold on_handshake. destruct (format_handshake_initiation _ _ _ _ _) as [[]]; by split.
Qed.

Lemma send_queued_outcome env w (Hw : ok env w) :
  runs (send_queued_packet env MAX_UDP_SIZE) w (λ _, False)
    (λ r w', ok env w' ∧ (flushed (tunn w') ∨ ∃ p, r = WriteToNetwork p)).
Proof.
  pose proof (send_queued_packet_runs (X := λ _, False) env MAX_UDP_SIZE w Hw) as Hok.
  unfold runs in *. destruct (send_queued_packet env MAX_UDP_SIZE w) as [[r|e|] w'] eqn:E; [|done..].
  destruct Hok as [Hok _]. split; [done|]. revert E.
  unfold send_queued_packet, dequeue_packet, mbind, ST_bind, get, gets.
  destruct (packet_queue (tunn w)) as [|x q] eqn:Hq.
  { intros [_ <-]%pair_equal_spec. left. by left. }
  cbn. unfold upd_tunn, modify. set (w0 := mkWorld (set_queue q (tunn w)) (rng w)).
  destruct (session_at (tunn w) (current (tunn w))) as [ss|] eqn:Hs.
  - destruct (decide (s_of s4 (tunn w) + 32 + length x ≤ MAX_UDP_SIZE)%nat) as [Hfit|Hbig].
    + assert (Hw0 : ok env w0).
      { destruct Hw as [Ht Hg]. split; [|done]. apply ok_set_queue; [done|].
        pose proof (ok_queue _ _ Ht) as Hl. rewrite Hq in Hl. cbn in Hl. lia. }
      pose proof (encapsulate_session_runs (X := λ _, False) env x MAX_UDP_SIZE ss w0 Hw0 Hs Hfit) as He.
      unfold runs in He. destruct (encapsulate env x MAX_UDP_SIZE w0) as [[r0|e|] w2]; [|done..].
      destruct He as (_ & d & pad & -> & _). intros [[= <-] _]%pair_equal_spec. right. by exists d.
    + unfold encapsulate, mbind, ST_bind, get, gets.
      change (session_at (tunn w0) (current (tunn w0))) with (session_at (tunn w) (current (tunn w))).
      rewrite Hs, decide_True by (unfold DATA_OVERHEAD_SZ; change (s_of s4 (tunn w0)) with (s_of s4 (tunn w)); lia).
      unfold requeue_packet, upd_tunn, modify. cbn. intros [_ <-]%pair_equal_spec. left. right. right. cbn.
      rewrite decide_True; [|pose proof (ok_queue _ _ (proj1 Hw)) as Hl; rewrite Hq in Hl; cbn in Hl; lia].
      exists x, q. split; [done|]. unfold s_of in *. cbn in *. lia.
  - unfold encapsulate, mbind, ST_bind, get, gets.
    change (session_at (tunn w0) (current (tunn w0))) with (session_at (tunn w) (current (tunn w))).
    rewrite Hs. unfold queue_packet, upd_tunn, modify. set (w3 := mkWorld _ _).
    destruct (initiation_no_session env MAX_UDP_SIZE false w3) as [Hn _].
    { unfold w3. cbn. case_decide; exact Hs. }
    destruct (Tunn_format_handshake_initiation _ _ _ w3) as [[r0|e|] w2]; [|done..]. cbn in Hn.
    intros H. left. right. left. destruct r0; apply pair_equal_spec in H as [_ <-]; try done.
    cbn. by case_decide.
Qed.

Lemma flush_loop_runs n env k w :
  (∀ j, now (env j) ≤ now (env (S j))) → ok (env k) w → (turns_left (tunn w) ≤ n)%nat →
  ∃ sent w' j, flush_loop n env k w = (Ok (Some sent), w') ∧ flushed (tunn w') ∧ ok (env j) w'.
Proof.
  intros Htime. revert k w. induction n as [|n IH]; intros k w Hw Hn.
  { pose proof (turns_left_bound (tunn w)). lia. }
  cbn [flush_loop]. pose proof (send_queued_outcome (env k) w Hw) as Hs.
  pose proof (flush_turn_measure (env k) w) as Hm. unfold flush_turn, decapsulate in *.
  rewrite decide_True in * by done. unfold runs, mbind, ST_bind in *.
  destruct (send_queued_packet (env k) MAX_UDP_SIZE w) as [[r|e|] w1]; [|done..]. destruct Hs as [Hw1 Hr].
  destruct r as [| |p| |]; try (destruct Hr as [Hf|[? [=]]]; exists [], w1, k; done).
  rewrite drain_outgoing_eq in *. set (w2 := mkWorld _ _) in *.
  destruct (IH (S k) w2) as (rest & w3 & j & E & Hf).
  - destruct Hw1 as [Ht Hg]. split; [|done]. apply ok_set_outgoing. by apply (tunn_ok_later (now (env k))).
  - specialize (Hm _ _ eq_refl). lia.
  - exists ((network_outgoing (tunn w1) ++ [p]) ++ rest), w3, j. unfold mret, ST_ret. by rewrite E.
Qed.

Lemma flush_runs env w :
  ok (env O) w → (∀ j, now (env j) ≤ now (env (S j))) →
  ∃ sent w' j, flush env w = (Ok sent, w') ∧ flushed (tunn w') ∧ ok (env j) w'.
Proof.
  intros Hw Htime. pose proof (turns_left_bound (tunn w)) as Hb.
  destruct (flush_loop_runs (length (packet_queue (tunn w)) + 2) env 0 w Htime Hw) as (sent & w' & j & E & Hf); [lia|].
  exists sent, w', j. unfold flush, mbind, ST_bind, get, gets. by rewrite E.
Qed.

(** C23: The loop that flushes a tunnel's queue after a handshake ends.  It needs
    at most two turns more than there are packets queued, for every state the
    tunnel can be in: each turn sends a queued packet, or starts the one handshake
    after which the next turn stops.  It returns without a panic, and leaves
    nothing it could have sent: the queue is empty, or waits for a session, or
    starts with a packet longer than any datagram. *)
Theorem flush_terminates env w :
  ok (env O) w → (∀ j, now (env j) ≤ now (env (S j))) →
  ∃ sent w', flush env w = (Ok sent, w') ∧ flushed (tunn w').
Proof.
  intros Hw Htime. destruct (flush_runs env w Hw Htime) as (sent & w' & j & E & Hf & _). by exists sent, w'.
Qed.
End termination.

(** ** The states a device goes through *)
Section lifetime.
Context `{CC : ChaCha20} `{B64 : Base64} `{NC : NoiseCrypto} `{AE : Aead} `{RS : RandomSource R}.
Context `{TB : IpNetworkTable}.

(** What can happen to a device: configuration, traffic, timers. *)
Inductive DevOp :=
  | SetKey (h : Host) (sk : bytes)
  | SetAmnezia (h : Host) (a : Amnezia3Config)
  | UpdatePeer (h : Host) (k : bytes) (remove replace_ips : bool) (endpoint : option SocketAddr)
      (ips : list AllowedIP) (keepalive : option Z) (range : option U32Range) (psk : option bytes)
  | ClearPeers
  | Listen (h : Host) (port : Z)
  | Mark (h : Host) (mark : Z)
  | UdpEvent (h : nat → Host) (udp : Socket) (rx : list (bytes * SocketAddr))
  | ConnEvent (h : nat → Host) (peer : nat) (udp : Socket) (addr : IpAddr) (rx : list bytes)
  | IfaceEvent (h : nat → Host) (rx : list IfaceRead)
  | TimersEvent (h : Host)
  | MaintenanceEvent (h : Host) (mtu : option Z)
  | MonitorEvent (alive : bool) (mtu : option Z).

Definition run_op (o : DevOp) : D (R := R) () :=
  match o with
  | SetKey h sk => set_key h sk
  | SetAmnezia h a => set_amnezia_config h a
  | UpdatePeer h k remove replace endpoint ips keepalive range psk =>
      update_peer h k remove replace endpoint ips keepalive range psk
  | ClearPeers => clear_peers
  | Listen h port => open_listen_socket h port
  | Mark h mark => set_fwmark h mark
  | UdpEvent h udp rx => _ ← udp_handler h udp rx; mret tt
  | ConnEvent h peer udp addr rx => _ ← conn_handler h peer udp addr rx; mret tt
  | IfaceEvent h rx => _ ← iface_handler h rx; mret tt
  | TimersEvent h => _ ← timers_handler h; mret tt
  | MaintenanceEvent h mtu => _ ← maintenance_handler h mtu; mret tt
  | MonitorEvent alive mtu => _ ← monitor_handler alive mtu; mret tt
  end.

(** A configuration pushed to the peers has been validated, and a walk over the
    peers visits each of them. *)
Definition op_fine (o : DevOp) : Prop :=
  match o with
  | SetKey h _ => host_ok h
  | SetAmnezia h a => host_ok h ∧ config_ok a
  | _ => True
  end.

Inductive device_reachable : DWorld (R := R) → Prop :=
  | dr_new use_connected mtu draws l queue g :
      IndexLfsr_default draws = Some l →
      device_reachable (mkDWorld (Device_new use_connected mtu l queue) g)
  | dr_step w o r w' :
      device_reachable w → op_fine o → run_op o w = (r, w') → r ≠ Panic → device_reachable w'.

Lemma run_op_keeps o : op_fine o → dkeeps (run_op o).
Proof.
  destruct o; cbn; intros Ho.
  - by apply set_key_keeps.
  - destruct Ho. by apply set_amnezia_config_keeps.
  - apply update_peer_keeps.
  - apply clear_peers_keeps.
  - apply open_listen_socket_keeps.
  - apply set_fwmark_keeps.
  - apply dkeeps_bind; [apply udp_handler_keeps|by intros; apply dkeeps_pure].
  - apply dkeeps_bind; [apply conn_handler_keeps|by intros; apply dkeeps_pure].
  - apply dkeeps_bind; [apply iface_handler_keeps|by intros; apply dkeeps_pure].
  - apply dkeeps_bind; [apply timers_handler_keeps|by intros; apply dkeeps_pure].
  - apply dkeeps_bind; [apply maintenance_handler_keeps|by intros; apply dkeeps_pure].
  - apply dkeeps_bind; [apply monitor_handler_keeps|by intros; apply dkeeps_pure].
Qed.

Lemma device_new_ok use_connected mtu draws l queue :
  IndexLfsr_default draws = Some l → device_ok (Device_new use_connected mtu l queue).
Proof.
  intros Hl. apply IndexLfsr_default_ok in Hl as [Hl Hi]. split; [done|split; [apply default_fields_ok|by vm_compute]|].
  split; cbn; try (intros *; rewrite lookup_empty; done).
  - intros n id H. unfold AllowedIps_new in H. by rewrite match_new in H.
  - exists O. split; [split; [done|split; [done|lia]]|]. intros i [x H]. by rewrite lookup_empty in H.
Qed.

Lemma reachable_device_ok w : device_reachable w → device_ok (dev w).
Proof.
  induction 1 as [?????? Hl|w o r w' _ IH Ho Hr Hp]; [by eapply device_new_ok|].
  pose proof (run_op_keeps o Ho w IH) as Hk. unfold ends in Hk. rewrite Hr in Hk. by destruct r as [[]| |].
Qed.

(** C6: The maps of a device agree in every state it reaches, through any
    sequence of configuration requests, traffic and timers.  A peer is registered
    under its key and under the index of its tunnel, and an entry by index or by
    address always leads to a registered peer; distinct peers have distinct
    24-bit indices.  Every registered peer works with the device's current key
    pair and AmneziaWG configuration, so both halves of the device speak the same
    wire format. *)
Theorem device_stays_consistent w :
  device_reachable w →
  (∀ k id, d_peers (dev w) !! k = Some id → ∃ p sk pk,
     d_heap (dev w) !! id = Some p ∧ d_peers_by_idx (dev w) !! p_index p = Some id
     ∧ 0 ≤ p_index p < 2 ^ 24 ∧ d_key_pair (dev w) = Some (sk, pk)
     ∧ keys_of (params (handshake (p_tunnel p))) = (pk, sk, k, p_preshared_key p)
     ∧ tc (p_tunnel p) = config_of (d_amnezia (dev w)))
  ∧ (∀ i id, d_peers_by_idx (dev w) !! i = Some id → ∃ k p,
       d_peers (dev w) !! k = Some id ∧ d_heap (dev w) !! id = Some p ∧ p_index p = i)
  ∧ (∀ ip id, AllowedIps_find (d_peers_by_ip (dev w)) ip = Some id → ∃ k, d_peers (dev w) !! k = Some id).
Proof.
  intros [Hkey Ha [M1 M2 M3 M4 (n & Hn & Hu)]]%reachable_device_ok. split_and!; [|exact M3|].
  - intros k id Hk. destruct (M1 k id Hk) as (p & Hp & [(sk & pk & Hkp & []) _] & Hx).
    exists p, sk, pk. split_and!; try done; destruct (Hu (p_index p)) as (j & _ & ->); try done;
      apply index_at_range, Hn.
  - intros ip id Hf. unfold AllowedIps_find in Hf.
    destruct (longest_match _ ip) as [[net x]|] eqn:E; [|done]. cbn in Hf. injection Hf as ->.
    apply longest_match_some in E as [E _]. by eapply M4.
Qed.

(** The anonymous parser recovers who sent an initiation to this device. *)
Lemma parse_anon_initiation a sk idx eph timestamp :
  params_ok a → peer_static_public a = x25519_public sk →
  parse_handshake_anon sk (x25519_public sk) (initiation_message a idx eph timestamp).1.1
  = Ok (mkHalf idx (static_public a)).
Proof.
  intros [Ha _ _] Hpeer. destruct (initiation_message a idx eph timestamp) as [[msg hash] ck] eqn:Hm.
  unfold initiation_message in Hm. rewrite Hpeer, (diffie_hellman_comm eph sk) in Hm. cbn [fst].
  unfold parse_handshake_anon, init_static_key.
  destruct (mix_key_2 _ (diffie_hellman _ (x25519_public eph))) as [ck1 key1] eqn:E1 in Hm.
  destruct (mix_key_2 ck1 _) as [ck2 key2]. apply pair_equal_spec in Hm as [[<- _]%pair_equal_spec _].
  cbn [hi_ephemeral hi_static hi_sender_idx]. rewrite E1.
  rewrite open_seal; [done|by rewrite Ha, x25519_public_length|rewrite Ha; apply x25519_public_ok].
Qed.

(** An inbound message reaches the tunnel it is meant for.  In every reachable
    state, for every registered peer: a data packet that carries the index of one
    of the tunnel's sessions, and a handshake response that answers a handshake
    the tunnel has in flight, are routed to that peer; so is an initiation the
    peer makes for this device's public key, whose sender is only known once the
    message is decrypted. *)
Lemma inbound_reaches_its_peer w k id p sk pk :
  device_reachable w →
  d_peers (dev w) !! k = Some id → d_heap (dev w) !! id = Some p → d_key_pair (dev w) = Some (sk, pk) →
  (∀ s m, Some s ∈ sessions (p_tunnel p) → pd_receiver_idx m = Session_local_index s →
     find_peer (dev w) sk pk (PktData m) = Some id)
  ∧ (∀ st m, InitSent st ∈ [previous (handshake (p_tunnel p)); state (handshake (p_tunnel p))] →
       hr_receiver_idx m = local_index st → find_peer (dev w) sk pk (PktResponse m) = Some id)
  ∧ (∀ a idx eph timestamp, params_ok a → peer_static_public a = pk → static_public a = k →
       find_peer (dev w) sk pk (PktInit (initiation_message a idx eph timestamp).1.1) = Some id).
Proof.
  intros [Hkey Ha [M1 M2 M3 M4 M5]]%reachable_device_ok Hk Hp Hkp.
  destruct (M1 k id Hk) as (p' & Hp' & [(sk' & pk' & _ & [Hc Hks Hh Hs]) _] & Hx).
  rewrite Hp in Hp'. injection Hp' as <-. split_and!.
  - intros s m Hin Hm. unfold find_peer. rewrite Hm. unfold sessions_indexed in Hs.
    rewrite list.Forall_forall in Hs. specialize (Hs _ Hin). cbn in Hs.
    unfold session_indexed, index_of in Hs. by rewrite Hs.
  - intros st m Hin Hm. unfold find_peer. rewrite Hm. destruct Hh as [_ Hpr Hst].
    assert (E : index_of (p_index p) (local_index st)); [|unfold index_of in E; by rewrite E].
    apply elem_of_cons in Hin as [E|[E|[]%elem_of_nil]%elem_of_cons];
      [rewrite <- E in Hpr|rewrite <- E in Hst]; done.
  - intros a idx eph ts Hpa Hpeer Hsa. unfold find_peer. rewrite (Hkey sk pk Hkp) in Hpeer |- *.
    rewrite parse_anon_initiation by done. cbn. by rewrite Hsa.
Qed.

(** A removed peer is unreachable.  From a consistent device, when
    [remove_peer] returns the peer's key is free, no index and no address leads to
    it, its connected socket is closed, every other peer is registered as before,
    and the device is still consistent. *)
Lemma remove_peer_unreachable h k id (w w' : DWorld (R := R)) :
  device_ok (dev w) → d_peers (dev w) !! k = Some id → remove_peer h k w = (Ok (), w') →
  device_ok (dev w') ∧ d_peers (dev w') = delete k (d_peers (dev w))
  ∧ (∀ i, d_peers_by_idx (dev w') !! i ≠ Some id)
  ∧ (∀ ip, AllowedIps_find (d_peers_by_ip (dev w')) ip ≠ Some id)
  ∧ (∃ p, d_heap (dev w') !! id = Some p ∧ ep_conn (p_endpoint p) = None).
Proof.
  intros Hw Hk E. pose proof (remove_peer_keeps h k w Hw) as Hok.
  pose proof (remove_peer_spec h k w id Hk) as Hs. unfold ends in Hok, Hs. rewrite E in Hok, Hs.
  destruct Hs as (p & Hp & Hd). split; [done|].
  assert (Hgone : ∀ k', d_peers (dev w') !! k' ≠ Some id).
  { intros k' Hk'. rewrite Hd in Hk'. cbn in Hk'. apply lookup_delete_Some in Hk' as [Hne Hk'].
    by destruct (Hne (mk_inj _ _ (dk_maps _ Hw) _ _ _ Hk Hk')). }
  split_and!.
  - by rewrite Hd.
  - intros i Hi. destruct (mk_idx _ _ (dk_maps _ Hok) i id Hi) as (k' & _ & Hk' & _). by apply (Hgone k').
  - intros ip Hf. unfold AllowedIps_find in Hf. destruct (longest_match _ ip) as [[n x]|] eqn:El; [|done].
    cbn in Hf. injection Hf as ->. apply longest_match_some in El as [El _].
    destruct (mk_ip _ _ (dk_maps _ Hok) n id El) as [k' Hk']. by apply (Hgone k').
  - rewrite Hd. cbn. rewrite lookup_insert_eq. by eexists.
Qed.
End lifetime.
