(* ===== verification/DeviceStrip.v ===== *)
(** * DeviceStrip: the two receive paths read a datagram the same way

    The anonymous UDP handler of the device strips a datagram itself, because it
    has to find the peer first ([strip_datagram]); a connected socket hands the
    datagram to [Tunn::decapsulate], which strips it again its own way: the
    transport header is decrypted on the stack and never parsed, a handshake
    message is decrypted into a scratch buffer.  Both agree on every datagram. *)

From Stdlib Require Import ZArith Lia.
From stdpp Require Import base list option strings sets tactics countable gmap fin_maps.
From S2P Require Import Prelude Clock Random Codec Keys Lfsr Amnezia Cps Config Packet Ip AllowedIps.
From S2P Require Import Session Handshake RateLimiter Timers Tunnel EventPoll TunnelIdentity TunnelSafe.
From S2P Require Import Device DeviceData.
Open Scope Z_scope.

Section strip.
Context `{CC : ChaCha20} `{B64 : Base64} `{NC : NoiseCrypto} `{AE : Aead} `{RS : RandomSource R}.
Context `{TB : IpNetworkTable}.
Implicit Types (w : World (R := R)) (dw : DWorld (R := R)).

(** What is left of a datagram that matched row [k] of the classifier: the
    message without its trailer, its protected part decrypted. *)
Definition stripped (c : PacketClassifier) (k : check) (src : bytes) : bytes :=
  let message := drop (ck_padding k) src in
  if ck_exact k
  then protect (pc_header_protection c) (take (ck_padding k) src) (take (ck_size k) message)
  else match mask_of c src with Some m => xor_into message m | None => message end.

Lemma row_exact_size c k :
  ck_exact (check_of c k) = true → (ck_size (check_of c k) ≠ 16 ∧ 0 < ck_size (check_of c k))%nat.
Proof.
  unfold check_of, init_check, response_check, cookie_check, transport_check. destruct k; cbn [ck_exact ck_size]; intros H; [..|done];
    unfold HANDSHAKE_INIT_SZ, HANDSHAKE_RESP_SZ, COOKIE_REPLY_SZ; lia.
Qed.

Section row.
Context (c : PacketClassifier) (k : HeaderKind) (src : bytes).
Context (Hsize : (ck_padding (check_of c k) + ck_size (check_of c k) ≤ length src)%nat).
Context (Hpad : ∀ hp, pc_header_protection c = Some hp → (12 ≤ ck_padding (check_of c k))%nat).
Abbreviation row := (check_of c k).

Lemma row_mask : mask_of c src = None → pc_header_protection c = None.
Proof.
  unfold mask_of. destruct (pc_header_protection c) as [hp|]; [|done]. cbn.
  specialize (Hpad hp eq_refl). rewrite decide_True by lia. done.
Qed.

Lemma row_apply {E} hp n :
  pc_header_protection c = Some hp →
  HeaderProtection_apply (E := E) hp (take (ck_padding row) src) (take n (drop (ck_padding row) src))
  = Ok (protect (Some hp) (take (ck_padding row) src) (take n (drop (ck_padding row) src))).
Proof.
  intros Hhp. rewrite HeaderProtection_apply_eq; [done|]. specialize (Hpad hp Hhp).
  unfold HEADER_PROTECTION_NONCE_SIZE. rewrite length_take. lia.
Qed.
End row.

(** The device's side. *)
Lemma strip_datagram_row a src dw k :
  let c := PacketClassifier_from_config a in
  PacketClassifier_classify c src = Ok (Some (classified_as (mask_of c src) (check_of c k))) →
  (ck_padding (check_of c k) + ck_size (check_of c k) ≤ length src)%nat →
  (∀ hp, pc_header_protection c = Some hp → (12 ≤ ck_padding (check_of c k))%nat) →
  strip_datagram a src dw = (Ok (stripped c (check_of c k) src), dw).
Proof.
  intros c Hc Hsize Hpad. set (row := check_of c k) in *.
  pose proof (row_exact_size c k) as Hex. fold row in Hex.
  unfold strip_datagram. fold c. rewrite Hc. unfold lift, mbind, ST_bind, map_err. cbn [option_bind fmap option_fmap option_map default from_option id].
  cbn [classified_as padding protected_len msg_size header_mask]. fold row.
  unfold checked_sub. rewrite decide_True by lia. cbn [must_dev]. unfold mret, ST_ret.
  change (Amnezia3Config_header_protection a) with (pc_header_protection c). unfold stripped.
  destruct (ck_exact row) eqn:Eex.
  - destruct (Hex eq_refl) as [H16 H0]. rewrite Nat.min_l by lia. rewrite decide_False by (unfold TRANSPORT_HEADER_SZ; lia).
    rewrite decide_True by lia. pose proof (row_apply c k src Hsize Hpad (E := Error)) as Happ. fold row in Happ.
    destruct (pc_header_protection c) as [hp|] eqn:Ehp.
    + rewrite Happ by done. rewrite decide_True by lia.
      rewrite take_app_exact; [done|]. rewrite length_protect, length_take, length_drop. lia.
    + rewrite decide_True by lia. done.
  - assert (ck_size row = 32%nat) as E32 by (by destruct k). rewrite Nat.min_l by (unfold TRANSPORT_HEADER_SZ; lia).
    rewrite decide_True by done. destruct (mask_of c src) as [m|] eqn:Em; [done|].
    apply (row_mask c k src Hsize Hpad) in Em. rewrite Em. by rewrite decide_True by (unfold TRANSPORT_HEADER_SZ; lia).
Qed.

Lemma strip_datagram_none a src dw :
  PacketClassifier_classify (PacketClassifier_from_config a) src = Ok None →
  strip_datagram a src dw = (Ok src, dw).
Proof.
  intros Hc. unfold strip_datagram. rewrite Hc. unfold lift, mbind, ST_bind, map_err.
  cbn [option_bind fmap option_fmap option_map default from_option id].
  unfold checked_sub. by rewrite decide_True by lia.
Qed.

(** The tunnel's side. *)
Section tunnel.
Context (t : Tunn) (a : Amnezia3Config) (Ha : config_ok a) (Htc : tc t = config_of a).
Abbreviation c := (classifier t).

Lemma classifier_pad k hp : pc_header_protection c = Some hp → (12 ≤ ck_padding (check_of c k))%nat.
Proof.
  unfold classifier. cbn [pc_header_protection PacketClassifier_with_random_trailers PacketClassifier_new].
  rewrite Htc. cbn [header_protection config_of]. unfold Amnezia3Config_header_protection.
  destruct (header_protection_key a) as [key|] eqn:Ek; [|done]. intros _.
  destruct (config_ok_paddings a key Ha Ek) as (?&?&?&?). destruct k; cbn; lia.
Qed.

Lemma tunnel_headers : headers_ok (header_config (tc t)) ∧ HeaderConfig_validate (header_config (tc t)) = Ok ().
Proof. rewrite Htc. by apply config_ok_headers. Qed.

(** A transport message parses to what the tunnel assembles from its header. *)
Lemma parse_stripped_transport src m :
  (ck_padding (transport_check c) + 32 ≤ length src)%nat →
  HeaderRange_contains (hc_transport (header_config (tc t))) (type_at src (Some m) (ck_padding (transport_check c))) = true →
  length m = 16%nat →
  parse_incoming_packet_config (xor_into (drop (ck_padding (transport_check c)) src) m) (header_config (tc t))
  = Ok (PktData (unmask_transport (drop (ck_padding (transport_check c)) src) m)).
Proof.
  set (off := ck_padding _). intros Hl Hty Hm. set (payload := drop off src).
  assert (Hp : (32 ≤ length payload)%nat) by (unfold payload; rewrite length_drop; lia).
  assert (Hhead : take 16 (xor_into payload m) = xor_into (take 16 payload) m).
  { rewrite take_xor_into. apply xor_into_take_mask. rewrite length_take. lia. }
  assert (Hfield : ∀ i j, (i ≤ j ≤ 16)%nat → slice (xor_into payload m) i j = slice (xor_into (take 16 payload) m) i j).
  { intros i j Hij. rewrite <- Hhead. unfold slice. rewrite skipn_firstn_comm, take_take. f_equal. lia. }
  assert (Hrest : slice (xor_into payload m) 16 (length payload) = drop 16 payload).
  { rewrite <- (take_drop 16 payload) at 1. rewrite xor_into_app, length_take, Nat.min_l by lia.
    rewrite (drop_ge m) by lia. rewrite xor_into_nil_r. unfold slice.
    rewrite drop_app_exact by (rewrite length_xor_into, length_take; lia).
    apply take_ge. rewrite length_drop. lia. }
  assert (Hname : from_le (slice (xor_into payload m) 0 4) = type_at src (Some m) off).
  { unfold type_at. f_equal. unfold slice. rewrite drop_0. cbn [Nat.sub].
    replace (off + 4 - off)%nat with 4%nat by lia. fold payload. rewrite take_xor_into. apply xor_into_take_mask.
    rewrite length_take. lia. }
  unfold parse_incoming_packet_config. rewrite length_xor_into, decide_False, Hname by lia.
  pose proof (other_ranges (header_config (tc t)) (type_at src (Some m) off)
    (proj1 tunnel_headers) (proj2 tunnel_headers) HTransport) as Hno.
  pose proof (Hno HInit) as Hi. pose proof (Hno HResponse) as Hr. pose proof (Hno HCookie) as Hk. cbn [header_of] in *.
  rewrite Hi, Hr, Hk by done. cbn [andb].
  rewrite Hty, bool_decide_eq_true_2 by (unfold DATA_OVERHEAD_SZ; lia). cbn [andb]. do 2 f_equal.
  unfold unmask_transport, TRANSPORT_HEADER_SZ. rewrite !Hfield, Hrest by lia. done.
Qed.

Lemma verify_data env addr m p w :
  parse_incoming_packet_config m (header_config (tc (tunn w))) = Ok (PktData p) →
  verify env addr m w = (Ok (Ok (PktData p)), w).
Proof. intros E. unfold verify, verify_packet. rewrite E. by destruct w as [[] g]. Qed.
End tunnel.

Lemma decapsulate_row env addr a src dst_len w k :
  let c := classifier (tunn w) in
  config_ok a → tc (tunn w) = config_of a → src ≠ [] →
  PacketClassifier_classify c src = Ok (Some (classified_as (mask_of c src) (check_of c k))) →
  (ck_padding (check_of c k) + ck_size (check_of c k) ≤ length src)%nat →
  check_matches (pc_random_trailers c) (mask_of c src) src (check_of c k) = true →
  decapsulate env addr src dst_len w =
  (v ← verify env addr (stripped c (check_of c k) src); handle_verdict env (tunn w) v dst_len) w.
Proof.
  intros c Ha Htc Hne Hc Hsize Hm. set (row := check_of c k) in *.
  pose proof (classifier_pad _ a Ha Htc k) as Hpad. fold c row in Hpad.
  pose proof (row_exact_size c k) as Hex. fold row in Hex.
  unfold decapsulate. rewrite decide_False by done. unfold mbind at 1, ST_bind at 1, get, gets.
  fold c. rewrite Hc. unfold lift, mbind at 1, ST_bind at 1.
  cbn [mbind option_bind fmap option_fmap option_map default from_option id classified_as padding protected_len msg_size header_mask].
  fold row. unfold stripped.
  destruct (ck_exact row) eqn:Eex.
  - destruct (Hex eq_refl) as [H16 H0]. rewrite decide_False by (unfold TRANSPORT_HEADER_SZ; lia).
    rewrite decide_True by (rewrite length_drop; lia).
    unfold strip_protection. change (header_protection (tc (tunn w))) with (pc_header_protection c).
    pose proof (row_apply c k src Hsize Hpad (E := WireGuardError)) as Happ. fold row in Happ.
    destruct (pc_header_protection c) as [hp|] eqn:Ehp; [|done].
    rewrite decide_True by lia. rewrite (Nat.min_l (ck_size row)) by (rewrite length_take, length_drop; lia).
    rewrite take_take, Nat.min_id, Happ by done. done.
  - assert (k = HTransport) as -> by (by destruct k). rewrite decide_True by done.
    destruct (mask_of c src) as [m|] eqn:Em.
    + unfold mbind, ST_bind. rewrite verify_data with (p := unmask_transport (drop (ck_padding row) src) m); [done|].
      apply (parse_stripped_transport _ a Ha Htc); [exact Hsize|by apply check_matches_range in Hm|].
      revert Em. unfold mask_of. destruct (pc_header_protection c); [cbn|done]. case_decide; [|done].
      intros [= <-]. apply length_chacha_keystream.
    + unfold strip_protection. change (header_protection (tc (tunn w))) with (pc_header_protection c).
      by rewrite (row_mask c HTransport src Hsize Hpad Em).
Qed.

(** C24: The anonymous UDP handler and [Tunn::decapsulate] read a datagram the same
    way.  For every valid AmneziaWG configuration (paddings, header ranges, header
    protection, random trailers) and every non-empty datagram, the handler's
    stripping succeeds without a panic, and handing the original datagram to
    [decapsulate] of a tunnel with that configuration is exactly verifying and
    handling what the handler stripped: a peer's packets are treated alike
    whether or not its socket is connected. *)
Theorem device_strips_as_tunnel env addr a src dst_len w dw :
  config_ok a → tc (tunn w) = config_of a → src ≠ [] →
  ∃ message, strip_datagram a src dw = (Ok message, dw) ∧
    decapsulate env addr src dst_len w =
    (v ← verify env addr message; handle_verdict env (tunn w) v dst_len) w.
Proof.
  intros Ha Htc Hne.
  assert (Ec : classifier (tunn w) = PacketClassifier_from_config a) by (unfold classifier; by rewrite Htc).
  destruct (PacketClassifier_classify (classifier (tunn w)) src) as [[cl|]|e|] eqn:Hc;
    [..|by rewrite classify_eq in Hc|by rewrite classify_eq in Hc].
  - pose proof Hc as (k & -> & Hsize & Hm)%classify_inv. eexists.
    split; [|by apply (decapsulate_row _ _ a)]. rewrite Ec in *.
    apply strip_datagram_row; [done|done|]. intros hp Hhp. rewrite <- Ec. apply (classifier_pad _ a Ha Htc k hp). by rewrite Ec.
  - exists src. split; [apply strip_datagram_none; by rewrite <- Ec|].
    unfold decapsulate. rewrite decide_False by done. unfold mbind at 1, ST_bind at 1, get, gets.
    rewrite Hc. unfold lift. cbn [option_bind fmap option_fmap option_map default from_option id mbind].
    unfold strip_protection. unfold mbind at 1, ST_bind at 1. cbn.
    by destruct (header_protection (tc (tunn w))).
Qed.
End strip.

(** ** A concrete datagram *)
Section sample.
#[local] Existing Instances sum_stream Rfc4648.engine ToyNoise.crypto ToyAead.cipher PrefixMap.trie.

(** The configuration of [Config]'s sample block pads, masks and appends trailers. *)
Lemma device_strips_as_tunnel_witness :
  ∃ t g message, sample_new sample_config = Ok (t, g) ∧
    strip_datagram sample_config sample_init_datagram
      (mkDWorld (Device_new false 1420 (mkIndexLfsr 1 1 7) []) counting_bytes)
    = (Ok message, mkDWorld (Device_new false 1420 (mkIndexLfsr 1 1 7) []) counting_bytes) ∧
    decapsulate sample_env None sample_init_datagram 400 (mkWorld t g) =
    (v ← verify sample_env None message; handle_verdict sample_env t v 400) (mkWorld t g).
Proof.
  destruct sample_new_ok as (t & g & E).
  destruct (device_strips_as_tunnel sample_env None sample_config sample_init_datagram 400 (mkWorld t g)
    (mkDWorld (Device_new false 1420 (mkIndexLfsr 1 1 7) []) counting_bytes)) as (m & Hm & Hd).
  - exact (proj1 usable_sample).
  - unfold sample_new, new_with_amnezia3 in E. apply bind_ok in E as ([] & _ & E).
    destruct (Timers_new _ _ _ _ _) as [tm g1]. by apply Ok_inj, pair_equal_spec in E as [<- _].
  - discriminate.
  - exists t, g, m. exact (conj E (conj Hm Hd)).
Defined.
End sample.
