(* ===== verification/DeviceRoute.v ===== *)
(** * DeviceRoute: cryptokey routing

    What WireGuard promises of an interface: a packet that appears on it was
    decrypted by a session of a registered peer and carries a source address that
    peer may use, and a packet read from it leaves only for the peer its
    destination is routed to.  Both are shown of the handlers of [DeviceData], for
    every batch of datagrams and packets.  The handlers change no route while they
    run, so the allowed IPs checked are the configured ones. *)

From Stdlib Require Import ZArith Lia.
From stdpp Require Import base list option strings sets tactics countable gmap fin_maps.
From S2P Require Import Prelude Clock Random Codec Keys Lfsr Amnezia Cps Config Packet Ip AllowedIps.
From S2P Require Import Session Handshake RateLimiter Timers Tunnel EventPoll Device DeviceData.
Open Scope Z_scope.

Section routing.
Context `{CC : ChaCha20} `{B64 : Base64} `{NC : NoiseCrypto} `{AE : Aead} `{RS : RandomSource R}.
Context `{TB : IpNetworkTable}.
Implicit Types w : DWorld (R := R).

(** ** Traffic changes no route *)

(** The maps of a device and what its peers may send, with the rest of its
    configuration. *)
Definition routes (d : Device) :=
  (d_peers d, d_peers_by_idx d, d_peers_by_ip d, (λ p, (p_index p, p_allowed_ips p)) <$> d_heap d,
   (d_key_pair d, d_amnezia d, d_udp4 d, d_udp6 d, d_mtu d, d_use_connected_socket d, d_rate_limiter d, d_next_index d)).

Definition rkeeps {A} (m : D (R := R) A) : Prop := ∀ w, routes (dev (m w).2) = routes (dev w).

Lemma rkeeps_bind {A B} (m : D A) (f : A → D B) : rkeeps m → (∀ a, rkeeps (f a)) → rkeeps (m ≫= f).
Proof.
  intros Hm Hf w. specialize (Hm w). unfold mbind, ST_bind.
  destruct (m w) as [[a|e|] w1]; [|done..]. by rewrite (Hf a w1).
Qed.
Lemma rkeeps_same {A} (m : D A) : (∀ w, dev (m w).2 = dev w) → rkeeps m.
Proof. intros Hm w. by rewrite Hm. Qed.
Lemma rkeeps_attempt {A} (m : D A) : rkeeps m → rkeeps (attempt m).
Proof. intros Hm w. specialize (Hm w). unfold attempt. by destruct (m w) as [[] w1]. Qed.

Lemma routes_store d id p p' :
  d_heap d !! id = Some p → p_index p' = p_index p → p_allowed_ips p' = p_allowed_ips p →
  routes (d_set_heap (<[id := p']> (d_heap d)) d) = routes d.
Proof.
  intros Hp Hi Ha. unfold routes. cbn. do 2 f_equal. rewrite fmap_insert, Hi, Ha.
  apply insert_id. by rewrite lookup_fmap, Hp.
Qed.

Lemma on_tunnel_routes {A} id (m : T (R := R) A) : rkeeps (on_tunnel id m).
Proof.
  intros w. unfold on_tunnel. destruct (d_heap (dev w) !! id) as [p|] eqn:Hp; [|done].
  destruct (m _) as [r tw].
  assert (E : routes (save_tunnel id p (tunn tw) (dev w)) = routes (dev w)).
  { unfold save_tunnel. destruct (p_limiter p); by apply (routes_store (dev w) id p). }
  by destruct r.
Qed.

Lemma lock_routes id : rkeeps (lock_peer id).
Proof. apply rkeeps_same. intros w. unfold lock_peer, mbind, ST_bind, get_dev, gets. by destruct (_ !! id). Qed.
End routing.

Ltac rkeep :=
  repeat match goal with
  | |- rkeeps (mbind _ _) => apply rkeeps_bind
  | |- rkeeps (lock_peer _) => apply lock_routes
  | |- rkeeps (on_tunnel _ _) => apply on_tunnel_routes
  | |- rkeeps (tunnel_call _ _) => unfold tunnel_call
  | |- rkeeps (tunnel_do _ _) => unfold tunnel_do
  | |- rkeeps (attempt _) => apply rkeeps_attempt
  | |- rkeeps (mret _) => by apply rkeeps_same
  | |- rkeeps get_dev => by apply rkeeps_same
  | |- rkeeps (lift _) => by apply rkeeps_same
  | |- rkeeps (throw _) => by apply rkeeps_same
  | |- rkeeps panic => by apply rkeeps_same
  | |- rkeeps (must_dev ?o) => destruct o; by apply rkeeps_same
  | |- rkeeps (assert_dev ?b) => destruct b; by apply rkeeps_same
  | |- rkeeps (if ?b then _ else _) => destruct b
  | |- rkeeps (match ?x with _ => _ end) => destruct x
  | |- forall _, rkeeps _ => intro
  end.

Section handlers.
Context `{CC : ChaCha20} `{B64 : Base64} `{NC : NoiseCrypto} `{AE : Aead} `{RS : RandomSource R}.
Context `{TB : IpNetworkTable}.
Implicit Types w : DWorld (R := R).

Lemma register_routes h fd hd : rkeeps (R := R) (register h fd hd).
Proof.
  intros w. unfold register, mbind, ST_bind, get_dev, gets.
  destruct (new_event _ _ _ _) as [[r q] c]. by destruct r.
Qed.

(** The updates of a locked peer. *)
Lemma rkeeps_locked {A} id (f : Peer → D (R := R) A) :
  (∀ w p, d_heap (dev w) !! id = Some p → routes (dev (f p w).2) = routes (dev w)) →
  rkeeps (p ← lock_peer id; f p).
Proof.
  intros Hf w. unfold lock_peer, mbind, ST_bind, get_dev, gets.
  destruct (d_heap (dev w) !! id) as [p|] eqn:Hp; [|done]. by apply Hf.
Qed.

Lemma shutdown_routes h id : rkeeps (R := R) (shutdown_endpoint h id).
Proof.
  apply rkeeps_locked. intros w p Hp. destruct (ep_conn (p_endpoint p)) as [conn|]; [|done].
  unfold mbind, ST_bind, store_peer, upd_dev, modify, assert_dev.
  destruct (h_shutdown h conn); by apply (routes_store (dev w) id p).
Qed.

(** After the routes were kept, the peer still has its own. *)
Lemma routes_heap d d' id p :
  routes d' = routes d → d_heap d !! id = Some p →
  ∃ p', d_heap d' !! id = Some p' ∧ p_index p' = p_index p ∧ p_allowed_ips p' = p_allowed_ips p.
Proof.
  intros [= _ _ _ Hh _ _ _ _ _ _ _ _] Hp. apply (f_equal (.!! id)) in Hh. rewrite !lookup_fmap, Hp in Hh.
  destruct (d_heap d' !! id) as [p'|]; [|done]. injection Hh as Hi Ha. by exists p'.
Qed.

Lemma set_endpoint_routes h id addr : rkeeps (R := R) (set_endpoint h id addr).
Proof.
  apply rkeeps_locked. intros w p Hp. case_decide; [done|]. pose proof (shutdown_routes h id w) as Hs.
  unfold mbind, ST_bind. destruct (shutdown_endpoint h id w) as [[[]|e|] w1]; [|done..].
  cbn in *. destruct (routes_heap _ _ id p Hs Hp) as (p1 & Hp1 & Hi & Ha).
  rewrite <- Hs. by apply (routes_store (dev w1) id p1).
Qed.

Lemma connect_endpoint_routes h id port mark : rkeeps (R := R) (connect_endpoint h id port mark).
Proof.
  apply rkeeps_locked. intros w p Hp. destruct (ep_conn (p_endpoint p)); [done|].
  unfold mbind, ST_bind, must_dev, lift. destruct (ep_addr (p_endpoint p)) as [addr|]; [|done]. cbn.
  destruct (h_connect h addr port mark) as [sock|e|]; [|done..]. destruct (h_clone h sock); [|done].
  by apply (routes_store (dev w) id p).
Qed.

Lemma adopt_routes h d id addr : rkeeps (R := R) (adopt_endpoint h d id addr).
Proof.
  unfold adopt_endpoint, register_conn_handler.
  rkeep; [apply set_endpoint_routes|apply connect_endpoint_routes|apply register_routes].
Qed.

Lemma send_and_flush_routes env id send r : rkeeps (R := R) (send_and_flush env id send r).
Proof. unfold send_and_flush. rkeep. Qed.
Lemma strip_routes a src : rkeeps (R := R) (strip_datagram a src).
Proof. unfold strip_datagram. rkeep. Qed.
Lemma verify_routes env a l addr m : rkeeps (R := R) (verify_datagram env a l addr m).
Proof.
  intros w. unfold verify_datagram. destruct (d_limiters (dev w) !! l); [|done].
  by destruct (verify_packet _ _ _ _ _ _ _ _) as [[v rl] g].
Qed.
Lemma frame_cookie_routes a c : rkeeps (R := R) (frame_cookie a c).
Proof.
  unfold frame_cookie. rkeep; intros w; unfold draw; case_decide; try done; by destruct (fill_bytes _ _).
Qed.

Lemma udp_verified_routes h d sk pk udp addr packet : rkeeps (R := R) (udp_verified h d sk pk udp addr packet).
Proof.
  unfold udp_verified. rkeep; try apply send_and_flush_routes; try apply adopt_routes.
Qed.
Lemma udp_packet_routes h sk pk l udp src addr : rkeeps (R := R) (udp_packet h sk pk l udp src addr).
Proof.
  unfold udp_packet. rkeep;
    [apply strip_routes|apply verify_routes|apply udp_verified_routes|apply frame_cookie_routes].
Qed.
Lemma conn_packet_routes h id udp addr src : rkeeps (R := R) (conn_packet h id udp addr src).
Proof. unfold conn_packet. rkeep; apply send_and_flush_routes. Qed.
Lemma iface_packet_routes h u4 u6 src : rkeeps (R := R) (iface_packet h u4 u6 src).
Proof. unfold iface_packet, call_and_drain. rkeep. Qed.

Lemma udp_handler_routes h udp rx : rkeeps (R := R) (udp_handler h udp rx).
Proof.
  unfold udp_handler. rkeep. generalize O, MAX_ITR.
  induction rx as [|[src addr] rx IH]; intros i iter; cbn [udp_loop]; cbn zeta;
    rkeep; try apply udp_packet_routes; apply IH.
Qed.
Lemma conn_handler_routes h id udp addr rx : rkeeps (R := R) (conn_handler h id udp addr rx).
Proof.
  unfold conn_handler. rkeep. generalize O, MAX_ITR.
  induction rx as [|src rx IH]; intros i iter; cbn [conn_loop]; rkeep; try apply conn_packet_routes; apply IH.
Qed.
Lemma iface_handler_routes h rx : rkeeps (R := R) (iface_handler h rx).
Proof.
  unfold iface_handler. rkeep. generalize O, MAX_ITR.
  induction rx as [|[src| |] rx IH]; intros i [|n]; cbn [iface_loop]; rkeep; try apply iface_packet_routes; apply IH.
Qed.
End handlers.

(** ** What a tunnel hands to the interface *)
Section inbound.
Context `{CC : ChaCha20} `{B64 : Base64} `{NC : NoiseCrypto} `{AE : Aead} `{RS : RandomSource R}.

(** Every value a method can return satisfies [P]. *)
Definition yields {S E A} (m : ST S E A) (P : A → Prop) : Prop := ∀ s a s', m s = (Ok a, s') → P a.

Lemma yields_bind {S E A B} (m : ST S E A) (f : A → ST S E B) P : (∀ a, yields (f a) P) → yields (m ≫= f) P.
Proof.
  intros Hf s b s' H. unfold mbind, ST_bind in H. destruct (m s) as [[a|e|] s1]; [|done..]. by eapply Hf.
Qed.
Lemma yields_ret {S E A} (a : A) (P : A → Prop) : P a → yields (mret a : ST S E A) P.
Proof. by intros Ha s b s' [= <- _]. Qed.

(** The source address in the header of an inner packet. *)
Definition source_of (packet : bytes) : option IpAddr :=
  if (ip_version packet =? 4) && bool_decide (20 ≤ length packet)%nat then Some (V4 (slice packet 12 16))
  else if (ip_version packet =? 6) && bool_decide (40 ≤ length packet)%nat then Some (V6 (slice packet 8 24))
  else None.

(** What a result writes to the interface. *)
Definition tunnel_write (r : TunnResult) : option (bytes * IpAddr) :=
  match r with
  | WriteToTunnelV4 p a => Some (p, V4 a)
  | WriteToTunnelV6 p a => Some (p, V6 a)
  | _ => None
  end.

(** A session of the tunnel opens [pd] to [plain]: the ciphertext is authentic under
    its key, with the nonce of the counter, and its window takes the counter. *)
Definition opens (t : Tunn) (pd : PacketData) (plain : bytes) : Prop :=
  ∃ s v, session_at t (pd_receiver_idx pd) = Some s ∧ receiving_index s = pd_receiver_idx pd
    ∧ aead_open (receiver s) (counter_nonce (pd_counter pd)) [] (pd_payload pd) = Some plain
    ∧ mark_did_receive (receiving_key_counter s) (pd_counter pd) = Ok v.

Lemma receive_opens s pd n plain s' :
  receive_packet_data s pd n = Ok (plain, s') →
  receiving_index s = pd_receiver_idx pd
  ∧ aead_open (receiver s) (counter_nonce (pd_counter pd)) [] (pd_payload pd) = Some plain
  ∧ ∃ v, mark_did_receive (receiving_key_counter s) (pd_counter pd) = Ok v.
Proof.
  unfold receive_packet_data. destruct (decide _); [done|]. destruct (Z.eqb_spec (pd_receiver_idx pd) (receiving_index s)); [|done].
  destruct (receiving_counter_quick_check _ _); [|done..]. cbn.
  destruct (aead_open _ _ _ _) as [x|]; [|done]. cbn. unfold receiving_counter_mark.
  destruct (mark_did_receive _ _) as [v| |]; [|done..]. intros [<- _]%Ok_inj%pair_equal_spec. split_and!; [done|done|by exists v].
Qed.

(** The transport message a datagram holds, as [decapsulate] finds it. *)
Definition carries (t : Tunn) (datagram : bytes) (pd : PacketData) : Prop :=
  ∃ classified, PacketClassifier_classify (classifier t) datagram = Ok classified ∧
    let padding := default O (padding <$> classified) in
    let protected_len := default O (protected_len <$> classified) in
    let payload := drop padding datagram in
    let payload :=
      match classified ≫= msg_size with
      | Some size => if decide (size ≤ length payload)%nat then take size payload else payload
      | None => payload
      end in
    match (if decide (protected_len = TRANSPORT_HEADER_SZ) then classified ≫= header_mask else None) with
    | Some mask => pd = unmask_transport payload mask
    | None => ∃ (w : World (R := R)) stripped, strip_protection t padding protected_len datagram payload w = (Ok stripped, w)
        ∧ parse_incoming_packet_config stripped (header_config (tc t)) = Ok (PktData pd)
    end.

Lemma yields_lift {S E A} (r : result E A) (P : A → Prop) : (∀ a, r = Ok a → P a) → yields (lift r : ST S E A) P.
Proof. intros Hr s a s' [= Ea _]. by apply Hr. Qed.
Lemma yields_panic {S E A} (P : A → Prop) : yields (panic : ST S E A) P.
Proof. by intros s a s'. Qed.
Lemma yields_throw {S E A} e (P : A → Prop) : yields (throw e : ST S E A) P.
Proof. by intros s a s'. Qed.

Ltac yield_step :=
  match goal with
  | |- yields (mbind _ _) _ => apply yields_bind; intros ?
  | |- yields (mret _) _ => apply yields_ret; cbn
  | |- yields panic _ => apply yields_panic
  | |- yields (throw _) _ => apply yields_throw
  | |- yields (if ?b then _ else _) _ => destruct b
  | |- yields (match ?x with _ => _ end) _ => destruct x
  end.

Abbreviation quiet m := (yields (S := World (R := R)) (E := WireGuardError) m (λ r, tunnel_write r = None)).

Lemma initiation_quiet env n force : quiet (Tunn_format_handshake_initiation env n force).
Proof. unfold Tunn_format_handshake_initiation. by repeat yield_step. Qed.
Lemma encapsulate_quiet env src n : quiet (encapsulate env src n).
Proof. unfold encapsulate. repeat yield_step; try done. apply initiation_quiet. Qed.
Lemma send_queued_quiet env n : quiet (send_queued_packet env n).
Proof.
  intros w r w' H. unfold send_queued_packet, mbind, ST_bind, attempt in H.
  destruct (dequeue_packet w) as [[[x|]|e|] w1]; [..|done|done]; [|by injection H as <- _].
  pose proof (encapsulate_quiet env x n w1) as Hq.
  destruct (encapsulate env x n w1) as [[r1|e|] w2]; [|done..]. specialize (Hq r1 w2 eq_refl).
  destruct r1; try (by injection H as <- _); done.
Qed.
Lemma handle_init_quiet env p n : quiet (handle_handshake_init env p n).
Proof. unfold handle_handshake_init. by repeat yield_step. Qed.
Lemma handle_response_quiet env p n : quiet (handle_handshake_response env p n).
Proof. unfold handle_handshake_response. by repeat yield_step. Qed.
Lemma handle_cookie_quiet p : quiet (handle_cookie_reply p).
Proof. unfold handle_cookie_reply. by repeat yield_step. Qed.

(** The inner packet, and its source, come from the plaintext. *)
Lemma validate_writes plain :
  yields (S := World (R := R)) (validate_decapsulated_packet plain)
    (λ r, ∀ p ip, tunnel_write r = Some (p, ip) → p `prefix_of` plain ∧ source_of plain = Some ip).
Proof.
  unfold validate_decapsulated_packet, finish_validate, source_of, IPV4_MIN_HEADER_SIZE, IPV6_MIN_HEADER_SIZE,
    IPV4_SRC_IP_OFF, IPV4_IP_SZ, IPV6_SRC_IP_OFF, IPV6_IP_SZ.
  repeat yield_step; try done; intros p ip [= <- <-]; (split; [apply prefix_take|done]).
Qed.

Lemma handle_data_writes pd n (w w' : World (R := R)) r p ip :
  handle_data pd n w = (Ok r, w') → tunnel_write r = Some (p, ip) →
  ∃ plain, opens (tunn w) pd plain ∧ p `prefix_of` plain ∧ source_of plain = Some ip.
Proof.
  unfold handle_data, mbind, ST_bind, get, gets, observe_datagram, upd_tunn, modify, lift, ok_or. cbn [tunn].
  match goal with |- context [session_at (set_window ?a ?b) ?i] =>
    change (session_at (set_window a b) i) with (session_at b i) end.
  destruct (session_at (tunn w) (pd_receiver_idx pd)) as [s|] eqn:Hs; [|done].
  destruct (receive_packet_data s pd n) as [[plain s']|e|] eqn:Hr; [|done..].
  unfold set_current_session, timer_tick, upd_tunn, modify. intros H Hw.
  exists plain. destruct (receive_opens _ _ _ _ _ Hr) as (Hi & Ha & v & Hv).
  split; [by exists s, v|]. by eapply (validate_writes plain); [exact H|].
Qed.

Lemma handle_verified_writes env packet n (w w' : World (R := R)) r p ip :
  handle_verified_packet env packet n w = (Ok r, w') → tunnel_write r = Some (p, ip) →
  ∃ pd plain, packet = PktData pd ∧ opens (tunn w) pd plain ∧ p `prefix_of` plain ∧ source_of plain = Some ip.
Proof.
  unfold handle_verified_packet, attempt, mbind, ST_bind.
  destruct packet as [q|q|q|pd]; intros H Hw;
    try (match type of H with context [match ?m w with _ => _ end] =>
           destruct (m w) as [[r1|e|] w1] eqn:E end; [|by injection H as <- _|done]; injection H as <- _).
  - apply handle_init_quiet in E. congruence.
  - apply handle_response_quiet in E. congruence.
  - apply handle_cookie_quiet in E. congruence.
  - destruct (handle_data_writes _ _ _ _ _ _ _ E Hw) as (plain & H). by exists pd, plain.
Qed.

Lemma verify_parses `{RandomSource R'} (rl : RateLimiter) addr m n hc disable now (g : R') q rl' g' :
  verify_packet rl addr m n hc disable now g = (Ok q, rl', g') → parse_incoming_packet_config m hc = Ok q.
Proof.
  unfold verify_packet. destruct (parse_incoming_packet_config m hc) as [packet|e|]; [|done..].
  intros H'. enough (packet = q) as -> by done. revert H'. repeat case_match; congruence.
Qed.

Lemma strip_protection_keeps t padding protected_len datagram payload (w w' : World (R := R)) r :
  strip_protection t padding protected_len datagram payload w = (r, w') → w' = w.
Proof.
  unfold strip_protection. destruct (header_protection _); [destruct (decide (0 < protected_len)%nat)|];
    by intros [_ <-]%pair_equal_spec.
Qed.

Lemma decapsulate_writes env addr datagram n (w w' : World (R := R)) r p ip :
  decapsulate env addr datagram n w = (Ok r, w') → tunnel_write r = Some (p, ip) →
  ∃ pd plain, carries (tunn w) datagram pd ∧ opens (tunn w) pd plain ∧ p `prefix_of` plain ∧ source_of plain = Some ip.
Proof.
  unfold decapsulate. case_decide. { intros Hq%send_queued_quiet ?. congruence. }
  unfold mbind at 1, ST_bind at 1, get, gets. unfold mbind at 1, ST_bind at 1, lift.
  destruct (PacketClassifier_classify _ datagram) as [cl|e|] eqn:Ec; [|done..].
  match goal with |- match ?m with Some _ => _ | None => _ end w = _ → _ => destruct m as [mask|] eqn:Em end.
  { intros Hr Hw. destruct (handle_verified_writes _ _ _ _ _ _ _ _ Hr Hw) as (pd & plain & [= <-] & ?).
    eexists _, plain. split; [|done]. exists cl. split; [done|].
    cbv zeta. match goal with |- match ?m with _ => _ end => by rewrite (Em : m = Some mask) end. }
  unfold mbind at 1, ST_bind at 1.
  match goal with |- match ?m with _ => _ end = _ → _ => destruct m as [[b|e|] w1] eqn:Es end; [|done..].
  pose proof (strip_protection_keeps _ _ _ _ _ _ _ _ Es) as ->.
  unfold mbind, ST_bind, verify. destruct (verify_packet _ _ _ _ _ _ _ _) as [[v rl] g] eqn:Ev.
  destruct v as [q|[]|]; cbn; try done.
  - intros Hr Hw. destruct (handle_verified_writes _ _ _ _ _ _ _ _ Hr Hw) as (pd & plain & -> & ?). exists pd, plain.
    split; [|done]. exists cl. split; [done|]. cbv zeta.
    match goal with |- match ?m with _ => _ end => rewrite (Em : m = None) end.
    exists w, b. split; [exact Es|]. by eapply verify_parses.
  - by intros [= <- _].
  - destruct (decide (n < _)%nat); unfold mbind, ST_bind; [by intros [[= <-] _]%pair_equal_spec|].
    destruct (frame_message _ _ _ _) as [[d|e|] w2]; [|done..]. by intros [[= <-] _]%pair_equal_spec.
Qed.
End inbound.

(** ** Packets from the network *)
Section admission.
Context `{CC : ChaCha20} `{B64 : Base64} `{NC : NoiseCrypto} `{AE : Aead} `{RS : RandomSource R}.
Context `{TB : IpNetworkTable}.
Implicit Types w : DWorld (R := R).

(** What is written to the interface for peer [id] on account of the message [pd]: the
    inner packet that a session of that peer, as it is in [d], opens [pd] to, if its
    source is one of the peer's allowed IPs. *)
Definition write_of (ip : IpAddr) (packet : bytes) : Output :=
  match ip with V4 _ => Write4 packet | V6 _ => Write6 packet end.
Definition admitted (d : Device) (id : nat) (pd : PacketData) (o : Output) : Prop :=
  ∃ peer plain ip x, d_heap d !! id = Some peer ∧ opens (p_tunnel peer) pd plain
    ∧ x `prefix_of` plain ∧ source_of plain = Some ip ∧ is_allowed_ip peer ip = true ∧ o = write_of ip x.
Definition is_write (o : Output) : bool := match o with Write4 _ | Write6 _ => true | _ => false end.

Lemma tunnel_call_writes id m w r w' x :
  tunnel_call id m w = (Ok r, w') → tunnel_write r = Some x →
  ∃ p tw, d_heap (dev w) !! id = Some p ∧ m (mkWorld (load_tunnel (dev w) p) (drng w)) = (Ok r, tw).
Proof.
  unfold tunnel_call, on_tunnel, mbind, ST_bind. destruct (d_heap (dev w) !! id) as [p|]; [|done].
  destruct (m _) as [[r1|e|] tw] eqn:E; intros H Hx; [|by injection H as <- _|done].
  injection H as <- _. by exists p, tw.
Qed.

Lemma opens_load d p pd plain : opens (load_tunnel d p) pd plain → opens (p_tunnel p) pd plain.
Proof. unfold load_tunnel. by destruct (p_limiter p ≫= _). Qed.
Lemma carries_load d p datagram pd : carries (R := R) (load_tunnel d p) datagram pd → carries (R := R) (p_tunnel p) datagram pd.
Proof. unfold load_tunnel. by destruct (p_limiter p ≫= _). Qed.

Lemma is_allowed_same p p' ip : p_allowed_ips p' = p_allowed_ips p → is_allowed_ip p' ip = is_allowed_ip p ip.
Proof. unfold is_allowed_ip. by intros ->. Qed.

(** A delivery of [p'] is admitted when its tunnel, at [d], produced it. *)
Lemma deliver_admitted d (P : PacketData → Prop) id p p' result o :
  d_heap d !! id = Some p → p_allowed_ips p' = p_allowed_ips p →
  (∀ x ip, tunnel_write result = Some (x, ip) →
     ∃ pd plain, P pd ∧ opens (p_tunnel p) pd plain ∧ x `prefix_of` plain ∧ source_of plain = Some ip) →
  o ∈ deliver p' result → ∃ pd, P pd ∧ admitted d id pd o.
Proof.
  intros Hp Ha Hw Ho.
  assert (∃ x ip, tunnel_write result = Some (x, ip) ∧ is_allowed_ip p' ip = true ∧ o = write_of ip x)
    as (x & ip & Hx & Hip & Hox).
  { unfold deliver in Ho. destruct result; try (by apply not_elem_of_nil in Ho);
      (destruct (is_allowed_ip p' _) eqn:Hi; [|by apply not_elem_of_nil in Ho]);
      apply list_elem_of_singleton in Ho as ->; eexists _, _; (split; [reflexivity|]); by split. }
  destruct (Hw x ip Hx) as (pd & plain & HP & Hop & Hpre & Hsrc).
  rewrite (is_allowed_same p) in Hip by done. exists pd. split; [done|]. by exists p, plain, ip, x.
Qed.

Lemma send_and_flush_quiet env id send result w out w' o :
  (∀ b, is_write (send b) = false) → send_and_flush env id send result w = (Ok out, w') → o ∈ out → is_write o = false.
Proof.
  intros Hs H Ho. unfold send_and_flush in H. destruct result; try (injection H as <- _; by apply not_elem_of_nil in Ho).
  unfold mbind, ST_bind in H. destruct (tunnel_do id _ w) as [[l|e|] w1]; [|done..]. injection H as <- _.
  apply elem_of_cons in Ho as [->|Ho]; [done|]. by apply list_elem_of_fmap in Ho as (b & -> & _).
Qed.

Lemma lock_peer_ok id w p w' : lock_peer id w = (Ok p, w') → w' = w ∧ d_heap (dev w) !! id = Some p.
Proof.
  unfold lock_peer, mbind, ST_bind, get_dev, gets. destruct (d_heap (dev w) !! id); [|done].
  by intros [= -> ->].
Qed.

(** The datagram [src] in the state [w], for the handler of a connected socket and for
    the anonymous one: the message it holds, the peer, and what is written. *)
Definition conn_admits (id : nat) (src : bytes) w (o : Output) : Prop :=
  ∃ peer pd, d_heap (dev w) !! id = Some peer ∧ carries (R := R) (p_tunnel peer) src pd ∧ admitted (dev w) id pd o.
Definition udp_admits (src : bytes) w (o : Output) : Prop :=
  ∃ message w1 pd id, strip_datagram (d_amnezia (dev w)) src w = (Ok message, w1)
    ∧ parse_incoming_packet_config message (headers (d_amnezia (dev w))) = Ok (PktData pd)
    ∧ d_peers_by_idx (dev w) !! Z.shiftr (pd_receiver_idx pd) 8 = Some id ∧ admitted (dev w) id pd o.

Lemma conn_packet_admitted h id udp addr src w out w' o :
  conn_packet h id udp addr src w = (Ok out, w') → o ∈ out → is_write o = true → conn_admits id src w o.
Proof.
  intros H Ho Hwr. unfold conn_packet in H. unfold mbind at 1, ST_bind at 1 in H.
  destruct (tunnel_call id _ w) as [[result|e|] w1] eqn:Ec; [|done..].
  assert (Hr1 : routes (dev w1) = routes (dev w)).
  { assert (Hk : rkeeps (tunnel_call id (decapsulate (R := R) (h_env h 0) (Some addr) src MAX_UDP_SIZE))) by rkeep.
    specialize (Hk w). by rewrite Ec in Hk. }
  unfold mbind at 1, ST_bind at 1 in H. destruct (lock_peer id w1) as [[p1|e|] w2] eqn:El; [|done..].
  apply lock_peer_ok in El as [-> Hp1].
  unfold mbind, ST_bind in H. destruct (send_and_flush _ _ _ _ w1) as [[sent|e|] w2] eqn:Ef; [|done..].
  injection H as <- _. apply elem_of_app in Ho as [Ho|Ho].
  { eapply send_and_flush_quiet in Ef; [by rewrite Ef in Hwr|done|exact Ho]. }
  destruct (routes_heap (dev w1) (dev w) id p1 (eq_sym Hr1) Hp1) as (p & Hp & _ & Ha).
  destruct (deliver_admitted (dev w) (carries (R := R) (p_tunnel p) src) id p p1 result o Hp) as (pd & Hc & Hadm);
    [by symmetry| |exact Ho|by exists p, pd].
  intros x ip Hx. destruct (tunnel_call_writes _ _ _ _ _ _ Ec Hx) as (p' & tw & Hp' & Hd).
  rewrite Hp in Hp'. injection Hp' as <-.
  destruct (decapsulate_writes _ _ _ _ _ _ _ _ _ Hd Hx) as (pd & plain & Hc & Hop & ?).
  exists pd, plain. split; [by eapply carries_load|]. split; [by eapply opens_load|done].
Qed.

(** What a loop writes it writes for one of its datagrams, in the state that the
    datagrams before have left. *)
Lemma conn_loop_admitted h id udp addr i iter rx w out w' o :
  conn_loop h id udp addr i iter rx w = (Ok out, w') → o ∈ out → is_write o = true →
  ∃ k src sent wk, rx !! k = Some src ∧ conn_loop h id udp addr i iter (take k rx) w = (Ok sent, wk) ∧ conn_admits id src wk o.
Proof.
  revert i iter w out w'. induction rx as [|src rx IH]; intros i iter w out w' H Ho Hwr; cbn [conn_loop] in H.
  { injection H as <- _. by apply not_elem_of_nil in Ho. }
  unfold mbind at 1, ST_bind at 1 in H. destruct (conn_packet _ _ _ _ _ w) as [[out1|e|] w1] eqn:E1; [|done..].
  assert (Hfirst : o ∈ out1 → ∃ k src0 sent wk, (src :: rx) !! k = Some src0
    ∧ conn_loop h id udp addr i iter (take k (src :: rx)) w = (Ok sent, wk) ∧ conn_admits id src0 wk o).
  { intros Hin. exists O, src, [], w. split_and!; [done|done|by eapply conn_packet_admitted]. }
  case_decide as Hi. { injection H as <- _. by apply Hfirst. }
  unfold mbind, ST_bind in H. destruct (conn_loop _ _ _ _ _ _ rx w1) as [[rest|e|] w2] eqn:E2; [|done..].
  injection H as <- _. apply elem_of_app in Ho as [Ho|Ho]; [by apply Hfirst|].
  destruct (IH _ _ _ _ _ E2 Ho Hwr) as (k & src' & sent & wk & Hk & El & Hadm).
  exists (S k), src', (out1 ++ sent), wk. split_and!; [done| |done]. cbn [take conn_loop].
  unfold mbind at 1, ST_bind at 1. rewrite E1, decide_False by done. unfold mbind, ST_bind. by rewrite El.
Qed.

Lemma udp_verified_admitted h sk pk udp addr packet w d out n w' o :
  routes d = routes (dev w) →
  udp_verified h d sk pk udp addr packet w = (Ok (out, n), w') → o ∈ out → is_write o = true →
  ∃ pd id, packet = PktData pd ∧ d_peers_by_idx (dev w) !! Z.shiftr (pd_receiver_idx pd) 8 = Some id
    ∧ admitted (dev w) id pd o.
Proof.
  intros Hd H Ho Hwr. unfold udp_verified in H.
  destruct (find_peer d sk pk packet) as [id|] eqn:Hf; [|injection H as <- _ _; by apply not_elem_of_nil in Ho].
  unfold mbind at 1, ST_bind at 1 in H.
  destruct (tunnel_call id _ w) as [[result|e|] w1] eqn:Ec; [|done..].
  assert (Hr1 : routes (dev w1) = routes (dev w)).
  { assert (Hk : rkeeps (tunnel_call id (handle_verified_packet (R := R) (h_env h 1) packet MAX_UDP_SIZE))) by rkeep.
    specialize (Hk w). by rewrite Ec in Hk. }
  assert (Hcont : (p ← lock_peer id;
    out ← send_and_flush (λ i, h_env h (S (S i))) id (λ b, SendTo udp b addr) result;
    _ ← adopt_endpoint h d id addr; mret (out ++ deliver p result, true)) w1 = (Ok (out, n), w')
    ∨ ([], false) = (out, n)).
  { destruct result; [by left|right; by injection H as <- <- _|by left..]. }
  clear H. destruct Hcont as [H|[= <- _]]; [|by apply not_elem_of_nil in Ho].
  unfold mbind at 1, ST_bind at 1 in H. destruct (lock_peer id w1) as [[p1|e|] w2] eqn:El; [|done..].
  apply lock_peer_ok in El as [-> Hp1].
  unfold mbind, ST_bind in H. destruct (send_and_flush _ _ _ _ w1) as [[sent|e|] w2] eqn:Ef; [|done..].
  destruct (adopt_endpoint h d id addr w2) as [[[]|e|] w3]; [|done..].
  injection H as <- _ _. apply elem_of_app in Ho as [Ho|Ho].
  { eapply send_and_flush_quiet in Ef; [by rewrite Ef in Hwr|done|exact Ho]. }
  destruct (routes_heap (dev w1) (dev w) id p1 (eq_sym Hr1) Hp1) as (p & Hp & _ & Ha).
  destruct (deliver_admitted (dev w) (λ pd, packet = PktData pd) id p p1 result o Hp) as (pd & -> & Hadm);
    [by symmetry| |exact Ho|].
  - intros x ip Hx. destruct (tunnel_call_writes _ _ _ _ _ _ Ec Hx) as (p' & tw & Hp' & Hv).
    rewrite Hp in Hp'. injection Hp' as <-.
    destruct (handle_verified_writes _ _ _ _ _ _ _ _ Hv Hx) as (pd & plain & -> & Hop & ?).
    exists pd, plain. split; [done|]. split; [by eapply opens_load|done].
  - exists pd, id. split; [done|]. split; [|done]. cbn in Hf. injection Hd as _ <- _ _ _ _ _ _ _ _ _ _. exact Hf.
Qed.

(** The limiter has no part in what a session opens. *)
Lemma verify_datagram_ok env a l addr m w q w' :
  verify_datagram env a l addr m w = (Ok (Ok q), w') →
  parse_incoming_packet_config m (headers a) = Ok q ∧ d_heap (dev w') = d_heap (dev w).
Proof.
  unfold verify_datagram. destruct (d_limiters (dev w) !! l) as [rl|]; [|done].
  destruct (verify_packet _ _ _ _ _ _ _ _) as [[v rl'] g] eqn:E. intros [= -> <-]. split; [by eapply verify_parses|done].
Qed.

Lemma strip_keeps a src w m w' : strip_datagram a src w = (Ok m, w') → w' = w.
Proof.
  assert (Hk : ∀ {A B} (f : D (R := R) A) (g : A → D B), (∀ w a w', f w = (Ok a, w') → w' = w) →
    (∀ a w b w', g a w = (Ok b, w') → w' = w) → ∀ w b w', (f ≫= g) w = (Ok b, w') → w' = w).
  { intros A B f g Hf Hg w0 b w1. unfold mbind, ST_bind. destruct (f w0) as [[x|e|] w2] eqn:E; [|done..].
    intros H. rewrite (Hg _ _ _ _ H). by eapply Hf. }
  assert (Hl : ∀ {A} (r : result Error A) w a w', (lift r : D (R := R) A) w = (Ok a, w') → w' = w) by (by intros A r w0 x w1 [= _ <-]).
  assert (Hret : ∀ {A} (x : A) w a w', (mret x : D (R := R) A) w = (Ok a, w') → w' = w) by (by intros A x w0 y w1 [= _ <-]).
  revert w m w'. unfold strip_datagram. apply Hk; [intros; by eapply Hl|]. intros cl. apply Hk.
  { unfold must_dev. by destruct (checked_sub _ _); intros w0 x w1 [= _ <-]. }
  intros room. apply Hk; [|intros; by eapply Hret].
  destruct (if decide _ then _ else None); [intros; by eapply Hret|]. destruct (decide (0 < _)%nat); [|intros; by eapply Hret].
  destruct (Amnezia3Config_header_protection a); [|intros; by eapply Hret]. apply Hk; [intros; by eapply Hl|intros; by eapply Hret].
Qed.

Lemma udp_packet_admitted h sk pk l udp src addr w out n w' o :
  udp_packet h sk pk l udp src addr w = (Ok (out, n), w') → o ∈ out → is_write o = true → udp_admits src w o.
Proof.
  intros H Ho Hwr. unfold udp_packet in H. unfold mbind at 1, ST_bind at 1, get_dev, gets in H.
  unfold mbind at 1, ST_bind at 1 in H.
  destruct (strip_datagram _ src w) as [[m|e|] w1] eqn:Es; [|done..]. pose proof (strip_keeps _ _ _ _ _ Es) as ->.
  unfold mbind at 1, ST_bind at 1 in H.
  pose proof (verify_routes (h_env h 0) (d_amnezia (dev w)) l (sock_ip addr) m w) as Hv.
  destruct (verify_datagram _ _ _ _ m w) as [[v|e|] w2] eqn:Ev; [|done..]. cbn in Hv.
  destruct v as [parsed|r|]; [|destruct r|done]; try (injection H as <- _ _; by apply not_elem_of_nil in Ho).
  - destruct (verify_datagram_ok _ _ _ _ _ _ _ _ Ev) as [Hp Hh].
    destruct (udp_verified_admitted _ _ _ _ _ _ _ _ _ _ _ _ (eq_sym Hv) H Ho Hwr) as (pd & id & -> & Hid & Hadm).
    exists m, w, pd, id. injection Hv as _ Hidx _ _ _ _ _ _ _ _ _ _. rewrite Hidx in Hid. unfold admitted in Hadm. rewrite Hh in Hadm.
    by split_and!.
  - unfold mbind, ST_bind in H. destruct (frame_cookie _ _ w2) as [[[reply|]|e|] w3]; [..|done|done];
      injection H as <- _ _; [|by apply not_elem_of_nil in Ho]. by apply list_elem_of_singleton in Ho as ->.
Qed.

Lemma udp_loop_admitted h sk pk l udp i iter rx w out w' o :
  udp_loop h sk pk l udp i iter rx w = (Ok out, w') → o ∈ out → is_write o = true →
  ∃ k src addr sent wk, rx !! k = Some (src, addr)
    ∧ udp_loop h sk pk l udp i iter (take k rx) w = (Ok sent, wk) ∧ udp_admits src wk o.
Proof.
  revert i iter w out w'. induction rx as [|[src addr] rx IH]; intros i iter w out w' H Ho Hwr; cbn [udp_loop] in H.
  { injection H as <- _. by apply not_elem_of_nil in Ho. }
  unfold mbind at 1, ST_bind at 1 in H.
  destruct (udp_packet _ _ _ _ _ _ _ w) as [[[out1 n]|e|] w1] eqn:E1; [|done..].
  assert (Hfirst : o ∈ out1 → ∃ k src0 addr0 sent wk, ((src, addr) :: rx) !! k = Some (src0, addr0)
    ∧ udp_loop h sk pk l udp i iter (take k ((src, addr) :: rx)) w = (Ok sent, wk) ∧ udp_admits src0 wk o).
  { intros Hin. exists O, src, addr, [], w. split_and!; [done|done|by eapply udp_packet_admitted]. }
  cbv zeta in H. destruct (n && _) eqn:En. { injection H as <- _. by apply Hfirst. }
  unfold mbind, ST_bind in H. destruct (udp_loop _ _ _ _ _ _ _ rx w1) as [[rest|e|] w2] eqn:E2; [|done..].
  injection H as <- _. apply elem_of_app in Ho as [Ho|Ho]; [by apply Hfirst|].
  destruct (IH _ _ _ _ _ E2 Ho Hwr) as (k & src' & addr' & sent & wk & Hk & El & Hadm).
  exists (S k), src', addr', (out1 ++ sent), wk. split_and!; [done| |done]. cbn [take udp_loop].
  unfold mbind at 1, ST_bind at 1. rewrite E1. cbv zeta. rewrite En. unfold mbind, ST_bind. by rewrite El.
Qed.

(** C7: Nothing reaches the interface that its peer may not send.  Take any batch of
    datagrams, any device, and a packet that a UDP handler writes to the interface.
    Then one of the datagrams holds a transport message, and in the state the device
    is in after the datagrams before it: the peer that the receiver index names (for
    the anonymous handler; the captured peer for the handler of a connected socket)
    has a session under whose key the message is authentic, with the nonce of its
    counter, and whose replay window takes the counter; the packet is a prefix of
    the plaintext; and the source address in the header of the plaintext is one of
    that peer's allowed IPs.  The handler moves no route on the way. *)
Theorem interface_writes_are_admitted (w w' : DWorld (R := R)) out action o :
  o ∈ out → is_write o = true →
  (∀ h udp rx, udp_handler h udp rx w = (Ok (out, action), w') →
     routes (dev w') = routes (dev w) ∧
     ∃ k src addr sent wk, rx !! k = Some (src, addr) ∧ udp_handler h udp (take k rx) w = (Ok (sent, Continue), wk)
       ∧ udp_admits src wk o)
  ∧ (∀ h id udp addr rx, conn_handler h id udp addr rx w = (Ok (out, action), w') →
       routes (dev w') = routes (dev w) ∧
       ∃ k src sent wk, rx !! k = Some src ∧ conn_handler h id udp addr (take k rx) w = (Ok (sent, Continue), wk)
         ∧ conn_admits id src wk o).
Proof.
  intros Ho Hwr. split.
  - intros h udp rx H. split; [pose proof (udp_handler_routes h udp rx w) as Hk; by rewrite H in Hk|].
    unfold udp_handler, mbind, ST_bind, get_dev, gets, must_dev in *. destruct (d_key_pair (dev w)) as [[sk pk]|]; [|done].
    destruct (d_rate_limiter (dev w)) as [l|]; [|done]. unfold mret, ST_ret in *. cbv beta iota in *.
    destruct (udp_loop _ _ _ _ _ _ _ rx _) as [[out1|e|] w2] eqn:E; [|done..]. injection H as <- _ _.
    destruct (udp_loop_admitted _ _ _ _ _ _ _ _ _ _ _ _ E Ho Hwr) as (k & src & addr & sent & wk & Hk & El & Hadm).
    exists k, src, addr, sent, wk. split_and!; [done| |done]. by rewrite El.
  - intros h id udp addr rx H. split; [pose proof (conn_handler_routes h id udp addr rx w) as Hk; by rewrite H in Hk|].
    unfold conn_handler, mbind, ST_bind in *. destruct (conn_loop _ _ _ _ _ _ rx _) as [[out1|e|] w2] eqn:E; [|done..].
    injection H as <- _ _. destruct (conn_loop_admitted _ _ _ _ _ _ _ _ _ _ _ E Ho Hwr) as (k & src & sent & wk & Hk & El & Hadm).
    exists k, src, sent, wk. split_and!; [done| |done]. by rewrite El.
Qed.
End admission.

(** ** Packets from the interface *)
Section outbound.
Context `{CC : ChaCha20} `{B64 : Base64} `{NC : NoiseCrypto} `{AE : Aead} `{RS : RandomSource R}.
Context `{TB : IpNetworkTable}.
Implicit Types w : DWorld (R := R).

(** Where the peers are. *)
Definition endpoints (d : Device) := p_endpoint <$> d_heap d.

Lemma on_tunnel_endpoints {A} id (m : T (R := R) A) w : endpoints (dev (on_tunnel id m w).2) = endpoints (dev w).
Proof.
  unfold on_tunnel, endpoints. destruct (d_heap (dev w) !! id) as [p|] eqn:Hp; [|done]. destruct (m _) as [r tw].
  assert (E : endpoints (save_tunnel id p (tunn tw) (dev w)) = endpoints (dev w)).
  { unfold save_tunnel, endpoints. destruct (p_limiter p); cbn; rewrite fmap_insert; apply insert_id;
      by rewrite lookup_fmap, Hp. }
  by destruct r.
Qed.

(** The datagram leaves for the endpoint: over its connected socket, or from a
    listening socket to its address. *)
Definition leaves_for (e : Endpoint) (o : Output) : Prop :=
  match o with
  | Send conn _ => ep_conn e = Some conn
  | SendTo _ _ addr => ep_conn e = None ∧ ep_addr e = Some addr
  | _ => False
  end.

Lemma endpoint_send_leaves e u4 u6 send b : endpoint_send e u4 u6 = Some send → leaves_for e (send b).
Proof.
  destruct e as [addr [conn|]]; cbn; [by intros [= <-]|]. destruct addr as [[]|]; [..|done]; by intros [= <-].
Qed.

(** [src] was read from the interface; its destination is routed to peer [id],
    and [o] is sent to that peer. *)
Definition routed (d0 : Device) (src : bytes) (o : Output) : Prop :=
  ∃ dst id p, dst_address src = Some dst ∧ AllowedIps_find (d_peers_by_ip d0) dst = Some id
    ∧ d_heap d0 !! id = Some p ∧ leaves_for (p_endpoint p) o.

Lemma iface_packet_endpoints h u4 u6 src w :
  endpoints (dev (iface_packet h u4 u6 src w).2) = endpoints (dev w).
Proof.
  unfold iface_packet, mbind at 1, ST_bind at 1, get_dev, gets.
  destruct (dst_address src ≫= _) as [id|]; [|done].
  assert (Hk : endpoints (dev (call_and_drain id (encapsulate (h_env h 0) src MAX_UDP_SIZE) w).2) = endpoints (dev w)).
  { unfold call_and_drain, tunnel_call, tunnel_do, mbind, ST_bind.
    pose proof (on_tunnel_endpoints id (encapsulate (h_env h 0) src MAX_UDP_SIZE) w) as H1.
    destruct (on_tunnel id _ w) as [[[r|e|]|e|] w1]; try done. destruct r; try done. cbn in *.
    pose proof (on_tunnel_endpoints id drain_outgoing w1) as H2.
    destruct (on_tunnel id _ w1) as [[[r|e|]|e|] w2]; try done; cbn in *; congruence. }
  unfold mbind, ST_bind. destruct (call_and_drain _ _ w) as [[[r q]|e|] w1]; [|done..].
  destruct r; try done. pose proof (lock_peer_ok id w1) as Hl.
  destruct (lock_peer id w1) as [[p|e|] w2] eqn:El; cbn in *.
  - by destruct (Hl p w2 eq_refl) as [-> _].
  - unfold lock_peer, mbind, ST_bind, get_dev, gets in El. by destruct (d_heap _ !! id).
  - unfold lock_peer, mbind, ST_bind, get_dev, gets in El. destruct (d_heap _ !! id); [done|]. by injection El as <-.
Qed.

Lemma endpoints_heap d d' id p :
  endpoints d' = endpoints d → d_heap d' !! id = Some p → ∃ p0, d_heap d !! id = Some p0 ∧ p_endpoint p0 = p_endpoint p.
Proof.
  intros He Hp. apply (f_equal (.!! id)) in He. unfold endpoints in He. rewrite !lookup_fmap, Hp in He.
  destruct (d_heap d !! id) as [p0|]; [|done]. injection He as He. by exists p0.
Qed.

Lemma iface_packet_routed d0 h u4 u6 src w out w' o :
  routes (dev w) = routes d0 → endpoints (dev w) = endpoints d0 →
  iface_packet h u4 u6 src w = (Ok out, w') → o ∈ out → routed d0 src o.
Proof.
  intros Hr He H Ho. pose proof (iface_packet_endpoints h u4 u6 src w) as He'. rewrite H in He'. cbn in He'.
  unfold iface_packet, mbind at 1, ST_bind at 1, get_dev, gets in H.
  destruct (dst_address src) as [dst|] eqn:Hd; [|injection H as <- _; by apply not_elem_of_nil in Ho].
  cbn [mbind option_bind] in H. destruct (AllowedIps_find (d_peers_by_ip (dev w)) dst) as [id|] eqn:Hf;
    [|injection H as <- _; by apply not_elem_of_nil in Ho].
  unfold mbind, ST_bind in H. destruct (call_and_drain id _ w) as [[[r q]|e|] w1]; [|done..].
  destruct r as [|e|b|b a|b a]; try done; try (injection H as <- _; by apply not_elem_of_nil in Ho).
  destruct (lock_peer id w1) as [[p1|e|] w2] eqn:El; [|done..]. apply lock_peer_ok in El as [-> Hp1].
  destruct (endpoint_send (p_endpoint p1) u4 u6) as [send|] eqn:Es; injection H as <- <-;
    [|by apply not_elem_of_nil in Ho]. apply list_elem_of_fmap in Ho as (x & -> & _).
  destruct (endpoints_heap (dev w) (dev w1) id p1) as (p & Hp & E); [done|done|].
  destruct (endpoints_heap d0 (dev w) id p) as (p0 & Hp0 & E0); [done|done|].
  injection Hr as _ _ Hip _ _ _ _ _ _ _ _ _. exists dst, id, p0. rewrite <- Hip, E0, E.
  split_and!; try done. by eapply endpoint_send_leaves.
Qed.

Lemma iface_loop_routed d0 h u4 u6 i n rx w out action w' o :
  routes (dev w) = routes d0 → endpoints (dev w) = endpoints d0 →
  iface_loop h u4 u6 i n rx w = (Ok (out, action), w') → o ∈ out →
  ∃ src, ReadPacket src ∈ rx ∧ routed d0 src o.
Proof.
  revert i n w out action w'. induction rx as [|[src| |] rx IH]; intros i [|n] w out action w' Hr He H Ho;
    cbn [iface_loop] in H; try (injection H as <- _ _; by apply not_elem_of_nil in Ho).
  unfold mbind, ST_bind in H. destruct (iface_packet _ _ _ src w) as [[out1|e|] w1] eqn:E1; [|done..].
  pose proof (iface_packet_routes (h i) u4 u6 src w) as Hr1. pose proof (iface_packet_endpoints (h i) u4 u6 src w) as He1.
  rewrite E1 in Hr1, He1. cbn in Hr1, He1.
  destruct (iface_loop _ _ _ _ _ rx w1) as [[[rest act]|e|] w2] eqn:E2; [|done..]. injection H as <- _ _.
  apply elem_of_app in Ho as [Ho|Ho].
  - exists src. split; [apply list_elem_of_here|]. by eapply iface_packet_routed.
  - destruct (IH _ _ _ _ _ _ (eq_trans Hr1 Hr) (eq_trans He1 He) E2 Ho) as (src' & Hin & Hro).
    exists src'. split; [by apply list_elem_of_further|done].
Qed.

(** C8: A packet read from the interface leaves only for the peer its destination
    is routed to.  Whatever is read, every datagram the interface handler sends
    answers one of the packets read, and goes to the endpoint of the peer the
    longest matching allowed IP of that packet's destination belongs to: over its
    connected socket when it has one, to its address otherwise.  A packet with no
    such peer, or whose peer has no endpoint, is not sent anywhere. *)
Theorem interface_reads_are_routed h rx (w w' : DWorld (R := R)) out action :
  iface_handler h rx w = (Ok (out, action), w') →
  routes (dev w') = routes (dev w) ∧ ∀ o, o ∈ out → ∃ src, ReadPacket src ∈ rx ∧ routed (dev w) src o.
Proof.
  intros H. split. { pose proof (iface_handler_routes h rx w) as Hk. by rewrite H in Hk. }
  intros o Ho. unfold iface_handler, mbind, ST_bind, get_dev, gets, must_dev, assert_dev in H.
  destruct (d_udp4 (dev w)) as [u4|]; [|done]. destruct (d_udp6 (dev w)) as [u6|]; [|done].
  unfold mret, ST_ret in H. destruct (d_mtu (dev w) <=? _); [|done]. cbv beta iota in H.
  eapply (iface_loop_routed (dev w)); [reflexivity|reflexivity|exact H|exact Ho].
Qed.
End outbound.
