(* ===== verification/DeviceDelivery.v ===== *)
(** * DeviceDelivery: from one interface to the other

    Two devices, each with the other as a peer.  A packet read from the interface
    of the first is encrypted by the tunnel of the peer it is routed to, framed by
    the AmneziaWG configuration and sent; the anonymous UDP handler of the second
    strips the frame, finds the peer by the receiver index, decrypts, checks the
    source address and writes the same packet to its own interface. *)

From Stdlib Require Import ZArith Lia.
From stdpp Require Import base list option strings sets tactics countable gmap fin_maps.
From S2P Require Import Prelude Clock Random Codec Keys Lfsr Amnezia Cps Config Packet Ip AllowedIps.
From S2P Require Import Session Handshake RateLimiter Timers Tunnel EventPoll TunnelIdentity TunnelSafe TunnelDelivery.
From S2P Require Import Device DeviceInv DeviceData DeviceLife DeviceStrip DeviceRoute.
Open Scope Z_scope.

Section steps.
Context `{CC : ChaCha20} `{B64 : Base64} `{NC : NoiseCrypto} `{AE : Aead} `{RS : RandomSource R}.
Context `{TB : IpNetworkTable}.
Implicit Types w : DWorld (R := R).

(** ** The tunnel of a peer *)
Lemma save_heap id p t (d : Device) : d_heap (save_tunnel id p t d) !! id = Some (p_set_tunnel t p).
Proof. unfold save_tunnel. destruct (p_limiter p); cbn; by rewrite lookup_insert_eq. Qed.

Lemma on_tunnel_ok {A} id (m : T (R := R) A) w p a tw :
  d_heap (dev w) !! id = Some p → m (mkWorld (load_tunnel (dev w) p) (drng w)) = (Ok a, tw) →
  on_tunnel id m w = (Ok (Ok a), mkDWorld (save_tunnel id p (tunn tw) (dev w)) (rng tw)).
Proof. intros Hp Hm. unfold on_tunnel. by rewrite Hp, Hm. Qed.

Lemma tunnel_call_ok id (m : T (R := R) TunnResult) w p r tw :
  d_heap (dev w) !! id = Some p → m (mkWorld (load_tunnel (dev w) p) (drng w)) = (Ok r, tw) →
  tunnel_call id m w = (Ok r, mkDWorld (save_tunnel id p (tunn tw) (dev w)) (rng tw)).
Proof. intros Hp Hm. unfold tunnel_call, mbind, ST_bind. by rewrite (on_tunnel_ok _ _ _ _ _ _ Hp Hm). Qed.

Lemma tunnel_do_ok {A} id (m : T (R := R) A) w p a tw :
  d_heap (dev w) !! id = Some p → m (mkWorld (load_tunnel (dev w) p) (drng w)) = (Ok a, tw) →
  tunnel_do id m w = (Ok a, mkDWorld (save_tunnel id p (tunn tw) (dev w)) (rng tw)).
Proof. intros Hp Hm. unfold tunnel_do, mbind, ST_bind. by rewrite (on_tunnel_ok _ _ _ _ _ _ Hp Hm). Qed.

Lemma lock_peer_some id w p : d_heap (dev w) !! id = Some p → lock_peer id w = (Ok p, w).
Proof. intros Hp. unfold lock_peer, mbind, ST_bind, get_dev, gets. by rewrite Hp. Qed.

Lemma session_at_load d p i : session_at (load_tunnel d p) i = session_at (p_tunnel p) i.
Proof. unfold load_tunnel. by destruct (p_limiter p ≫= _). Qed.
Lemma tc_load d p : tc (load_tunnel d p) = tc (p_tunnel p).
Proof. unfold load_tunnel. by destruct (p_limiter p ≫= _). Qed.
Lemma current_load d p : current (load_tunnel d p) = current (p_tunnel p).
Proof. unfold load_tunnel. by destruct (p_limiter p ≫= _). Qed.

(** ** Sending *)
Lemma iface_packet_sends h u4 u6 src w dst id p send r tw :
  dst_address src = Some dst → AllowedIps_find (d_peers_by_ip (dev w)) dst = Some id →
  d_heap (dev w) !! id = Some p → endpoint_send (p_endpoint p) u4 u6 = Some send →
  encapsulate (h_env h 0) src MAX_UDP_SIZE (mkWorld (load_tunnel (dev w) p) (drng w)) = (Ok (WriteToNetwork r), tw) →
  ∃ queued w', iface_packet h u4 u6 src w = (Ok (map send (queued ++ [r])), w').
Proof.
  intros Hd Hf Hp Hs He. unfold iface_packet, mbind at 1, ST_bind at 1, get_dev, gets.
  rewrite Hd. cbn [mbind option_bind]. rewrite Hf.
  set (w1 := mkDWorld (save_tunnel id p (tunn tw) (dev w)) (rng tw)).
  set (p1 := p_set_tunnel (tunn tw) p). assert (Hp1 : d_heap (dev w1) !! id = Some p1) by apply save_heap.
  pose proof (tunnel_do_ok id drain_outgoing w1 p1 _ _ Hp1 (drain_outgoing_eq _)) as Hdr.
  set (w2 := mkDWorld _ _) in Hdr. cbn [tunn rng] in Hdr.
  exists (network_outgoing (load_tunnel (dev w1) p1)), w2.
  unfold call_and_drain, mbind, ST_bind. rewrite (tunnel_call_ok id _ w p (WriteToNetwork r) tw Hp He). fold w1.
  rewrite Hdr. unfold mret, ST_ret. cbv beta iota.
  rewrite (lock_peer_some id w2 (p_set_tunnel (set_outgoing [] (load_tunnel (dev w1) p1)) p1)) by apply save_heap.
  cbn [p_endpoint p_set_tunnel p1]. by rewrite Hs.
Qed.

(** ** Receiving *)
Lemma strip_wire a ty pd prefix w :
  let c := config_of a in
  tunn_config_ok c → data_wf pd → HeaderRange_contains (hc_transport (header_config c)) ty = true →
  length prefix = Z.to_nat (s4 (padding_config c)) → classifiable c →
  strip_datagram a (wire_datagram c ty pd prefix) w = (Ok (wire_packet ty pd), w).
Proof.
  intros c Hc Hpd Hty Hpre Hcl. pose proof (datagram_classified c Hc ty pd Hpd Hty prefix Hpre Hcl) as Hclass.
  pose proof (datagram_mask c Hc ty pd prefix Hpre) as Hmask.
  assert (Hlen : length (wire_datagram c ty pd prefix) = (length prefix + length (wire_packet ty pd))%nat)
    by by apply length_datagram.
  rewrite (length_data_packet c ty pd prefix Hpre) in Hlen. pose proof Hpd as (_ & _ & Hpl).
  rewrite (strip_datagram_row a _ w HTransport).
  - unfold stripped. cbn [check_of transport_check ck_exact ck_padding].
    change (PacketClassifier_from_config a) with (config_classifier c). rewrite Hmask.
    change (pc_paddings (config_classifier c)) with (padding_config c). rewrite <- Hpre.
    do 2 f_equal. unfold wire_datagram. rewrite drop_app_length.
    destruct (header_protection c) as [hp|] eqn:Ehp; [|apply take_drop].
    set (head := take 16 (wire_packet ty pd)).
    assert (Hh : length head = 16%nat) by (exact (length_data_header c ty pd prefix Hpre)).
    cbn [protect]. rewrite xor_into_app, length_xor_into, Hh, xor_into_involutive.
    rewrite (drop_ge (chacha_keystream _ _ _)) by (rewrite length_chacha_keystream; lia).
    rewrite xor_into_nil_r. apply take_drop.
  - exact Hclass.
  - cbn [check_of transport_check ck_padding ck_size]. change (pc_paddings _) with (padding_config c).
    rewrite <- Hpre, Hlen. unfold DATA_OVERHEAD_SZ. lia.
  - intros hp Hhp. cbn [check_of transport_check ck_padding]. change (pc_paddings _) with (padding_config c).
    destruct (tco_prefix _ Hc hp Hhp) as (_ & _ & _ & ?). lia.
Qed.

(** The limiter lets every data packet through and does not count it. *)
Lemma verify_data_datagram env a l rl addr m pd w :
  d_limiters (dev w) !! l = Some rl → parse_incoming_packet_config m (headers a) = Ok (PktData pd) →
  verify_datagram env a l addr m w = (Ok (Ok (PktData pd)), w).
Proof.
  intros Hl Hp. unfold verify_datagram, verify_packet. rewrite Hl, Hp. cbv beta iota zeta.
  rewrite insert_id by done. by destruct w as [[] g].
Qed.

(** Without connected sockets, the endpoint is all that changes. *)
Lemma adopt_endpoint_ok h d id addr w p :
  d_heap (dev w) !! id = Some p → d_use_connected_socket d = false → (∀ s, h_shutdown h s = true) →
  ∃ w' p', adopt_endpoint h d id addr w = (Ok tt, w') ∧ d_heap (dev w') !! id = Some p' ∧
    ep_addr (p_endpoint p') = Some addr.
Proof.
  intros Hp Hu Hs. unfold adopt_endpoint, set_endpoint, mbind, ST_bind. rewrite (lock_peer_some id w p Hp), Hu.
  case_decide as Ha. { by exists w, p. }
  set (w1 := mkDWorld (d_set_heap (<[id := p_set_endpoint (mkEndpoint (ep_addr (p_endpoint p)) None) p]>
    (d_heap (dev w))) (dev w)) (drng w)).
  assert (Hsh : shutdown_endpoint h id w = (Ok tt, w1)).
  { unfold shutdown_endpoint, mbind, ST_bind. rewrite (lock_peer_some id w p Hp).
    destruct (ep_conn (p_endpoint p)) as [conn|] eqn:Ec.
    - unfold store_peer, upd_dev, modify, assert_dev. by rewrite Hs.
    - unfold mret, ST_ret. unfold w1. rewrite insert_id; [by destruct w as [[] g]|].
      rewrite Hp. destruct p as [? ? [] ? ? ? ?]. cbn in *. by rewrite Ec. }
  rewrite Hsh. unfold store_peer, upd_dev, modify. unfold mret, ST_ret. cbv beta iota.
  set (w2 := mkDWorld _ _).
  set (p2 := p_set_endpoint (mkEndpoint (Some addr) None) p).
  assert (Hp2 : d_heap (dev w2) !! id = Some p2) by (cbn; by rewrite lookup_insert_eq).
  rewrite (tunnel_do_ok id reset_udp_window w2 p2 tt _ Hp2 eq_refl).
  eexists _, _. split; [reflexivity|]. split; [apply save_heap|done].
Qed.

(** A cookie reply that decrypts moves the endpoint of its peer to wherever it
    came from, as an authenticated handshake or data message does. *)
Lemma cookie_reply_moves_endpoint h d sk pk udp addr c w id p tw :
  d_peers_by_idx d !! Z.shiftr (cr_receiver_idx c) 8 = Some id → d_heap (dev w) !! id = Some p →
  handle_verified_packet (h_env h 1) (PktCookie c) MAX_UDP_SIZE (mkWorld (load_tunnel (dev w) p) (drng w)) = (Ok Done, tw) →
  d_use_connected_socket d = false → (∀ s, h_shutdown h s = true) →
  ∃ w' p', udp_verified h d sk pk udp addr (PktCookie c) w = (Ok ([], true), w')
    ∧ d_heap (dev w') !! id = Some p' ∧ ep_addr (p_endpoint p') = Some addr.
Proof.
  intros Hi Hp Hc Hu Hs. unfold udp_verified. cbn [find_peer]. rewrite Hi. unfold mbind, ST_bind.
  rewrite (tunnel_call_ok id _ w p Done tw Hp Hc). set (w1 := mkDWorld _ _).
  assert (Hp1 : d_heap (dev w1) !! id = Some (p_set_tunnel (tunn tw) p)) by apply save_heap.
  rewrite (lock_peer_some id w1 _ Hp1). cbn [send_and_flush].
  destruct (adopt_endpoint_ok h d id addr w1 _ Hp1 Hu Hs) as (w2 & p2 & Ha & Hp2 & He).
  exists w2, p2. unfold mret, ST_ret. by rewrite Ha.
Qed.
End steps.

(** ** End to end *)
Section delivery.
Context `{CC : ChaCha20} `{B64 : Base64} `{NC : NoiseCrypto} `{AE : Aead} `{RS : RandomSource R}.
Context `{TB : IpNetworkTable}.

Definition iface_write (src : bytes) : Output := if ip_version src =? 4 then Write4 src else Write6 src.

Lemma ip_packet_write src r : ip_packet src r →
  ∃ ip, source_of src = Some ip ∧ tunnel_write r = Some (src, ip) ∧
    ∀ p, is_allowed_ip p ip = true → deliver p r = [iface_write src].
Proof.
  unfold iface_write, source_of, deliver. intros [-> Hl _| -> Hl _]; cbn [Z.eqb Pos.eqb andb];
    rewrite bool_decide_true by done; (eexists; split; [reflexivity|]); (split; [reflexivity|]); by intros p ->.
Qed.

(** The parts of two devices a packet goes through: the session [a] the sender's
    peer [pa] sends with, and the session [b] of the receiver's peer [pb] that the
    index of [a] names. *)
Record linked (ha hb : Host) (wa wb : DWorld (R := R)) (ida idb : nat) (pa pb : Peer) (a b : Session)
    (win : window) : Prop := {
  lk_ok_a : device_ok (dev wa);
  lk_ok_b : device_ok (dev wb);
  lk_config : d_amnezia (dev wb) = d_amnezia (dev wa);
  lk_classifiable : classifiable (config_of (d_amnezia (dev wa)));
  lk_peer_a : d_heap (dev wa) !! ida = Some pa ∧ ∃ k, d_peers (dev wa) !! k = Some ida;
  lk_peer_b : d_heap (dev wb) !! idb = Some pb ∧ ∃ k, d_peers (dev wb) !! k = Some idb;
  lk_tunnel_a : ok (h_env ha 0) (mkWorld (load_tunnel (dev wa) pa) (drng wa));
  lk_tunnel_b : ok (h_env hb 1) (mkWorld (load_tunnel (dev wb) pb) (drng wb));
  lk_session_a : session_at (p_tunnel pa) (current (p_tunnel pa)) = Some a;
  lk_session_b : session_at (p_tunnel pb) (sending_index a) = Some b;
  lk_paired : paired a b;
  lk_counter : counter_ok (sending_key_counter a);
  lk_window : refines (receiving_key_counter b) win ∧ window_check win (sending_key_counter a) = Ok ()
}.

Lemma registered_config (w : DWorld (R := R)) k id p :
  device_ok (dev w) → d_peers (dev w) !! k = Some id → d_heap (dev w) !! id = Some p →
  tc (p_tunnel p) = config_of (d_amnezia (dev w)).
Proof.
  intros [_ _ [M1 _ _ _ _]] Hk Hp. destruct (M1 k id Hk) as (p' & Hp' & [(sk & pk & _ & Hid) _] & _).
  rewrite Hp in Hp'. injection Hp' as <-. by destruct Hid.
Qed.

(** The index of a session leads back to the peer that holds it. *)
Lemma session_index_leads (w : DWorld (R := R)) k id p i s :
  device_ok (dev w) → d_peers (dev w) !! k = Some id → d_heap (dev w) !! id = Some p →
  session_at (p_tunnel p) i = Some s →
  u32_ok (receiving_index s) ∧ d_peers_by_idx (dev w) !! Z.shiftr (receiving_index s) 8 = Some id.
Proof.
  intros [_ _ [M1 _ _ _ (n & Hn & Hu)]] Hk Hp Hs. destruct (M1 k id Hk) as (p' & Hp' & [(sk & pk & _ & Hid) _] & Hx).
  rewrite Hp in Hp'. injection Hp' as <-. destruct Hid as [_ _ _ Hss].
  assert (Hi : index_of (p_index p) (receiving_index s)).
  { unfold session_at in Hs. destruct (sessions (p_tunnel p) !! session_slot i) as [o|] eqn:E; [|done]. cbn in Hs.
    unfold sessions_indexed in Hss. rewrite list.Forall_forall in Hss. subst o.
    exact (Hss (Some s) (list_elem_of_lookup_2 _ _ _ E)). }
  unfold index_of in Hi. rewrite Hi. split; [|done].
  destruct (Hu (p_index p)) as (j & _ & Ej); [done|].
  assert (Hr : 0 ≤ p_index p < 2 ^ 24) by (rewrite Ej; apply index_at_range, Hn).
  rewrite Z.shiftr_div_pow2 in Hi by lia. change (2 ^ 8) with 256 in Hi.
  assert (p_index p * 256 ≤ receiving_index s < p_index p * 256 + 256) by (rewrite <- Hi; pose proof (Z.mod_pos_bound (receiving_index s) 256); pose proof (Z.div_mod (receiving_index s) 256); lia).
  width_lia.
Qed.

Lemma udp_packet_delivers h sk pk l rl udp addr ty prefix a b win src pad r (w : DWorld (R := R)) k id p :
  let c := config_of (d_amnezia (dev w)) in
  device_ok (dev w) → d_peers (dev w) !! k = Some id → d_heap (dev w) !! id = Some p →
  ok (h_env h 1) (mkWorld (load_tunnel (dev w) p) (drng w)) → d_limiters (dev w) !! l = Some rl →
  d_use_connected_socket (dev w) = false → (∀ s, h_shutdown h s = true) →
  session_at (p_tunnel p) (sending_index a) = Some b → paired a b → counter_ok (sending_key_counter a) →
  refines (receiving_key_counter b) win → window_check win (sending_key_counter a) = Ok () →
  bytes_ok src → ip_packet src r → (length src + pad + 16 ≤ MAX_UDP_SIZE)%nat →
  HeaderRange_contains (hc_transport (header_config c)) ty = true →
  length prefix = Z.to_nat (s4 (padding_config c)) → classifiable c → data_wf (formatted a src pad) →
  (∀ ip, source_of src = Some ip → is_allowed_ip p ip = true) →
  ∃ w' p', udp_packet h sk pk l udp (wire_datagram c ty (formatted a src pad) prefix) addr w
    = (Ok ([iface_write src], true), w') ∧ d_heap (dev w') !! id = Some p' ∧ ep_addr (p_endpoint p') = Some addr.
Proof.
  intros c Hd Hk Hp Hw Hl Hu Hsh Hs Hpair Hct Hr Hwc Hb Hip Hroom Hty Hpre Hcl Hwf Hallow.
  pose proof (registered_config w k id p Hd Hk Hp) as Htc.
  assert (Hc : tunn_config_ok c).
  { pose proof (ok_config _ _ (proj1 Hw)) as Ho. cbn [tunn] in Ho. by rewrite tc_load, Htc in Ho. }
  assert (Hparse : parse_incoming_packet_config (wire_packet ty (formatted a src pad)) (headers (d_amnezia (dev w)))
    = Ok (PktData (formatted a src pad))).
  { apply parse_data; [..|exact Hty|exact Hwf].
    - eapply contains_u32; [|exact Hty]. by destruct (tco_headers _ Hc) as (_ & _ & _ & ?).
    - exact (tco_headers _ Hc).
    - exact (tco_validated _ Hc). }
  destruct (handle_data_delivers (h_env h 1) a b win src pad MAX_UDP_SIZE r (mkWorld (load_tunnel (dev w) p) (drng w)))
    as (tw & b' & Hv & _); try done; [by apply Hw|by rewrite <- Hs; apply session_at_load|].
  set (w1 := mkDWorld (save_tunnel id p (tunn tw) (dev w)) (rng tw)). set (p1 := p_set_tunnel (tunn tw) p).
  assert (Hp1 : d_heap (dev w1) !! id = Some p1) by apply save_heap.
  destruct (adopt_endpoint_ok h (dev w) id addr w1 p1 Hp1 Hu Hsh) as (w2 & p2 & Had & Hp2 & He).
  exists w2, p2. split; [|done].
  destruct (ip_packet_write src r Hip) as (ip & Hsrc & Htw & Hdel).
  unfold udp_packet, mbind, ST_bind, get_dev, gets. rewrite strip_wire by done.
  rewrite (verify_data_datagram _ _ _ rl _ _ (formatted a src pad)) by done.
  unfold udp_verified, find_peer. destruct Hpair as [Hkey Hidx].
  destruct (session_index_leads w k id p _ b Hd Hk Hp Hs) as [_ Hlead]. cbn [pd_receiver_idx formatted].
  rewrite Hidx, Hlead. unfold mbind, ST_bind. rewrite (tunnel_call_ok id _ w p r tw Hp Hv). fold w1.
  assert (Hquiet : ∀ env send, send_and_flush (R := R) env id send r w1 = (Ok [], w1)) by (by destruct Hip).
  specialize (Hdel p1 (Hallow ip Hsrc)). clear Hv Htw.
  destruct Hip; rewrite (lock_peer_some id w1 p1 Hp1), Hquiet, Had; unfold mret, ST_ret; by rewrite Hdel.
Qed.

(** C5: End to end between two devices.  Take two consistent devices with the same
    AmneziaWG configuration (random trailers on, or equal S1-S4), matching
    sessions of registered peers, no connected sockets at the receiver, and an IP
    packet that fits a datagram.  If the sender routes the destination to its peer
    and that peer has an endpoint, the interface handler sends exactly one datagram
    for it, after whatever was queued; offered to the anonymous UDP handler of the
    other device, from whatever address, that datagram makes it write the same
    packet to its interface, provided the source is an allowed IP of the sending
    peer there, and the peer's endpoint becomes the address it came from. *)
Theorem device_delivery ha hb (wa wb : DWorld (R := R)) ida idb pa pb a b win u4 u6 send dst src r sk pk l rl udp addr :
  linked ha hb wa wb ida idb pa pb a b win →
  dst_address src = Some dst → AllowedIps_find (d_peers_by_ip (dev wa)) dst = Some ida →
  endpoint_send (p_endpoint pa) u4 u6 = Some send →
  d_limiters (dev wb) !! l = Some rl → d_use_connected_socket (dev wb) = false → (∀ s, h_shutdown hb s = true) →
  bytes_ok src → ip_packet src r →
  (Z.to_nat (s4 (paddings (d_amnezia (dev wa)))) + 32 + length src ≤ MAX_UDP_SIZE)%nat →
  (∀ ip, source_of src = Some ip → is_allowed_ip pb ip = true) →
  ∃ queued d wa' wb' pb',
    iface_packet ha u4 u6 src wa = (Ok (map send (queued ++ [d])), wa')
    ∧ udp_packet hb sk pk l udp d addr wb = (Ok ([iface_write src], true), wb')
    ∧ d_heap (dev wb') !! idb = Some pb' ∧ ep_addr (p_endpoint pb') = Some addr.
Proof.
  intros [Hda Hdb Hcfg Hcl [Hpa [ka Hka]] [Hpb [kb Hkb]] Hta Htb Hsa Hsb Hpair Hct [Hr Hwc]]
    Hdst Hroute Hsend Hl Hu Hsh Hbytes Hip Hroom Hallow.
  pose proof (registered_config wa ka ida pa Hda Hka Hpa) as Htc.
  pose proof (session_index_leads wb kb idb pb _ b Hdb Hkb Hpb Hsb) as [Hu32 _].
  rewrite <- (proj2 Hpair) in Hu32.
  set (tw := mkWorld (load_tunnel (dev wa) pa) (drng wa)) in *.
  assert (Es4 : s_of s4 (tunn tw) = Z.to_nat (s4 (paddings (d_amnezia (dev wa))))).
  { unfold s_of, tw. cbn [tunn]. by rewrite tc_load, Htc. }
  pose proof (encapsulate_session_runs (h_env ha 0) (X := λ _, False) src MAX_UDP_SIZE a tw Hta) as He.
  unfold tw in He at 1 2. cbn [tunn] in He. rewrite session_at_load, current_load in He.
  specialize (He Hsa ltac:(lia)). unfold runs in He.
  destruct (encapsulate (h_env ha 0) src MAX_UDP_SIZE tw) as [[r'|e|] tw'] eqn:Een; [|done..].
  destruct He as (_ & d & pad & -> & Hform & Hlen & Hfit & _).
  unfold tw in Hform. cbn [tunn] in Hform. rewrite tc_load, Htc in Hform.
  destruct (datagram_session _ _ _ _ _ Hform Hu32 Hct) as (ty & prefix & Hty & Hpre & Hwf & ->).
  destruct (iface_packet_sends ha u4 u6 src wa dst ida pa send _ tw' Hdst Hroute Hpa Hsend Een) as (queued & wa' & Hi).
  rewrite <- Hcfg in *.
  destruct (udp_packet_delivers hb sk pk l rl udp addr ty prefix a b win src pad r wb kb idb pb) as (wb' & pb' & Hd & Hp' & He');
    try done; [lia|].
  eexists queued, _, wa', wb', pb'. exact (conj Hi (conj Hd (conj Hp' He'))).
Qed.
End delivery.
