(* ===== verification/DeviceSafe.v ===== *)
(** * DeviceSafe: traffic does not panic a worker

    [TunnelSafe] shows that no method of a tunnel panics; here the handlers built
    on them are shown not to panic either: the lookups find a peer, the loop that
    flushes a queue ends, the results the source declares impossible do not
    occur, and the [unwrap]s that remain are on system calls.  [serving] is the
    state a configured device is in between two events. *)

From Stdlib Require Import ZArith Lia.
From stdpp Require Import base list option strings sets tactics countable gmap fin_maps.
From S2P Require Import Prelude Clock Random Codec Keys Lfsr Amnezia Cps Config Packet Ip AllowedIps.
From S2P Require Import Session Handshake RateLimiter Timers Tunnel EventPoll TunnelIdentity TunnelSafe.
From S2P Require Import Device DeviceInv DeviceData DeviceLife DeviceStrip DeviceRoute.
Open Scope Z_scope.

Section serving.
Context `{CC : ChaCha20} `{B64 : Base64} `{NC : NoiseCrypto} `{AE : Aead} `{RS : RandomSource R}.
Context `{TB : IpNetworkTable}.
Implicit Types w : DWorld (R := R).

(** A tunnel a device may hold: it satisfies the contract of [TunnelSafe] at time
    [t], and the largest datagram has room for its padded keepalive. *)
Definition tunnel_fit (t : Z) (p : Peer) : Prop :=
  tunn_ok t (p_tunnel p)
  ∧ (∃ i cfg keys, identity i cfg keys (p_tunnel p) ∧ keepalive_room cfg MAX_UDP_SIZE)
  ∧ from_option u32range_ok True (p_keepalive_range p).

Record serving (t : Z) (d0 : Device) w : Prop := {
  sv_routes : routes (dev w) = routes d0;
  sv_tunnels : map_Forall (λ _, tunnel_fit t) (d_heap (dev w));
  sv_rng : rng_ok (drng w);
  sv_limiter l : d_rate_limiter (dev w) = Some l → is_Some (d_limiters (dev w) !! l)
}.

Lemma serving_later t t' d0 w : serving t d0 w → t ≤ t' → serving t' d0 w.
Proof.
  intros [] Ht. split; try done. intros id p Hp. destruct (sv_tunnels0 id p Hp) as [Hok Hid].
  split; [by eapply tunn_ok_later|done].
Qed.

Abbreviation never := (λ _ : DWorld (R := R), False).

(** A step that keeps serving. *)
Definition serves {A} (m : D (R := R) A) (t t' : Z) (d0 : Device) (Q : A → Prop) : Prop :=
  ∀ w, serving t d0 w → runs m w never (λ a w', serving t' d0 w' ∧ Q a).

Lemma serves_bind {A B} (m : D A) (f : A → D B) t t1 t2 d0 P Q :
  serves m t t1 d0 P → (∀ a, P a → serves (f a) t1 t2 d0 Q) → serves (m ≫= f) t t2 d0 Q.
Proof. intros Hm Hf w Hw. eapply runs_seq; [by apply Hm|]. intros a w' [Hw' Ha]. by apply Hf. Qed.
Lemma serves_ret {A} (a : A) t d0 (Q : A → Prop) : Q a → serves (mret a) t t d0 Q.
Proof. by intros Ha w Hw. Qed.
Lemma serves_weaken {A} (m : D A) t t1 t2 d0 (P Q : A → Prop) :
  serves m t t1 d0 P → t1 ≤ t2 → (∀ a, P a → Q a) → serves m t t2 d0 Q.
Proof.
  intros Hm Ht HQ w Hw. eapply runs_mono; [by apply Hm|]. intros a w' [Hw' Ha].
  split; [by eapply serving_later|by apply HQ].
Qed.
Lemma serves_from {A} (m : D A) t t1 t2 d0 (Q : A → Prop) : t ≤ t1 → serves m t1 t2 d0 Q → serves m t t2 d0 Q.
Proof. intros Ht Hm w Hw. apply Hm. by eapply serving_later. Qed.
Lemma serves_get {A} (f : Device → D A) t t' d0 Q :
  (∀ d, routes d = routes d0 → serves (f d) t t' d0 Q) → serves (d ← get_dev; f d) t t' d0 Q.
Proof. intros Hf w Hw. apply runs_bind, runs_gets. apply Hf; [apply Hw|done]. Qed.

(** ** A method of a tunnel *)
Definition fit_at (t : Z) (tw : World (R := R)) : Prop := tunn_ok t (tunn tw) ∧ rng_ok (rng tw).

Lemma in_heap d0 w id : routes (dev w) = routes d0 → is_Some (d_heap d0 !! id) → is_Some (d_heap (dev w) !! id).
Proof. intros Hr [p Hp]. destruct (routes_heap d0 (dev w) id p) as (p' & ? & _); [done|done|by exists p']. Qed.

Lemma on_tunnel_serves {A} id (m : T (R := R) A) t t' d0 (Q : A → Prop) (fails : Prop) :
  is_Some (d_heap d0 !! id) → t ≤ t' →
  (∀ i cfg keys, keeps (identity i cfg keys) m (λ _, True)) →
  (∀ tw, fit_at t tw → keepalive_room (tc (tunn tw)) MAX_UDP_SIZE → 
    runs m tw (λ tw', fit_at t' tw' ∧ fails) (λ a tw', fit_at t' tw' ∧ Q a)) →
  serves (on_tunnel id m) t t' d0 (λ r, match r with Ok a => Q a | Err _ => fails | Panic => False end).
Proof.
  intros Hid Ht Hkeeps Hm w Hw. destruct (in_heap d0 w id (sv_routes _ _ _ Hw) Hid) as [p Hp].
  unfold runs. pose proof (on_tunnel_routes id m w) as Hr. revert Hr. unfold on_tunnel. rewrite Hp.
  destruct (sv_tunnels _ _ _ Hw id p Hp) as (Hok & (i & cfg & keys & Hi & Hroom) & Hrange).
  set (tw := mkWorld (load_tunnel (dev w) p) (drng w)).
  assert (Hfit : fit_at t tw).
  { split; [|exact (sv_rng _ _ _ Hw)]. unfold tw, load_tunnel. cbn [tunn].
    destruct (p_limiter p ≫= _); [by apply ok_set_limiter|done]. }
  assert (Hload : identity i cfg keys (tunn tw)) by (by apply identity_load).
  specialize (Hm tw Hfit). rewrite (id_config _ _ _ _ Hload) in Hm. specialize (Hm Hroom). unfold runs in Hm.
  destruct (Hkeeps i cfg keys tw Hload) as [Hid' _]. destruct (m tw) as [r tw'].
  assert (Hserve : routes (save_tunnel id p (tunn tw') (dev w)) = routes (dev w) → fit_at t' tw' →
    serving t' d0 (mkDWorld (save_tunnel id p (tunn tw') (dev w)) (rng tw'))).
  { intros Hr [Hok' Hg']. split; [cbn; rewrite Hr; apply Hw| |done|].
    - intros id' q. assert (d_heap (dev (mkDWorld (save_tunnel id p (tunn tw') (dev w)) (rng tw')))
        = <[id := p_set_tunnel (tunn tw') p]> (d_heap (dev w))) as -> by (unfold save_tunnel; by destruct (p_limiter p)).
      intros [[-> <-]|[_ Hq]]%lookup_insert_Some; [split_and!; [done|by exists i, cfg, keys|done]|].
      destruct (sv_tunnels _ _ _ Hw id' q Hq). split; [by eapply tunn_ok_later|done].
    - intros l Hl. cbn. pose proof (sv_limiter _ _ _ Hw l) as Hlim. unfold save_tunnel in *.
      destruct (p_limiter p) as [l'|]; cbn in *; [|by apply Hlim].
      destruct (decide (l' = l)) as [->|]; [by rewrite lookup_insert_eq|]. rewrite lookup_insert_ne by done. by apply Hlim. }
  destruct r as [a|e|]; [|..|done]; intros Hr; cbn in Hr; destruct Hm as [Hm HQ]; (split; [by apply Hserve|done]).
Qed.

Lemma tunnel_call_serves id (m : T (R := R) TunnResult) t t' d0 (Q : TunnResult → Prop) :
  is_Some (d_heap d0 !! id) → t ≤ t' → (∀ e, Q (TErr e)) →
  (∀ i cfg keys, keeps (identity i cfg keys) m (λ _, True)) →
  (∀ tw, fit_at t tw → keepalive_room (tc (tunn tw)) MAX_UDP_SIZE → runs m tw (fit_at t') (λ a tw', fit_at t' tw' ∧ Q a)) →
  serves (tunnel_call id m) t t' d0 Q.
Proof.
  intros Hid Ht HQ Hk Hm. eapply serves_bind; [apply (on_tunnel_serves _ _ _ _ _ Q True); try done|].
  - intros tw Hf Hr. specialize (Hm tw Hf Hr). unfold runs in *. by destruct (m tw) as [[]].
  - intros [r|e|] Hr; [by apply serves_ret|by apply serves_ret|done].
Qed.

Lemma tunnel_do_serves {A} id (m : T (R := R) A) t t' d0 (Q : A → Prop) :
  is_Some (d_heap d0 !! id) → t ≤ t' →
  (∀ i cfg keys, keeps (identity i cfg keys) m (λ _, True)) →
  (∀ tw, fit_at t tw → runs m tw (λ _, False) (λ a tw', fit_at t' tw' ∧ Q a)) →
  serves (tunnel_do id m) t t' d0 Q.
Proof.
  intros Hid Ht Hk Hm. eapply serves_bind; [apply (on_tunnel_serves _ _ _ _ _ Q False); try done|].
  - intros tw Hf _. specialize (Hm tw Hf). unfold runs in *. by destruct (m tw) as [[]].
  - intros [r|e|] Hr; [by apply serves_ret|done..].
Qed.

Lemma lock_serves id t d0 :
  is_Some (d_heap d0 !! id) → serves (lock_peer id) t t d0 (λ _, True).
Proof.
  intros Hid w Hw. destruct (in_heap d0 w id (sv_routes _ _ _ Hw) Hid) as [p Hp].
  unfold runs, lock_peer, mbind, ST_bind, get_dev, gets. by rewrite Hp.
Qed.

(** A new endpoint for a locked peer. *)
Lemma store_endpoint_serving t d0 w id p e :
  serving t d0 w → d_heap (dev w) !! id = Some p →
  serving t d0 (mkDWorld (d_set_heap (<[id := p_set_endpoint e p]> (d_heap (dev w))) (dev w)) (drng w)).
Proof.
  intros [Hr Ht Hg Hl] Hp. split; [|..|done|done]; cbn [dev drng].
  - by rewrite (routes_store (dev w) id p).
  - intros id' q. cbn. intros [[-> <-]|[_ Hq]]%lookup_insert_Some; [exact (Ht id' p Hp)|exact (Ht id' q Hq)].
Qed.

(** ** System calls that succeed *)

(** What the [unwrap]s and [expect]s of the data path need of the host. *)
Record host_works (h : Host) : Prop := {
  hw_shutdown s : h_shutdown h s = true;
  hw_connect a port mark : h_connect h a port mark ≠ Panic;
  hw_clone s : is_Some (h_clone h s);
  hw_epoll fd : h_epoll_add h fd = true
}.

Section host.
Context (h : Host) (Hh : host_works h).

Lemma shutdown_serves id t d0 : is_Some (d_heap d0 !! id) → serves (shutdown_endpoint h id) t t d0 (λ _, True).
Proof.
  intros Hid w Hw. destruct (in_heap d0 w id (sv_routes _ _ _ Hw) Hid) as [p Hp].
  unfold runs. pose proof (shutdown_endpoint_spec h id w) as Hs.
  destruct (shutdown_endpoint h id w) as [[[]|e|] w'] eqn:E; [|done|].
  - destruct Hs as (q & Hq & ->). split; [|done]. by apply store_endpoint_serving.
  - revert E. unfold shutdown_endpoint, lock_peer, mbind, ST_bind, get_dev, gets. rewrite Hp. cbn.
    destruct (ep_conn (p_endpoint p)); [|done]. unfold assert_dev. by rewrite (hw_shutdown h Hh).
Qed.

Lemma set_endpoint_serves id addr t d0 :
  is_Some (d_heap d0 !! id) →
  ∀ w, serving t d0 w → runs (set_endpoint h id addr) w never (λ _ w', serving t d0 w' ∧
    ∃ p, d_heap (dev w') !! id = Some p ∧ ep_addr (p_endpoint p) = Some addr).
Proof.
  intros Hid w Hw. destruct (in_heap d0 w id (sv_routes _ _ _ Hw) Hid) as [p Hp].
  unfold set_endpoint. apply runs_bind. unfold runs at 1, lock_peer, mbind at 1, ST_bind, get_dev, gets.
  rewrite Hp. cbn [must_dev mret ST_ret]. case_decide as Ha; [split; [done|by exists p]|].
  apply runs_bind. pose proof (shutdown_serves id t d0 Hid w Hw) as Hs. pose proof (shutdown_endpoint_spec h id w) as Hspec.
  unfold runs in *. destruct (shutdown_endpoint h id w) as [[[]|e|] w1]; [|done..].
  destruct Hspec as (q & Hq & ->). rewrite Hp in Hq. injection Hq as <-.
  unfold store_peer, upd_dev, modify, mbind, ST_bind. cbv beta iota. split.
  - set (w1 := mkDWorld _ _) in *.
    apply (store_endpoint_serving t d0 w1 id (p_set_endpoint (mkEndpoint (ep_addr (p_endpoint p)) None) p)
      (mkEndpoint (Some addr) None)); [apply Hs|]. cbn. by rewrite lookup_insert_eq.
  - eexists. cbn. rewrite lookup_insert_eq. done.
Qed.

(** The peer is there and has an address. *)
Definition addressed (id : nat) w : Prop := ∃ p, d_heap (dev w) !! id = Some p ∧ is_Some (ep_addr (p_endpoint p)).

Lemma reset_window_runs id t d0 w :
  is_Some (d_heap d0 !! id) → serving t d0 w → addressed id w →
  runs (tunnel_do id reset_udp_window) w never (λ _ w', serving t d0 w' ∧ addressed id w').
Proof.
  intros Hid Hw (p & Hp & Ha).
  pose proof (tunnel_do_serves id reset_udp_window t t d0 (λ _, True) Hid ltac:(lia)) as Hs.
  specialize (Hs ltac:(intros; by apply upd_keeps)).
  specialize (Hs ltac:(intros tw [Hok Hg]; split; [split; [by apply ok_set_window|done]|done]) w Hw).
  pose proof (on_tunnel_endpoints id reset_udp_window w) as He. unfold runs in *. revert Hs.
  unfold tunnel_do, mbind, ST_bind. destruct (on_tunnel id reset_udp_window w) as [[[a|e|]|e|] w']; try done.
  intros [Hs _]. split; [done|]. cbn in He.
  destruct (endpoints_heap (dev w') (dev w) id p) as (p' & Hp' & E); [done|done|]. exists p'. by rewrite E.
Qed.

Lemma connect_runs id port mark t d0 w :
  is_Some (d_heap d0 !! id) → serving t d0 w → addressed id w →
  runs (attempt (connect_endpoint h id port mark)) w never (λ r w', serving t d0 w').
Proof.
  intros Hid Hw (p & Hp & [addr Ha]). unfold runs, attempt, connect_endpoint, lock_peer, mbind, ST_bind, get_dev, gets.
  rewrite Hp. cbn. destruct (ep_conn (p_endpoint p)); [done|]. rewrite Ha. cbn. unfold lift.
  pose proof (hw_connect h Hh addr port mark) as Hc. destruct (h_connect h addr port mark) as [sock|e|]; [|done..].
  destruct (hw_clone h Hh sock) as [fd ->]. cbn. by apply store_endpoint_serving.
Qed.

Lemma register_serves fd hd t d0 : serves (attempt (register h fd hd)) t t d0 (λ r, ∃ u, r = Ok u).
Proof.
  intros w [Hr Ht Hg Hl]. unfold runs, attempt, register, mbind, ST_bind, get_dev, gets, new_event, register_event.
  rewrite (hw_epoll h Hh). cbn. split; [|by eexists]. by split.
Qed.

Lemma adopt_serves d id addr t d0 :
  is_Some (d_heap d0 !! id) → serves (adopt_endpoint h d id addr) t t d0 (λ _, True).
Proof.
  intros Hid w Hw. unfold adopt_endpoint. eapply runs_seq; [by apply set_endpoint_serves|].
  intros changed w1 [Hw1 (p & Hp & Ha)].
  eapply (runs_seq _ _ _ _ (λ _ w', serving t d0 w' ∧ addressed id w')).
  { assert (addressed id w1) by (exists p; by rewrite Ha). destruct changed; [by apply reset_window_runs|done]. }
  intros _ w2 [Hw2 Hadd]. destruct (d_use_connected_socket d); [|done].
  eapply runs_seq; [by apply connect_runs|]. intros [sock|e|] w3 Hw3; [|done..].
  unfold register_conn_handler. eapply (serves_bind _ _ _ _ _ _ (λ r, ∃ u, r = Ok u) (λ _, True)); [apply register_serves| |exact Hw3].
  intros r [u ->]. by apply serves_ret.
Qed.
End host.


(** ** The clock of a call *)

(** The readings of a call go up, from [t] to [t']. *)
Record clock (t t' : Z) (env : nat → Env) : Prop := {
  ck_start : t ≤ now (env O);
  ck_step i : now (env i) ≤ now (env (S i));
  ck_end i : now (env i) ≤ t'
}.

Lemma clock_at t t' env i : clock t t' env → t ≤ now (env i).
Proof. intros [H0 Hs _]. induction i as [|i IH]; [done|]. specialize (Hs i). lia. Qed.
Lemma clock_tail t t' env i : clock t t' env → clock (now (env i)) t' (λ j, env (S (i + j))%nat).
Proof.
  intros [H0 Hs He]. split; [by rewrite Nat.add_0_r| |done]. intros j. by rewrite <- Nat.add_succ_comm.
Qed.
Lemma clock_le t t' env : clock t t' env → t ≤ t'.
Proof. intros [H0 _ He]. specialize (He O). lia. Qed.

Lemma flush_serves env id t t' d0 :
  is_Some (d_heap d0 !! id) → clock t t' env → serves (tunnel_do id (flush env)) t t' d0 (λ _, True).
Proof.
  intros Hid Hc. apply tunnel_do_serves; [done|by eapply clock_le|intros; apply flush_keeps|].
  intros tw [Hok Hg]. destruct (flush_runs env tw) as (sent & tw' & j & E & _ & [Hok' Hg']).
  - split; [|done]. eapply tunn_ok_later; [done|apply Hc].
  - apply Hc.
  - unfold runs. rewrite E. split; [|done]. split; [|done]. eapply tunn_ok_later; [done|apply Hc].
Qed.

Lemma send_and_flush_serves env id send result t t' d0 :
  is_Some (d_heap d0 !! id) → clock t t' env →
  serves (send_and_flush env id send result) t t' d0 (λ _, True).
Proof.
  intros Hid Hc. pose proof (clock_le _ _ _ Hc).
  destruct result; try (eapply serves_weaken; [by apply (serves_ret _ _ _ (λ _, True))|done|done]).
  unfold send_and_flush. eapply serves_bind; [by apply flush_serves|]. intros a ?. by apply serves_ret.
Qed.

(** ** One datagram *)
Lemma stripped_sound c k src :
  bytes_ok src → (ck_padding (check_of c k) + ck_size (check_of c k) ≤ length src)%nat →
  bytes_ok (stripped c (check_of c k) src) ∧ (length (stripped c (check_of c k) src) ≤ length src)%nat.
Proof.
  intros Hb Hl. unfold stripped. destruct (ck_exact _).
  - split; [|rewrite length_protect, length_take, length_drop; lia].
    unfold protect. destruct (pc_header_protection c); auto with awg.
  - unfold mask_of. destruct (pc_header_protection c); cbn; [case_decide|]; split; auto with awg;
      rewrite ?length_xor_into, length_drop; lia.
Qed.

Lemma strip_total a src w :
  config_ok a → bytes_ok src →
  ∃ m, strip_datagram a src w = (Ok m, w) ∧ bytes_ok m ∧ (length m ≤ length src)%nat.
Proof.
  intros Ha Hb. destruct (PacketClassifier_classify (PacketClassifier_from_config a) src) as [[cl|]|e|] eqn:Hc;
    [..|by rewrite classify_eq in Hc|by rewrite classify_eq in Hc].
  - pose proof Hc as (k & -> & Hsize & _)%classify_inv. eexists. split; [|by apply stripped_sound].
    apply strip_datagram_row; [done|done|]. intros hp. cbn. unfold Amnezia3Config_header_protection.
    destruct (header_protection_key a) as [key|] eqn:Ek; [|done]. intros _.
    destruct (config_ok_paddings a key Ha Ek) as (?&?&?&?). destruct k; cbn; lia.
  - exists src. split; [by apply strip_datagram_none|done].
Qed.

Lemma verify_datagram_serves env a l addr m t d0 w :
  bytes_ok m → serving t d0 w → d_rate_limiter (dev w) = Some l →
  runs (verify_datagram env a l addr m) w never (λ v w', serving t d0 w' ∧ verdict_ok (length m) v).
Proof.
  intros Hm [Hr Ht Hg Hl] Hlim. unfold runs, verify_datagram. destruct (Hl l Hlim) as [rl ->].
  pose proof (verify_packet_ok rl (Some addr) m COOKIE_REPLY_SZ (headers a) (disable_cookies a) (now env) (drng w)
    Hm Hg ltac:(done)) as Hv.
  destruct (verify_packet _ _ _ _ _ _ _ _) as [[v rl'] g]. destruct Hv as [Hv Hg']. split; [|done].
  split; cbn; try done. intros l' Hl'. destruct (decide (l = l')) as [->|]; [by rewrite lookup_insert_eq|].
  rewrite lookup_insert_ne by done. by apply Hl.
Qed.

Lemma frame_cookie_serves a c t d0 : config_ok a → serves (frame_cookie a c) t t d0 (λ _, True).
Proof.
  intros Ha. unfold frame_cookie. case_decide; [by apply serves_ret|].
  eapply (serves_bind _ _ _ _ _ _ (λ p, length p = Z.to_nat (s3 (paddings a)))).
  { intros w [Hr Ht Hg Hl]. unfold runs, draw. case_decide; [|cbn; split; [by split|lia]].
    pose proof (fill_bytes_inv (Z.to_nat (s3 (paddings a))) (drng w) Hg) as Hi.
    pose proof (fill_bytes_length (Z.to_nat (s3 (paddings a))) (drng w) Hg) as Hlen.
    destruct (fill_bytes _ (drng w)) as [b g]. split; [by split|done]. }
  intros prefix Hp. unfold Amnezia3Config_header_protection.
  destruct (header_protection_key a) as [key|] eqn:Ek; [|by apply serves_ret]. cbn.
  destruct (config_ok_paddings a key Ha Ek) as (_ & _ & H12 & _).
  intros w Hw. unfold runs, mbind, ST_bind, lift.
  rewrite HeaderProtection_apply_eq by (unfold HEADER_PROTECTION_NONCE_SIZE; lia). done.
Qed.

(** A message that [verify_packet] let through. *)
Lemma handle_verified_fit env p t tw :
  t = now env → fit_at t tw → keepalive_room (tc (tunn tw)) MAX_UDP_SIZE → payload_fits MAX_UDP_SIZE p →
  runs (handle_verified_packet env p MAX_UDP_SIZE) tw (fit_at t) (λ _ tw', fit_at t tw' ∧ True).
Proof.
  intros -> Hf Hr Hp. eapply runs_mono; [by apply handle_verified_packet_runs|]. intros r tw' [Hok _]. done.
Qed.

(** Every peer a message can be for is in the heap. *)
Lemma find_peer_in_heap d sk pk packet id : device_ok d → find_peer d sk pk packet = Some id → is_Some (d_heap d !! id).
Proof.
  intros [_ _ [M1 _ M3 _ _]]. assert (Hk : ∀ k, d_peers d !! k = Some id → is_Some (d_heap d !! id)).
  { intros k Hk. destruct (M1 k id Hk) as (p & Hp & _). by exists p. }
  assert (Hi : ∀ i, d_peers_by_idx d !! i = Some id → is_Some (d_heap d !! id)).
  { intros i Hi. destruct (M3 i id Hi) as (k & p & _ & Hp & _). by exists p. }
  destruct packet; cbn [find_peer]; [|apply Hi..]. destruct (parse_handshake_anon sk pk p); [apply Hk|done..].
Qed.

Lemma find_peer_routes d d0 sk pk packet : routes d = routes d0 → find_peer d sk pk packet = find_peer d0 sk pk packet.
Proof. intros [= H1 H2 _ _ _ _ _ _ _ _ _ _]. unfold find_peer. by rewrite H1, H2. Qed.

Lemma udp_verified_serves h d sk pk udp addr packet t t' d0 :
  host_works h → clock t t' (h_env h) → device_ok d0 → routes d = routes d0 → payload_fits MAX_UDP_SIZE packet →
  serves (udp_verified h d sk pk udp addr packet) t t' d0 (λ _, True).
Proof.
  intros Hh Hc Hd0 Hd Hp. pose proof (clock_le _ _ _ Hc). pose proof (clock_at _ _ _ 1 Hc). pose proof (ck_end _ _ _ Hc 1).
  assert (Hquit : ∀ x, serves (mret x : D (R := R) (list Output * bool)) (now (h_env h 1)) t' d0 (λ _, True)).
  { intros x. eapply serves_weaken; [by apply (serves_ret _ _ _ (λ _, True))|done|done]. }
  unfold udp_verified. rewrite (find_peer_routes _ _ _ _ _ Hd).
  destruct (find_peer d0 sk pk packet) as [id|] eqn:Hf; [|apply (serves_from _ _ (now (h_env h 1))); [done|apply Hquit]].
  apply find_peer_in_heap in Hf; [|done].
  eapply (serves_bind _ _ _ (now (h_env h 1)) _ _ (λ _, True)).
  { apply (serves_from _ _ (now (h_env h 1))); [done|].
    apply tunnel_call_serves; [done|lia|done|intros; apply handle_verified_keeps|].
    intros tw Hfit Hroom. by apply handle_verified_fit. }
  intros result _. assert (Hgo : serves (p ← lock_peer id;
    out ← send_and_flush (λ i, h_env h (S (S i))) id (λ b, SendTo udp b addr) result;
    _ ← adopt_endpoint h d id addr; mret (out ++ deliver p result, true)) (now (h_env h 1)) t' d0 (λ _, True)).
  { eapply serves_bind; [by apply lock_serves|]. intros p _.
    eapply serves_bind; [apply send_and_flush_serves; [done|exact (clock_tail _ _ _ 1 Hc)]|]. intros out _.
    eapply serves_bind; [by apply adopt_serves|]. intros _ _. by apply serves_ret. }
  destruct result; [exact Hgo|apply Hquit|exact Hgo..].
Qed.

Lemma udp_packet_serves h sk pk l udp src addr t t' d0 :
  host_works h → clock t t' (h_env h) → device_ok d0 → d_rate_limiter d0 = Some l →
  bytes_ok src → (length src ≤ MAX_UDP_SIZE)%nat →
  serves (udp_packet h sk pk l udp src addr) t t' d0 (λ _, True).
Proof.
  intros Hh Hc Hd0 Hlim Hb Hl. pose proof (clock_le _ _ _ Hc) as Hle. unfold udp_packet.
  apply serves_get. intros d Hd.
  assert (Ham : config_ok (d_amnezia d)).
  { injection Hd as _ _ _ _ _ E _ _ _ _ _ _. rewrite E. apply Hd0. }
  eapply (serves_bind _ _ _ t _ _ (λ m, bytes_ok m ∧ (length m ≤ length src)%nat)).
  { intros w Hw. destruct (strip_total (d_amnezia d) src w Ham Hb) as (m & E & Hm). unfold runs. by rewrite E. }
  intros m [Hm Hml]. eapply (serves_bind _ _ _ t _ _ (verdict_ok (length m))).
  { intros w Hw. apply verify_datagram_serves; [done|done|].
    pose proof (sv_routes _ _ _ Hw) as Hr. injection Hr as _ _ _ _ _ _ _ _ _ _ E _. by rewrite E. }
  assert (Hquit : ∀ x, serves (mret x : D (R := R) (list Output * bool)) t t' d0 (λ _, True)).
  { intros x. eapply serves_weaken; [by apply (serves_ret _ _ _ (λ _, True))|done|done]. }
  intros [parsed|r|] Hv; [|destruct r; try done; try apply Hquit|done].
  - apply udp_verified_serves; try done. eapply verdict_payload_fits; [exact Hv|lia].
  - eapply serves_bind; [by apply frame_cookie_serves|]. intros reply _. apply Hquit.
Qed.

(** ** One packet of a connected socket, of the interface, of the timer *)
Lemma conn_packet_serves h id udp addr src t t' d0 :
  clock t t' (h_env h) → is_Some (d_heap d0 !! id) → bytes_ok src → (length src ≤ MAX_UDP_SIZE)%nat →
  serves (conn_packet h id udp addr src) t t' d0 (λ _, True).
Proof.
  intros Hc Hid Hb Hl. unfold conn_packet.
  eapply (serves_bind _ _ _ (now (h_env h 0)) _ _ (λ _, True)).
  { apply (serves_from _ _ (now (h_env h 0))); [apply Hc|].
    apply tunnel_call_serves; [done|lia|done|intros; apply decapsulate_keeps|].
    intros tw Hfit Hroom. eapply runs_mono; [by apply decapsulate_runs|]. intros r tw' [Hok _]. done. }
  intros result _. eapply serves_bind; [by apply lock_serves|]. intros p _.
  eapply serves_bind; [apply send_and_flush_serves; [done|exact (clock_tail _ _ _ 0 Hc)]|]. intros out _.
  by apply serves_ret.
Qed.

Lemma update_timers_quiet env n : yields (S := World (R := R)) (update_timers env n) (λ r, tunnel_write r = None).
Proof.
  unfold update_timers. repeat match goal with
  | |- yields (mbind _ _) _ => apply yields_bind; intros ?
  | |- yields (mret _) _ => by apply yields_ret
  | |- yields (encapsulate _ _ _) _ => apply encapsulate_quiet
  | |- yields (Tunn_format_handshake_initiation _ _ _) _ => apply initiation_quiet
  | |- yields (match ?x with _ => _ end) _ => destruct x
  end.
Qed.

(** A method and what it queued; its result is not for the interface. *)
Lemma call_and_drain_serves id (m : T (R := R) TunnResult) env t d0 :
  is_Some (d_heap d0 !! id) → t ≤ now env → (∀ i cfg keys, keeps (identity i cfg keys) m (λ _, True)) →
  yields m (λ r, tunnel_write r = None) →
  (∀ tw, ok env tw → runs m tw (λ _, False) (outcome env MAX_UDP_SIZE)) →
  serves (call_and_drain id m) t (now env) d0 (λ '(r, _), tunnel_write r = None).
Proof.
  intros Hid Ht Hk Hq Hm. apply (serves_from _ _ (now env)); [done|]. unfold call_and_drain.
  eapply (serves_bind _ _ _ (now env) _ _ (λ r, tunnel_write r = None)).
  { apply tunnel_call_serves; [done|lia|done|done|]. intros tw Hfit _. specialize (Hm tw Hfit). specialize (Hq tw).
    unfold runs in *. destruct (m tw) as [[r|e|] tw']; [|done..]. split; [apply Hm|by eapply Hq]. }
  intros r Hr. eapply (serves_bind _ _ _ (now env) _ _ (λ _, True)).
  { destruct r; try (by apply serves_ret). apply tunnel_do_serves; [done|lia|intros; apply drain_keeps|].
    intros tw [Hok Hg]. unfold runs. rewrite drain_outgoing_eq. split; [|done]. split; [by apply ok_set_outgoing|done]. }
  intros queued _. by apply serves_ret.
Qed.

Lemma iface_packet_serves h u4 u6 src t d0 :
  t ≤ now (h_env h 0) → device_ok d0 →
  serves (iface_packet h u4 u6 src) t (now (h_env h 0)) d0 (λ _, True).
Proof.
  intros Ht Hd0. unfold iface_packet. apply serves_get. intros d Hd.
  assert (Hquit : ∀ x, serves (mret x : D (R := R) (list Output)) t (now (h_env h 0)) d0 (λ _, True)).
  { intros x. eapply serves_weaken; [by apply (serves_ret _ _ _ (λ _, True))|done|done]. }
  destruct (dst_address src ≫= _) as [id|] eqn:Hf; [|apply Hquit].
  assert (Hid : is_Some (d_heap d0 !! id)).
  { injection Hd as _ _ E _ _ _ _ _ _ _ _ _. rewrite E in Hf. destruct (dst_address src) as [dst|]; [|done]. cbn in Hf.
    destruct Hd0 as [_ _ [M1 _ _ M4 _]]. unfold AllowedIps_find in Hf.
    destruct (longest_match _ dst) as [[net x]|] eqn:El; [|done]. injection Hf as ->.
    apply longest_match_some in El as [El _]. destruct (M4 net id El) as [k Hk].
    destruct (M1 k id Hk) as (p & Hp & _). by exists p. }
  eapply serves_bind; [apply call_and_drain_serves; [done|done|intros; apply encapsulate_keeps
    |apply encapsulate_quiet|intros; by apply encapsulate_runs]|].
  intros [r queued] Hr. destruct r; try done; try (by apply serves_ret).
  eapply serves_bind; [by apply lock_serves|]. intros p _. by apply serves_ret.
Qed.

Lemma peer_timer_serves h u4 u6 i e t d0 :
  host_works h → t ≤ now (h_env h i) → is_Some (d_heap d0 !! e.2) →
  serves (peer_timer h u4 u6 i e) t (now (h_env h i)) d0 (λ _, True).
Proof.
  intros Hh Ht Hid. unfold peer_timer. eapply serves_bind; [by apply lock_serves|]. intros p _.
  destruct (ep_addr (p_endpoint p)) as [addr|];
    [|eapply serves_weaken; [by apply (serves_ret _ _ _ (λ _, True))|done|done]].
  eapply serves_bind; [apply call_and_drain_serves; [done|done|intros; apply update_timers_keeps
    |apply update_timers_quiet|intros; by apply update_timers_runs]|].
  intros [r queued] Hr. destruct r as [|err| | |]; try done; try (by apply serves_ret).
  destruct err; try (by apply serves_ret).
  eapply serves_bind; [by apply shutdown_serves|]. intros _ _. by apply serves_ret.
Qed.

(** ** The loops *)

(** The calls of a handler, one after the other. *)
Definition clocks (τ : nat → Z) (h : nat → Host) : Prop := ∀ i, host_works (h i) ∧ clock (τ i) (τ (S i)) (h_env (h i)).

Lemma serves_quit {A} (x : A) t t' d0 : t ≤ t' → serves (mret x) t t' d0 (λ _, True).
Proof. intros. eapply serves_weaken; [by apply (serves_ret _ _ _ (λ _, True))|done|done]. Qed.

Lemma clocks_le τ h i n : clocks τ h → τ i ≤ τ (i + n)%nat.
Proof.
  intros Hc. induction n as [|n IH]; [by rewrite Nat.add_0_r|]. rewrite Nat.add_succ_r.
  destruct (Hc (i + n)%nat) as [_ Hk]. apply clock_le in Hk. lia.
Qed.

Definition datagram_ok (src : bytes) : Prop := bytes_ok src ∧ (length src ≤ MAX_UDP_SIZE)%nat.

Lemma udp_loop_serves τ h sk pk l udp i iter rx d0 :
  clocks τ h → device_ok d0 → d_rate_limiter d0 = Some l → Forall (λ x, datagram_ok x.1) rx →
  serves (udp_loop h sk pk l udp i iter rx) (τ i) (τ (i + length rx)%nat) d0 (λ _, True).
Proof.
  intros Hc Hd0 Hl Hrx. revert i iter. induction Hrx as [|[src addr] rx [Hb Hs] _ IH]; intros i iter; cbn [udp_loop length].
  { apply serves_quit. by apply (clocks_le _ h). }
  destruct (Hc i) as [Hh Hk]. rewrite Nat.add_succ_r, <- Nat.add_succ_l.
  eapply serves_bind; [by apply udp_packet_serves|]. intros [out n] _. cbn zeta.
  destruct (n && _); [apply serves_quit; by apply (clocks_le _ h)|].
  eapply serves_bind; [apply IH|]. intros rest _. by apply serves_ret.
Qed.

Lemma conn_loop_serves τ h id udp addr i iter rx d0 :
  clocks τ h → is_Some (d_heap d0 !! id) → Forall datagram_ok rx →
  serves (conn_loop h id udp addr i iter rx) (τ i) (τ (i + length rx)%nat) d0 (λ _, True).
Proof.
  intros Hc Hid Hrx. revert i iter. induction Hrx as [|src rx [Hb Hs] _ IH]; intros i iter; cbn [conn_loop length].
  { apply serves_quit. by apply (clocks_le _ h). }
  destruct (Hc i) as [Hh Hk]. rewrite Nat.add_succ_r, <- Nat.add_succ_l.
  eapply serves_bind; [by apply conn_packet_serves|]. intros out _.
  case_decide; [apply serves_quit; by apply (clocks_le _ h)|].
  eapply serves_bind; [apply IH|]. intros rest _. by apply serves_ret.
Qed.

Lemma iface_loop_serves τ h u4 u6 i n rx d0 :
  clocks τ h → device_ok d0 → serves (iface_loop h u4 u6 i n rx) (τ i) (τ (i + length rx)%nat) d0 (λ _, True).
Proof.
  intros Hc Hd0. revert i n. induction rx as [|[src| |] rx IH]; intros i [|n]; cbn [iface_loop length];
    try (apply serves_quit; by apply (clocks_le _ h)).
  destruct (Hc i) as [Hh Hk]. rewrite Nat.add_succ_r, <- Nat.add_succ_l.
  eapply serves_bind; [apply iface_packet_serves; [apply Hk|done]|]. intros out _.
  apply (serves_from _ _ (τ (S i))); [apply Hk|]. eapply serves_bind; [apply IH|]. intros [rest action] _. by apply serves_ret.
Qed.

Lemma timer_loop_serves h u4 u6 i l t t' d0 :
  host_works h → clock t t' (h_env h) → Forall (λ e, is_Some (d_heap d0 !! e.2)) l →
  ∀ t0, t0 ≤ now (h_env h i) → serves (timer_loop h u4 u6 i l) t0 t' d0 (λ _, True).
Proof.
  intros Hh Hc Hl. revert i. induction Hl as [|e l He _ IH]; intros i t0 Ht0; cbn [timer_loop].
  { apply serves_quit. pose proof (ck_end _ _ _ Hc i). lia. }
  eapply serves_bind; [by apply peer_timer_serves|]. intros out _.
  eapply serves_bind; [apply IH, Hc|]. intros rest _. by apply serves_ret.
Qed.
End serving.
