(* ===== verification/DeviceServe.v ===== *)
(** * DeviceServe: a configured device keeps serving

    [DeviceSafe] shows that traffic does not panic a device whose tunnels satisfy
    their contract.  Here every operation of the device is shown to leave such a
    device: building, rebuilding and rekeying tunnels, removing peers, sockets,
    timers.  So from a new device on, whatever configuration and traffic it has
    seen, the next packet of the network or of the interface is handled. *)

From Stdlib Require Import ZArith Lia.
From stdpp Require Import base list option strings sets tactics countable gmap fin_maps.
From S2P Require Import Prelude Clock Random Codec Keys Lfsr Amnezia Cps Config Packet Ip AllowedIps.
From S2P Require Import Session Handshake RateLimiter Timers Tunnel EventPoll TunnelIdentity TunnelSafe.
From S2P Require Import Device DeviceInv DeviceData DeviceLife DeviceRoute DeviceSafe.
Open Scope Z_scope.

Section fitness.
Context `{CC : ChaCha20} `{B64 : Base64} `{NC : NoiseCrypto} `{AE : Aead} `{RS : RandomSource R}.
Context `{TB : IpNetworkTable}.
Implicit Types w : DWorld (R := R).

(** A configuration a tunnel can be built from, whose padded keepalive fits the
    largest datagram. *)
Definition serviceable (a : Amnezia3Config) : Prop := usable a ∧ keepalive_room (config_of a) MAX_UDP_SIZE.

Record fit (t : Z) w : Prop := {
  ft_tunnels : map_Forall (λ _, tunnel_fit t) (d_heap (dev w));
  ft_rng : rng_ok (drng w);
  ft_limiter l : d_rate_limiter (dev w) = Some l → is_Some (d_limiters (dev w) !! l);
  ft_lfsr : lfsr_ok (d_next_index (dev w));
  ft_config : serviceable (d_amnezia (dev w))
}.

Lemma tunnel_fit_later t t' p : tunnel_fit t p → t ≤ t' → tunnel_fit t' p.
Proof. intros [Hok Hr] Ht. split; [by eapply tunn_ok_later|done]. Qed.
Lemma fit_later t t' w : fit t w → t ≤ t' → fit t' w.
Proof. intros [] Ht. split; try done. intros id p Hp. by eapply tunnel_fit_later, Ht; eauto. Qed.

(** [m] leaves a fit device unless it panics. *)
Definition fkeeps {A} (m : D (R := R) A) (t t' : Z) : Prop :=
  ∀ w, fit t w → match m w with (Panic, _) => True | (_, w') => fit t' w' end.

Lemma fkeeps_bind {A B} (m : D A) (f : A → D B) t t1 t2 :
  t1 ≤ t2 → fkeeps m t t1 → (∀ a, fkeeps (f a) t1 t2) → fkeeps (m ≫= f) t t2.
Proof.
  intros Ht Hm Hf w Hw. specialize (Hm w Hw). unfold mbind, ST_bind.
  destruct (m w) as [[a|e|] w1]; [by apply Hf|by eapply fit_later|done].
Qed.
Lemma fkeeps_seq {A B} (m : D A) (f : A → D B) t t' : t ≤ t' → fkeeps m t t → (∀ a, fkeeps (f a) t t') → fkeeps (m ≫= f) t t'.
Proof. apply fkeeps_bind. Qed.
Lemma fkeeps_pure {A} (m : D A) t t' : t ≤ t' → (∀ w, (m w).2 = w) → fkeeps m t t'.
Proof.
  intros Ht Hm w Hw. specialize (Hm w). destruct (m w) as [[] w']; cbn in Hm; subst; [|..|done]; by eapply fit_later.
Qed.
Lemma fkeeps_upd f t : (∀ w, fit t w → fit t (mkDWorld (f (dev w)) (drng w))) → fkeeps (upd_dev f) t t.
Proof. intros Hf w Hw. by apply Hf. Qed.

(** Updates that touch neither tunnels, limiters, the configuration nor the
    index generator. *)
Definition fit_part (d : Device) := (d_heap d, d_rate_limiter d, d_limiters d, d_next_index d, d_amnezia d).
Lemma fit_same t w d : fit t w → fit_part d = fit_part (dev w) → fit t (mkDWorld d (drng w)).
Proof. intros [] [= E1 E2 E3 E4 E5]. split; cbn; rewrite ?E1, ?E2, ?E3, ?E4, ?E5; done. Qed.
Lemma fkeeps_same f t : (∀ d, fit_part (f d) = fit_part d) → fkeeps (upd_dev f) t t.
Proof. intros Hf. apply fkeeps_upd. intros w Hw. by apply fit_same. Qed.

(** A peer's new state. *)
Lemma fit_store t w id p :
  fit t w → tunnel_fit t p → fit t (mkDWorld (d_set_heap (<[id := p]> (d_heap (dev w))) (dev w)) (drng w)).
Proof. intros [] Hp. split; cbn; try done. by apply map_Forall_insert_2. Qed.

Lemma fkeeps_lock {A} id (f : Peer → D (R := R) A) t t' :
  (∀ w p, fit t w → d_heap (dev w) !! id = Some p → match f p w with (Panic, _) => True | (_, w') => fit t' w' end) →
  fkeeps (p ← lock_peer id; f p) t t'.
Proof.
  intros Hf w Hw. unfold lock_peer, mbind, ST_bind, get_dev, gets.
  destruct (d_heap (dev w) !! id) as [p|] eqn:Hp; [|done]. by apply Hf.
Qed.

(** A walk: the [i]-th turn takes the device to [τ i] or later. *)
Lemma fkeeps_for {A} (l : list A) (body : nat → A → D (R := R) ()) (τ : nat → Z) t' i t :
  (∀ j, τ j ≤ t') → (∀ j x t0, t0 ≤ τ j → fkeeps (body j x) t0 (τ j)) → (∀ j, τ j ≤ τ (S j)) →
  t ≤ τ i → fkeeps (for_each l i body) t t'.
Proof.
  intros He Hb Hs. revert i t. induction l as [|x l IH]; intros i t Ht; cbn [for_each].
  { apply fkeeps_pure; [|done]. specialize (He i). lia. }
  eapply fkeeps_bind; [apply (He i)|by apply Hb|]. intros _. apply IH. apply Hs.
Qed.

(** ** Traffic *)
Lemma fit_serving t w : fit t w → serving t (dev w) w.
Proof. by intros []. Qed.
Lemma serving_fit t t' w w' : fit t w → serving t' (dev w) w' → fit t' w'.
Proof.
  intros [] [Hr Ht Hg Hl]. injection Hr as _ _ _ _ _ Ea _ _ _ _ _ El. split; try done; [by rewrite El|by rewrite Ea].
Qed.
Lemma serves_fkeeps {A} (m : D (R := R) A) t t' Q :
  (∀ w, fit t w → serves m t t' (dev w) Q) → fkeeps m t t'.
Proof.
  intros Hm w Hw. specialize (Hm w Hw w (fit_serving _ _ Hw)). unfold runs in Hm.
  destruct (m w) as [[a|e|] w']; [|done..]. by eapply serving_fit, Hm.
Qed.

(** ** Tunnels *)
Lemma serviceable_range r d :
  serviceable (d_amnezia d) → from_option u32range_ok True r →
  Amnezia3Config_validate (with_keepalive_range r (peer_amnezia_config d)) = Ok () →
  usable (with_keepalive_range r (peer_amnezia_config d)).
Proof.
  intros [[[Hf _] Hch] _] Hr Hv. split; [split; [|done]|by destruct r].
  assert (Hf' : fields_ok (peer_amnezia_config d)).
  { destruct Hf. split; try done. cbn. unfold wrap. apply Z.mod_pos_bound. lia. }
  destruct r as [r|]; [|done]. destruct Hf'. split; try done. cbn.
  destruct fo_timing as (?&?&?&?&?&?). by split_and!.
Qed.

Lemma next_index_fit w t :
  fit t w →
  match Device_next_index w with
  | (Ok i, w') => fit t w' ∧ 0 ≤ i < 2 ^ 24 ∧ d_amnezia (dev w') = d_amnezia (dev w) ∧ d_mtu (dev w') = d_mtu (dev w)
      ∧ d_heap (dev w') = d_heap (dev w)
  | (Err _, _) => False
  | (Panic, _) => True
  end.
Proof.
  intros [H1 H2 H3 Hl H5]. unfold Device_next_index. pose proof Hl as (_ & _ & k & Hk).
  pose proof (next_drawn (E := Error) (d_next_index (dev w)) k) as Hn.
  specialize (Hn (conj Hl Hk)). destruct (IndexLfsr_next _) as [[i|e|] s]; [|done..].
  destruct Hn as (-> & Hs & _). split_and!; try done; [|apply index_at_range, Hl..].
  split; try done. apply Hs.
Qed.

Lemma build_tunnel_fit h i sk pub psk keepalive index range w t :
  fit t w → 0 ≤ index < 2 ^ 24 → from_option u32range_ok True range →
  ∀ d, serviceable (d_amnezia d) →
  match build_tunnel h i sk pub psk keepalive index (with_keepalive_range range (peer_amnezia_config d)) w with
  | (Ok (Ok tn), w') => fit t w' ∧ dev w' = dev w
      ∧ ∀ e ips psk' l, tunnel_fit (now (h_env h i)) (mkPeer tn index e ips psk' range l)
  | (Ok (Err _), w') => w' = w
  | (Ok Panic, _) | (Err _, _) => False
  | (Panic, _) => True
  end.
Proof.
  intros [H1 H2 H3 H4 H5] Hi Hr d Hd. unfold build_tunnel. set (config := with_keepalive_range _ _).
  destruct (new_with_amnezia3 _ _ _ _ _ _ _ _ _ _ _ _) as [[tn g]|e|] eqn:E; [|done..].
  assert (Hu : usable config).
  { apply serviceable_range; [done|done|]. unfold new_with_amnezia3 in E. by apply bind_ok in E as ([] & Hv & _). }
  destruct (tunn_new_ok _ _ _ _ _ _ _ _ _ _ _ _ _ _ Hu H2 E) as [Hok Hg].
  split; [by split|]. split; [done|]. intros e ips psk' l. split_and!; [exact Hok| |exact Hr].
  exists index, (config_of config), (x25519_public sk, sk, pub, psk). split; [by eapply new_identity|].
  unfold config. rewrite config_of_range. exact (proj2 Hd).
Qed.

Lemma route_to_fit id ips t : fkeeps (route_to id ips) t t.
Proof.
  unfold route_to. eapply (fkeeps_for _ _ (λ _, t)); [lia| |lia|lia]. intros j a t0 Ht0.
  apply (fkeeps_bind _ _ _ t0); [lia|by apply fkeeps_pure|]. intros d.
  apply (fkeeps_bind _ _ _ t0); [lia|by apply fkeeps_pure|]. intros [o tb].
  intros w Hw. eapply fit_later; [|exact Ht0]. by apply fit_same.
Qed.

Lemma shutdown_fit h id t : fkeeps (shutdown_endpoint h id) t t.
Proof.
  intros w Hw. pose proof (shutdown_endpoint_spec h id w) as Hs.
  destruct (shutdown_endpoint h id w) as [[[]|e|] w']; [|done..]. destruct Hs as (p & Hp & ->).
  apply fit_store; [done|]. exact (ft_tunnels _ _ Hw id p Hp).
Qed.

Lemma remove_peer_fit h k t : fkeeps (remove_peer h k) t t.
Proof.
  unfold remove_peer. apply fkeeps_seq; [lia|by apply fkeeps_pure|]. intros d.
  destruct (d_peers d !! k) as [id|]; [|by apply fkeeps_pure].
  apply fkeeps_seq; [lia|by apply fkeeps_same|]. intros _.
  apply fkeeps_seq; [lia|apply shutdown_fit|]. intros _.
  apply fkeeps_lock. intros w p Hw Hp. by apply fit_same.
Qed.

Lemma update_peer_fit h k remove replace endpoint ips keepalive range psk t t' :
  t ≤ now (h_env h 0) ≤ t' → from_option u32range_ok True range →
  fkeeps (update_peer h k remove replace endpoint ips keepalive range psk) t t'.
Proof.
  intros Ht Hr w Hw. unfold update_peer. destruct remove.
  { pose proof (remove_peer_fit h k t w Hw) as H. destruct (remove_peer h k w) as [[] w']; [|..|done]; eapply fit_later; eauto; lia. }
  unfold mbind at 1, ST_bind at 1, get_dev, gets, assert_dev. unfold mbind at 1, ST_bind at 1.
  case_bool_decide; [|done]. cbn [mret ST_ret]. unfold mbind at 1, ST_bind at 1.
  pose proof (next_index_fit w t Hw) as Hn. destruct (Device_next_index w) as [[idx|e|] w1]; [|done..].
  destruct Hn as (Hw1 & Hi & Ha & Hm & _). unfold mbind at 1, ST_bind at 1.
  destruct (d_key_pair (dev w)) as [[sk pk]|]; [|done]. cbn [must_dev mret ST_ret].
  unfold mbind at 1, ST_bind at 1.
  pose proof (build_tunnel_fit h 0 sk k psk keepalive idx range w1 t Hw1 Hi Hr (dev w) (ft_config _ _ Hw)) as Hb.
  destruct (build_tunnel _ _ _ _ _ _ _ _ w1) as [[[tn|e|]|e|] w2]; try done.
  2: { subst w2. eapply fit_later; [exact Hw1|lia]. }
  destruct Hb as (Hw2 & Ed & Hfit). unfold mbind at 1, ST_bind at 1, lift, Peer_new.
  destruct (AllowedIps_from_iter _) as [tips|e|]; cbn [mbind result_bind]; [|eapply fit_later; [exact Hw2|lia]|done].
  unfold mbind at 1, ST_bind at 1. unfold mbind, ST_bind, upd_dev, modify.
  match goal with |- context [route_to ?id ips ?w3] => pose proof (route_to_fit id ips t' w3) as Hrt; set (w3' := w3) in * end.
  apply Hrt. apply (fit_later _ t') in Hw2; [|lia].
  pose proof (fit_store t' w2 (fresh (dom (d_heap (dev w2)))) (mkPeer tn idx (mkEndpoint endpoint None) tips psk range None) Hw2) as Hst.
  eapply (fit_same _ _ (dev w3')) in Hst; [exact Hst|eapply tunnel_fit_later; [apply Hfit|lia]|]. done.
Qed.

Lemma rebuild_peer_fit h d sk i e t :
  serviceable (d_amnezia d) → t ≤ now (h_env h i) →
  fkeeps (rebuild_peer h (peer_amnezia_config d) sk i e) t (now (h_env h i)).
Proof.
  intros Hd Ht. destruct e as [k id]. unfold rebuild_peer. apply fkeeps_lock. intros w p Hw Hp.
  destruct (ft_tunnels _ _ Hw id p Hp) as (_ & _ & Hr). cbn zeta. unfold mbind at 1, ST_bind at 1.
  pose proof (next_index_fit w t Hw) as Hn. destruct (Device_next_index w) as [[idx|e|] w1]; [|done..].
  destruct Hn as (Hw1 & Hi & _). unfold mbind at 1, ST_bind at 1.
  match goal with |- context [build_tunnel h i sk k ?psk ?ka idx _ w1] =>
    pose proof (build_tunnel_fit h i sk k psk ka idx (p_keepalive_range p) w1 t Hw1 Hi Hr d Hd) as Hb end.
  destruct (build_tunnel _ _ _ _ _ _ _ _ w1) as [[[tn|e|]|e|] w2]; try done.
  2: { subst w2. by eapply fit_later. }
  destruct Hb as (Hw2 & _ & Hfit). unfold mbind, ST_bind, store_peer, upd_dev, modify. cbv beta iota.
  pose proof (fit_store _ w2 id (set_tunnel tn idx p) (fit_later _ _ _ Hw2 Ht) (Hfit _ _ _ _)) as Hst.
  by eapply (fit_same _ _ _) in Hst.
Qed.

Lemma set_amnezia_fit h a t t' :
  serviceable a → clock t t' (h_env h) → fkeeps (set_amnezia_config h a) t t'.
Proof.
  intros Ha Hc w Hw. pose proof (clock_le _ _ _ Hc). unfold set_amnezia_config, mbind at 1, ST_bind at 1, get_dev, gets.
  case_decide. { eapply fit_later; [exact Hw|done]. }
  unfold mbind, ST_bind, upd_dev, modify. cbv beta iota. set (w1 := mkDWorld _ _).
  assert (Hw1 : fit t w1) by (by destruct Hw; split).
  destruct (d_key_pair (dev w1)) as [[sk pk]|]; [|by eapply fit_later].
  refine (fkeeps_for _ _ (λ i, now (h_env h i)) t' 0 t _ _ _ _ w1 Hw1); [apply Hc| |apply Hc|apply Hc].
  intros j e t0 Ht0. by apply rebuild_peer_fit.
Qed.

Lemma rekey_peer_fit h sk l i e t :
  t ≤ now (h_env h i) → fkeeps (rekey_peer h sk (x25519_public sk) l i e) t (now (h_env h i)).
Proof.
  intros Ht. unfold rekey_peer. apply fkeeps_lock. intros w p Hw Hp.
  destruct (ft_tunnels _ _ Hw e.2 p Hp) as (Hok & (j & cfg & keys & Hid & Hroom) & Hr).
  set (p1 := p_set_limiter (Some l) p). unfold mbind, ST_bind, store_peer, upd_dev, modify, get_dev, gets. cbv beta iota.
  set (w1 := mkDWorld _ _). unfold tunnel_do, mbind, ST_bind, on_tunnel.
  assert (Hp1 : d_heap (dev w1) !! e.2 = Some p1) by (cbn; by rewrite lookup_insert_eq). rewrite Hp1.
  set (tw := mkWorld (load_tunnel (dev w1) p1) (drng w1)).
  assert (Hid1 : identity j cfg keys (tunn tw)) by (by apply identity_load).
  assert (Hok1 : ok (h_env h i) tw).
  { split; [|exact (ft_rng _ _ Hw)]. apply (tunn_ok_later t); [|done]. unfold tw, load_tunnel. cbn [tunn].
    destruct (p_limiter p1 ≫= _); [by apply ok_set_limiter|done]. }
  destruct (set_static_private_identity _ _ _ sk (d_limiters (dev w1) !! l) [] [] (h_env h i) tw Hid1) as (tw' & E & Hid2 & _).
  pose proof (run_call_ok (h_env h i) (CSetKey sk (d_limiters (dev w1) !! l) [] []) tw Hok1 I) as Hrun.
  unfold runs, run_call, mbind, ST_bind in Hrun. rewrite E in Hrun. cbn in Hrun. destruct Hrun as [[Hok2 Hg2] _].
  rewrite E. cbv beta iota. apply (fit_later _ (now (h_env h i))) in Hw; [|done]. destruct Hw as [F1 F2 F3 F4 F5].
  split; cbn; try done.
  - intros id q. rewrite insert_insert_eq. intros [[_ <-]|[_ Hq]]%lookup_insert_Some; [|by eapply F1].
    split_and!; [done| |done]. by exists j, cfg, (x25519_public sk, sk, keys.1.2, keys.2).
  - intros l' Hl'. destruct (decide (l = l')) as [->|]; [by rewrite lookup_insert_eq|].
    rewrite lookup_insert_ne by done. by apply F3.
Qed.

Lemma set_key_fit h sk t t' : clock t t' (h_env h) → fkeeps (set_key h sk) t t'.
Proof.
  intros Hc w Hw. pose proof (clock_le _ _ _ Hc). unfold set_key, mbind at 1, ST_bind at 1, get_dev, gets.
  case_decide. { eapply fit_later; [exact Hw|done]. }
  cbn zeta. set (l := fresh _). set (rl := RateLimiter_new _ _ _ _ _).
  unfold mbind at 1, ST_bind at 1, upd_dev, modify. set (w1 := mkDWorld _ _).
  assert (Hw1 : fit t w1 ∧ is_Some (d_limiters (dev w1) !! l)).
  { split; [|cbn; by rewrite lookup_insert_eq]. destruct Hw as [F1 F2 F3 F4 F5]. split; cbn; try done. intros l' Hl'.
    destruct (decide (l = l')) as [->|]; [by rewrite lookup_insert_eq|]. rewrite lookup_insert_ne by done. by apply F3. }
  destruct Hw1 as [Hw1 Hl1].
  assert (Hloop : fkeeps (for_each (h_order h (d_peers (dev w))) 0 (rekey_peer (R := R) h sk (x25519_public sk) l)) t t').
  { eapply (fkeeps_for _ _ (λ i, now (h_env h i))); [apply Hc| |apply Hc|apply Hc]. intros j e t0 Ht0. by apply rekey_peer_fit. }
  specialize (Hloop w1 Hw1).
  assert (Hlim : is_Some (d_limiters (dev (for_each (h_order h (d_peers (dev w))) 0
    (rekey_peer h sk (x25519_public sk) l) w1).2) !! l)).
  { clear Hloop Hw1. revert Hl1. generalize w1 as v, O as i, (h_order h (d_peers (dev w))) as es.
    intros v i es. revert v i. induction es as [|e es IH]; intros v i Hl; [done|].
    cbn [for_each]. unfold mbind at 1, ST_bind at 1.
    assert (H1 : is_Some (d_limiters (dev (rekey_peer h sk (x25519_public sk) l i e v).2) !! l)).
    { unfold rekey_peer, tunnel_do, on_tunnel, lock_peer, store_peer, mbind, ST_bind, upd_dev, modify, get_dev, gets.
      destruct (d_heap (dev v) !! e.2) as [p|]; [|done]. cbn. rewrite lookup_insert_eq.
      destruct (set_static_private _ _ _ _ _ _ _) as [[] tw]; cbn; by rewrite lookup_insert_eq. }
    destruct (rekey_peer _ _ _ _ _ _ v) as [[a|err|] v']; [by apply IH|done..]. }
  unfold mbind, ST_bind. destruct (for_each _ _ _ w1) as [[[]|e|] w2]; [|done..]. cbn in Hlim.
  destruct Hloop as [F1 F2 F3 F4 F5]. split; cbn; try done. by intros l' [= <-].
Qed.

(** ** Sockets, marks and timers *)
Lemma tunnel_do_fit {A} id (m : T (R := R) A) t :
  (∀ i cfg keys, keeps (identity i cfg keys) m (λ _, True)) →
  (∀ tw, fit_at t tw → runs m tw (λ _, False) (λ _ tw', fit_at t tw' ∧ True)) → fkeeps (tunnel_do id m) t t.
Proof.
  intros Hk Hm w Hw. destruct (d_heap (dev w) !! id) as [p|] eqn:Hp.
  - pose proof (tunnel_do_serves id m t t (dev w) (λ _, True) ltac:(by exists p) ltac:(lia) Hk Hm w (fit_serving _ _ Hw)) as Hs.
    unfold runs in Hs. destruct (tunnel_do id m w) as [[a|e|] w']; [|done..]. by eapply serving_fit, Hs.
  - unfold tunnel_do, on_tunnel, mbind, ST_bind. by rewrite Hp.
Qed.

Lemma clear_event_fit fd t : fkeeps (clear_event fd) t t.
Proof.
  intros w Hw. unfold clear_event, mbind, ST_bind, get_dev, gets. destruct (clear_event_by_fd _ _) as [[q c]|e|]; [|done..].
  by apply fit_same.
Qed.
Lemma register_fit h fd hd t : fkeeps (register h fd hd) t t.
Proof.
  intros w Hw. unfold register, mbind, ST_bind, get_dev, gets. destruct (new_event _ _ _ _) as [[v q] c].
  destruct v; cbn; [..|done]; by apply fit_same.
Qed.
Lemma each_fit {A} (l : list A) (body : nat → A → D (R := R) ()) i t :
  (∀ j x, fkeeps (body j x) t t) → fkeeps (for_each l i body) t t.
Proof.
  intros Hb. revert i. induction l as [|x l IH]; intros i; cbn [for_each]; [by apply fkeeps_pure|].
  apply fkeeps_seq; [lia|apply Hb|]. intros _. apply IH.
Qed.

Lemma lock_fit id t : fkeeps (lock_peer id) t t.
Proof.
  apply fkeeps_pure; [done|]. intros w. unfold lock_peer, mbind, ST_bind, get_dev, gets. by destruct (_ !! id).
Qed.

Ltac fstep :=
  repeat match goal with
  | |- fkeeps (mbind _ _) _ _ => apply fkeeps_seq; [lia| |]
  | |- fkeeps (mret _) _ _ => by apply fkeeps_pure
  | |- fkeeps (lift _) _ _ => by apply fkeeps_pure
  | |- fkeeps (throw _) _ _ => by apply fkeeps_pure
  | |- fkeeps panic _ _ => by apply fkeeps_pure
  | |- fkeeps get_dev _ _ => by apply fkeeps_pure
  | |- fkeeps (must_dev ?o) _ _ => destruct o; by apply fkeeps_pure
  | |- fkeeps (lock_peer _) _ _ => apply lock_fit
  | |- fkeeps (clear_event _) _ _ => apply clear_event_fit
  | |- fkeeps (register _ _ _) _ _ => apply register_fit
  | |- fkeeps (shutdown_endpoint _ _) _ _ => apply shutdown_fit
  | |- fkeeps (for_each _ _ _) _ _ => apply each_fit
  | |- fkeeps (upd_dev _) _ _ => by apply fkeeps_same
  | |- fkeeps (if ?b then _ else _) _ _ => destruct b
  | |- fkeeps (match ?x with _ => _ end) _ _ => destruct x
  | |- forall _, fkeeps _ _ _ => intro
  | |- forall _ _, fkeeps _ _ _ => intros ? ?
  end.

Lemma listen_fit h port t : fkeeps (open_listen_socket h port) t t.
Proof. unfold open_listen_socket, register_udp_handler, try_clone. fstep. Qed.
Lemma mark_fit h mark t : fkeeps (set_fwmark h mark) t t.
Proof. unfold set_fwmark, set_mark. fstep. Qed.
Lemma clear_peers_fit t : fkeeps clear_peers t t.
Proof. by apply fkeeps_same. Qed.
Lemma monitor_fit alive mtu t : fkeeps (monitor_handler alive mtu) t t.
Proof. unfold monitor_handler. fstep. Qed.
Lemma maintenance_fit h mtu t : fkeeps (maintenance_handler h mtu) t t.
Proof.
  unfold maintenance_handler. apply fkeeps_seq; [lia|by apply fkeeps_pure|]. intros d.
  apply fkeeps_seq; [lia| |].
  - destruct (d_rate_limiter d) as [l|]; [|by apply fkeeps_pure]. apply fkeeps_upd. intros w [F1 F2 F3 F4 F5].
    destruct (d_limiters (dev w) !! l) as [rl|]; [|by split]. split; cbn; try done.
    intros l' [= <-]. by rewrite lookup_insert_eq.
  - intros _. destruct mtu as [m|]; [|by apply fkeeps_pure]. fstep.
    apply tunnel_do_fit; [intros; by apply upd_keeps|]. intros tw [Hok Hg]. split; [|done].
    split; [by apply ok_set_mtu|done].
Qed.

(** ** The states a device goes through, with the clock *)

(** What happens between [t] and [t']: clock readings go up, configurations are
    validated and serviceable, datagrams are bytes, and during traffic the
    system calls whose failure the source answers with a panic succeed. *)
Definition op_timed (t t' : Z) (o : DevOp) : Prop :=
  match o with
  | SetKey h _ => host_ok h ∧ clock t t' (h_env h)
  | SetAmnezia h a => host_ok h ∧ serviceable a ∧ clock t t' (h_env h)
  | UpdatePeer h _ _ _ _ _ _ range _ => clock t t' (h_env h) ∧ from_option u32range_ok True range
  | UdpEvent h _ rx => ∃ τ, τ O = t ∧ τ (length rx) ≤ t' ∧ clocks τ h ∧ Forall (λ x, datagram_ok x.1) rx
  | ConnEvent h _ _ _ rx => ∃ τ, τ O = t ∧ τ (length rx) ≤ t' ∧ clocks τ h ∧ Forall datagram_ok rx
  | IfaceEvent h rx => ∃ τ, τ O = t ∧ τ (length rx) ≤ t' ∧ clocks τ h
  | TimersEvent h => host_ok h ∧ host_works h ∧ clock t t' (h_env h)
  | _ => t ≤ t'
  end.

Inductive device_reaches : Z → DWorld (R := R) → Prop :=
  | dt_new use_connected mtu draws l queue g t :
      IndexLfsr_default draws = Some l → rng_ok g →
      device_reaches t (mkDWorld (Device_new use_connected mtu l queue) g)
  | dt_step t t' w o r w' :
      device_reaches t w → op_timed t t' o → run_op o w = (r, w') → r ≠ Panic → device_reaches t' w'.

Lemma timed_fine t t' o : op_timed t t' o → op_fine o.
Proof. destruct o; cbn; try done; [by intros []|]. by intros (? & [[] _] & _). Qed.

(** What a handler needs of the device: a private key for datagrams, sockets for
    packets of the interface. *)
Definition ready (d : Device) (o : DevOp) : Prop :=
  match o with
  | UdpEvent _ _ _ => is_Some (d_key_pair d) ∧ is_Some (d_rate_limiter d)
  | ConnEvent _ peer _ _ _ => is_Some (d_heap d !! peer)
  | IfaceEvent _ _ => is_Some (d_udp4 d) ∧ is_Some (d_udp6 d) ∧ d_mtu d ≤ Z.of_nat MAX_UDP_SIZE
  | TimersEvent _ => True
  | _ => False
  end.

(** Traffic on a ready device returns. *)
Lemma traffic_serves t t' o w :
  device_ok (dev w) → op_timed t t' o → ready (dev w) o → serving t (dev w) w →
  runs (run_op o) w (λ _, False) (λ _ w', serving t' (dev w) w').
Proof.
  intros Hd Ho Hr Hw.
  assert (Hend : ∀ {A} (m : D (R := R) A) t1, t1 ≤ t' → runs m w (λ _, False) (λ _ w', serving t1 (dev w) w' ∧ True) →
    runs (_ ← m; mret tt) w (λ _, False) (λ _ w', serving t' (dev w) w')).
  { intros A m t1 Ht1 Hm. eapply runs_seq; [exact Hm|]. intros a w' [Hs _]. by apply (serving_later t1). }
  destruct o as [| | | | | |h udp rx|h id udp addr rx|h rx|h| |]; try done; cbn in Hr; cbn [run_op].
  - destruct Ho as (τ & <- & Ht' & Hc & Hrx). destruct Hr as [[[sk pk] Hk] [l Hl]].
    apply (Hend _ _ _ Ht'). unfold udp_handler. apply runs_bind, runs_gets. rewrite Hk, Hl. cbn [must_dev].
    do 2 (apply runs_bind, runs_ret). cbn. eapply runs_seq; [exact (udp_loop_serves τ h sk pk l udp 0 MAX_ITR rx _ Hc Hd Hl Hrx w Hw)|].
    done.
  - destruct Ho as (τ & <- & Ht' & Hc & Hrx). apply (Hend _ _ _ Ht'). unfold conn_handler.
    eapply runs_seq; [exact (conn_loop_serves τ h id udp addr 0 MAX_ITR rx _ Hc Hr Hrx w Hw)|]. done.
  - destruct Ho as (τ & <- & Ht' & Hc). destruct Hr as ([u4 H4] & [u6 H6] & Hm). apply (Hend _ _ _ Ht').
    unfold iface_handler. apply runs_bind, runs_gets. rewrite H4, H6. cbn [must_dev].
    do 2 (apply runs_bind, runs_ret). apply runs_bind. unfold assert_dev. rewrite (proj2 (Z.leb_le _ _) Hm). cbn.
    exact (iface_loop_serves τ h u4 u6 0 MAX_ITR rx _ Hc Hd w Hw).
  - destruct Ho as (Hh & Hhw & Hc). pose proof (clock_le _ _ _ Hc). apply (Hend _ _ t'); [lia|]. unfold timers_handler.
    apply runs_bind, runs_gets. assert (Hquit : serving t' (dev w) w) by (by eapply serving_later).
    destruct (d_udp4 (dev w)) as [u4|]; [|done]. destruct (d_udp6 (dev w)) as [u6|]; [|done].
    eapply runs_seq; [refine (timer_loop_serves h u4 u6 0 _ t t' (dev w) Hhw Hc _ t (ck_start _ _ _ Hc) w Hw)|done].
    apply list.Forall_forall. intros [k id] Hin%order_elem; [|done].
    destruct (mk_peers _ _ (dk_maps _ Hd) k id Hin) as (p & Hp & _). by exists p.
Qed.

(** Traffic on a device that is not ready: nothing to do, or the panic the source
    documents with [expect], before anything has changed. *)
Definition traffic (o : DevOp) : bool :=
  match o with UdpEvent _ _ _ | ConnEvent _ _ _ _ _ | IfaceEvent _ _ | TimersEvent _ => true | _ => false end.
Lemma unready_traffic o w :
  traffic o = true → ready (dev w) o ∨ run_op o w = (Ok tt, w) ∨ run_op o w = (Panic, w).
Proof.
  destruct o as [| | | | | |h udp rx|h id udp addr rx|h rx|h| |]; try done; intros _; cbn [run_op ready].
  - unfold udp_handler, mbind, ST_bind, get_dev, gets, must_dev.
    destruct (d_key_pair (dev w)) as [[sk pk]|]; [|by right; right].
    destruct (d_rate_limiter (dev w)) as [l|]; [by left|by right; right].
  - destruct (d_heap (dev w) !! id) as [p|] eqn:Hp; [by left|right].
    destruct rx as [|src rx]; [by left|right]. unfold conn_handler, conn_packet, tunnel_call, on_tunnel, mbind, ST_bind.
    cbn [conn_loop]. unfold conn_packet, tunnel_call, on_tunnel, mbind, ST_bind. by rewrite Hp.
  - unfold iface_handler, mbind, ST_bind, get_dev, gets, must_dev, assert_dev.
    destruct (d_udp4 (dev w)) as [u4|]; [|by right; right]. destruct (d_udp6 (dev w)) as [u6|]; [|by right; right].
    cbn. destruct (Z.leb_spec (d_mtu (dev w)) (Z.of_nat MAX_UDP_SIZE)); [left|by right; right].
    split_and!; [by exists u4|by exists u6|done].
  - by left.
Qed.

Lemma op_timed_le t t' o : op_timed t t' o → t ≤ t'.
Proof.
  destruct o; cbn; try done; try (by intros (? & ?%clock_le)); try (by intros (? & ? & ?%clock_le)).
  - by intros [?%clock_le ?].
  - intros (τ & <- & Ht & Hc & _). pose proof (clocks_le τ h 0 (length rx) Hc). cbn in *. lia.
  - intros (τ & <- & Ht & Hc & _). pose proof (clocks_le τ h 0 (length rx) Hc). cbn in *. lia.
  - intros (τ & <- & Ht & Hc). pose proof (clocks_le τ h 0 (length rx) Hc). cbn in *. lia.
Qed.

Lemma run_op_fit t t' o w :
  device_ok (dev w) → op_timed t t' o → fit t w →
  match run_op o w with (Panic, _) => True | (_, w') => fit t' w' end.
Proof.
  intros Hd Ho Hw. pose proof (op_timed_le _ _ _ Ho) as Hle.
  assert (Hlater : ∀ m : D (R := R) (), fkeeps m t t → match m w with (Panic, _) => True | (_, w') => fit t' w' end).
  { intros m Hm. specialize (Hm w Hw). destruct (m w) as [[] w']; [|..|done]; by eapply fit_later. }
  assert (Htraffic : ready (dev w) o → match run_op o w with (Panic, _) => True | (_, w') => fit t' w' end).
  { intros Hr. pose proof (traffic_serves t t' o w Hd Ho Hr (fit_serving _ _ Hw)) as Hs. unfold runs in Hs.
    destruct (run_op o w) as [[a|e|] w']; [|done..]. by eapply serving_fit. }
  assert (Hunready : traffic o = true → match run_op o w with (Panic, _) => True | (_, w') => fit t' w' end).
  { intros Hk. destruct (unready_traffic o w Hk) as [Hr|[E|E]]; [by apply Htraffic|rewrite E; by eapply fit_later|by rewrite E]. }
  destruct o; try (by apply Hunready).
  - destruct Ho as [_ Hc]. by apply set_key_fit with t.
  - destruct Ho as (_ & Ha & Hc). by apply set_amnezia_fit with t.
  - destruct Ho as [Hc Hr]. apply update_peer_fit with t; [|done|done]. split; [apply Hc|apply Hc].
  - apply Hlater, clear_peers_fit.
  - apply Hlater, listen_fit.
  - apply Hlater, mark_fit.
  - apply Hlater. cbn [run_op]. apply fkeeps_seq; [lia|apply maintenance_fit|]. intros _. by apply fkeeps_pure.
  - apply Hlater. cbn [run_op]. apply fkeeps_seq; [lia|apply monitor_fit|]. intros _. by apply fkeeps_pure.
Qed.

Lemma reaches_fit t w : device_reaches t w → device_ok (dev w) ∧ fit t w.
Proof.
  induction 1 as [use_connected mtu draws l queue g t Hl Hg|t t' w o r w' _ [Hd Hf] Ho Hr Hp].
  - split; [by eapply device_new_ok|]. split; cbn; try done; [by eapply IndexLfsr_default_ok|].
    split; [|by intros r]. split; [split; [apply default_fields_ok|by vm_compute]|constructor].
  - split.
    + pose proof (run_op_keeps o (timed_fine _ _ _ Ho) w Hd) as Hk. unfold ends in Hk. rewrite Hr in Hk. by destruct r as [[]| |].
    + pose proof (run_op_fit t t' o w Hd Ho Hf) as Hk. rewrite Hr in Hk. by destruct r.
Qed.

(** Traffic the device is ready for returns, is a step of the device's life and
    leaves the configuration. *)
Lemma served t t' o w :
  device_reaches t w → op_timed t t' o → ready (dev w) o →
  (run_op o w).1 = Ok tt ∧ device_reaches t' (run_op o w).2 ∧ routes (dev (run_op o w).2) = routes (dev w).
Proof.
  intros Hw Ho Hr. destruct (reaches_fit t w Hw) as [Hd Hf].
  pose proof (traffic_serves t t' o w Hd Ho Hr (fit_serving _ _ Hf)) as Hs. unfold runs in Hs.
  destruct (run_op o w) as [[[]|e|] w'] eqn:E; [|done..]. split; [done|]. split; [by eapply dt_step|apply Hs].
Qed.

(** C4: Traffic does not panic a configured device.  Start from a new device and
    let any sequence of configuration requests, datagrams, interface packets and
    timers happen, at non-decreasing times.  The configurations set are validated
    and serviceable, which is more than validation asks: no decoy packet has a
    length tag [<dz n>] with n above 8, and S4, the largest content padding and the
    32 bytes of a transport message fit in the 65535 bytes of the buffer; and
    during traffic the system calls whose failure the source answers with a panic
    succeed.  (Validated configurations without the first two do panic a handler;
    they are findings of this development.)  Then a batch of datagrams at a
    listening socket once a private key is set, whatever the datagrams contain and
    wherever they come from; a batch at the connected socket of a peer; a batch of
    interface packets once the sockets are open and if the MTU is at most 65535;
    and the per-peer timers, are all handled: no lookup, loop bound, slice or
    unreachable branch of a handler panics; and the handlers leave the
    configuration as it was. *)
Theorem traffic_never_panics t t' o w :
  device_reaches t w → op_timed t t' o → ready (dev w) o →
  ∃ w', run_op o w = (Ok tt, w') ∧ device_reaches t' w' ∧ routes (dev w') = routes (dev w).
Proof.
  intros Hw Ho Hr. destruct (served t t' o w Hw Ho Hr) as (Hok & Hw' & Hroutes).
  destruct (run_op o w) as [r w'] eqn:E. cbn in Hok. subst r. by exists w'.
Qed.
End fitness.
