(* ===== verification/DeviceSteps.v ===== *)
(** * DeviceSteps: handlers that interleave

    Workers under read guards run their handlers side by side.  What they share is
    behind locks: a peer behind its mutex, the counters of the rate limiter behind
    atomics.  Here a handler is a program of sections, a section being what it does
    between taking a lock and releasing it: for a datagram of a listening socket
    the limiter's verdict and then the handling under the peer's mutex, for
    everything else one section for a packet or a peer.  Run without interference
    the program is the handler of [DeviceData]; programs of several workers
    interleave section by section, each section with its own clock readings and
    answers of the system. *)

From Stdlib Require Import ZArith Lia.
From stdpp Require Import base list option strings sets tactics countable gmap fin_maps.
From S2P Require Import Prelude Clock Random Codec Keys Lfsr Amnezia Cps Config Packet Ip AllowedIps.
From S2P Require Import Session Handshake RateLimiter Timers Tunnel EventPoll TunnelIdentity TunnelSafe.
From S2P Require Import Device DeviceInv DeviceData DeviceLife DeviceRoute DeviceSafe DeviceServe.
Open Scope Z_scope.

Section programs.
Context `{CC : ChaCha20} `{B64 : Base64} `{NC : NoiseCrypto} `{AE : Aead} `{RS : RandomSource R}.
Context `{TB : IpNetworkTable}.
Implicit Types w : DWorld (R := R).

(** What remains of a handler: its result, or a section and what follows it.  The
    number says which host of the handler the section talks to. *)
Inductive Prog (A : Type) : Type :=
  | Halt (a : A)
  | Sect (i : nat) (m : Host → D (R := R) (Prog A)).
#[global] Arguments Halt {A} a.
#[global] Arguments Sect {A} i m.

(** The program alone. *)
Fixpoint run_prog {A} (h : nat → Host) (p : Prog A) : D (R := R) A := λ w,
  match p with
  | Halt a => (Ok a, w)
  | Sect i m =>
      match m (h i) w with
      | (Ok p', w') => run_prog h p' w'
      | (Err e, w') => (Err e, w')
      | (Panic, w') => (Panic, w')
      end
  end.

Definition Handled : Type := list Output * Action.

(** ** The handlers *)

(** One datagram of a listening socket: the verdict of the limiter, then the
    peer.  [k] is what follows, given what was sent and whether the datagram
    counts. *)
Definition udp_sections (private_key public_key : bytes) (limiter : nat) (udp : Socket) (i : nat) (src : bytes)
    (addr : SocketAddr) (k : list Output * bool → Prog Handled) : Prog Handled :=
  Sect i (λ h,
    d ← get_dev;
    packet ← strip_datagram (d_amnezia d) src;
    verdict ← verify_datagram (h_env h 0) (d_amnezia d) limiter (sock_ip addr) packet;
    match verdict with
    | Ok parsed => mret (Sect i (λ h, x ← udp_verified h d private_key public_key udp addr parsed; mret (k x)))
    | Err (WriteToNetwork cookie_reply) =>
        reply ← frame_cookie (d_amnezia d) cookie_reply;
        mret (k (match reply with Some r => [SendTo udp r addr] | None => [] end, false))
    | Err _ => mret (k ([], false))
    | Panic => panic
    end).

Fixpoint udp_steps (private_key public_key : bytes) (limiter : nat) (udp : Socket) (acc : list Output)
    (i iter : nat) (rx : list (bytes * SocketAddr)) : Prog Handled :=
  match rx with
  | [] => Halt (acc, Continue)
  | (src, addr) :: rx' =>
      udp_sections private_key public_key limiter udp i src addr (λ '(out, counted),
        let iter := if (counted : bool) then (iter - 1)%nat else iter in
        if counted && bool_decide (iter = O) then Halt (acc ++ out, Continue)
        else udp_steps private_key public_key limiter udp (acc ++ out) (S i) iter rx')
  end.

Definition udp_prog (udp : Socket) (rx : list (bytes * SocketAddr)) : Prog Handled :=
  Sect 0 (λ _,
    d ← get_dev;
    '(private_key, public_key) ← must_dev (d_key_pair d);
    limiter ← must_dev (d_rate_limiter d);
    mret (udp_steps private_key public_key limiter udp [] 0 MAX_ITR rx)).

(** A packet of a connected socket. *)
Fixpoint conn_steps (peer : nat) (udp : Socket) (peer_addr : IpAddr) (acc : list Output) (i iter : nat)
    (rx : list bytes) : Prog Handled :=
  match rx with
  | [] => Halt (acc, Continue)
  | src :: rx' =>
      Sect i (λ h,
        out ← conn_packet h peer udp peer_addr src;
        mret (if decide (iter = 1%nat) then Halt (acc ++ out, Continue)
              else conn_steps peer udp peer_addr (acc ++ out) (S i) (iter - 1) rx'))
  end.
Definition conn_prog (peer : nat) (udp : Socket) (peer_addr : IpAddr) (rx : list bytes) : Prog Handled :=
  conn_steps peer udp peer_addr [] 0 MAX_ITR rx.

(** A packet of the interface. *)
Fixpoint iface_steps (udp4 udp6 : Socket) (acc : list Output) (i n : nat) (rx : list IfaceRead) : Prog Handled :=
  match n, rx with
  | O, _ | _, [] | _, ReadBlocked :: _ => Halt (acc, Continue)
  | _, ReadFailed :: _ => Halt (acc, Exit)
  | S n', ReadPacket src :: rx' =>
      Sect i (λ h, out ← iface_packet h udp4 udp6 src; mret (iface_steps udp4 udp6 (acc ++ out) (S i) n' rx'))
  end.
Definition iface_prog (rx : list IfaceRead) : Prog Handled :=
  Sect 0 (λ _,
    d ← get_dev;
    udp4 ← must_dev (d_udp4 d);
    udp6 ← must_dev (d_udp6 d);
    _ ← assert_dev (d_mtu d <=? Z.of_nat MAX_UDP_SIZE);
    mret (iface_steps udp4 udp6 [] 0 MAX_ITR rx)).

(** A peer of the timer's walk. *)
Fixpoint timer_steps (udp4 udp6 : Socket) (acc : list Output) (i : nat) (l : list (bytes * nat)) : Prog Handled :=
  match l with
  | [] => Halt (acc, Continue)
  | e :: l' => Sect 0 (λ h, out ← peer_timer h udp4 udp6 i e; mret (timer_steps udp4 udp6 (acc ++ out) (S i) l'))
  end.
Definition timers_prog : Prog Handled :=
  Sect 0 (λ h,
    d ← get_dev;
    match d_udp4 d, d_udp6 d with
    | Some udp4, Some udp6 => mret (timer_steps udp4 udp6 [] 0 (h_order h (d_peers d)))
    | _, _ => mret (Halt ([], Continue))
    end).

(** What a worker can be given to do. *)
Inductive Task :=
  | UdpTask (udp : Socket) (rx : list (bytes * SocketAddr))
  | ConnTask (peer : nat) (udp : Socket) (peer_addr : IpAddr) (rx : list bytes)
  | IfaceTask (rx : list IfaceRead)
  | TimersTask.

Definition task_prog (x : Task) : Prog Handled :=
  match x with
  | UdpTask udp rx => udp_prog udp rx
  | ConnTask peer udp addr rx => conn_prog peer udp addr rx
  | IfaceTask rx => iface_prog rx
  | TimersTask => timers_prog
  end.

Definition task_handler (h : nat → Host) (x : Task) : D (R := R) Handled :=
  match x with
  | UdpTask udp rx => udp_handler h udp rx
  | ConnTask peer udp addr rx => conn_handler h peer udp addr rx
  | IfaceTask rx => iface_handler h rx
  | TimersTask => timers_handler (h O)
  end.

(** ** A program alone is its handler *)
Lemma run_sect {A} h i (m : Host → D (R := R) (Prog A)) w : run_prog h (Sect i m) w = (p ← m (h i); run_prog h p) w.
Proof. reflexivity. Qed.

Lemma bind_ret {A B} (m : D (R := R) A) (f : A → B) {C} (g : B → D (R := R) C) w :
  (p ← (a ← m; mret (f a)); g p) w = (a ← m; g (f a)) w.
Proof. unfold mbind, ST_bind. by destruct (m w) as [[]]. Qed.

Lemma udp_sections_run h sk pk l udp i src addr k w :
  run_prog h (udp_sections sk pk l udp i src addr k) w = (x ← udp_packet (h i) sk pk l udp src addr; run_prog h (k x)) w.
Proof.
  unfold udp_sections, udp_packet. rewrite run_sect. unfold get_dev, gets, mbind, ST_bind.
  destruct (strip_datagram _ _ w) as [[packet|e|] w1]; [|done..].
  destruct (verify_datagram _ _ _ _ _ w1) as [[verdict|e|] w2]; [|done..].
  destruct verdict as [parsed|r|]; [|destruct r; try done|done].
  - unfold mret, ST_ret. cbn [run_prog]. by destruct (udp_verified _ _ _ _ _ _ _ w2) as [[]].
  - by destruct (frame_cookie _ _ w2) as [[]].
Qed.

(** What a loop adds to what was sent before it. *)
Definition after (acc : list Output) (m : D (R := R) (list Output)) (a : Action) : D (R := R) Handled :=
  out ← m; mret (acc ++ out, a).

Lemma udp_steps_run h sk pk l udp acc i iter rx w :
  run_prog h (udp_steps sk pk l udp acc i iter rx) w = after acc (udp_loop h sk pk l udp i iter rx) Continue w.
Proof.
  revert acc i iter w. induction rx as [|[src addr] rx IH]; intros acc i iter w; cbn [udp_steps udp_loop].
  { unfold after, mbind, ST_bind. cbn. by rewrite app_nil_r. }
  rewrite udp_sections_run. unfold after, mbind, ST_bind.
  destruct (udp_packet (h i) _ _ _ _ _ _ w) as [[[out n]|e|] w1]; [|done..]. cbv zeta.
  destruct (n && _); [done|]. rewrite IH. unfold after, mbind, ST_bind.
  destruct (udp_loop h _ _ _ _ _ _ _ w1) as [[rest|e|] w2]; [|done..]. cbn. by rewrite app_assoc.
Qed.

Lemma conn_steps_run h id udp addr acc i iter rx w :
  run_prog h (conn_steps id udp addr acc i iter rx) w = after acc (conn_loop h id udp addr i iter rx) Continue w.
Proof.
  revert acc i iter w. induction rx as [|src rx IH]; intros acc i iter w; cbn [conn_steps conn_loop].
  { unfold after, mbind, ST_bind. cbn. by rewrite app_nil_r. }
  rewrite run_sect, bind_ret. unfold after, mbind, ST_bind.
  destruct (conn_packet (h i) _ _ _ _ w) as [[out|e|] w1]; [|done..].
  case_decide; [done|]. rewrite IH. unfold after, mbind, ST_bind.
  destruct (conn_loop h _ _ _ _ _ _ w1) as [[rest|e|] w2]; [|done..]. cbn. by rewrite app_assoc.
Qed.

Lemma iface_steps_run h u4 u6 acc i n rx w :
  run_prog h (iface_steps u4 u6 acc i n rx) w = ('(out, a) ← iface_loop h u4 u6 i n rx; mret (acc ++ out, a)) w.
Proof.
  revert acc i rx w. induction n as [|n IH]; intros acc i [|[src| |] rx] w; cbn [iface_steps iface_loop];
    try (unfold mbind, ST_bind; cbn; by rewrite app_nil_r).
  rewrite run_sect, bind_ret. unfold mbind, ST_bind.
  destruct (iface_packet (h i) _ _ _ w) as [[out|e|] w1]; [|done..]. rewrite IH. unfold mbind, ST_bind.
  destruct (iface_loop h _ _ _ _ _ w1) as [[[rest a]|e|] w2]; [|done..]. cbn. by rewrite app_assoc.
Qed.

Lemma timer_steps_run h u4 u6 acc i l w :
  run_prog h (timer_steps u4 u6 acc i l) w = after acc (timer_loop (h O) u4 u6 i l) Continue w.
Proof.
  revert acc i w. induction l as [|e l IH]; intros acc i w; cbn [timer_steps timer_loop].
  { unfold after, mbind, ST_bind. cbn. by rewrite app_nil_r. }
  rewrite run_sect, bind_ret. unfold after, mbind, ST_bind.
  destruct (peer_timer (h O) _ _ _ _ w) as [[out|e'|] w1]; [|done..]. rewrite IH. unfold after, mbind, ST_bind.
  destruct (timer_loop (h O) _ _ _ _ w1) as [[rest|e'|] w2]; [|done..]. cbn. by rewrite app_assoc.
Qed.

(** With nobody else running, the sections of a task do what the handler does, panics
    included. *)
Lemma prog_is_handler h x w : run_prog h (task_prog x) w = task_handler h x w.
Proof.
  destruct x as [udp rx|id udp addr rx|rx|]; cbn [task_prog task_handler].
  - unfold udp_prog, udp_handler. rewrite run_sect. unfold get_dev, gets, must_dev, mbind, ST_bind.
    destruct (d_key_pair (dev w)) as [[sk pk]|]; [|done]. destruct (d_rate_limiter (dev w)) as [l|]; [|done].
    cbn [mret ST_ret]. rewrite udp_steps_run. reflexivity.
  - unfold conn_prog, conn_handler. rewrite conn_steps_run. reflexivity.
  - unfold iface_prog, iface_handler. rewrite run_sect. unfold get_dev, gets, must_dev, assert_dev, mbind, ST_bind.
    destruct (d_udp4 (dev w)) as [u4|]; [|done]. destruct (d_udp6 (dev w)) as [u6|]; [|done].
    cbn [mret ST_ret]. destruct (d_mtu (dev w) <=? _); [|done]. cbn [mret ST_ret]. rewrite iface_steps_run. unfold mbind, ST_bind.
    by destruct (iface_loop _ _ _ _ _ _ w) as [[[]|e|] w1].
  - unfold timers_prog, timers_handler. rewrite run_sect. unfold get_dev, gets, mbind, ST_bind.
    destruct (d_udp4 (dev w)) as [u4|]; [|done]. destruct (d_udp6 (dev w)) as [u6|]; [|done].
    cbn [mret ST_ret]. rewrite timer_steps_run. reflexivity.
Qed.

(** ** Programs that cannot go wrong *)

(** [p] has at most [n] sections left, and each of them, with a host that works,
    keeps the device consistent and serving and leaves such a program. *)
Fixpoint good (d0 : Device) (n : nat) (p : Prog Handled) : Prop :=
  match p, n with
  | Halt _, _ => True
  | Sect _ _, O => False
  | Sect _ m, S n => ∀ h, host_ok h → host_works h →
      dkeeps (m h) ∧ ∀ t t', clock t t' (h_env h) → serves (m h) t t' d0 (good d0 n)
  end.

Lemma good_more d0 n n' p : (n ≤ n')%nat → good d0 n p → good d0 n' p.
Proof.
  revert n' p. induction n as [|n IH]; intros n' [a|i m] Hn; [by destruct n'|done|by destruct n'|].
  destruct n' as [|n']; [lia|]. cbn. intros Hg h Hok Hh. destruct (Hg h Hok Hh) as [Hk Hs]. split; [done|].
  intros t t' Hc. eapply serves_weaken; [by apply Hs|lia|]. intros p Hp. apply IH; [lia|done].
Qed.

Lemma good_sect d0 n i m :
  (∀ h, dkeeps (m h)) →
  (∀ h t t', host_ok h → host_works h → clock t t' (h_env h) → serves (m h) t t' d0 (good d0 n)) →
  good d0 (S n) (Sect i m).
Proof. intros Hk Hs h Hok Hh. split; [done|]. intros t t' Hc. by apply Hs. Qed.

(** A section that runs [m] and goes on with [k]. *)
Lemma good_then {A} d0 n i (m : Host → D (R := R) A) (k : A → Prog Handled) (P : A → Prop) :
  (∀ h, dkeeps (m h)) →
  (∀ h t t', host_ok h → host_works h → clock t t' (h_env h) → serves (m h) t t' d0 P) →
  (∀ a, P a → good d0 n (k a)) → good d0 (S n) (Sect i (λ h, a ← m h; mret (k a))).
Proof.
  intros Hk Hs Hg. apply good_sect.
  - intros h. apply dkeeps_bind; [apply Hk|]. intros a. by apply dkeeps_pure.
  - intros h t t' Hok Hh Hc. eapply serves_bind; [by apply Hs|]. intros a Ha. apply serves_ret. by apply Hg.
Qed.

Section tasks.
Context (d0 : Device) (Hd0 : device_ok d0).

Lemma udp_sections_good sk pk l udp i src addr k n :
  d_rate_limiter d0 = Some l → datagram_ok src → (∀ x, good d0 n (k x)) →
  good d0 (S (S n)) (udp_sections sk pk l udp i src addr k).
Proof.
  intros Hlim [Hb Hl] Hk. unfold udp_sections. apply good_sect.
  { intros h. dkeep; try apply strip_datagram_keeps; try apply verify_datagram_keeps; apply frame_cookie_keeps. }
  intros h t t' Hok Hh Hc. pose proof (clock_le _ _ _ Hc) as Hle. apply serves_get. intros d Hd.
  assert (Ham : config_ok (d_amnezia d)).
  { injection Hd as _ _ _ _ _ E _ _ _ _ _ _. rewrite E. apply Hd0. }
  assert (Hquit : ∀ p, good d0 (S n) p → serves (mret p : D (R := R) (Prog Handled)) t t' d0 (good d0 (S n))).
  { intros p Hp. eapply serves_weaken; [by apply (serves_ret _ _ _ (good d0 (S n)))|done|done]. }
  assert (Hmore : ∀ x, good d0 (S n) (k x)) by (intros x; apply (good_more d0 n); [lia|done]).
  eapply (serves_bind _ _ _ t _ _ (λ m, bytes_ok m ∧ (length m ≤ length src)%nat)).
  { intros w Hw. destruct (strip_total (d_amnezia d) src w Ham Hb) as (m & E & Hm). unfold runs. by rewrite E. }
  intros m [Hm Hml]. eapply (serves_bind _ _ _ t _ _ (verdict_ok (length m))).
  { intros w Hw. apply verify_datagram_serves; [done|done|].
    pose proof (sv_routes _ _ _ Hw) as Hr. injection Hr as _ _ _ _ _ _ _ _ _ _ E _. by rewrite E. }
  intros [parsed|r|] Hv; [|destruct r; try done; try (by apply Hquit)|done].
  - apply Hquit, (good_then d0 n i _ k (λ _, True)); [intros; apply udp_verified_keeps| |done].
    intros h2 t2 t2' _ Hh2 Hc2. apply udp_verified_serves; try done. eapply verdict_payload_fits; [exact Hv|lia].
  - eapply serves_bind; [by apply frame_cookie_serves|]. intros reply _. by apply Hquit.
Qed.

Lemma udp_steps_good sk pk l udp acc i iter rx :
  d_rate_limiter d0 = Some l → Forall (λ x, datagram_ok x.1) rx →
  good d0 (2 * length rx) (udp_steps sk pk l udp acc i iter rx).
Proof.
  intros Hl Hrx. revert acc i iter. induction Hrx as [|[src addr] rx Hx _ IH]; intros acc i iter; [done|].
  cbn [udp_steps length]. replace (2 * S (length rx))%nat with (S (S (2 * length rx))) by lia.
  apply udp_sections_good; [done|done|]. intros [out n]. cbv zeta. destruct (n && _); [by destruct (2 * length rx)%nat|apply IH].
Qed.

Lemma conn_steps_good id udp addr acc i iter rx :
  is_Some (d_heap d0 !! id) → Forall datagram_ok rx → good d0 (length rx) (conn_steps id udp addr acc i iter rx).
Proof.
  intros Hid Hrx. revert acc i iter. induction Hrx as [|src rx [Hb Hl] _ IH]; intros acc i iter; [done|].
  cbn [conn_steps length]. apply (good_then d0 _ _ _ _ (λ _, True)); [intros; apply conn_packet_keeps| |].
  - intros h t t' _ _ Hc. by apply conn_packet_serves.
  - intros out _. case_decide; [by destruct (length rx)|apply IH].
Qed.

Lemma iface_steps_good u4 u6 acc i n rx : good d0 (length rx) (iface_steps u4 u6 acc i n rx).
Proof.
  revert acc i rx. induction n as [|n IH]; intros acc i [|[src| |] rx]; try done. cbn [iface_steps length].
  apply (good_then d0 _ _ _ _ (λ _, True)); [intros; apply iface_packet_keeps| |intros; apply IH].
  intros h t t' _ _ Hc. eapply serves_weaken; [apply iface_packet_serves; [apply Hc|done]|apply Hc|done].
Qed.

Lemma timer_steps_good u4 u6 acc i l :
  Forall (λ e, is_Some (d_heap d0 !! e.2)) l → good d0 (length l) (timer_steps u4 u6 acc i l).
Proof.
  intros Hl. revert acc i. induction Hl as [|e l He _ IH]; intros acc i; [done|]. cbn [timer_steps length].
  apply (good_then d0 _ _ _ _ (λ _, True)); [intros; apply peer_timer_keeps| |intros; apply IH].
  intros h t t' _ Hh Hc. eapply serves_weaken; [apply peer_timer_serves; [done|by eapply clock_at|done]|apply Hc|done].
Qed.

(** What a task needs of the device, and what it may get from the network. *)
Definition task_ready (x : Task) : Prop :=
  match x with
  | UdpTask _ rx => is_Some (d_key_pair d0) ∧ is_Some (d_rate_limiter d0) ∧ Forall (λ x, datagram_ok x.1) rx
  | ConnTask peer _ _ rx => is_Some (d_heap d0 !! peer) ∧ Forall datagram_ok rx
  | IfaceTask _ => is_Some (d_udp4 d0) ∧ is_Some (d_udp6 d0) ∧ d_mtu d0 ≤ Z.of_nat MAX_UDP_SIZE
  | TimersTask => True
  end.

(** The sections a task can take at most. *)
Definition sections_of (x : Task) : nat :=
  match x with
  | UdpTask _ rx => S (2 * length rx)
  | ConnTask _ _ _ rx => length rx
  | IfaceTask rx => S (length rx)
  | TimersTask => S (size (d_peers d0))
  end.

Lemma task_good x : task_ready x → good d0 (sections_of x) (task_prog x).
Proof.
  destruct x as [udp rx|id udp addr rx|rx|]; cbn [task_ready sections_of task_prog].
  - intros ([[sk pk] Hk] & [l Hl] & Hrx). unfold udp_prog. apply good_sect; [intros h; by dkeep|].
    intros h t t' _ _ Hc. pose proof (clock_le _ _ _ Hc) as Hle. apply serves_get. intros d Hd.
    injection Hd as _ _ _ _ E1 _ _ _ _ _ E2 _. rewrite E1, E2, Hk, Hl. cbn [must_dev].
    eapply (serves_bind _ _ _ t _ _ (λ x, x = (sk, pk))); [by apply serves_ret|]. intros ? ->.
    eapply (serves_bind _ _ _ t _ _ (λ x, x = l)); [by apply serves_ret|]. intros ? ->.
    eapply serves_weaken; [apply (serves_ret _ _ _ (good d0 (2 * length rx))); by apply udp_steps_good|done|done].
  - intros [Hid Hrx]. by apply conn_steps_good.
  - intros ([u4 H4] & [u6 H6] & Hm). unfold iface_prog. apply good_sect; [intros h; unfold assert_dev; by dkeep|].
    intros h t t' _ _ Hc. pose proof (clock_le _ _ _ Hc) as Hle. apply serves_get. intros d Hd.
    injection Hd as _ _ _ _ _ _ E1 E2 E3 _ _ _. rewrite E1, E2, E3, H4, H6. cbn [must_dev].
    eapply (serves_bind _ _ _ t _ _ (λ x, x = u4)); [by apply serves_ret|]. intros ? ->.
    eapply (serves_bind _ _ _ t _ _ (λ x, x = u6)); [by apply serves_ret|]. intros ? ->.
    eapply (serves_bind _ _ _ t _ _ (λ _, True)).
    { unfold assert_dev. rewrite (proj2 (Z.leb_le _ _) Hm). by apply serves_ret. }
    intros _ _. eapply serves_weaken; [apply (serves_ret _ _ _ (good d0 (length rx))), iface_steps_good|done|done].
  - intros _. unfold timers_prog. apply good_sect; [intros h; by dkeep|].
    intros h t t' Hok _ Hc. pose proof (clock_le _ _ _ Hc) as Hle. apply serves_get. intros d Hd.
    assert (Hquit : ∀ p, good d0 (size (d_peers d0)) p → serves (mret p : D (R := R) (Prog Handled)) t t' d0 (good d0 (size (d_peers d0)))).
    { intros p Hp. eapply serves_weaken; [by apply (serves_ret _ _ _ (good d0 (size (d_peers d0))))|done|done]. }
    assert (Hhalt : ∀ x, good d0 (size (d_peers d0)) (Halt x)) by (intros x; by destruct (size (d_peers d0))).
    injection Hd as E _ _ _ _ _ _ _ _ _ _ _. rewrite E.
    destruct (d_udp4 d) as [u4|]; [|by apply Hquit]. destruct (d_udp6 d) as [u6|]; [|by apply Hquit]. apply Hquit.
    rewrite <- (length_map_to_list (d_peers d0)), <- (Permutation_length (Hok (d_peers d0))). apply timer_steps_good.
    apply list.Forall_forall. intros [k id] Hin%order_elem; [|done].
    destruct (mk_peers _ _ (dk_maps _ Hd0) k id Hin) as (p & Hp & _). by exists p.
Qed.
End tasks.

(** ** Workers side by side *)
Record Pool := mkPool { pool_progs : list (Prog Handled); pool_world : DWorld (R := R) }.

(** The next section of the [k]-th worker's program. *)
Definition pool_step (k : nat) (h : Host) (s : Pool) : option (result Error () * Pool) :=
  match pool_progs s !! k with
  | Some (Sect _ m) =>
      Some match m h (pool_world s) with
           | (Ok p, w) => (Ok tt, mkPool (<[k := p]> (pool_progs s)) w)
           | (Err e, w) => (Err e, mkPool (pool_progs s) w)
           | (Panic, w) => (Panic, mkPool (pool_progs s) w)
           end
  | _ => None
  end.

(** [n] sections, of any workers in any order, at non-decreasing times. *)
Inductive interleaved : nat → Z → Pool → Z → Pool → Prop :=
  | il_none t s : interleaved 0 t s t s
  | il_step n t s t1 s1 k h t2 s2 :
      interleaved n t s t1 s1 → host_ok h → host_works h → clock t1 t2 (h_env h) →
      pool_step k h s1 = Some (Ok tt, s2) → interleaved (S n) t s t2 s2.

Record pool_ok (d0 : Device) (t : Z) (left : nat) (s : Pool) : Prop := {
  po_serving : serving t d0 (pool_world s);
  po_device : device_ok (dev (pool_world s));
  po_good : ∃ ns, Forall2 (good d0) ns (pool_progs s) ∧ sum_list ns = left
}.

Lemma sum_list_insert (ns : list nat) k n n' :
  ns !! k = Some n → (sum_list (<[k := n']> ns) + n = sum_list ns + n')%nat.
Proof.
  revert k. induction ns as [|x ns IH]; intros [|k]; cbn; [done|done| |].
  - intros [= ->]. lia.
  - intros H. rewrite <- !Nat.add_assoc. f_equal. by apply IH.
Qed.

Lemma pool_goes d0 t left s k h t' i m :
  pool_ok d0 t left s → host_ok h → host_works h → clock t t' (h_env h) → pool_progs s !! k = Some (Sect i m) →
  ∃ s' left', pool_step k h s = Some (Ok tt, s') ∧ left = S left' ∧ pool_ok d0 t' left' s'.
Proof.
  intros [Hs Hd (ns & Hg & <-)] Hok Hh Hc Hk. destruct (Forall2_lookup_r _ _ _ _ _ Hg Hk) as (n & Hn & Hp).
  destruct n as [|n]; [done|]. destruct (Hp h Hok Hh) as [Hkeep Hserve].
  specialize (Hserve t t' Hc (pool_world s) Hs). specialize (Hkeep (pool_world s) Hd). unfold runs in Hserve. unfold ends in Hkeep.
  unfold pool_step. rewrite Hk. destruct (m h (pool_world s)) as [[p|e|] w]; [|done..]. destruct Hserve as [Hw Hgood].
  pose proof (sum_list_insert ns k (S n) n Hn) as Hsum.
  eexists _, (sum_list (<[k := n]> ns)). split; [done|]. split; [lia|]. split; [done|done|].
  exists (<[k := n]> ns). split; [|done]. by apply Forall2_insert.
Qed.

Lemma interleaved_ok d0 n t s t' s' left :
  interleaved n t s t' s' → pool_ok d0 t left s → ∃ left', (left = n + left')%nat ∧ pool_ok d0 t' left' s'.
Proof.
  intros Hi. revert left. induction Hi as [|n t s t1 s1 k h t2 s2 _ IH Hok Hh Hc Hstep]; intros left Hp; [by exists left|].
  destruct (IH left Hp) as (l1 & -> & Hp1).
  destruct (pool_progs s1 !! k) as [[a|i m]|] eqn:Hk; unfold pool_step in Hstep; rewrite ?Hk in Hstep; [done| |done].
  destruct (pool_goes d0 t1 l1 s1 k h t2 i m Hp1 Hok Hh Hc Hk) as (s' & l2 & E & -> & Hp2).
  unfold pool_step in E. rewrite Hk in E. rewrite E in Hstep. injection Hstep as <-. exists l2. split; [lia|done].
Qed.

(** C10: Handlers interleave safely.  Let any number of workers serve batches of
    datagrams, connected sockets, interface packets and the timers on one device
    under read guards, all at once: their sections follow one another in any
    order, with any datagrams from the network and any non-decreasing clock
    readings.  The device has been configured by requests whose configurations are
    serviceable (validated, no [<dz n>] with n above 8, room for a padded keepalive
    in the buffer) and is ready for each task: a private key is set for datagrams,
    the peer of a connected socket exists, the sockets are open and the MTU is at
    most 65535 for interface packets; and the system calls that the source unwraps
    succeed.  Then in no order does a section panic or fail; the device keeps its
    invariant and the workers leave its configuration, routes and keys as they
    were; a worker that is not done can always take its next section, whatever the
    others have done to the peers in between; and the work is over after at most
    two sections for a datagram, one for a packet or a peer, and one for a
    handler. *)
Theorem handlers_interleave t w xs n t' s :
  device_reaches t w → Forall (task_ready (dev w)) xs →
  interleaved n t (mkPool (task_prog <$> xs) w) t' s →
  device_ok (dev (pool_world s)) ∧ routes (dev (pool_world s)) = routes (dev w)
  ∧ (n ≤ sum_list (sections_of (dev w) <$> xs))%nat
  ∧ ∀ k h t2, host_ok h → host_works h → clock t' t2 (h_env h) →
      (∃ a, pool_progs s !! k = Some (Halt a)) ∨ pool_progs s !! k = None
      ∨ ∃ s2, pool_step k h s = Some (Ok tt, s2).
Proof.
  intros Hw Hx Hi. destruct (reaches_fit t w Hw) as [Hd Hf].
  assert (Hp : pool_ok (dev w) t (sum_list (sections_of (dev w) <$> xs)) (mkPool (task_prog <$> xs) w)).
  { split; [by apply fit_serving|done|]. exists (sections_of (dev w) <$> xs). split; [|done]. cbn.
    apply Forall2_fmap, Forall_Forall2_diag. eapply Forall_impl; [exact Hx|]. intros x. by apply task_good. }
  destruct (interleaved_ok _ _ _ _ _ _ _ Hi Hp) as (left & E & Hp'). split_and!; [apply Hp'|apply Hp'|lia|].
  intros k h t2 Hok Hh Hc. destruct (pool_progs s !! k) as [[a|i m]|] eqn:Hk; [left; by exists a| |by right; left].
  right; right. destruct (pool_goes _ _ _ _ k h t2 i m Hp' Hok Hh Hc Hk) as (s' & _ & Es & _). by exists s'.
Qed.
End programs.
