(* ===== verification/DeviceWorkers.v ===== *)
(** * DeviceWorkers: any number of workers on one device

    Puts the workers of [EventLoop] on the device of [DeviceLife]: what a handler
    does under its read guard is traffic, what it does with write access is
    configuration, in any interleaving of the workers and at non-decreasing times.
    Either may panic where the operation does: the worker is then gone, and what it
    leaves behind is part of what is proved.
    A handler's work under its guard is a sequence of steps, each a batch of any
    length, down to one packet; how the handlers of several workers interleave
    inside a batch and inside a packet is the subject of [DeviceSteps]. *)

From Stdlib Require Import ZArith Lia.
From stdpp Require Import base list option strings sets tactics countable gmap fin_maps.
From S2P Require Import DevLock.
From S2P Require Import Prelude Clock Text Random Codec Lfsr Amnezia Cps Config Packet Ip AllowedIps Session Handshake RateLimiter Timers Tunnel.
From S2P Require Import TunnelSafe EventPoll Device DeviceInv DeviceData EventLoop DeviceLife DeviceRoute DeviceSafe DeviceServe.
Open Scope Z_scope.

Section workers.
Context `{CC : ChaCha20} `{B64 : Base64} `{NC : NoiseCrypto} `{AE : Aead} `{RS : RandomSource R}.
Context `{TB : IpNetworkTable} `{EF : EventFd CNT}.
Implicit Types (s : Loop CNT (DWorld (R := R))) (w : DWorld (R := R)) (t : Z).

(** The change an operation makes to the device. *)
Definition effect (o : DevOp) (w : DWorld (R := R)) : DWorld (R := R) := (run_op o w).2.

(** A step of worker [i] that happens between [t] and [t']: a handler serves traffic
    under its read guard, or changes the device with write access, and returns, or
    panics where that operation panics; prep_func panics; the steps of the lock and
    of the loop take no time. *)
Definition act_at t t' i s (a : Act (DWorld (R := R))) : Prop :=
  match a with
  | Serve f => ∃ o, f = effect o ∧ op_timed t t' o ∧ traffic o = true ∧ (run_op o (inner (lk s))).1 ≠ Panic
  | Mutated f => ∃ o, f = effect o ∧ op_timed t t' o ∧ (run_op o (inner (lk s))).1 ≠ Panic
  | Panicked f =>
      (∃ o, f = effect o ∧ op_timed t t' o ∧ (is_at Reading i (lk s) → traffic o = true)
         ∧ (run_op o (inner (lk s))).1 = Panic)
      ∨ t = t' ∧ is_at WPrep i (lk s)
  | _ => t = t'
  end.

(** An interleaving of the workers, from one time to another. *)
Inductive working : Z → Loop CNT (DWorld (R := R)) → Z → Loop CNT (DWorld (R := R)) → Prop :=
  | wk_here t s : working t s t s
  | wk_step t s t1 s1 i a t2 s2 :
      working t s t1 s1 → act_at t1 t2 i s1 a → lstep i a s1 = Some s2 → working t s t2 s2.

(** Steps of the lock and of the loop alone. *)
Definition quiet (a : Act (DWorld (R := R))) : bool :=
  match a with Serve _ | Mutated _ | Panicked _ => false | _ => true end.
Lemma quiet_working t0 s0 t schedule s s' :
  working t0 s0 t s → Forall (λ m, quiet m.2 = true) schedule → lrun schedule s = Some s' → working t0 s0 t s'.
Proof.
  revert s. induction schedule as [|[i a] schedule IH]; cbn; intros s Hw Hq; [by intros [= <-]|].
  apply list.Forall_cons in Hq as [Ha Hq]. destruct (lstep i a s) as [s1|] eqn:E; [|done]. cbn.
  apply IH; [|done]. eapply wk_step; [exact Hw| |exact E]. by destruct a.
Qed.

(** ** What a panic leaves behind *)

(** A worker that panicked inside [try_writeable]. *)
Definition writer_panicked (p : PC) : bool := match p with PReread | PHeld | Crashed => true | _ => false end.

(** Either the device is as its operations left it, or a writer has panicked and no
    other worker has a guard. *)
Definition intact t s : Prop :=
  device_reaches t (inner (lk s))
  ∨ ∃ j, at_pc writer_panicked j (lk s) ∧ ∀ i, at_pc holds_read i (lk s) → i = j.

Lemma writer_panicked_announced j (l : Lock (DWorld (R := R))) : at_pc writer_panicked j l → at_pc announced j l.
Proof. intros (p & E & Hp). exists p. split; [done|by destruct p]. Qed.

(** Where worker [i] is when it takes a step of each kind. *)
Lemma lstep_at i a s s' :
  lstep i a s = Some s' → ∃ p, threads (lk s) !! i = Some p ∧
    match a with
    | Serve _ => p = Reading
    | Mutated _ => p = Writing
    | Panicked _ => p = Reading ∨ p = WPrep ∨ p = Writing
    | _ => True
    end.
Proof.
  unfold lstep. destruct (phases s !! i) as [ph|]; [|done]. destruct (threads (lk s) !! i) as [p|]; [|done].
  intros H. exists p. split; [done|]. destruct a; try done; destruct ph, p; try done; naive_solver.
Qed.

(** A panic: the worker goes where unwinding starts. *)
Lemma panic_moves i f s s' p :
  threads (lk s) !! i = Some p → lstep i (Panicked f) s = Some s' →
  threads (lk s') = <[i := match p with Reading => Dropped | WPrep => PHeld | _ => PReread end]> (threads (lk s))
  ∧ inner (lk s') = if decide (p = WPrep) then inner (lk s) else f (inner (lk s)).
Proof.
  intros Ht. unfold lstep. destruct (phases s !! i) as [ph|]; [|done]. rewrite Ht. cbn [mbind option_bind].
  destruct ph, p; try done; intros (l & El & ->)%with_lock_Some; unfold step in El; cbn in El; rewrite Ht in El; by injection El as <-.
Qed.

(** The worker that panicked in [try_writeable] only unwinds. *)
Lemma unwinding_step j a s s' q :
  threads (lk s) !! j = Some q → writer_panicked q = true → lstep j a s = Some s' →
  ∃ q', writer_panicked q' = true ∧ threads (lk s') = <[j := q']> (threads (lk s)).
Proof.
  intros Ht Hq. unfold lstep. destruct (phases s !! j) as [ph|]; [|done]. rewrite Ht. cbn [mbind option_bind].
  destruct a as [| | | | |[]|[]| |f|f|f], ph, q; try done;
    (intros (l & El & ->)%with_lock_Some; unfold step in El; rewrite Ht in El; cbn in El;
     try (apply when_Some in El as [_ ->]); try (injection El as <-); try done; eexists; (split; [|reflexivity]); done).
Qed.

(** After a writer's panic nobody gets in. *)
Lemma abandoned_stays i a s s' j :
  loop_inv s → at_pc writer_panicked j (lk s) → (∀ k, at_pc holds_read k (lk s) → k = j) → lstep i a s = Some s' →
  at_pc writer_panicked j (lk s') ∧ ∀ k, at_pc holds_read k (lk s') → k = j.
Proof.
  intros I (q & Hj & Hq) Hall Hs. destruct (lstep_at _ _ _ _ Hs) as (p & Ht & _). destruct (decide (i = j)) as [->|Hne].
  - destruct (unwinding_step j a s s' q Hj (Is_true_eq_true _ Hq) Hs) as (q' & Hq' & E). split.
    + exists q'. rewrite E, Hq'. split; [|done]. apply list_lookup_insert_eq. by eapply lookup_lt_Some.
    + intros k (r & Hk & Hr). rewrite E in Hk. apply list_lookup_insert_Some in Hk as [(-> & _)|[_ Hk]]; [done|].
      apply Hall. by exists r.
  - pose proof (lv_lock _ I) as L.
    assert (A : at_pc announced j (lk s)) by (apply writer_panicked_announced; by exists q).
    pose proof (li_announced _ L j A) as W.
    assert (Ha : announced p = false).
    { destruct (announced p) eqn:Ap; [|done]. destruct Hne. exact (li_owner _ L _ _ (at_pc_here _ _ _ _ Ht Ap) A). }
    assert (Hr : p ≠ RAcquire) by (intros ->; pose proof (li_acquire _ L _ Ht); congruence).
    destruct (phases s !! i) as [ph|] eqn:Hph; [|unfold lstep in Hs; by rewrite Hph in Hs].
    destruct (other_moves s s' i a ph p Hph Ht W Ha Hr Hs) as (ph' & p' & _ & E & Hread & _). split.
    + exists q. rewrite E, list_lookup_insert_ne by done. done.
    + intros k (r & Hk & Hh). rewrite E in Hk. apply list_lookup_insert_Some in Hk as [(-> & <- & _)|[_ Hk]].
      * apply Hall. exists p. split; [done|]. apply Is_true_true, Hread, Is_true_true, Hh.
      * apply Hall. by exists r.
Qed.

(** Traffic that panics is traffic the device was not ready for, and has changed
    nothing. *)
Lemma panic_unready t t' o w :
  device_reaches t w → op_timed t t' o → traffic o = true → (run_op o w).1 = Panic → ¬ ready (dev w) o ∧ effect o w = w.
Proof.
  intros Hw Ho Hk Hp. split; [intros Hr; destruct (served t t' o w Hw Ho Hr) as (E & _); congruence|]. unfold effect.
  destruct (unready_traffic o w Hk) as [Hr|[E|E]]; [|by rewrite E..].
  destruct (served t t' o w Hw Ho Hr) as (E & _). congruence.
Qed.

Lemma reaches_later t t' o w : device_reaches t w → op_timed t t' o → device_reaches t' w.
Proof.
  intros Hw Ho. destruct (decide (t = t')) as [<-|]; [done|].
  eapply (dt_step t t' w (MonitorEvent true None)); [exact Hw|by apply (op_timed_le _ _ o)|reflexivity|done].
Qed.

Lemma act_intact t t' i a s s' :
  loop_inv s → intact t s → act_at t t' i s a → lstep i a s = Some s' → intact t' s'.
Proof.
  intros I [Hw|(j & Hj & Hall)] Ha Hs; [|right; exists j; by eapply abandoned_stays].
  destruct (lstep_at _ _ _ _ Hs) as (p & Ht & Hat). pose proof (lstep_inner _ _ _ _ Hs) as Hi.
  destruct a; cbn in Ha; try (left; rewrite Hi; by rewrite <- Ha).
  - destruct Ha as (o & -> & Ho & Hp). left. rewrite Hi. eapply dt_step; [exact Hw|exact Ho|apply surjective_pairing|exact Hp].
  - destruct (panic_moves _ _ _ _ _ Ht Hs) as [Et Ei]. destruct Ha as [(o & -> & Ho & Hk & Hp)|[<- Hw']].
    + destruct Hat as [-> |[-> | ->]].
      * left. rewrite Ei, decide_False by done.
        destruct (panic_unready t t' o _ Hw Ho (Hk Ht) Hp) as [_ ->]. by eapply reaches_later.
      * left. rewrite Ei, decide_True by done. by eapply reaches_later.
      * right. exists i. split.
        -- exists PReread. rewrite Et. split; [|done]. apply list_lookup_insert_eq. by eapply lookup_lt_Some.
        -- intros k (r & Hkr & Hr). rewrite Et in Hkr. apply list_lookup_insert_Some in Hkr as [(-> & _)|[_ Hkr]]; [done|].
           destruct (li_write _ (lv_lock _ I) i k); [by apply (at_pc_here _ _ _ _ Ht)|by exists r].
    + left. rewrite Ei. unfold is_at in Hw'. rewrite Ht in Hw'. injection Hw' as ->. by rewrite decide_True.
  - destruct Ha as (o & -> & Ho & _ & Hp). left. rewrite Hi. eapply dt_step; [exact Hw|exact Ho|apply surjective_pairing|exact Hp].
Qed.

Lemma working_invariant t0 s0 t s :
  working t0 s0 t s → loop_inv s0 → device_reaches t0 (inner (lk s0)) → loop_inv s ∧ intact t s.
Proof.
  intros Hk I0 Hw0. induction Hk as [|t s t1 s1 i a t2 s2 _ IH Ha Hs]; [by split; [|left]|].
  destruct (IH I0 Hw0) as [I Hi]. split; [by eapply lstep_inv|by eapply act_intact].
Qed.

(** Who has access finds the device as its operations left it. *)
Lemma intact_access t s i :
  loop_inv s → intact t s → is_at Reading i (lk s) ∨ is_at Writing i (lk s) → device_reaches t (inner (lk s)).
Proof.
  intros I [Hw|(j & (q & Hj & Hq) & Hall)] [Hi|Hi]; try done; unfold is_at in *.
  - assert (i = j) as -> by (apply Hall, (at_pc_here _ _ _ _ Hi); done). rewrite Hj in Hi. by injection Hi as ->.
  - assert (i = j) as ->.
    { apply (li_owner _ (lv_lock _ I)); [by apply (at_pc_here _ _ _ _ Hi)|]. apply writer_panicked_announced. by exists q. }
    rewrite Hj in Hi. by injection Hi as ->.
Qed.

(** C9: Any number of workers serve one device together, panics included.  Start
    [n] workers on a device that its operations have brought to some state and let
    them interleave in any way, at non-decreasing times: handlers serving batches of
    traffic under read guards, handlers changing the configuration with write
    access, workers coming, yielding and leaving, and any of them panicking where
    the code it runs panics.  The configurations set are serviceable and during
    traffic the system calls that the source unwraps succeed, as for a single
    worker.  Then every worker that is in a handler with a guard, of either kind,
    finds the device in a state that a single worker could have brought it to by
    requests and traffic that do not panic, and with its invariant; so does
    everybody if no writer has panicked.  A panic of traffic does not harm the
    others, because it happens only on a device that is not ready (no private key,
    no sockets, a larger MTU than the buffer, a peer that is gone) and before
    anything has changed.  A panic with write access can leave the device half
    changed, but then no other worker gets to see it.  And any worker in a handler
    under its read guard can serve the next traffic the device is ready for: that
    step is enabled, returns, and leaves the configuration and the guards of all
    workers as they were. *)
Theorem workers_serve t0 w n t s :
  device_reaches t0 w → working t0 (loop_new w n) t s →
  (∀ i, is_at Reading i (lk s) ∨ is_at Writing i (lk s) → device_ok (dev (inner (lk s))) ∧ device_reaches t (inner (lk s)))
  ∧ ((∀ j, ¬ at_pc writer_panicked j (lk s)) → device_ok (dev (inner (lk s))) ∧ device_reaches t (inner (lk s)))
  ∧ (∀ i o t' s', is_at Reading i (lk s) → op_timed t t' o → traffic o = true →
       (run_op o (inner (lk s))).1 = Panic → lstep i (Panicked (effect o)) s = Some s' →
       ¬ ready (dev (inner (lk s))) o ∧ inner (lk s') = inner (lk s))
  ∧ ∀ i o t', phases s !! i = Some InHandler → is_at Reading i (lk s) → op_timed t t' o → ready (dev (inner (lk s))) o →
      ∃ s', lstep i (Serve (effect o)) s = Some s' ∧ working t0 (loop_new w n) t' s'
        ∧ (run_op o (inner (lk s))).1 = Ok tt ∧ inner (lk s') = (run_op o (inner (lk s))).2
        ∧ routes (dev (inner (lk s'))) = routes (dev (inner (lk s))) ∧ threads (lk s') = threads (lk s).
Proof.
  intros Hw Hk. destruct (working_invariant _ _ _ _ Hk (loop_new_inv w n) Hw) as [I Hint].
  assert (Hboth : device_reaches t (inner (lk s)) → device_ok (dev (inner (lk s))) ∧ device_reaches t (inner (lk s))).
  { intros Hr. split; [by apply (reaches_fit t)|done]. }
  split_and!.
  - intros i Hi. by apply Hboth, (intact_access t s i).
  - intros Hn. apply Hboth. destruct Hint as [|(j & Hj & _)]; [done|]. by destruct (Hn j).
  - intros i o t' s' Hi Ho Htr Hp Hs. assert (Hr : device_reaches t (inner (lk s))) by (apply (intact_access t s i); auto).
    destruct (panic_unready t t' o _ Hr Ho Htr Hp) as [Hn He]. split; [done|].
    destruct (panic_moves _ _ _ _ _ Hi Hs) as [_ ->]. by rewrite decide_False.
  - intros i o t' Hi Hg Ho Hready. assert (Hr : device_reaches t (inner (lk s))) by (apply (intact_access t s i); auto).
    destruct (served t t' o _ Hr Ho Hready) as (Hok & _ & Hroutes).
    assert (Hs : lstep i (Serve (effect o)) s = with_lock s (Some (with_inner (effect o) (lk s)))).
    { unfold lstep. unfold is_at in Hg. by rewrite Hi, Hg. }
    cbn in Hs. eexists. split; [exact Hs|]. split_and!; try done.
    eapply wk_step; [exact Hk| |exact Hs]. exists o. split_and!; [done|done| |by rewrite Hok].
    by destruct o.
Qed.
End workers.
