(* ===== verification/DeviceSpec.v ===== *)
(** * DeviceSpec: what the operations of a device do

    Adding a peer, with the allowed IPs it sets up in both directions; changing
    the listening port; and a small device on which the theorems about devices
    are instantiated. *)

From Stdlib Require Import ZArith Lia.
From stdpp Require Import base list option strings sets tactics countable gmap fin_maps.
From S2P Require Import Prelude Clock Random Codec Keys Lfsr Amnezia Cps Config Packet Ip AllowedIps.
From S2P Require Import Session Handshake RateLimiter Timers Tunnel EventPoll TunnelIdentity TunnelSafe.
From S2P Require Import Device DeviceInv DeviceData DeviceLife.
Open Scope Z_scope.

Section adding.
Context `{CC : ChaCha20} `{B64 : Base64} `{NC : NoiseCrypto} `{AE : Aead} `{RS : RandomSource R}.
Context `{TB : IpNetworkTable}.

(** The set of allowed IPs of a peer. *)
Lemma insert_all_simulates {E D} (ips : list AllowedIP) (d : D) t l :
  simulates t l → Forall allowed_ok ips →
  ∃ t', insert_all (E := E) t ((λ ip, (ip, d)) <$> ips) = Ok t'
    ∧ simulates t' (foldl (λ l a, spec_insert l a d) l ips).
Proof.
  intros Hs Hi. revert t l Hs. induction Hi as [|a ips Ha _ IH]; intros t l Hs; [by exists t|].
  cbn [insert_all fmap list_fmap foldl].
  destruct (simulates_insert (E := E) t l a d Hs Ha) as (o & t1 & E1 & Hs1). rewrite E1. by apply IH.
Qed.

(** Inserting for one value covers what was covered and what is added. *)
Lemma covers_same_net a b ip :
  allowed_ok a → allowed_ok b → ip_ok ip → same_network a b = true → covers b ip = covers a ip.
Proof.
  intros Ha Hb Hip Hs. rewrite <- !net_of_contains by done. by apply same_network_net in Hs as <-.
Qed.

Lemma spec_find_insert_any {D} (l : list (AllowedIP * D)) a d ip :
  Forall (λ x, allowed_ok x.1) l → allowed_ok a → ip_ok ip →
  is_Some (spec_find (spec_insert l a d) ip) ↔ covers a ip = true ∨ is_Some (spec_find l ip).
Proof.
  intros Hl Ha Hip. unfold spec_find. rewrite !fmap_is_Some.
  assert (Hany : ∀ l' : list (AllowedIP * D), is_Some (spec_best l' ip) ↔ ∃ x, x ∈ l' ∧ covers x.1 ip = true).
  { intros l'. pose proof (spec_best_max l' ip) as Hm. destruct (spec_best l' ip) as [[c e]|].
    - split; [|done]. intros _. destruct Hm as [(b & Hb & _ & Hc) _]. by exists (b, e).
    - split; [by intros []|]. intros ([b e] & Hb & Hc). cbn in Hc. by rewrite (Hm b e Hb) in Hc. }
  rewrite !Hany. unfold spec_insert. rewrite list.Forall_forall in Hl. split.
  - intros (x & [->|[_ Hx]%list_elem_of_filter]%elem_of_cons & Hc); [by left|right; by exists x].
  - intros [Hc|(x & Hx & Hc)]; [exists (a, d); split; [left|done]|].
    destruct (same_network a x.1) eqn:Hs.
    + exists (a, d). split; [left|]. cbn. by rewrite <- (covers_same_net a x.1 ip) by auto.
    + exists x. split; [right; by apply list_elem_of_filter|done].
Qed.

Lemma allowed_set ips ip (l : list (AllowedIP * ())) :
  Forall (λ x, allowed_ok x.1) l → Forall allowed_ok ips → ip_ok ip →
  is_Some (spec_find (foldl (λ l a, spec_insert l a tt) l ips) ip) ↔
  Exists (λ a, covers a ip = true) ips ∨ is_Some (spec_find l ip).
Proof.
  intros Hl Hi Hip. revert l Hl. induction Hi as [|a ips Ha _ IH]; intros l Hl; cbn [foldl].
  { split; [by right|intros [H|]; [by inversion H|done]]. }
  assert (Hl' : Forall (λ x, allowed_ok x.1) (spec_insert l a tt)).
  { constructor; [done|]. by apply Forall_filter_keep. }
  rewrite (IH _ Hl'), spec_find_insert_any by done. rewrite List.Exists_cons. tauto.
Qed.

Lemma route_to_simulates id ips (w : DWorld (R := R)) l :
  simulates (d_peers_by_ip (dev w)) l → Forall allowed_ok ips →
  ∃ t, route_to id ips w = (Ok tt, mkDWorld (d_set_maps (d_peers (dev w)) t (d_peers_by_idx (dev w)) (dev w)) (drng w))
    ∧ simulates t (foldl (λ l a, spec_insert l a id) l ips).
Proof.
  intros Hs Hi. unfold route_to. generalize O. revert w l Hs.
  induction Hi as [|a ips Ha _ IH]; intros w l Hs i; cbn [for_each foldl].
  { exists (d_peers_by_ip (dev w)). split; [|done]. by destruct w as [[] g]. }
  destruct (simulates_insert (E := Error) _ l a id Hs Ha) as (o & t1 & E1 & Hs1).
  unfold mbind, ST_bind, get_dev, gets, lift. rewrite E1. unfold upd_dev, modify. cbn.
  edestruct (IH (mkDWorld (d_set_maps (d_peers (dev w)) t1 (d_peers_by_idx (dev w)) (dev w)) (drng w))) as (t & E & Ht);
    [exact Hs1|]. exists t. split; [exact E|exact Ht].
Qed.

(** What the peers of [update_peer] share. *)
Definition room_for_peer (d : Device) : Prop :=
  ∃ n, drawn (d_next_index d) n ∧ Z.of_nat n + 1 < Z.pos PERIOD.

(** C26: Adding a peer.  On a consistent device that has a private key, a new
    public key with well-formed allowed IPs is added without a panic.  The peer is
    registered under its key and under a fresh index, with the endpoint and
    preshared key asked for and no socket; packets from the network are accepted
    from it exactly when their source is covered by one of the allowed IPs; and
    packets for the network are routed to it by longest prefix, each of the
    allowed IPs replacing whichever peer had that network before. *)
Theorem update_peer_adds h k replace endpoint ips keepalive range psk (w : DWorld (R := R)) routes :
  device_ok (dev w) → is_Some (d_key_pair (dev w)) → d_peers (dev w) !! k = None →
  room_for_peer (dev w) → Forall allowed_ok ips → from_option range_valid True range →
  simulates (d_peers_by_ip (dev w)) routes →
  ∃ w' id p,
    update_peer h k false replace endpoint ips keepalive range psk w = (Ok tt, w')
    ∧ d_peers (dev w') = <[k := id]> (d_peers (dev w)) ∧ d_heap (dev w) !! id = None
    ∧ d_heap (dev w') !! id = Some p ∧ d_peers_by_idx (dev w) !! p_index p = None
    ∧ d_peers_by_idx (dev w') = <[p_index p := id]> (d_peers_by_idx (dev w))
    ∧ p_endpoint p = mkEndpoint endpoint None ∧ p_preshared_key p = psk
    ∧ (∀ ip, ip_ok ip → is_allowed_ip p ip = true ↔ Exists (λ a, covers a ip = true) ips)
    ∧ simulates (d_peers_by_ip (dev w')) (foldl (λ l a, spec_insert l a id) routes ips).
Proof.
  intros [Hkey Ha Hm] [[sk pk] Hkp] Hk (n & (Hn & Hln & Hlt) & Hroom) Hi Hr Hsim.
  pose proof (next_index_spec w _ Hm) as Hnext. unfold Device_next_index in Hnext.
  pose proof (next_at (E := Error) _ n Hn Hln Hlt) as Hat. cbn zeta in Hat.
  rewrite (proj2 (Z.eqb_neq _ _)) in Hat by lia. rewrite Hat in Hnext.
  destruct Hnext as (l & Hl & _ & Hfree & _). injection Hl as Hl.
  set (idx := index_at _ _) in *. set (lf := mkIndexLfsr _ _ _) in *.
  set (config := with_keepalive_range range (peer_amnezia_config (dev w))).
  assert (Hv : Amnezia3Config_validate config = Ok ()) by (by apply validate_peer_config).
  assert (Hb : ∃ t g, build_tunnel h 0 sk k psk keepalive idx config (mkDWorld (d_set_lfsr lf (dev w)) (drng w))
    = (Ok (Ok t), mkDWorld (d_set_lfsr lf (dev w)) g)).
  { unfold build_tunnel, new_with_amnezia3. rewrite Hv. cbn [mbind result_bind].
    destruct (Timers_new _ _ _ _ _) as [tm g]. by eexists _, g. }
  destruct Hb as (t & g & Hb).
  destruct (insert_all_simulates (E := Error) ips () AllowedIps_new [] simulates_new Hi) as (tips & Ei & Hsi).
  set (id := fresh (dom (d_heap (dev w)))).
  set (p := mkPeer t idx (mkEndpoint endpoint None) tips psk range None).
  set (w2 := mkDWorld (d_set_heap (<[id := p]> (d_heap (dev w))) (d_set_maps (<[k := id]> (d_peers (dev w)))
    (d_peers_by_ip (dev w)) (<[idx := id]> (d_peers_by_idx (dev w))) (d_set_lfsr lf (dev w)))) g).
  destruct (route_to_simulates id ips w2 routes Hsim Hi) as (table & Er & Hst).
  exists (mkDWorld (d_set_maps (d_peers (dev w2)) table (d_peers_by_idx (dev w2)) (dev w2)) g), id, p.
  split.
  { unfold update_peer, mbind, ST_bind, get_dev, gets, assert_dev, must_dev, mret, ST_ret.
    rewrite bool_decide_true by done. unfold Device_next_index. cbv beta iota. rewrite Hat, Hkp. cbv beta iota.
    fold config. rewrite Hb. unfold lift, Peer_new, AllowedIps_from_iter, mbind, result_bind.
    rewrite Ei. exact Er. }
  split_and!; try done.
  - apply (fresh_heap (dev w)).
  - cbn. by rewrite lookup_insert_eq.
  - intros ip Hip. unfold is_allowed_ip. rewrite bool_decide_eq_true. cbn [p_allowed_ips p].
    rewrite (simulates_find tips _ ip Hsi Hip), allowed_set by done.
    split; [by intros [|[? [=]]]|by left].
Qed.
End adding.

(** ** Changing the listening port *)
Section listening.
Context `{CC : ChaCha20} `{B64 : Base64} `{NC : NoiseCrypto} `{AE : Aead} `{RS : RandomSource R}.
Context `{TB : IpNetworkTable}.

(** The handler registered under a descriptor. *)
Definition handles (fd : Z) (handler : Handler) (d : Device) : Prop :=
  ev_handler <$> event_at (d_queue d) fd = Some handler.

(** Bodies that keep a registered handler. *)
Definition hkeeps {A} (fd : Z) (hd : Handler) (m : D (R := R) A) : Prop :=
  ∀ w, handles fd hd (dev w) → ends m w (handles fd hd) (λ _, handles fd hd).

Section rules.
Context (fd : Z) (hd : Handler).

Lemma hkeeps_bind {A B} (m : D A) (f : A → D B) :
  hkeeps fd hd m → (∀ a, hkeeps fd hd (f a)) → hkeeps fd hd (m ≫= f).
Proof. intros Hm Hf w Hw. eapply ends_seq; [by apply Hm|]. intros a w' Hw'. by apply Hf. Qed.
Lemma hkeeps_queue {A} (m : D A) : (∀ w, d_queue (dev (m w).2) = d_queue (dev w)) → hkeeps fd hd m.
Proof.
  intros Hm w Hw. unfold ends. specialize (Hm w). unfold handles in *.
  destruct (m w) as [[] w']; [| |done]; cbn in Hm; by rewrite Hm.
Qed.
Lemma hkeeps_for {A} (l : list A) n body :
  (∀ i x, hkeeps fd hd (body i x)) → hkeeps fd hd (for_each l n body).
Proof.
  intros Hb. revert n. induction l as [|x l IH]; intros n; [by apply hkeeps_queue|].
  cbn [for_each]. apply hkeeps_bind; [done|]. intros _. apply IH.
Qed.
Lemma hkeeps_clear c : c ≠ fd → 0 ≤ fd → hkeeps fd hd (clear_event c).
Proof.
  intros Hc Hfd w Hw. unfold clear_event. apply ends_get.
  destruct (clear_event_by_fd (d_queue (dev w)) c) as [[q ctl]|e|] eqn:E; [|done..]. apply ends_upd.
  unfold handles in *. cbn. by rewrite (event_at_clear _ _ _ _ fd E Hfd), decide_False.
Qed.
Lemma hkeeps_register h c handler : c ≠ fd → 0 ≤ fd → 0 ≤ c → hkeeps fd hd (register h c handler).
Proof.
  intros Hc Hfd Hc0 w Hw. unfold register. apply ends_get. unfold new_event.
  set (ev := mkEvent _ _ _ _ _).
  pose proof (event_at_register (d_queue (dev w)) ev (h_epoll_add h c) fd Hfd Hc0) as He.
  destruct (register_event _ _ _) as [[r q] ctl]. apply ends_bind. cbn in He |- *. unfold handles in *.
  rewrite decide_False in He by done. destruct r; cbn; by rewrite ?He.
Qed.
Lemma hkeeps_shutdown h id : hkeeps fd hd (shutdown_endpoint h id).
Proof.
  apply hkeeps_queue. intros w. pose proof (shutdown_endpoint_spec h id w) as Hs.
  unfold shutdown_endpoint, lock_peer, mbind, ST_bind, get_dev, gets in *.
  destruct (d_heap (dev w) !! id) as [p|]; [|done]. cbn in *. destruct (ep_conn _); [|done].
  cbn. by destruct (h_shutdown h s).
Qed.
End rules.

Lemma register_handles h c handler (w w' : DWorld (R := R)) :
  0 ≤ c → register h c handler w = (Ok tt, w') → handles c handler (dev w').
Proof.
  intros Hc. unfold register, mbind, ST_bind, get_dev, gets, new_event. set (ev := mkEvent _ _ _ _ _).
  pose proof (event_at_register (d_queue (dev w)) ev (h_epoll_add h c) c Hc Hc) as He.
  destruct (register_event _ _ _) as [[r q] ctl]. cbn in He. rewrite decide_True in He by done.
  destruct r; cbn; [|done..]. intros [_ <-]%pair_equal_spec. unfold handles. cbn. by rewrite He.
Qed.

(** Descriptors handed out by the system are not negative. *)
Definition clones_ok (h : Host) : Prop := ∀ s c, h_clone h s = Some c → 0 ≤ c.

Lemma hkeeps_listener fd hd h s (k : D (R := R) ()) :
  clones_ok h → 0 ≤ fd → (∀ s, h_clone h s ≠ Some fd) → hkeeps fd hd k →
  hkeeps fd hd (c ← try_clone h s; _ ← register_udp_handler h c; k).
Proof.
  intros Hcl Hfd Hnew Hk w Hw. unfold try_clone. apply ends_bind. unfold mbind at 1, ST_bind.
  destruct (h_clone h s) as [c|] eqn:Ec; [|done]. cbn.
  apply hkeeps_bind; [|done|done]. apply hkeeps_register; cbn; [|done|by eapply Hcl].
  intros ->. by apply (Hnew s).
Qed.

(** A handler under a descriptor of its own survives a port change. *)
Lemma open_listen_keeps_handler h port fd hd (w : DWorld (R := R)) :
  clones_ok h → 0 ≤ fd → (∀ s, h_clone h s ≠ Some fd) →
  (∀ s, d_udp4 (dev w) = Some s → s_fd s ≠ fd) → (∀ s, d_udp6 (dev w) = Some s → s_fd s ≠ fd) →
  handles fd hd (dev w) → ends (open_listen_socket h port) w (handles fd hd) (λ _, handles fd hd).
Proof.
  intros Hcl Hfd Hnew H4 H6 Hw. unfold open_listen_socket. apply ends_get.
  assert (Hclear : ∀ o, (∀ s, o = Some s → s_fd s ≠ fd) →
    hkeeps fd hd (match o with Some s => clear_event (s_fd s) | None => mret tt end)).
  { intros [s|] Ho; [|by apply hkeeps_queue]. apply hkeeps_clear; [|done]. by apply Ho. }
  match goal with |- ends ?m _ _ _ => cut (hkeeps fd hd m); [intros Hm; exact (Hm w Hw)|] end.
  apply hkeeps_bind; [by apply hkeeps_queue|]. intros _.
  apply hkeeps_bind; [by apply Hclear|]. intros _.
  apply hkeeps_bind; [by apply hkeeps_queue|]. intros _.
  apply hkeeps_bind; [by apply Hclear|]. intros _.
  apply hkeeps_bind; [apply hkeeps_for; intros; apply hkeeps_shutdown|]. intros _.
  apply hkeeps_bind; [by apply hkeeps_queue|]. intros s4.
  apply hkeeps_bind; [by destruct (port =? 0); apply hkeeps_queue|]. intros port'.
  apply hkeeps_bind; [by apply hkeeps_queue|]. intros s6.
  do 2 (apply hkeeps_listener; [done..|]). by apply hkeeps_queue.
Qed.

(** A successful call leaves the IPv4 handler under the clone's descriptor. *)
Lemma open_listen_registers h port (w w' : DWorld (R := R)) :
  clones_ok h → open_listen_socket h port w = (Ok tt, w') →
  ∃ s4 s6 c4 c6, d_udp4 (dev w') = Some s4 ∧ d_udp6 (dev w') = Some s6
    ∧ h_clone h s4 = Some c4 ∧ h_clone h s6 = Some c6
    ∧ (c6 ≠ c4 → handles c4 (HUdp (mkSocket c4 (s_file s4))) (dev w')).
Proof.
  intros Hcl. unfold open_listen_socket, mbind at 1, ST_bind at 1, get_dev, gets.
  do 5 (unfold mbind at 1, ST_bind at 1;
    match goal with |- (match ?m with _ => _ end) = _ → _ => destruct m as [[[]|e|] ?]; [|done..] end).
  unfold mbind at 1, ST_bind at 1, lift. destruct (h_open h true port) as [s4|e|]; [|done..].
  unfold mbind at 1, ST_bind at 1.
  match goal with |- (match ?m with _ => _ end) = _ → _ => destruct m as [[port'|e|] w1]; [|done..] end.
  unfold mbind at 1, ST_bind at 1. destruct (h_open h false port') as [s6|e|]; [|done..].
  unfold mbind at 1, ST_bind at 1, try_clone, mbind at 1, ST_bind at 1.
  destruct (h_clone h s4) as [c4|] eqn:E4; [|done]. cbn [must_dev]. unfold mret, ST_ret, mbind at 1, ST_bind at 1.
  destruct (register_udp_handler h (mkSocket c4 (s_file s4)) w1) as [[[]|e|] w2] eqn:R4; [|done..].
  unfold mbind at 1, ST_bind at 1, mbind at 1, ST_bind at 1.
  destruct (h_clone h s6) as [c6|] eqn:E6; [|done]. cbn [must_dev]. unfold mret, ST_ret, mbind at 1, ST_bind at 1.
  destruct (register_udp_handler h (mkSocket c6 (s_file s6)) w2) as [[[]|e|] w3] eqn:R6; [|done..].
  intros [_ <-]%pair_equal_spec. exists s4, s6, c4, c6. split_and!; try done. intros Hne.
  apply register_handles in R4; [|by eapply Hcl].
  pose proof (hkeeps_register c4 (HUdp (mkSocket c4 (s_file s4))) h c6 (HUdp (mkSocket c6 (s_file s6)))
    Hne ltac:(by eapply Hcl) ltac:(by eapply Hcl) w2 R4) as Hk.
  unfold ends in Hk. unfold register_udp_handler in R6. cbn in R6. by rewrite R6 in Hk.
Qed.

(** Changing the listening port leaves the old listener in place.  Each
    listening socket is registered under the descriptor of its clone, and
    [open_listen_socket] removes the handlers of the old sockets by the
    descriptors of the originals: the handler of the first port, which owns the
    clone and keeps the socket open, is still registered after the change. *)
Lemma listen_port_change_keeps_old_listener h1 h2 port1 port2 (w w1 w2 : DWorld (R := R)) r s4 s6 c4 :
  clones_ok h1 → clones_ok h2 →
  open_listen_socket h1 port1 w = (Ok tt, w1) →
  d_udp4 (dev w1) = Some s4 → d_udp6 (dev w1) = Some s6 → h_clone h1 s4 = Some c4 →
  c4 ≠ s_fd s4 → c4 ≠ s_fd s6 → h_clone h1 s6 ≠ Some c4 → (∀ s, h_clone h2 s ≠ Some c4) →
  open_listen_socket h2 port2 w1 = (r, w2) → r ≠ Panic →
  handles c4 (HUdp (mkSocket c4 (s_file s4))) (dev w2).
Proof.
  intros Hc1 Hc2 H1 H4 H6 Hcl N4 N6 Nc Nn H2 Hr.
  destruct (open_listen_registers _ _ _ _ Hc1 H1) as (s4' & s6' & c4' & c6 & E4 & E6 & F4 & F6 & Hh).
  simplify_eq. assert (Hne : c6 ≠ c4) by (intros ->; congruence). specialize (Hh Hne).
  pose proof (open_listen_keeps_handler h2 port2 c4 (HUdp (mkSocket c4 (s_file s4))) w1 Hc2 ltac:(by eapply Hc1) Nn) as Hk.
  unfold ends in Hk. rewrite H2 in Hk. apply Hk in Hh; [by destruct r|..]; intros s Hs; congruence.
Qed.
End listening.
