(* ===== verification/DeviceApi.v ===== *)
(** * DeviceApi: the configuration protocol

    Models [awgtun/src/device/api.rs]: the [get=1] and [set=1] commands over
    text lines.  What [read_line] appends is a list of lines, each with its
    newline when it has one; [None] is a read that fails (an I/O error, or bytes
    that are not UTF-8) and the end of the list is the end of the stream.  The
    sockets, the write lock around [api_set] and the registration of the handlers
    are not modelled here. *)

From Stdlib Require Import ZArith Lia.
From stdpp Require Import base list option strings sets tactics countable gmap fin_maps.
From S2P Require Import Prelude Clock Text Random Codec Keys Lfsr Amnezia Cps Config Packet Ip AllowedIps.
From S2P Require Import Session Handshake RateLimiter Timers Tunnel EventPoll TunnelIdentity.
From S2P Require Import Device DeviceInv DeviceData DeviceLife DeviceSpec.
Open Scope Z_scope.

Definition EIO : Z := 5.
Definition EINVAL : Z := 22.
Definition EPROTO : Z := 71.
Definition EADDRINUSE : Z := 98.

(** [String::pop]: the last character, which may be several bytes. *)
Fixpoint drop_char (r : bytes) : bytes :=
  match r with
  | [] => []
  | b :: r' => if (128 <=? b) && (b <=? 191) then drop_char r' else r'
  end.
Definition str_pop (s : bytes) : bytes := reverse (drop_char (reverse s)).

Definition amnezia_interface_keys : list string :=
  ["jc"; "jmin"; "jmax"; "s1"; "s2"; "s3"; "s4"; "h1"; "h2"; "h3"; "h4"; "i1"; "i2"; "i3"; "i4"; "i5";
   "header_protection_key"; "content_padding_addition"; "rekey_after_time"; "rekey_timeout";
   "reject_after_time"; "keepalive_timeout"; "max_handshake_attempts"; "random_trailers";
   "disable_cookies"]%string.
Definition is_amnezia_interface_key (key : bytes) : bool :=
  bool_decide (key ∈ map bs amnezia_interface_keys).

(** The keys of the interface section that are not AmneziaWG's, and of a peer's. *)
Inductive InterfaceKey := KPrivateKey | KListenPort | KFwmark | KReplacePeers | KPublicKey.
#[export] Instance InterfaceKey_eq_dec : EqDecision InterfaceKey.
Proof. solve_decision. Defined.

Definition interface_key (key : bytes) : option InterfaceKey :=
  if decide (key = bs "private_key") then Some KPrivateKey
  else if decide (key = bs "listen_port") then Some KListenPort
  else if decide (key = bs "fwmark") then Some KFwmark
  else if decide (key = bs "replace_peers") then Some KReplacePeers
  else if decide (key = bs "public_key") then Some KPublicKey
  else None.

Inductive PeerKey :=
  | PRemove | PPresharedKey | PEndpoint | PKeepalive | PReplaceIps | PAllowedIp | PPublicKey | PVersion.
Definition peer_key (key : bytes) : option PeerKey :=
  if decide (key = bs "remove") then Some PRemove
  else if decide (key = bs "preshared_key") then Some PPresharedKey
  else if decide (key = bs "endpoint") then Some PEndpoint
  else if decide (key = bs "persistent_keepalive_interval") then Some PKeepalive
  else if decide (key = bs "replace_allowed_ips") then Some PReplaceIps
  else if decide (key = bs "allowed_ip") then Some PAllowedIp
  else if decide (key = bs "public_key") then Some PPublicKey
  else if decide (key = bs "protocol_version") then Some PVersion
  else None.

(** The locals of [api_set_peer]. *)
Record PeerArgs := mkArgs {
  a_public_key : bytes;
  a_remove : bool;
  a_replace_ips : bool;
  a_endpoint : option SocketAddr;
  a_keepalive : option Z;
  a_keepalive_range : option U32Range;
  a_preshared_key : option bytes;
  a_allowed_ips : list AllowedIP
}.
Definition args_new (pub_key : bytes) : PeerArgs := mkArgs pub_key false false None None None None [].

Section api.
Context `{CC : ChaCha20} `{B64 : Base64} `{HX : Hex} `{NC : NoiseCrypto} `{AE : Aead} `{RS : RandomSource R}.
Context `{TB : IpNetworkTable}.

Definition apply_amnezia_block (h : Host) (block : bytes) : D (R := R) Z :=
  if decide (block = []) then mret 0 else
  d ← get_dev;
  match Amnezia3Config_parse (to_uapi_block (d_amnezia d) ++ block) with
  | Ok config => _ ← set_amnezia_config h config; mret 0
  | Err _ => mret EINVAL
  | Panic => panic
  end.

(** [d.update_peer(..)] with the section read so far. *)
Definition commit (h : Host) (a : PeerArgs) : D (R := R) () :=
  update_peer h (a_public_key a) (a_remove a) (a_replace_ips a) (a_endpoint a) (a_allowed_ips a)
    (a_keepalive a) (a_keepalive_range a) (a_preshared_key a).

(** One line of a peer section: a status to return, or the next state of the
    locals. *)
Definition peer_line (h : Host) (key val : bytes) (a : PeerArgs) : D (R := R) (Z + PeerArgs) :=
  match peer_key key with
  | None => mret (inl EINVAL)
  | Some PRemove =>
      mret (match parse_bool val with
            | Some b => inr (mkArgs (a_public_key a) b (a_replace_ips a) (a_endpoint a) (a_keepalive a)
                               (a_keepalive_range a) (a_preshared_key a) (a_allowed_ips a))
            | None => inl EINVAL
            end)
  | Some PPresharedKey =>
      match KeyBytes_from_str val with
      | Ok key_bytes => mret (inr (mkArgs (a_public_key a) (a_remove a) (a_replace_ips a) (a_endpoint a)
                               (a_keepalive a) (a_keepalive_range a) (Some key_bytes) (a_allowed_ips a)))
      | Err _ => mret (inl EINVAL)
      | Panic => panic
      end
  | Some PEndpoint =>
      mret (match parse_socket_addr val with
            | Some addr => inr (mkArgs (a_public_key a) (a_remove a) (a_replace_ips a) (Some addr)
                               (a_keepalive a) (a_keepalive_range a) (a_preshared_key a) (a_allowed_ips a))
            | None => inl EINVAL
            end)
  | Some PKeepalive =>
      mret (match parse_u16 val with
            | Ok interval => inr (mkArgs (a_public_key a) (a_remove a) (a_replace_ips a) (a_endpoint a)
                               (Some interval) (a_keepalive_range a) (a_preshared_key a) (a_allowed_ips a))
            | _ =>
                match U32Range_parse val with
                | Ok range => inr (mkArgs (a_public_key a) (a_remove a) (a_replace_ips a) (a_endpoint a)
                               (a_keepalive a) (Some range) (a_preshared_key a) (a_allowed_ips a))
                | _ => inl EINVAL
                end
            end)
  | Some PReplaceIps =>
      mret (match parse_bool val with
            | Some b => inr (mkArgs (a_public_key a) (a_remove a) b (a_endpoint a) (a_keepalive a)
                               (a_keepalive_range a) (a_preshared_key a) (a_allowed_ips a))
            | None => inl EINVAL
            end)
  | Some PAllowedIp =>
      mret (match AllowedIP_from_str val with
            | Ok ip => inr (mkArgs (a_public_key a) (a_remove a) (a_replace_ips a) (a_endpoint a) (a_keepalive a)
                               (a_keepalive_range a) (a_preshared_key a) (a_allowed_ips a ++ [ip]))
            | _ => inl EINVAL
            end)
  | Some PPublicKey =>
      _ ← commit h a;
      match KeyBytes_from_str val with
      | Ok key_bytes => mret (inr (mkArgs key_bytes (a_remove a) (a_replace_ips a) (a_endpoint a) (a_keepalive a)
                               (a_keepalive_range a) (a_preshared_key a) []))
      | Err _ => mret (inl EINVAL)
      | Panic => panic
      end
  | Some PVersion => mret (match parse_u32 val with Ok 1 => inr a | _ => inl EINVAL end)
  end.

(** The loop of [api_set_peer]; the host of each line is its own. *)
Fixpoint api_set_peer (h : nat → Host) (i : nat) (input : list (option bytes)) (a : PeerArgs) : D (R := R) Z :=
  match input with
  | [] => _ ← commit (h i) a; mret 0
  | None :: _ => mret 0
  | Some line :: input' =>
      let cmd := str_pop line in
      if decide (cmd = []) then _ ← commit (h i) a; mret 0 else
      match split_once 61 cmd with
      | None => mret EPROTO
      | Some (key, val) =>
          next ← peer_line (h i) key val a;
          match next with
          | inl status => mret status
          | inr a => api_set_peer h (S i) input' a
          end
      end
  end.

(** One line of the interface section that is not AmneziaWG's: a status to
    return, or [None] to go on.  [public_key] starts the peers and is left to the
    loop. *)
Definition interface_line (h : Host) (key val : bytes) : D (R := R) (option Z) :=
  match interface_key key with
  | Some KPrivateKey =>
      match KeyBytes_from_str val with
      | Ok key_bytes => _ ← set_key h key_bytes; mret None
      | Err _ => mret (Some EINVAL)
      | Panic => panic
      end
  | Some KListenPort =>
      match parse_u16 val with
      | Ok port =>
          r ← attempt (open_listen_socket h port);
          mret (match r with Ok _ => None | _ => Some EADDRINUSE end)
      | _ => mret (Some EINVAL)
      end
  | Some KFwmark =>
      match parse_u32 val with
      | Ok mark => r ← attempt (set_fwmark h mark); mret (match r with Ok _ => None | _ => Some EADDRINUSE end)
      | _ => mret (Some EINVAL)
      end
  | Some KReplacePeers =>
      match parse_bool val with
      | Some true => _ ← clear_peers; mret None
      | Some false => mret None
      | None => mret (Some EINVAL)
      end
  | _ => mret (Some EINVAL)
  end.

Fixpoint api_set_loop (h : nat → Host) (i : nat) (input : list (option bytes)) (block : bytes) : D (R := R) Z :=
  match input with
  | [] => apply_amnezia_block (h i) block
  | None :: _ => mret 0
  | Some line :: input' =>
      let cmd := str_pop line in
      if decide (cmd = []) then apply_amnezia_block (h i) block else
      match split_once 61 cmd with
      | None => mret EPROTO
      | Some (key, val) =>
          if is_amnezia_interface_key key
          then api_set_loop h (S i) input' (block ++ key ++ bs "=" ++ val ++ [10])
          else if decide (interface_key key = Some KPublicKey) then
            match KeyBytes_from_str val with
            | Ok key_bytes =>
                status ← apply_amnezia_block (h i) block;
                if decide (status = 0) then api_set_peer h (S i) input' (args_new key_bytes) else mret status
            | Err _ => mret EINVAL
            | Panic => panic
            end
          else
            r ← interface_line (h i) key val;
            match r with
            | Some status => mret status
            | None => api_set_loop h (S i) input' block
            end
      end
  end.
Definition api_set (h : nat → Host) (input : list (option bytes)) : D (R := R) Z := api_set_loop h 0 input [].

(** ** [get=1] *)
Definition kv_line (key : string) (value : bytes) : bytes := bs key ++ bs "=" ++ value ++ [10].

(** The body of the loop over the peers; [env] is the clock of
    [time_since_last_handshake]. *)
Definition api_get_peer (env : Env) (k : bytes) (id : nat) : D (R := R) bytes :=
  p ← lock_peer id;
  time ← tunnel_do id (time_since_last_handshake env);
  mret (kv_line "public_key" (print_hex k)
    ++ from_option (λ key, kv_line "preshared_key" (print_hex key)) [] (p_preshared_key p)
    ++ match p_keepalive_range p with
       | Some range => kv_line "persistent_keepalive_interval" (U32Range_display range)
       | None => from_option (λ s, kv_line "persistent_keepalive_interval" (print_dec s)) []
                   (Peer_persistent_keepalive p)
       end
    ++ from_option (λ addr, kv_line "endpoint" (print_socket_addr addr)) [] (ep_addr (p_endpoint p))
    ++ flat_map (λ '(ip, cidr), kv_line "allowed_ip" (print_ip ip ++ bs "/" ++ print_dec cidr))
         (Peer_allowed_ips p)
    ++ from_option (λ t, kv_line "last_handshake_time_sec" (print_dec (t / NANOSECOND))
         ++ kv_line "last_handshake_time_nsec" (print_dec (t mod NANOSECOND))) [] time
    ++ kv_line "rx_bytes" (print_dec (rx_bytes (p_tunnel p)))
    ++ kv_line "tx_bytes" (print_dec (tx_bytes (p_tunnel p)))).

Fixpoint api_get_peers (h : Host) (i : nat) (l : list (bytes * nat)) : D (R := R) bytes :=
  match l with
  | [] => mret []
  | (k, id) :: l' => text ← api_get_peer (h_env h i) k id; rest ← api_get_peers h (S i) l'; mret (text ++ rest)
  end.

Definition api_get (h : Host) : D (R := R) (bytes * Z) :=
  d ← get_dev;
  peers ← api_get_peers h 0 (h_order h (d_peers d));
  mret (from_option (λ k : bytes * bytes, kv_line "own_public_key" (print_hex k.2)) [] (d_key_pair d)
        ++ (if d_listen_port d =? 0 then [] else kv_line "listen_port" (print_dec (d_listen_port d)))
        ++ from_option (λ m, kv_line "fwmark" (print_dec m)) [] (d_fwmark d)
        ++ to_uapi_block (d_amnezia d) ++ peers, 0).

(** The closure of [register_api_handler] on an accepted connection: the command
    line, then the response with its status. *)
Definition api_command (h : nat → Host) (input : list (option bytes)) : D (R := R) bytes :=
  match input with
  | None :: _ => mret []
  | _ =>
      let cmd := str_pop (default [] (mjoin (head input))) in
      '(text, status) ←
        (if decide (cmd = bs "get=1") then api_get (h O)
         else if decide (cmd = bs "set=1") then s ← api_set h (tail input); mret ([], s)
         else mret ([], EIO));
      mret (text ++ kv_line "errno" (print_dec status) ++ [10])
  end.
End api.

(** ** Every request leaves a consistent device *)
Section requests.
Context `{CC : ChaCha20} `{B64 : Base64} `{HX : Hex} `{NC : NoiseCrypto} `{AE : Aead} `{RS : RandomSource R}.
Context `{TB : IpNetworkTable}.

Definition api_status (s : Z) : Prop := s ∈ [0; EINVAL; EPROTO; EADDRINUSE].

(** A body that ends a request: a consistent device and a status of the
    protocol. *)
Definition replies (m : D (R := R) Z) : Prop :=
  ∀ w, device_ok (dev w) → ends m w device_ok (λ s d, device_ok d ∧ api_status s).

Lemma replies_ret s : api_status s → replies (mret s).
Proof. by intros Hs w Hw. Qed.
Lemma replies_bind {A} (m : D (R := R) A) f : dkeeps m → (∀ a, replies (f a)) → replies (m ≫= f).
Proof. intros Hm Hf w Hw. eapply ends_seq; [by apply Hm|]. intros a w' Hw'. by apply Hf. Qed.
Lemma replies_panic : replies panic.
Proof. by intros w Hw. Qed.
Lemma replies_status m f : replies m → (∀ s, api_status s → replies (f s)) → replies (m ≫= f).
Proof.
  intros Hm Hf w Hw. eapply ends_seq; [by apply Hm|]. intros s w' [Hw' Hs]. by apply Hf.
Qed.

Ltac status := unfold api_status; set_solver.

Lemma apply_amnezia_block_replies h block : host_ok h → replies (apply_amnezia_block h block).
Proof.
  intros Hh. unfold apply_amnezia_block. case_decide; [apply replies_ret; status|].
  apply replies_bind; [apply dkeeps_get|]. intros d.
  destruct (Amnezia3Config_parse _) as [c|e|] eqn:E; [|apply replies_ret; status|apply replies_panic].
  apply Amnezia3Config_parse_ok in E. apply replies_bind; [by apply set_amnezia_config_keeps|].
  intros _. apply replies_ret. status.
Qed.

Lemma peer_line_keeps h key val a : dkeeps (R := R) (peer_line h key val a).
Proof.
  unfold peer_line, commit. repeat case_match; try (by apply dkeeps_pure);
    (apply dkeeps_bind; [apply update_peer_keeps|intros _; by apply dkeeps_pure]).
Qed.

Lemma peer_line_status h key val a (w : DWorld (R := R)) s w' :
  peer_line h key val a w = (Ok (inl s), w') → s = EINVAL.
Proof.
  unfold peer_line, mbind, ST_bind, mret, ST_ret, panic. repeat case_match; intros; by simplify_eq.
Qed.

Lemma api_set_peer_replies h i input a : (∀ i, host_ok (h i)) → replies (api_set_peer h i input a).
Proof.
  intros Hh. revert i a. induction input as [|[line|] input IH]; intros i a; cbn [api_set_peer].
  - apply replies_bind; [apply update_peer_keeps|]. intros _. apply replies_ret. status.
  - case_decide; [apply replies_bind; [apply update_peer_keeps|]; intros _; apply replies_ret; status|].
    destruct (split_once _ _) as [[key val]|]; [|apply replies_ret; status].
    intros w Hw. apply ends_bind. pose proof (peer_line_keeps (h i) key val a w Hw) as Hk. unfold ends in Hk.
    destruct (peer_line (h i) key val a w) as [[[s|a']|e|] w'] eqn:E; [|by apply IH|done..].
    apply peer_line_status in E as ->. apply ends_ret. split; [done|status].
  - apply replies_ret. status.
Qed.

Lemma interface_line_keeps h key val : host_ok h → dkeeps (R := R) (interface_line h key val).
Proof.
  intros Hh. unfold interface_line. repeat case_match; try (by apply dkeeps_pure);
    (apply dkeeps_bind; [|intros; by apply dkeeps_pure]).
  - by apply set_key_keeps.
  - apply dkeeps_attempt, open_listen_socket_keeps.
  - apply dkeeps_attempt, set_fwmark_keeps.
  - apply clear_peers_keeps.
Qed.

Lemma interface_line_status h key val (w : DWorld (R := R)) s w' :
  interface_line h key val w = (Ok (Some s), w') → api_status s.
Proof.
  unfold interface_line, mbind, ST_bind, mret, ST_ret, panic, attempt.
  repeat case_match; intros; simplify_eq; status.
Qed.

Lemma api_set_loop_replies h i input block : (∀ i, host_ok (h i)) → replies (api_set_loop h i input block).
Proof.
  intros Hh. revert i block. induction input as [|[line|] input IH]; intros i block; cbn [api_set_loop].
  - by apply apply_amnezia_block_replies.
  - case_decide; [by apply apply_amnezia_block_replies|].
    destruct (split_once _ _) as [[key val]|]; [|apply replies_ret; status].
    destruct (is_amnezia_interface_key key); [apply IH|]. case_decide.
    + destruct (KeyBytes_from_str val) as [k|e|]; [|apply replies_ret; status|apply replies_panic].
      apply replies_status; [by apply apply_amnezia_block_replies|]. intros s Hs.
      case_decide; [by apply api_set_peer_replies|by apply replies_ret].
    + intros w Hw. apply ends_bind. pose proof (interface_line_keeps (h i) key val (Hh i) w Hw) as Hk.
      unfold ends in Hk. destruct (interface_line (h i) key val w) as [[[s|]|e|] w'] eqn:E; [|by apply IH|done..].
      apply interface_line_status in E. by apply ends_ret.
  - apply replies_ret. status.
Qed.

(** C18: Whatever lines a [set=1] request carries, it leaves a consistent device:
    unless it panics, [api_set] keeps the invariant of the device (the maps agree,
    every peer has the device's key pair and AmneziaWG configuration) and returns
    0, [EINVAL], [EPROTO] or [EADDRINUSE], also when it stops half way. *)
Theorem api_set_keeps_device h input (w w' : DWorld (R := R)) r :
  (∀ i, host_ok (h i)) → device_ok (dev w) → api_set h input w = (r, w') → r ≠ Panic →
  device_ok (dev w') ∧ ∀ s, r = Ok s → api_status s.
Proof.
  intros Hh Hw E Hr. pose proof (api_set_loop_replies h 0 input [] Hh w Hw) as H. unfold ends in H.
  unfold api_set in E. rewrite E in H. destruct r as [s|e|]; [|done..]. destruct H as [Hd Hs].
  split; [done|]. by intros s' [= <-].
Qed.

(** C27: An AmneziaWG block changes the keys it names and nothing else, and all of
    them or none.  The lines are applied, in order, to the configuration in force,
    and the result is validated as a whole: when it is accepted it becomes the
    device's configuration and every peer stays registered; when a line or the
    whole is refused the request returns [EINVAL] and the device, its peers
    and their sessions are untouched. *)
Theorem amnezia_block_overlays h block (w w' : DWorld (R := R)) r :
  host_ok h → device_ok (dev w) → block ≠ [] →
  apply_amnezia_block h block w = (r, w') → r ≠ Panic →
  match (st ← parse_lines (lines block) (state_of (d_amnezia (dev w))); parse_finish st) with
  | Ok config => r = Ok 0 ∧ d_amnezia (dev w') = config ∧ d_peers (dev w') = d_peers (dev w) ∧ device_ok (dev w')
  | Err _ => r = Ok EINVAL ∧ w' = w
  | Panic => False
  end.
Proof.
  intros Hh Hw Hb E Hr. pose proof (dk_amnezia _ Hw) as Ha.
  rewrite <- (parse_block_app (d_amnezia (dev w)) block Ha). revert E.
  unfold apply_amnezia_block, mbind, ST_bind, get_dev, gets. rewrite decide_False by done.
  destruct (Amnezia3Config_parse _) as [c|e|] eqn:Ep; [|by intros [<- <-]%pair_equal_spec|].
  - apply Amnezia3Config_parse_ok in Ep. pose proof (set_amnezia_config_spec h c w Hh Ep Hw) as Hs.
    unfold ends in Hs. destruct (set_amnezia_config h c w) as [[[]|e|] w1]; [|done|by intros [<- _]%pair_equal_spec].
    intros [<- <-]%pair_equal_spec. naive_solver.
  - intros [<- _]%pair_equal_spec. done.
Qed.
End requests.

(** ** Requests of several lines *)
Section sequences.
Context `{CC : ChaCha20} `{B64 : Base64} `{HX : Hex} `{NC : NoiseCrypto} `{AE : Aead} `{RS : RandomSource R}.
Context `{TB : IpNetworkTable}.

(** A line with its newline. *)
Definition request_line (key : string) (val : bytes) : option bytes := Some (kv_line key val).
Definition blank_line : option bytes := Some [10].

Lemma str_pop_newline s : str_pop (s ++ [10]) = s.
Proof. unfold str_pop. rewrite reverse_snoc. cbn. apply reverse_involutive. Qed.

Lemma kv_line_split key val :
  61 ∉ bs key → split_once 61 (str_pop (kv_line key val)) = Some (bs key, val).
Proof.
  intros Hk. unfold kv_line. replace (bs key ++ bs "=" ++ val ++ [10]) with ((bs key ++ 61 :: val) ++ [10])
    by (by rewrite <- !app_assoc). rewrite str_pop_newline. by apply split_once_app.
Qed.

(** No AmneziaWG key contains the separator. *)
Lemma amnezia_key_text key : is_amnezia_interface_key key = true → 61 ∉ key.
Proof.
  unfold is_amnezia_interface_key. rewrite bool_decide_eq_true. intros Hin.
  assert (Hall : Forall (λ k : bytes, 61 ∉ k) (map bs amnezia_interface_keys))
    by (by apply (bool_decide_unpack _); vm_compute).
  rewrite list.Forall_forall in Hall. by apply Hall.
Qed.

Lemma kv_line_nonempty key val : str_pop (kv_line key val) ≠ [].
Proof.
  unfold kv_line. replace (bs key ++ bs "=" ++ val ++ [10]) with ((bs key ++ 61 :: val) ++ [10])
    by (by rewrite <- !app_assoc). rewrite str_pop_newline. by destruct (bs key).
Qed.

(** The interface section ends at a peer's key. *)
Lemma api_set_first_peer h k input (w : DWorld (R := R)) :
  key_bytes k →
  api_set h (request_line "public_key" (print_hex k) :: input) w = api_set_peer h 1 input (args_new k) w.
Proof.
  intros Hk. unfold api_set, request_line. cbn [api_set_loop].
  rewrite decide_False by apply kv_line_nonempty.
  rewrite kv_line_split by (by apply (bool_decide_unpack _); vm_compute).
  replace (is_amnezia_interface_key (bs "public_key")) with false by (by vm_compute).
  rewrite decide_True by reflexivity. rewrite KeyBytes_print by done. done.
Qed.

(** A peer section's lines. *)
Lemma api_set_peer_line h i key val input a (w : DWorld (R := R)) :
  61 ∉ bs key →
  api_set_peer h i (request_line key val :: input) a w =
  (next ← peer_line (h i) (bs key) val a;
   match next with inl status => mret status | inr a => api_set_peer h (S i) input a end) w.
Proof.
  intros Hk. unfold request_line. cbn [api_set_peer]. rewrite decide_False by apply kv_line_nonempty.
  by rewrite kv_line_split.
Qed.

Lemma api_set_peer_end h i input a (w : DWorld (R := R)) :
  api_set_peer h i (blank_line :: input) a w = (_ ← commit (h i) a; mret 0) w.
Proof. done. Qed.

(** Naming a registered peer in a [set=1] request, without [remove], panics
    the worker that runs it: [update_peer] refuses to modify an existing peer, and
    does so while [api_set] holds the write lock. *)
Lemma set_existing_peer_panics h k id (w : DWorld (R := R)) :
  key_bytes k → d_peers (dev w) !! k = Some id →
  api_set h [request_line "public_key" (print_hex k); blank_line] w = (Panic, w).
Proof.
  intros Hk Hid. rewrite api_set_first_peer, api_set_peer_end by done.
  unfold commit, update_peer, mbind, ST_bind, get_dev, gets, assert_dev. cbn.
  by rewrite Hid.
Qed.

(** The settings of a peer section leak into the next one.  A request that
    removes a peer and goes on to another section removes that peer as well: the
    locals of [api_set_peer] are not reset between sections, apart from the
    allowed IPs. *)
Lemma remove_applies_to_next_peer h ka kb ida idb (w w' : DWorld (R := R)) r :
  key_bytes ka → key_bytes kb → ka ≠ kb →
  d_peers (dev w) !! ka = Some ida → d_peers (dev w) !! kb = Some idb →
  api_set h [request_line "public_key" (print_hex ka); request_line "remove" (bs "true");
             request_line "public_key" (print_hex kb); blank_line] w = (r, w') → r ≠ Panic →
  r = Ok 0 ∧ d_peers (dev w') = delete kb (delete ka (d_peers (dev w))).
Proof.
  intros Ha Hb Hne Hida Hidb. rewrite api_set_first_peer by done.
  rewrite api_set_peer_line by (by apply (bool_decide_unpack _); vm_compute).
  unfold mbind at 1, ST_bind at 1. replace (peer_line (h 1%nat) (bs "remove") (bs "true") (args_new ka) w)
    with (@Ok Error _ (inr (A := Z) (mkArgs ka true false None None None None [])), w) by reflexivity.
  rewrite api_set_peer_line by (by apply (bool_decide_unpack _); vm_compute).
  unfold peer_line. replace (peer_key (bs "public_key")) with (Some PPublicKey) by reflexivity.
  rewrite KeyBytes_print by done. unfold mbind at 1, ST_bind at 1, mbind at 1, ST_bind at 1.
  unfold commit at 1, update_peer at 1. cbn [a_remove a_public_key].
  pose proof (remove_peer_spec (h 2%nat) ka w ida Hida) as H1. unfold ends in H1.
  destruct (remove_peer (h 2%nat) ka w) as [[[]|e|] w1]; [|done|by intros [<- _]%pair_equal_spec].
  destruct H1 as (p & _ & Hd1). unfold mret at 1, ST_ret at 1. rewrite api_set_peer_end.
  unfold mbind, ST_bind, commit, update_peer. cbn [a_remove a_public_key].
  assert (Hidb1 : d_peers (dev w1) !! kb = Some idb) by (rewrite Hd1; cbn; by rewrite lookup_delete_ne).
  pose proof (remove_peer_spec (h 3%nat) kb w1 idb Hidb1) as H2. unfold ends in H2.
  destruct (remove_peer (h 3%nat) kb w1) as [[[]|e|] w2]; [|done|by intros [<- _]%pair_equal_spec].
  destruct H2 as (q & _ & Hd2). intros [<- <-]%pair_equal_spec _. split; [done|]. rewrite Hd2. cbn. by rewrite Hd1.
Qed.

(** AmneziaWG settings followed by a read error are dropped with status 0.
    When the stream fails (a line that is not UTF-8) before the section ends,
    [api_set] reports success and the lines it had collected change nothing. *)
Lemma read_error_drops_block h (kvs : list (string * bytes)) input (w : DWorld (R := R)) :
  Forall (λ kv, is_amnezia_interface_key (bs kv.1) = true) kvs →
  api_set h (map (λ kv, request_line kv.1 kv.2) kvs ++ None :: input) w = (Ok 0, w).
Proof.
  intros Hk. unfold api_set. generalize O, (@nil Z).
  induction Hk as [|[key val] kvs Hkey _ IH]; intros i block; cbn [map app fst snd]; [done|].
  cbn [fst] in Hkey. unfold request_line at 1. cbn [api_set_loop].
  rewrite decide_False by apply kv_line_nonempty. rewrite kv_line_split, Hkey by (by apply amnezia_key_text). apply IH.
Qed.
End sequences.
