(* ===== verification/Tun.v ===== *)
(** * Tun: the tunnel interface

    Models [awgtun/src/device/tun_linux.rs] and [tun_darwin.rs], and the part of
    [Device::new] that sets the interface up.  What a system call returns is an
    argument of the operation that makes it; the descriptors an operation opens
    and closes are its trace, the closing of a [TunSocket] that goes out of scope
    included.  A packet travels to and from the kernel as the message that
    [write] or [sendmsg] hands over and [read] or [recvmsg] fetches. *)

From Stdlib Require Import ZArith Lia.
From stdpp Require Import base list option strings sets tactics.
From S2P Require Import Prelude Text Ip AllowedIps EventPoll Device.
Open Scope Z_scope.

Inductive FdCall := Opened (fd : Z) | Closed (fd : Z).

(** The descriptors that were opened and not closed again. *)
Fixpoint drop_one (fd : Z) (l : list Z) : list Z :=
  match l with [] => [] | x :: l => if x =? fd then l else x :: drop_one fd l end.
Definition held (l : list FdCall) : list Z :=
  foldl (λ h c, match c with Opened fd => fd :: h | Closed fd => drop_one fd h end) [] l.

Definition IFNAMSIZ : nat := 16.

(** [ifr.ifr_name[..name.len()].copy_from_slice(name)] over zeros: [None] where the
    slicing panics. *)
Definition ifr_name (name : bytes) : option bytes :=
  if decide (length name ≤ IFNAMSIZ)%nat then Some (name ++ replicate (IFNAMSIZ - length name) 0) else None.

(** What a read of [n] bytes makes of a message: the rest is discarded. *)
Definition fetched (n : nat) (message : bytes) : bytes := take n message.

(** [fcntl] with [F_GETFL] and [F_SETFL]; on an error the socket goes out of
    scope. *)
Definition O_NONBLOCK : Z := 2048.
Definition set_non_blocking (fd : Z) (getfl : Z) (setfl : Z → Z) : result Error Z * list FdCall :=
  if getfl =? -1 then (Err FCntl, [Closed fd])
  else if setfl (Z.lor getfl O_NONBLOCK) =? -1 then (Err FCntl, [Closed fd])
  else (Ok fd, []).

Module Linux.
Record TunSocket := mkTun { tun_fd : Z; tun_name : bytes }.

Definition IFF_FLAGS : Z := Z.lor 1 (Z.lor 4096 256).

(** [TunSocket::new]: [opened] is the descriptor of [/dev/net/tun], [tunsetiff]
    the answer to the request with a name and flags. *)
Definition new (name : bytes) (opened : Z) (tunsetiff : bytes → Z → Z) : result Error TunSocket * list FdCall :=
  match parse_i32 name with
  | Ok fd => (Ok (mkTun fd name), [])
  | _ =>
      if opened =? -1 then (Err SocketError, []) else
      if decide (IFNAMSIZ ≤ length name)%nat then (Err InvalidTunnelName, [Opened opened]) else
      match ifr_name name with
      | None => (Panic, [Opened opened])
      | Some n =>
          if tunsetiff n IFF_FLAGS <? 0 then (Err IOCtl, [Opened opened])
          else (Ok (mkTun opened name), [Opened opened])
      end
  end.

Definition name (t : TunSocket) : bytes := tun_name t.

(** [mtu]: [sock] is the descriptor of the socket made for the request,
    [siocgifmtu] its answer for a name, [None] on an error. *)
Definition mtu (t : TunSocket) (sock : Z) (siocgifmtu : bytes → option Z) : result Error Z * list FdCall :=
  match parse_i32 (tun_name t) with
  | Ok _ => (Ok 1500, [])
  | _ =>
      if sock =? -1 then (Err SocketError, []) else
      match ifr_name (name t) with
      | None => (Panic, [Opened sock])
      | Some n =>
          match siocgifmtu n with
          | None => (Err IOCtl, [Opened sock])
          | Some m => (Ok (wrap 64 m), [Opened sock; Closed sock])
          end
      end
  end.

(** [write4] and [write6] hand the packet over; the result is the number of bytes
    the kernel took, or 0. *)
Definition written (n : Z) : Z := if n =? -1 then 0 else n.
Definition write4 (src : bytes) : bytes := src.
Definition write6 (src : bytes) : bytes := src.

(** [read] into a buffer of [n] bytes; [None] is an error of the call. *)
Definition read (n : nat) (message : option bytes) : result Error bytes :=
  match message with None => Err IfaceRead | Some m => Ok (fetched n m) end.
End Linux.

Module Darwin.
(** [parse_utun_name]: [x + 1] wraps in a release build. *)
Definition parse_utun_name (s : bytes) : result Error Z :=
  match strip_prefix (bs "utun") s with
  | None => Err InvalidTunnelName
  | Some [] => Ok 0
  | Some idx => match parse_u32 idx with Ok x => Ok (wrap 32 (x + 1)) | _ => Err InvalidTunnelName end
  end.

(** [TunSocket::new]: [sock] is the control socket, [ctlinfo] the answer to
    [CTLIOCGINFO] (the identifier of the control, [None] on an error), [connect]
    the answer to connecting it to a unit. *)
Definition new (s : bytes) (sock : Z) (ctlinfo : option Z) (connect : Z → Z → Z) : result Error Z * list FdCall :=
  match parse_utun_name s with
  | Ok idx =>
      if sock =? -1 then (Err SocketError, []) else
      match ctlinfo with
      | None => (Err IOCtl, [Opened sock; Closed sock])
      | Some id => if connect id idx <? 0 then (Err ConnectError, [Opened sock; Closed sock]) else (Ok sock, [Opened sock])
      end
  | Err e => (Err e, [])
  | Panic => (Panic, [])
  end.

(** [name]: the text that [getsockopt] returns with its length, without the
    terminating zero; [None] on an error.  [lossy] is [String::from_utf8_lossy]. *)
Definition name (lossy : bytes → bytes) (sockopt : option bytes) : result Error bytes :=
  match sockopt with
  | None | Some [] => Err GetSockOpt
  | Some text => Ok (lossy (take (length text - 1) text))
  end.

Definition mtu (lossy : bytes → bytes) (sockopt : option bytes) (sock : Z) (siocgifmtu : bytes → option Z)
    : result Error Z * list FdCall :=
  if sock =? -1 then (Err SocketError, []) else
  match name lossy sockopt with
  | Err e => (Err e, [Opened sock])
  | Panic => (Panic, [Opened sock])
  | Ok n =>
      match ifr_name n with
      | None => (Panic, [Opened sock])
      | Some n =>
          match siocgifmtu n with
          | None => (Err IOCtl, [Opened sock])
          | Some m => (Ok (wrap 64 m), [Opened sock; Closed sock])
          end
      end
  end.

(** The four-byte header with the address family, then the packet. *)
Definition AF_INET : Z := 2.
Definition AF_INET6 : Z := 30.
Definition framed (af : Z) (src : bytes) : bytes := [0; 0; 0; af] ++ src.
Definition write4 (src : bytes) : bytes := framed AF_INET src.
Definition write6 (src : bytes) : bytes := framed AF_INET6 src.

(** [read]: the first four bytes go to the header, the rest to a buffer of [n]
    bytes; [recvmsg] returns the number of bytes of both. *)
Definition read (n : nat) (message : option bytes) : result Error bytes :=
  match message with
  | None => Err IfaceRead
  | Some m =>
      let got := length (fetched (4 + n) m) in
      let dst := fetched n (drop 4 m) in
      Ok (if decide (got ≤ 4)%nat then [] else take (got - 4) dst)
  end.
End Darwin.

(** ** Setting the interface up *)

(** [TunSocket::new(name)?.set_non_blocking()?] and [iface.mtu()?] of [Device::new]
    on Linux; when the last fails the socket goes out of scope. *)
Definition setup_iface (name : bytes) (opened : Z) (tunsetiff : bytes → Z → Z) (getfl : Z) (setfl : Z → Z)
    (sock : Z) (siocgifmtu : bytes → option Z) : result Error (Linux.TunSocket * Z) * list FdCall :=
  let '(r, c1) := Linux.new name opened tunsetiff in
  match r with
  | Ok t =>
      let '(r, c2) := set_non_blocking (Linux.tun_fd t) getfl setfl in
      match r with
      | Ok _ =>
          let '(r, c3) := Linux.mtu t sock siocgifmtu in
          match r with
          | Ok m => (Ok (t, m), c1 ++ c2 ++ c3)
          | Err e => (Err e, c1 ++ c2 ++ c3 ++ [Closed (Linux.tun_fd t)])
          | Panic => (Panic, c1 ++ c2 ++ c3 ++ [Closed (Linux.tun_fd t)])
          end
      | Err e => (Err e, c1 ++ c2)
      | Panic => (Panic, c1 ++ c2)
      end
  | Err e => (Err e, c1)
  | Panic => (Panic, c1)
  end.

(** A socket whose name fits the request: [mtu] copies it without a check. *)
Definition tun_ok (t : Linux.TunSocket) : Prop :=
  (∃ fd, parse_i32 (Linux.tun_name t) = Ok fd ∧ Linux.tun_fd t = fd) ∨ (length (Linux.tun_name t) < IFNAMSIZ)%nat.

Lemma new_tun_ok name opened tunsetiff t calls : Linux.new name opened tunsetiff = (Ok t, calls) → tun_ok t.
Proof.
  unfold Linux.new, tun_ok. destruct (parse_i32 name) as [fd| |] eqn:Ep.
  - intros [= <- <-]. left. by exists fd.
  - intros H. right. destruct (opened =? -1); [done|]. case_decide; [done|]. repeat case_match; simplify_eq; cbn; lia.
  - intros H. right. destruct (opened =? -1); [done|]. case_decide; [done|]. repeat case_match; simplify_eq; cbn; lia.
Qed.

Lemma ifr_name_short n : (length n < IFNAMSIZ)%nat →
  ∃ f, ifr_name n = Some f ∧ length f = IFNAMSIZ ∧ take (length n) f = n ∧ drop (length n) f = replicate (IFNAMSIZ - length n) 0.
Proof.
  intros Hn. unfold ifr_name. rewrite decide_True by lia. eexists. split; [done|].
  rewrite length_app, length_replicate, take_app_length, drop_app_length. split_and!; [lia|done|done].
Qed.

Lemma mtu_no_panic t sock siocgifmtu : tun_ok t → (Linux.mtu t sock siocgifmtu).1 ≠ Panic.
Proof.
  unfold Linux.mtu. intros Ht. destruct (parse_i32 (Linux.tun_name t)) as [fd| |] eqn:Ep; [done|..];
    (destruct (sock =? -1); [done|]; destruct Ht as [(fd & E & _)|Hn]; [congruence|];
     destruct (ifr_name_short _ Hn) as (f & Ef & _); unfold Linux.name; rewrite Ef; by destruct (siocgifmtu f)).
Qed.

(** Every failed request for the MTU leaves its socket open: a device whose
    interface went away loses a descriptor with every turn of its timers. *)
Lemma failed_mtu_leaks t sock siocgifmtu r calls :
  parse_i32 (Linux.tun_name t) = Err InvalidDigit → sock ≠ -1 →
  Linux.mtu t sock siocgifmtu = (r, calls) → r = Err IOCtl → held calls = [sock].
Proof.
  unfold Linux.mtu. intros -> Hs%Z.eqb_neq. rewrite Hs. destruct (ifr_name _); [|by intros [= <- _]].
  destruct (siocgifmtu _); intros [= <- <-]; [done|]. done.
Qed.

Lemma drop_one_head fd l : drop_one fd (fd :: l) = l.
Proof. cbn. by rewrite Z.eqb_refl. Qed.

(** What [TunSocket::new] leaves open: the descriptor of the socket, also on the two
    error paths after the device node was opened. *)
Lemma new_held name opened tunsetiff r calls :
  opened ≠ -1 → Linux.new name opened tunsetiff = (r, calls) →
  match r with
  | Ok t => Linux.tun_name t = name ∧
      ((calls = [] ∧ ∃ fd, parse_i32 name = Ok fd) ∨
       (calls = [Opened (Linux.tun_fd t)] ∧ Linux.tun_fd t = opened ∧ ¬ ∃ fd, parse_i32 name = Ok fd))
  | Err e => calls = [Opened opened] ∧ (¬ ∃ fd, parse_i32 name = Ok fd)
      ∧ ((IFNAMSIZ ≤ length name)%nat ∨ ∃ n, ifr_name name = Some n ∧ tunsetiff n Linux.IFF_FLAGS < 0)
  | Panic => False
  end.
Proof.
  unfold Linux.new. intros Ho%Z.eqb_neq.
  assert (Hnot : ∀ x, parse_i32 name = x → (∀ fd, x ≠ Ok fd) → ¬ ∃ fd, parse_i32 name = Ok fd).
  { intros x Ex Hx [fd E]. apply (Hx fd). congruence. }
  assert (Hrest : (∀ fd, parse_i32 name ≠ Ok fd) →
    (if opened =? -1 then (Err SocketError, []) else
      if decide (IFNAMSIZ ≤ length name)%nat then (Err InvalidTunnelName, [Opened opened]) else
      match ifr_name name with
      | None => (Panic, [Opened opened])
      | Some n => if tunsetiff n Linux.IFF_FLAGS <? 0 then (Err IOCtl, [Opened opened])
                  else (Ok (Linux.mkTun opened name), [Opened opened])
      end) = (r, calls) → match r with
  | Ok t => Linux.tun_name t = name ∧
      ((calls = [] ∧ ∃ fd, parse_i32 name = Ok fd) ∨
       (calls = [Opened (Linux.tun_fd t)] ∧ Linux.tun_fd t = opened ∧ ¬ ∃ fd, parse_i32 name = Ok fd))
  | Err e => calls = [Opened opened] ∧ (¬ ∃ fd, parse_i32 name = Ok fd)
      ∧ ((IFNAMSIZ ≤ length name)%nat ∨ ∃ n, ifr_name name = Some n ∧ tunsetiff n Linux.IFF_FLAGS < 0)
  | Panic => False
  end).
  { intros Hn. rewrite Ho. assert (Hn' : ¬ ∃ fd, parse_i32 name = Ok fd) by naive_solver.
    case_decide as Hl; [intros [= <- <-]; by split_and!; auto|].
    destruct (ifr_name_short name ltac:(lia)) as (f & Ef & _). rewrite Ef.
    destruct (Z.ltb_spec (tunsetiff f Linux.IFF_FLAGS) 0); intros [= <- <-]; cbn; [|by auto].
    split_and!; [done|done|]. right. by exists f. }
  destruct (parse_i32 name) as [fd| |] eqn:Ep; [|apply Hrest; congruence..].
  intros [= <- <-]. cbn. split; [done|]. left. split; [done|]. by exists fd.
Qed.

(** Setting up the tunnel interface on Linux never panics and keeps track of
    its descriptors.  Whatever the kernel answers, a set-up that succeeds ends with
    a socket whose name fits every later request and holds one open descriptor,
    the socket's own, or none of its own when the name is the number of a
    descriptor that was handed in; a set-up that fails holds none, but for two
    error paths that the source leaves open: the device node when the name is too
    long or its request is refused, and the request socket when the MTU request is
    refused. *)
Theorem iface_setup_descriptors name opened tunsetiff getfl setfl sock siocgifmtu r calls :
  opened ≠ -1 → sock ≠ -1 → opened ≠ sock →
  setup_iface name opened tunsetiff getfl setfl sock siocgifmtu = (r, calls) →
  match r with
  | Ok (t, m) => tun_ok t ∧ Linux.tun_name t = name
      ∧ (held calls = [Linux.tun_fd t] ∧ Linux.tun_fd t = opened ∨ held calls = [] ∧ parse_i32 name = Ok (Linux.tun_fd t))
  | Err e => held calls = []
      ∨ held calls = [opened] ∧ ((IFNAMSIZ ≤ length name)%nat ∨ ∃ n, ifr_name name = Some n ∧ tunsetiff n Linux.IFF_FLAGS < 0)
      ∨ held calls = [sock] ∧ ∃ n, ifr_name name = Some n ∧ siocgifmtu n = None
  | Panic => False
  end.
Proof.
  intros Ho Hs Hne. unfold setup_iface. destruct (Linux.new name opened tunsetiff) as [r1 c1] eqn:En.
  pose proof (new_held _ _ _ _ _ Ho En) as Hn. destruct r1 as [t|e|]; [|intros [= <- <-]; destruct Hn as (-> & _ & Hn); by auto|done].
  pose proof (new_tun_ok _ _ _ _ _ En) as Ht. destruct Hn as [Hname Hn].
  unfold set_non_blocking.
  destruct (getfl =? -1); [|destruct (setfl _ =? -1)]; try (intros [= <- <-]; left;
    destruct Hn as [[-> _]|(-> & _)]; [done|]; unfold held; cbn [app foldl]; by rewrite drop_one_head).
  destruct Hn as [[-> [fd Ep]]|(-> & Hfd & Hnum)].
  - unfold Linux.mtu. rewrite Hname, Ep. intros [= <- <-]. split_and!; [done|done|]. right. split; [done|].
    destruct Ht as [(fd' & E & <-)|Hl]; [congruence|]. unfold Linux.new in En. rewrite Ep in En. by injection En as <-.
  - unfold Linux.mtu. rewrite Hname. apply Z.eqb_neq in Hs. rewrite Hs.
    assert (Hpar : ∀ x : result Error Z * list FdCall, match parse_i32 name with Ok _ => (Ok 1500, []) | _ => x end = x).
    { intros x. destruct (parse_i32 name) as [fd| |] eqn:E; try done. destruct Hnum. by exists fd. }
    rewrite Hpar. destruct Ht as [(fd & E & _)|Hl]; [destruct Hnum; exists fd; by rewrite <- Hname|].
    destruct (ifr_name_short _ Hl) as (f & Ef & _). unfold Linux.name. rewrite Hname in Ef. rewrite Hname, Ef.
    destruct (siocgifmtu f) as [m|] eqn:Em; intros [= <- <-].
    + split_and!; [by right|done|]. left. unfold held. cbn [app foldl]. by rewrite drop_one_head.
    + right. right. split; [|by exists f]. unfold held. cbn. rewrite Hfd.
      rewrite (proj2 (Z.eqb_neq sock opened)) by done. by rewrite Z.eqb_refl.
Qed.

Lemma iface_setup_descriptors_witness :
  ∃ t, setup_iface (bs "wg0") 5 (λ _ _, 0) 2 (λ _, 0) 6 (λ _, Some 1420) = (Ok (t, 1420), [Opened 5; Opened 6; Closed 6])
    ∧ tun_ok t ∧ Linux.tun_name t = bs "wg0" ∧ held [Opened 5; Opened 6; Closed 6] = [5] ∧ Linux.tun_fd t = 5.
Proof.
  eexists. split; [vm_compute; reflexivity|].
  destruct (iface_setup_descriptors (bs "wg0") 5 (λ _ _, 0) 2 (λ _, 0) 6 (λ _, Some 1420) (Ok (Linux.mkTun 5 (bs "wg0"), 1420))
    [Opened 5; Opened 6; Closed 6]) as (H1 & H2 & [H3|[H3 _]]);
    [lia|lia|lia|vm_compute; reflexivity|split; [exact H1|split; [exact H2|exact H3]]|discriminate H3].
Defined.

(** Packets cross the interface unchanged.  On Linux and on Darwin, for IPv4 and
    for IPv6, what [read] makes of the message that [write4] or [write6] handed over
    is the packet itself, whenever it fits the buffer; a longer one arrives cut to
    the buffer; and on Darwin a message with nothing after its header is an empty
    packet.  [read] fails only when the call does. *)
Theorem tun_framing_roundtrip p n :
  Linux.read n (Some (Linux.write4 p)) = Ok (take n p) ∧ Linux.read n (Some (Linux.write6 p)) = Ok (take n p)
  ∧ Darwin.read n (Some (Darwin.write4 p)) = Ok (take n p) ∧ Darwin.read n (Some (Darwin.write6 p)) = Ok (take n p)
  ∧ ((length p ≤ n)%nat → take n p = p)
  ∧ ∀ m, (length m ≤ 4)%nat → Darwin.read n (Some m) = Ok [].
Proof.
  assert (Hd : ∀ af, Darwin.read n (Some (Darwin.framed af p)) = Ok (take n p)).
  { intros af. unfold Darwin.read, Darwin.framed, fetched. cbn [length app drop].
    rewrite length_take. cbn [length]. case_decide as Hl.
    - f_equal. destruct n; [done|]. by destruct p; cbn in Hl; [|lia].
    - change (drop 0 p) with p. rewrite take_ge; [done|]. rewrite length_take. lia. }
  split_and!; [done|done|apply Hd|apply Hd|by apply take_ge|].
  intros m Hm. unfold Darwin.read. rewrite decide_True; [done|]. unfold fetched. rewrite length_take. lia.
Qed.

(** The unit of a numbered interface: one more than its number, so that 0 can ask
    for any. *)
Lemma utun_name_unit x :
  0 ≤ x < 2 ^ 32 - 1 → Darwin.parse_utun_name (bs "utun" ++ print_dec x) = Ok (x + 1).
Proof.
  intros Hx. unfold Darwin.parse_utun_name.
  assert (strip_prefix (bs "utun") (bs "utun" ++ print_dec x) = Some (print_dec x)) as -> by done.
  pose proof (print_dec_nonempty x). destruct (print_dec x) as [|c l] eqn:E; [done|]. rewrite <- E.
  rewrite parse_u32_print by (widths; lia). rewrite wrap_small by (widths; lia). done.
Qed.

(** The last number wraps to the unit that asks for any interface. *)
Lemma utun_name_wraps : Darwin.parse_utun_name (bs "utun4294967295") = Ok 0 ∧ Darwin.parse_utun_name (bs "utun+5") = Ok 6.
Proof. split; reflexivity. Qed.
