(* ===== verification/Privileges.v ===== *)
(** * Privileges: giving up root

    Models [awgtun/src/device/drop_privileges.rs].  The credentials of a process
    are the kernel's, as setuid(2), setgid(2) and credentials(7) document them:
    real, effective and saved identifiers of user and group and the supplementary
    groups, and the calls [setuid] and [setgid].  The user that logged in is an
    answer of the system. *)

From Stdlib Require Import ZArith Lia.
From stdpp Require Import base list option strings sets tactics.
From S2P Require Import Prelude Text Ip AllowedIps EventPoll Device.
Open Scope Z_scope.

(** Real, effective and saved identifier. *)
Record Ids := mkIds { real : Z; effective : Z; saved : Z }.
Definition all_ids (x : Z) : Ids := mkIds x x x.
Definition among (x : Z) (i : Ids) : Prop := x = real i ∨ x = effective i ∨ x = saved i.

(** setuid(2) and setgid(2): a privileged caller (effective user 0) sets all three
    identifiers; any other may only make its real or saved identifier the
    effective one; nothing else is possible, and neither call touches the other's
    identifiers or the supplementary groups. *)
Class Credentials (C : Type) := {
  uids : C → Ids;
  gids : C → Ids;
  groups : C → list Z;
  setuid : Z → C → option C;
  setgid : Z → C → option C;
  setuid_privileged u c : effective (uids c) = 0 → ∃ c', setuid u c = Some c' ∧ uids c' = all_ids u;
  setuid_unprivileged u c c' : effective (uids c) ≠ 0 → setuid u c = Some c' →
    (u = real (uids c) ∨ u = saved (uids c)) ∧ uids c' = mkIds (real (uids c)) u (saved (uids c));
  setuid_same u c : effective (uids c) ≠ 0 → u = real (uids c) ∨ u = saved (uids c) → ∃ c', setuid u c = Some c';
  setuid_frame u c c' : setuid u c = Some c' → gids c' = gids c ∧ groups c' = groups c;
  setgid_privileged g c : effective (uids c) = 0 → ∃ c', setgid g c = Some c' ∧ gids c' = all_ids g;
  setgid_unprivileged g c c' : effective (uids c) ≠ 0 → setgid g c = Some c' →
    (g = real (gids c) ∨ g = saved (gids c)) ∧ gids c' = mkIds (real (gids c)) g (saved (gids c));
  setgid_same g c : effective (uids c) ≠ 0 → g = real (gids c) ∨ g = saved (gids c) → ∃ c', setgid g c = Some c';
  setgid_frame g c c' : setgid g c = Some c' → uids c' = uids c ∧ groups c' = groups c
}.

Section privileges.
Context `{CR : Credentials C}.

(** [get_saved_ids] on Linux: [login] is the name that [getlogin] returns, [passwd]
    the entry [getpwnam] finds for it (user and group). *)
Definition get_saved_ids (login : option bytes) (passwd : bytes → option (Z * Z)) : result Error (Z * Z) :=
  match login with
  | None => Err DropPrivileges
  | Some uname => match passwd uname with None => Err DropPrivileges | Some ids => Ok ids end
  end.

(** [get_saved_ids] on macOS: [user] is the variable USER of the environment,
    [from_name] the lookup of a user, which can fail. *)
Definition get_saved_ids_macos (user : option bytes) (from_name : bytes → result () (option (Z * Z))) : result Error (Z * Z) :=
  match user with
  | None => Err DropPrivileges
  | Some uname =>
      match from_name uname with
      | Ok (Some ids) => Ok ids
      | Ok None => Err DropPrivileges
      | Err _ => Err DropPrivileges
      | Panic => Panic
      end
  end.

(** [drop_privileges]: the credentials it leaves behind, on an error too. *)
Definition drop_privileges (login : option bytes) (passwd : bytes → option (Z * Z)) (c : C) : result Error () * C :=
  match get_saved_ids login passwd with
  | Ok (saved_uid, saved_gid) =>
      match setgid saved_gid c with
      | None => (Err DropPrivileges, c)
      | Some c1 =>
          match setuid saved_uid c1 with
          | None => (Err DropPrivileges, c1)
          | Some c2 =>
              match setgid 0 c2 with
              | Some c3 => (Err DropPrivileges, c3)
              | None => match setuid 0 c2 with Some c3 => (Err DropPrivileges, c3) | None => (Ok tt, c2) end
              end
          end
      end
  | Err e => (Err e, c)
  | Panic => (Panic, c)
  end.

(** The calls a process makes afterwards; a failed one changes nothing. *)
Inductive IdCall := SetUid (u : Z) | SetGid (g : Z).
Definition id_call (k : IdCall) (c : C) : C :=
  match k with SetUid u => default c (setuid u c) | SetGid g => default c (setgid g c) end.
Definition id_calls (l : list IdCall) (c : C) : C := foldl (λ c k, id_call k c) c l.

(** No way back: root is none of the identifiers. *)
Definition no_root (c : C) : Prop := ¬ among 0 (uids c) ∧ ¬ among 0 (gids c).

Lemma refused_uid c : setuid 0 c = None → effective (uids c) ≠ 0 ∧ ¬ among 0 (uids c).
Proof.
  intros Hn. assert (He : effective (uids c) ≠ 0).
  { intros E. destruct (setuid_privileged 0 c E) as (c' & Es & _). congruence. }
  split; [done|]. intros [E|[E|E]]; [|congruence|]; destruct (setuid_same 0 c He) as [c' Ec]; auto; congruence.
Qed.

Lemma refused_gid c : effective (uids c) ≠ 0 → setgid 0 c = None → 0 ≠ real (gids c) ∧ 0 ≠ saved (gids c).
Proof.
  intros He Hn. split; intros E; destruct (setgid_same 0 c He) as [c' Ec]; auto; congruence.
Qed.

Lemma id_call_keeps k c :
  no_root c → no_root (id_call k c) ∧ groups (id_call k c) = groups c
    ∧ real (uids (id_call k c)) = real (uids c) ∧ saved (uids (id_call k c)) = saved (uids c)
    ∧ real (gids (id_call k c)) = real (gids c) ∧ saved (gids (id_call k c)) = saved (gids c).
Proof.
  intros [Hu Hg]. assert (He : effective (uids c) ≠ 0) by (intros E; apply Hu; right; by left).
  destruct k as [u|g]; cbn.
  - destruct (setuid u c) as [c'|] eqn:Es; cbn; [|done].
    destruct (setuid_unprivileged u c c' He Es) as [Hr E]. destruct (setuid_frame u c c' Es) as [Eg Egr].
    unfold no_root, among in *. rewrite E, Eg, Egr. cbn. split_and!; try done. intros [H|[H|H]]; apply Hu; subst; tauto.
  - destruct (setgid g c) as [c'|] eqn:Es; cbn; [|done].
    destruct (setgid_unprivileged g c c' He Es) as [Hr E]. destruct (setgid_frame g c c' Es) as [Eu Egr].
    unfold no_root, among in *. rewrite E, Eu, Egr. cbn. split_and!; try done. intros [H|[H|H]]; apply Hg; subst; tauto.
Qed.

Lemma id_calls_keep l c :
  no_root c → no_root (id_calls l c) ∧ groups (id_calls l c) = groups c
    ∧ real (uids (id_calls l c)) = real (uids c) ∧ saved (uids (id_calls l c)) = saved (uids c)
    ∧ real (gids (id_calls l c)) = real (gids c) ∧ saved (gids (id_calls l c)) = saved (gids c).
Proof.
  revert c. induction l as [|k l IH]; cbn; intros c Hc; [done|].
  destruct (id_call_keeps k c Hc) as (H1 & <- & <- & <- & <- & <-). by apply IH.
Qed.

(** The identifiers after a successful [drop_privileges]. *)
Lemma drop_privileges_ids login passwd c c' :
  drop_privileges login passwd c = (Ok tt, c') →
  ∃ u g c1, get_saved_ids login passwd = Ok (u, g) ∧ setgid g c = Some c1 ∧ setuid u c1 = Some c'
    ∧ effective (uids c') = u ∧ effective (gids c') = g ∧ no_root c' ∧ groups c' = groups c
    ∧ (effective (uids c) = 0 → uids c' = all_ids u ∧ gids c' = all_ids g).
Proof.
  unfold drop_privileges. destruct (get_saved_ids login passwd) as [[u g]| |]; try done.
  destruct (setgid g c) as [c1|] eqn:Eg; [|done]. destruct (setuid u c1) as [c2|] eqn:Eu; [|done].
  destruct (setgid 0 c2) as [c3|] eqn:Eg0; [done|]. destruct (setuid 0 c2) as [c3|] eqn:Eu0; [done|]. intros [= <-].
  destruct (setgid_frame _ _ _ Eg) as [Fu Fgr]. destruct (setuid_frame _ _ _ Eu) as [Fg Fgr'].
  destruct (refused_uid _ Eu0) as [Hne Hu0]. destruct (refused_gid _ Hne Eg0) as [Hr Hs].
  assert (Hu : effective (uids c2) = u ∧ (effective (uids c) = 0 → uids c2 = all_ids u)).
  { destruct (decide (effective (uids c1) = 0)) as [E|E].
    - destruct (setuid_privileged u c1 E) as (c2' & E2 & E3). rewrite Eu in E2. injection E2 as <-. rewrite E3. done.
    - destruct (setuid_unprivileged u c1 c2 E Eu) as [_ E3]. rewrite E3. split; [done|]. rewrite <- Fu. congruence. }
  assert (Hg : effective (gids c1) = g ∧ (g = real (gids c1) ∨ g = saved (gids c1)) ∧ (effective (uids c) = 0 → gids c1 = all_ids g)).
  { destruct (decide (effective (uids c) = 0)) as [E|E].
    - destruct (setgid_privileged g c E) as (c1' & E2 & E3). rewrite Eg in E2. injection E2 as <-. rewrite E3. split_and!; [done|by left|done].
    - destruct (setgid_unprivileged g c c1 E Eg) as [Hin E3]. rewrite E3. split_and!; [done|exact Hin|congruence]. }
  rewrite Fg in Hr, Hs. exists u, g, c1. rewrite Fg. destruct Hu as [Hu Hu'], Hg as (Hg & Hin & Hg').
  split_and!; try done; [|by rewrite Fgr', Fgr|auto].
  split; [done|]. rewrite Fg. intros [E|[E|E]]; [done| |done]. destruct Hin as [Hin|Hin]; congruence.
Qed.

(** C32: Dropping privileges is final.  When [drop_privileges] returns Ok, the
    effective user and group are those of the user that logged in, neither is
    root, and for a process that was root so are the real and saved ones; and
    whatever sequence of setuid and setgid calls the process makes from then on,
    it never has root among its identifiers again, and its real and saved
    identifiers stay as they are. *)
Theorem privileges_stay_dropped login passwd c c' l :
  drop_privileges login passwd c = (Ok tt, c') →
  ∃ u g, get_saved_ids login passwd = Ok (u, g)
    ∧ effective (uids c') = u ∧ effective (gids c') = g ∧ u ≠ 0 ∧ g ≠ 0
    ∧ (effective (uids c) = 0 → uids c' = all_ids u ∧ gids c' = all_ids g)
    ∧ no_root (id_calls l c')
    ∧ real (uids (id_calls l c')) = real (uids c') ∧ saved (uids (id_calls l c')) = saved (uids c')
    ∧ real (gids (id_calls l c')) = real (gids c') ∧ saved (gids (id_calls l c')) = saved (gids c').
Proof.
  intros E. destruct (drop_privileges_ids _ _ _ _ E) as (u & g & c1 & Hids & _ & _ & Hu & Hg & Hno & _ & Hall).
  exists u, g. destruct (id_calls_keep l c' Hno) as (H1 & _ & H2 & H3 & H4 & H5). destruct Hno as [Nu Ng].
  split_and!; try done; intros ->; [apply Nu|apply Ng]; right; by left.
Qed.

(** The supplementary groups are those the process started with: the groups of
    root, for a process started by root, are never given up. *)
Lemma groups_are_kept login passwd c c' : drop_privileges login passwd c = (Ok tt, c') → groups c' = groups c.
Proof. intros E. by destruct (drop_privileges_ids _ _ _ _ E) as (u & g & c1 & _ & _ & _ & _ & _ & _ & Hgr & _). Qed.

(** A login as root has nothing to drop to, and is refused. *)
Lemma root_login_refused login passwd c g :
  effective (uids c) = 0 → get_saved_ids login passwd = Ok (0, g) → (drop_privileges login passwd c).1 = Err DropPrivileges.
Proof.
  intros He Hids. unfold drop_privileges. rewrite Hids. destruct (setgid g c) as [c1|] eqn:Eg; [|done].
  destruct (setgid_frame _ _ _ Eg) as [Fu _]. destruct (setuid_privileged 0 c1) as (c2 & Eu & E2); [congruence|]. rewrite Eu.
  destruct (setgid_privileged 0 c2) as (c3 & Eg0 & _); [by rewrite E2|]. by rewrite Eg0.
Qed.
End privileges.

(** ** Credentials as a record *)
Module Process.
Record creds := mkCreds { c_uids : Ids; c_gids : Ids; c_groups : list Z }.
Definition change (privileged : bool) (x : Z) (i : Ids) : option Ids :=
  if privileged then Some (all_ids x)
  else if (x =? real i) || (x =? saved i) then Some (mkIds (real i) x (saved i)) else None.
Definition set_uid (u : Z) (c : creds) : option creds :=
  (λ i, mkCreds i (c_gids c) (c_groups c)) <$> change (effective (c_uids c) =? 0) u (c_uids c).
Definition set_gid (g : Z) (c : creds) : option creds :=
  (λ i, mkCreds (c_uids c) i (c_groups c)) <$> change (effective (c_uids c) =? 0) g (c_gids c).

Lemma change_privileged x i : change true x i = Some (all_ids x).
Proof. done. Qed.
Lemma change_other x i i' :
  change false x i = Some i' → (x = real i ∨ x = saved i) ∧ i' = mkIds (real i) x (saved i).
Proof.
  unfold change. destruct (_ || _) eqn:E; [|done]. intros [= <-]. split; [|done].
  apply orb_true_iff in E as [E%Z.eqb_eq|E%Z.eqb_eq]; auto.
Qed.
Lemma change_same x i : x = real i ∨ x = saved i → change false x i = Some (mkIds (real i) x (saved i)).
Proof. unfold change. intros [-> | ->]; by rewrite Z.eqb_refl, ?orb_true_r. Qed.

#[export, refine] Instance credentials : Credentials creds := {|
  uids := c_uids; gids := c_gids; groups := c_groups; setuid := set_uid; setgid := set_gid
|}.
Proof.
  - intros u c E. unfold set_uid. rewrite E. by eexists.
  - intros u c c' E%Z.eqb_neq. unfold set_uid. rewrite E. intros (i & Hi & ->)%fmap_Some. by apply change_other.
  - intros u c E%Z.eqb_neq Hu. eexists. unfold set_uid. rewrite E. by rewrite (change_same _ _ Hu).
  - intros u c c'. unfold set_uid. by intros (i & Hi & ->)%fmap_Some.
  - intros g c E. unfold set_gid. rewrite E. by eexists.
  - intros g c c' E%Z.eqb_neq. unfold set_gid. rewrite E. intros (i & Hi & ->)%fmap_Some. by apply change_other.
  - intros g c E%Z.eqb_neq Hg. eexists. unfold set_gid. rewrite E. by rewrite (change_same _ _ Hg).
  - intros g c c'. unfold set_gid. by intros (i & Hi & ->)%fmap_Some.
Defined.

Definition root : creds := mkCreds (all_ids 0) (all_ids 0) [0; 1].
End Process.

Section sample.
Local Existing Instance Process.credentials.

Lemma privileges_stay_dropped_witness :
  ∃ c', drop_privileges (Some (bs "alice")) (λ _, Some (1000, 100)) Process.root = (Ok tt, c')
    ∧ uids c' = all_ids 1000 ∧ no_root (id_calls [SetUid 0; SetGid 0; SetUid 1000] c').
Proof.
  eexists. split; [vm_compute; reflexivity|]. split; [reflexivity|].
  destruct (privileges_stay_dropped (CR := Process.credentials) (Some (bs "alice")) (λ _, Some (1000, 100)) Process.root
    (Process.mkCreds (all_ids 1000) (all_ids 100) [0; 1]) [SetUid 0; SetGid 0; SetUid 1000]
    eq_refl) as (u & g & _ & _ & _ & _ & _ & _ & H & _).
  exact H.
Defined.
End sample.
