(* ===== verification/Cli.v ===== *)
(** * Cli: the command line program

    Models [awgtun-cli/src/main.rs]: the arguments after [clap] has split them, the
    values [main] makes of them, and the start of the daemon, in which the parent
    process waits on a socket pair for the byte by which the child reports whether
    the device came up.  What the device, the privileges and the fork answer are
    arguments. *)

From Stdlib Require Import ZArith Lia.
From stdpp Require Import base list option strings sets tactics.
From S2P Require Import Prelude Text Ip AllowedIps EventPoll Device Tun.
Open Scope Z_scope.

(** The arguments; the values of [verbosity] are those its parser admits. *)
Inductive Verbosity := VError | VInfo | VDebug | VTrace.
Record Args := mkArgs {
  INTERFACE_NAME : bytes;
  foreground : bool;
  threads : bytes;
  verbosity : Verbosity;
  uapi_fd : bytes;
  tun_fd : bytes;
  disable_drop_privileges : bool;
  disable_connected_udp : bool;
  disable_multi_queue : bool
}.

Record DeviceConfig := mkDeviceConfig {
  n_threads : Z;
  use_connected_socket : bool;
  use_multi_queue : bool;
  config_uapi_fd : Z
}.
Definition DeviceConfig_default : DeviceConfig := mkDeviceConfig 4 true true (-1).

(** [check_tun_name] on macOS and elsewhere. *)
Definition check_tun_name (macos : bool) (v : bytes) : option bytes :=
  if macos then match Darwin.parse_utun_name v with Ok _ => Some v | _ => None end else Some v.

(** [expect] on the parsed value of an argument. *)
Definition expect {A} (r : result IntErrorKind A) : result () A := match r with Ok a => Ok a | _ => Panic end.

(** The name of the interface and the configuration of the device. *)
Definition device_args (a : Args) : result () (bytes * DeviceConfig) :=
  uapi ← expect (parse_i32 (uapi_fd a));
  tun ← expect (parse_i64 (tun_fd a));
  let tun_name := if 0 <=? tun then tun_fd a else INTERFACE_NAME a in
  n ← expect (parse_u64 (threads a));
  Ok (tun_name, mkDeviceConfig n (negb (disable_connected_udp a)) (negb (disable_multi_queue a)) uapi).

(** How a process ends: with an exit code, by a panic, or not at all (the device
    runs, or the parent waits for a byte that does not come). *)
Inductive End := Exit (code : Z) | Panicked | Runs | Waits.

(** What the process that owns the device does: [device] is the outcome of
    [DeviceHandle::new], [dropped] that of [drop_privileges].  The bytes it sends
    over the pair, and how it ends. *)
Definition serve (no_drop : bool) (device dropped : result Error ()) : list Z * End :=
  match device with
  | Panic => ([], Panicked)
  | Err _ => ([0], Exit 1)
  | Ok _ =>
      if no_drop then ([1], Runs)
      else match dropped with
           | Ok _ => ([1], Runs)
           | Err _ => ([0], Exit 1)
           | Panic => ([], Panicked)
           end
  end.

(** The parent: [sock2.recv] returns the first byte of the child, when there is
    one; the parent keeps its own copy of the other end, so it never sees the end
    of the stream. *)
Definition parent (bytes_sent : list Z) : End :=
  match bytes_sent with
  | [] => Waits
  | b :: _ => if b =? 1 then Exit 0 else Exit 1
  end.

(** What [Daemonize::execute] makes of the start: no second process, or two, of
    which the child may find that it could not become a daemon. *)
Inductive Fork := ForkFailed | Forked (child_ok : bool).

(** The ends of the process that was started and of its child; [log_created] is
    whether the log file of the daemon could be created. *)
Definition main (a : Args) (log_created : bool) (fork : Fork) (device dropped : result Error ()) : End * option End :=
  match device_args a with
  | Ok _ =>
      if foreground a then ((serve (disable_drop_privileges a) device dropped).2, None)
      else if negb log_created then (Panicked, None)
      else match fork with
           | ForkFailed => (Exit 1, None)
           | Forked false => (parent [], Some (Exit 1))
           | Forked true =>
               let '(sent, child) := serve (disable_drop_privileges a) device dropped in
               (parent sent, Some child)
           end
  | _ => (Panicked, None)
  end.

(** Digits that fit a smaller type read the same in it. *)
Lemma digits_go_lower max acc s n : 0 ≤ acc → digits_go 10 max acc s = Ok n → acc ≤ n.
Proof.
  revert acc. induction s as [|b s IH]; cbn; intros acc Ha; [intros [= <-]; lia|].
  destruct (to_digit 10 b) as [d|] eqn:Ed; [|done].
  assert (0 ≤ d) by (unfold to_digit in Ed; repeat case_match; simplify_eq; lia).
  destruct (Z.ltb_spec max (acc * 10)); [done|]. destruct (Z.ltb_spec max (acc * 10 + d)); [done|].
  intros E%IH; lia.
Qed.
Lemma digits_go_smaller max m acc s n :
  0 ≤ acc → n ≤ m → digits_go 10 max acc s = Ok n → digits_go 10 m acc s = Ok n.
Proof.
  revert acc. induction s as [|b s IH]; cbn; intros acc Ha Hn; [done|].
  destruct (to_digit 10 b) as [d|] eqn:Ed; [|done].
  assert (0 ≤ d) by (unfold to_digit in Ed; repeat case_match; simplify_eq; lia).
  destruct (Z.ltb_spec max (acc * 10)); [done|]. destruct (Z.ltb_spec max (acc * 10 + d)); [done|].
  intros E. assert (acc * 10 + d ≤ n) by (eapply digits_go_lower; [|exact E]; lia).
  destruct (Z.ltb_spec m (acc * 10)); [lia|]. destruct (Z.ltb_spec m (acc * 10 + d)); [lia|]. apply IH; [lia|done|done].
Qed.

Lemma neg_digits_upper min acc s n : acc ≤ 0 → neg_digits_go min acc s = Ok n → n ≤ acc.
Proof.
  revert acc. induction s as [|b s IH]; cbn; intros acc Ha; [intros [= <-]; lia|].
  destruct (to_digit 10 b) as [d|] eqn:Ed; [|done].
  assert (0 ≤ d) by (unfold to_digit in Ed; repeat case_match; simplify_eq; lia).
  destruct (Z.ltb_spec (acc * 10) min); [done|]. destruct (Z.ltb_spec (acc * 10 - d) min); [done|]. intros E%IH; lia.
Qed.
Lemma neg_digits_zero min min' acc s :
  acc = 0 → min' ≤ 0 → neg_digits_go min acc s = Ok 0 → neg_digits_go min' acc s = Ok 0.
Proof.
  intros -> Hm. induction s as [|b s IH]; cbn; [done|].
  destruct (to_digit 10 b) as [d|] eqn:Ed; [|done].
  assert (0 ≤ d) by (unfold to_digit in Ed; repeat case_match; simplify_eq; lia).
  rewrite Z.mul_0_l. destruct (Z.ltb_spec 0 min); [done|]. destruct (Z.ltb_spec (0 - d) min); [done|]. intros E.
  assert (0 ≤ 0 - d) by (eapply neg_digits_upper; [|exact E]; lia). assert (d = 0) as -> by lia.
  destruct (Z.ltb_spec 0 min'); [lia|]. destruct (Z.ltb_spec (0 - 0) min'); [lia|]. by apply IH.
Qed.

Lemma parse_i32_of_i64 s n : 0 ≤ n < 2 ^ 31 → parse_i64 s = Ok n → parse_i32 s = Ok n.
Proof.
  intros Hn. unfold parse_i64, parse_i32, parse_signed.
  assert (Hd : ∀ t, digits_go 10 (2 ^ 63 - 1) 0 t = Ok n → digits_go 10 (2 ^ 31 - 1) 0 t = Ok n).
  { intros t. apply digits_go_smaller; lia. }
  destruct s as [|b [|c s]]; [done| |].
  - destruct (_ || _); [done|]. apply Hd.
  - destruct (b =? 43); [apply Hd|]. destruct (b =? 45); [|apply Hd]. intros E.
    assert (n ≤ 0) by (eapply neg_digits_upper; [|exact E]; lia). assert (n = 0) as -> by lia.
    eapply neg_digits_zero; [done|lia|exact E].
Qed.

(** The command line hands its descriptor to the device.  A [tun-fd] that is a
    descriptor takes the place of the interface name, and the socket that
    [TunSocket::new] makes of it on Linux is that descriptor, without opening
    another; a negative one leaves the interface name. *)
Theorem tun_fd_reaches_device a name config fd opened tunsetiff :
  device_args a = Ok (name, config) → parse_i64 (tun_fd a) = Ok fd →
  (fd < 0 → name = INTERFACE_NAME a)
  ∧ (0 ≤ fd < 2 ^ 31 → Linux.new name opened tunsetiff = (Ok (Linux.mkTun fd name), [])).
Proof.
  unfold device_args. intros (uapi & Hu & H)%bind_ok Hfd. rewrite Hfd in H. cbn [expect] in H.
  apply bind_ok in H as (tun & [= <-] & H). apply bind_ok in H as (n & Hn & [= <- <-]). split; intros Hr.
  - by rewrite (proj2 (Z.leb_gt 0 fd)) by lia.
  - rewrite (proj2 (Z.leb_le 0 fd)) by lia. unfold Linux.new. by rewrite (parse_i32_of_i64 _ fd Hr Hfd).
Qed.

(** The parent reports what became of the device.  When the program goes to the
    background, its exit status is 0 exactly when the device came up and the
    privileges were dropped (or were to be kept), and the child then runs; it is 1
    when the fork, the device or the dropping of privileges failed, and then no
    child is left running.  The one case in which it does not exit is a child that
    ends without a word: because it could not become a daemon, or by a panic. *)
Theorem parent_reports_device a fork device dropped p c :
  foreground a = false → is_panic (device_args a) = false → main a true fork device dropped = (p, c) →
  (p = Exit 0 ↔ fork = Forked true ∧ (∃ u, device = Ok u) ∧ (disable_drop_privileges a = true ∨ ∃ u, dropped = Ok u))
  ∧ (p = Exit 0 → c = Some Runs) ∧ (p = Exit 1 → c = None ∨ c = Some (Exit 1))
  ∧ (p = Waits ↔ c = Some Panicked ∨ fork = Forked false) ∧ (p = Exit 0 ∨ p = Exit 1 ∨ p = Waits).
Proof.
  intros Hf Hp. unfold main. rewrite Hf. destruct (device_args a) as [x|[]|] eqn:E; try done.
  - destruct fork as [|[]]; [intros [= <- <-]; naive_solver| |intros [= <- <-]; naive_solver].
    unfold serve. destruct device as [u|e|], (disable_drop_privileges a), dropped as [v|e'|]; cbn; intros [= <- <-]; naive_solver.
  - unfold device_args in E. by destruct (parse_i32 _), (parse_i64 _), (parse_u64 _).
Qed.

Definition sample_args : Args :=
  mkArgs (bs "wg0") false (bs "4") VError (bs "-1") (bs "7") false false false.

Lemma tun_fd_reaches_device_witness :
  ∃ name config, device_args sample_args = Ok (name, config) ∧
    Linux.new name 9 (λ _ _, 0) = (Ok (Linux.mkTun 7 name), []).
Proof.
  eexists _, _. split; [vm_compute; reflexivity|].
  apply (tun_fd_reaches_device sample_args _ (mkDeviceConfig 4 true true (-1)) 7); [vm_compute; reflexivity|reflexivity|lia].
Defined.

Lemma parent_reports_device_witness :
  main sample_args true (Forked true) (Ok tt) (Ok tt) = (Exit 0, Some Runs) ∧ Exit 0 = Exit 0.
Proof.
  split; [reflexivity|].
  apply (parent_reports_device sample_args (Forked true) (Ok tt) (Ok tt) (Exit 0) (Some Runs));
    [reflexivity|reflexivity|reflexivity|]. split; [reflexivity|]. split; [by exists tt|]. right. by exists tt.
Defined.

(** A descriptor number past the range of [i32] is not recognised as one: it
    becomes the name of a new interface. *)
Lemma large_tun_fd_is_a_name :
  let a := mkArgs (bs "wg0") true (bs "4") VError (bs "-1") (bs "2147483648") false false false in
  ∃ config, device_args a = Ok (bs "2147483648", config) ∧
    Linux.new (bs "2147483648") 9 (λ _ _, 0) = (Ok (Linux.mkTun 9 (bs "2147483648")), [Opened 9]).
Proof. eexists. split; vm_compute; reflexivity. Qed.
