(* ===== verification/DeviceStart.v ===== *)
(** * DeviceStart: a device from its name to its first event

    Models [Device::new] and the registrations it makes ([register_api_fd],
    [register_api_handler], [register_monitor] and [register_api_signal_handlers]
    of [awgtun/src/device/api.rs]; [register_iface_handler], [register_notifiers]
    and [register_timers] of [mod.rs]), [DeviceHandle::new], the notices that the
    handlers raise and stop through the registry, what a worker sets up before its
    loop, and the clean-up when the handle is dropped.  The answers of the system
    are a [StartHost]. *)

From Stdlib Require Import ZArith Lia.
From stdpp Require Import base list option strings sets tactics countable gmap fin_maps.
From S2P Require Import DevLock EventLoop.
From S2P Require Import Prelude Clock Text Random Codec Lfsr Amnezia Cps Config Packet Ip AllowedIps Session Handshake RateLimiter Timers Tunnel.
From S2P Require Import TunnelSafe EventPoll Device DeviceInv DeviceData DeviceLife DeviceRoute DeviceApi Tun.
Open Scope Z_scope.

(** What the system answers while a device is built. *)
Record StartHost := mkStartHost {
  st_epoll : Z;                          (* epoll_create *)
  st_tun_fd : Z;                         (* open of /dev/net/tun *)
  st_tunsetiff : bytes → Z → Z;
  st_getfl : Z;
  st_setfl : Z → Z;
  st_mtu_sock : Z;
  st_mtu : bytes → option Z;
  st_bind : bytes → option Z;            (* UnixListener::bind *)
  st_add : Z → bool;                     (* epoll_ctl with EPOLL_CTL_ADD *)
  st_timerfd : Handler → Z * Z * bool;   (* the two timerfd_create, timerfd_settime *)
  st_eventfd : Handler → Z;
  st_signalfd : Z → Z
}.

Section start.
Context `{CC : ChaCha20} `{B64 : Base64} `{HX : Hex} `{NC : NoiseCrypto} `{AE : Aead} `{RS : RandomSource R}.
Context `{TB : IpNetworkTable}.

Abbreviation Queue := (list (option (Event Handler))).
Definition Q (A : Type) : Type := ST Queue Error A.

Definition poll_error (e : PollError) : Error := match e with EventQueue => EventQueueError | Timer => TimerError end.

(** A call of the registry; its errors are the device's. *)
Definition reg (f : Queue → result PollError Z * Queue * list Ctl) : Q Z := λ q,
  let '(r, q, _) := f q in
  (match r with Ok fd => Ok fd | Err e => Err (poll_error e) | Panic => Panic end, q).

Definition reg_event (h : StartHost) (fd : Z) (handler : Handler) : Q Z :=
  reg (λ q, new_event q fd handler (st_add h fd)).
Definition timer_fd (h : StartHost) (handler : Handler) : Z :=
  let '(boottime, monotonic, _) := st_timerfd h handler in if boottime =? -1 then monotonic else boottime.
Definition reg_periodic (h : StartHost) (handler : Handler) (sec nsec : Z) : Q Z :=
  let '(boottime, monotonic, armed) := st_timerfd h handler in
  reg (λ q, new_periodic_event q handler sec nsec boottime monotonic armed (st_add h (timer_fd h handler))).
Definition reg_notifier (h : StartHost) (handler : Handler) : Q Z :=
  reg (λ q, new_notifier q handler (st_eventfd h handler) (st_add h (st_eventfd h handler))).
Definition reg_signal (h : StartHost) (signal : Z) : Q Z :=
  reg (λ q, new_signal_event q HSignal (st_signalfd h signal) (st_add h (st_signalfd h signal))).

Definition SIGINT : Z := 2.
Definition SIGTERM : Z := 15.
Definition SOCK_DIR : bytes := bs "/var/run/wireguard/".
Definition sock_path (name : bytes) : bytes := SOCK_DIR ++ bs "/" ++ name ++ bs ".sock".

Definition register_monitor (h : StartHost) : Q () := _ ← reg_periodic h HMonitor 1 0; mret tt.
Definition register_api_signal_handlers (h : StartHost) : Q () :=
  _ ← reg_signal h SIGINT; _ ← reg_signal h SIGTERM; mret tt.

(** [register_api_handler]: the path that was bound is to be cleaned up. *)
Definition register_api_handler (h : StartHost) (name : bytes) : Q (list bytes) :=
  listener ← lift (match st_bind h (sock_path name) with Some fd => Ok fd | None => Err ApiSocket end);
  _ ← reg_event h listener HApi;
  _ ← register_monitor h;
  _ ← register_api_signal_handlers h;
  mret [sock_path name].
Definition register_api_fd (h : StartHost) (fd : Z) : Q (list bytes) := _ ← reg_event h fd HApi; mret [].

(** [register_notifiers]: the yield and exit notices. *)
Definition register_notifiers (h : StartHost) : Q (Z * Z) :=
  yield_ev ← reg_notifier h HYield;
  exit_ev ← reg_notifier h HExit;
  mret (yield_ev, exit_ev).
Definition register_timers (h : StartHost) : Q () :=
  _ ← reg_periodic h HMaintenance 1 0;
  _ ← reg_periodic h HTimers 0 250000000;
  mret tt.

(** The closures of the two API events: the socket hands over a connection (or
    fails to), the descriptor its own lines; a descriptor that cannot be read ends
    the device. *)
Definition api_handler (h : nat → Host) (connection : option (list (option bytes))) : D (R := R) (bytes * Action) :=
  match connection with
  | None => mret ([], Continue)
  | Some input => out ← api_command h input; mret (out, Continue)
  end.
Definition api_fd_handler (h : nat → Host) (input : list (option bytes)) : D (R := R) (bytes * Action) :=
  match input with
  | None :: _ => mret ([], Exit)
  | _ => out ← api_command h input; mret (out, Continue)
  end.

(** The closures of the notices and the signals. *)
Definition yield_handler : D (R := R) Action := mret Yield.
Definition exit_handler : D (R := R) Action := mret Exit.
Definition signal_handler : D (R := R) Action := mret Exit.

(** What an event can bring to its handler. *)
Record Arrival := mkArrival {
  ar_host : nat → Host;
  ar_datagrams : list (bytes * SocketAddr);
  ar_conn : list bytes;
  ar_packets : list IfaceRead;
  ar_connection : option (list (option bytes));
  ar_lines : list (option bytes);
  ar_mtu : option Z;
  ar_alive : bool
}.

(** The handler that [event_loop] calls, and the action it returns. *)
Definition run_handler (api_by_fd : bool) (k : Handler) (a : Arrival) : D (R := R) Action :=
  match k with
  | HUdp udp => r ← udp_handler (ar_host a) udp (ar_datagrams a); mret r.2
  | HConn peer udp addr => r ← conn_handler (ar_host a) peer udp addr (ar_conn a); mret r.2
  | HIface => r ← iface_handler (ar_host a) (ar_packets a); mret r.2
  | HApi =>
      r ← (if api_by_fd then api_fd_handler (ar_host a) (ar_lines a) else api_handler (ar_host a) (ar_connection a)); mret r.2
  | HMonitor => monitor_handler (ar_alive a) (ar_mtu a)
  | HSignal => signal_handler
  | HYield => yield_handler
  | HExit => exit_handler
  | HMaintenance => maintenance_handler (ar_host a 0%nat) (ar_mtu a)
  | HTimers => r ← timers_handler (ar_host a 0%nat); mret r.2
  end.

(** The handlers that may end the event loop. *)
Definition may_exit (k : Handler) : bool :=
  match k with HIface | HApi | HMonitor | HSignal | HExit => true | _ => false end.

Lemma yields_seq {S E A B} (m : ST S E A) (f : A → ST S E B) (Q : A → Prop) P :
  yields m Q → (∀ a, Q a → yields (f a) P) → yields (m ≫= f) P.
Proof.
  intros Hm Hf s b s' H. unfold mbind, ST_bind in H. destruct (m s) as [[a|e|] s1] eqn:E1; [|done..]. by eapply Hf; [eapply Hm|].
Qed.

Ltac action_step :=
  match goal with
  | |- yields (mbind _ _) _ => apply yields_bind; intros ?
  | |- yields (mret _) _ => apply yields_ret; cbn
  | |- yields panic _ => apply yields_panic
  | |- yields (throw _) _ => apply yields_throw
  | |- yields (if ?b then _ else _) _ => destruct b
  | |- yields (match ?x with _ => _ end) _ => destruct x
  end.

Lemma iface_loop_action h udp4 udp6 i n rx : yields (iface_loop (R := R) h udp4 udp6 i n rx) (λ r, r.2 ≠ Yield).
Proof.
  revert i rx. induction n as [|n IH]; intros i rx; [by apply yields_ret|].
  destruct rx as [|[p| |] rx]; cbn [iface_loop]; try by apply yields_ret.
  apply yields_bind. intros out. eapply yields_seq; [apply IH|]. intros [rest a] Ha. by apply yields_ret.
Qed.

(** A worker gives up its guard for the yield notice alone, and leaves the loop
    for a signal, the exit notice, the end of the interface, of the API socket's
    file or of the API descriptor. *)
Lemma only_the_notice_yields api_by_fd k a :
  yields (run_handler api_by_fd k a) (λ act, (act = Yield ↔ k = HYield) ∧ (act = Exit → may_exit k = true)).
Proof.
  assert (Hc : ∀ m : D (R := R) (list Output * Action), yields m (λ r, r.2 = Continue) → k ≠ HYield →
    yields (r ← m; mret r.2) (λ act, (act = Yield ↔ k = HYield) ∧ (act = Exit → may_exit k = true))).
  { intros m Hm Hk. eapply yields_seq; [exact Hm|]. intros [o act] E. cbn in E. subst act. apply yields_ret. done. }
  destruct k; cbn [run_handler may_exit].
  - apply Hc; [|done]. unfold udp_handler. by repeat action_step.
  - apply Hc; [|done]. unfold conn_handler. by repeat action_step.
  - eapply (yields_seq _ _ (λ r, r.2 ≠ Yield)); [|intros [o act] Ha; apply yields_ret; cbn in *; by split; [split|]]. unfold iface_handler.
    do 4 (apply yields_bind; intros ?). apply iface_loop_action.
  - eapply (yields_seq _ _ (λ r, r.2 ≠ Yield)); [|intros [o act] Ha; apply yields_ret; cbn in *; by split; [split|]].
    unfold api_fd_handler, api_handler. by repeat action_step.
  - unfold monitor_handler. by repeat action_step.
  - by apply yields_ret.
  - by apply yields_ret.
  - by apply yields_ret.
  - unfold maintenance_handler. by repeat action_step.
  - apply Hc; [|done]. unfold timers_handler. by repeat action_step.
Qed.

(** What [Device::new] builds, besides the [Device] of the model: the interface, the
    references of the notices and the paths to clean up. *)
Record Started := mkStarted {
  sd_device : Device;
  sd_iface : Linux.TunSocket;
  sd_yield : Z;
  sd_exit : Z;
  sd_cleanup : list bytes
}.

(** The registrations of [Device::new] in their order. *)
Definition register_all (h : StartHost) (uapi_fd : Z) (iface : Linux.TunSocket) : Q (list bytes * (Z * Z)) :=
  cleanup ← (if 0 <=? uapi_fd then register_api_fd h uapi_fd else register_api_handler h (Linux.name iface));
  _ ← reg_event h (Linux.tun_fd iface) HIface;
  notices ← register_notifiers h;
  _ ← register_timers h;
  mret (cleanup, notices).

Definition Device_start (h : StartHost) (name : bytes) (use_connected : bool) (uapi_fd : Z) (lfsr : IndexLfsr)
    : result Error Started :=
  _ ← map_err poll_error (EventPoll_new (H := Handler) (st_epoll h));
  iface ← (setup_iface name (st_tun_fd h) (st_tunsetiff h) (st_getfl h) (st_setfl h) (st_mtu_sock h) (st_mtu h)).1;
  let '(r, queue) := register_all h uapi_fd iface.1 [] in
  x ← r;
  Ok (mkStarted (Device_new use_connected iface.2 lfsr queue) iface.1 x.2.1 x.2.2 x.1).

(** [DeviceHandle::new]: the device listens on a port of the system's choice; its
    workers start. *)
Definition DeviceHandle_new `{EF : EventFd CNT} (h : StartHost) (hh : Host) (name : bytes) (use_connected : bool)
    (uapi_fd : Z) (lfsr : IndexLfsr) (n_threads : nat) (g : R) : result Error (Started * Loop CNT (DWorld (R := R))) :=
  st ← Device_start h name use_connected uapi_fd lfsr;
  let '(r, w) := open_listen_socket hh 0 (mkDWorld (sd_device st) g) in
  _ ← r;
  Ok (st, loop_new w n_threads).

(** The notices of a device, raised and stopped through its registry. *)
Definition Device_trigger_yield `{EF : EventFd CNT} (st : Started) (q : Queue) (c : CNT) : result PollError CNT :=
  trigger_notification q (sd_yield st) c.
Definition Device_cancel_yield `{EF : EventFd CNT} (st : Started) (q : Queue) (c : CNT) : result PollError CNT :=
  stop_notification q (sd_yield st) c.
Definition Device_trigger_exit `{EF : EventFd CNT} (st : Started) (q : Queue) (c : CNT) : result PollError CNT :=
  trigger_notification q (sd_exit st) c.

(** What [DeviceHandle::event_loop] does on Linux before its loop, as worker [i]: the
    first worker, and every worker of a device without multiple queues, takes the
    interface of the device; another opens it again under its name and registers the
    new descriptor, going on when that fails.  The errors of the socket are unwrapped. *)
Definition worker_setup (h : StartHost) (i : nat) (use_multi_queue : bool) (iface : Linux.TunSocket) : Q Linux.TunSocket :=
  if bool_decide (i = O) || negb use_multi_queue then mret iface
  else
    match (Linux.new (Linux.name iface) (st_tun_fd h) (st_tunsetiff h)).1 with
    | Ok iface_local =>
        match (set_non_blocking (Linux.tun_fd iface_local) (st_getfl h) (st_setfl h)).1 with
        | Ok _ => _ ← attempt (reg_event h (Linux.tun_fd iface_local) HIface); mret iface_local
        | _ => panic
        end
    | _ => panic
    end.

(** [DeviceHandle::clean] on the files there are: [remove_file] on each path, its
    errors ignored. *)
Definition DeviceHandle_clean (st : Started) (files : gset bytes) : gset bytes :=
  foldl (λ files path, files ∖ {[path]}) files (sd_cleanup st).

(** The drop of a [DeviceHandle]. *)
Definition DeviceHandle_drop `{EF : EventFd CNT} (st : Started) (q : Queue) (c : CNT) (files : gset bytes)
    : result PollError (CNT * gset bytes) :=
  c ← Device_trigger_exit st q c;
  Ok (c, DeviceHandle_clean st files).

(** ** What is registered *)

(** The handler registered under a descriptor, and whether it is a notifier. *)
Definition handler_at (q : Queue) (fd : Z) : option (Handler * bool) :=
  (λ ev, (ev_handler ev, ev_notifier ev)) <$> event_at q fd.

Fixpoint assoc (fd : Z) (l : list (Z * (Handler * bool))) : option (Handler * bool) :=
  match l with [] => None | (k, v) :: l => if decide (fd = k) then Some v else assoc fd l end.
Definition wired (q : Queue) (l : list (Z * (Handler * bool))) : Prop := ∀ fd, 0 ≤ fd → handler_at q fd = assoc fd l.

(** The registrations of [Device::new], the last one first. *)
Definition api_wiring (h : StartHost) (uapi_fd : Z) (name : bytes) : list (Z * (Handler * bool)) :=
  if 0 <=? uapi_fd then [(uapi_fd, (HApi, false))]
  else [(st_signalfd h SIGTERM, (HSignal, false)); (st_signalfd h SIGINT, (HSignal, false));
        (timer_fd h HMonitor, (HMonitor, false)); (default (-1) (st_bind h (sock_path name)), (HApi, false))].
Definition wiring (h : StartHost) (uapi_fd : Z) (iface : Linux.TunSocket) : list (Z * (Handler * bool)) :=
  [(timer_fd h HTimers, (HTimers, false)); (timer_fd h HMaintenance, (HMaintenance, false));
   (st_eventfd h HExit, (HExit, true)); (st_eventfd h HYield, (HYield, true)); (Linux.tun_fd iface, (HIface, false))]
  ++ api_wiring h uapi_fd (Linux.name iface).

(** A call for a descriptor returns one, or -1. *)
Definition fd_or_error (fd : Z) : Prop := fd = -1 ∨ 0 ≤ fd.
Record answers_ok (h : StartHost) : Prop := {
  an_timer k : fd_or_error (timer_fd h k);
  an_event k : fd_or_error (st_eventfd h k);
  an_signal s : fd_or_error (st_signalfd h s);
  an_bind p fd : st_bind h p = Some fd → 0 ≤ fd
}.

Lemma wired_register q l ev (added : bool) :
  0 ≤ ev_fd ev → wired q l →
  wired (register_event q ev added).1.2 ((ev_fd ev, (ev_handler ev, ev_notifier ev)) :: l).
Proof.
  intros Hfd Hw g Hg. unfold handler_at. rewrite event_at_register by done. cbn [assoc].
  case_decide; [done|]. by apply Hw.
Qed.

Lemma reg_ok f q fd q' : reg f q = (Ok fd, q') → ∃ ctl, f q = (Ok fd, q', ctl).
Proof. unfold reg. destruct (f q) as [[[x| |] q1] ctl]; intros [= <- <-]. by exists ctl. Qed.

Lemma register_event_ok {H} (q : list (option (Event H))) ev added fd q' ctl :
  register_event q ev added = (Ok fd, q', ctl) → fd = ev_fd ev ∧ q' = (register_event q ev added).1.2.
Proof. unfold register_event. destruct (insert_at _ _ _). destruct added; [|done]. by intros [= <- <- <-]. Qed.

Lemma reg_event_wired h fd k q r q' l :
  0 ≤ fd → wired q l → reg_event h fd k q = (Ok r, q') → r = fd ∧ wired q' ((fd, (k, false)) :: l).
Proof.
  unfold reg_event. intros Hfd Hw (ctl & E)%reg_ok. unfold new_event in E. destruct (register_event_ok _ _ _ _ _ _ E) as [-> ->].
  split; [done|]. by apply (wired_register q l (mkEvent _ fd k false false)).
Qed.

Lemma reg_event_keeps_wiring h fd k q l : 0 ≤ fd → wired q l → wired (reg_event h fd k q).2 ((fd, (k, false)) :: l).
Proof.
  intros Hfd Hw. pose proof (wired_register q l (mkEvent (Z.lor EPOLLIN EPOLLONESHOT) fd k false false) (st_add h fd) Hfd Hw) as W.
  unfold reg_event, reg, new_event. by destruct (register_event q _ _) as [[r q'] ctl].
Qed.

(** A worker that gets an interface has either that of the device, with the registry
    as it was, or one registered under its own descriptor besides what was there. *)
Lemma worker_setup_wired h i multi iface q t q' l :
  wired q l → worker_setup h i multi iface q = (Ok t, q') → 0 ≤ Linux.tun_fd t →
  (t = iface ∧ q' = q) ∨ (i ≠ O ∧ multi = true ∧ wired q' ((Linux.tun_fd t, (HIface, false)) :: l)).
Proof.
  intros Hw. unfold worker_setup. case_bool_decide as Hi; cbn [orb]; [intros [= <- <-]; by left|].
  destruct multi; cbn [negb]; [|intros [= <- <-]; by left].
  destruct (Linux.new _ _ _).1 as [x|e|]; [|done..]. destruct (set_non_blocking _ _ _).1 as [y|e|]; [|done..].
  unfold attempt, mbind, ST_bind. pose proof (reg_event_keeps_wiring h (Linux.tun_fd x) HIface q l) as W.
  destruct (reg_event h _ HIface q) as [[r|e|] q1]; intros [= <- <-] Hfd; right; split_and!; try done; by apply W.
Qed.

(** With an interface given as a descriptor the other workers do not open a queue of
    their own: they get the descriptor of the device again and register over its
    event. *)
Lemma worker_shares_descriptor h i iface fd q t q' :
  i ≠ O → parse_i32 (Linux.tun_name iface) = Ok fd → worker_setup h i true iface q = (Ok t, q') →
  t = Linux.mkTun fd (Linux.tun_name iface) ∧ q' = (reg_event h fd HIface q).2.
Proof.
  intros Hi Hfd. unfold worker_setup. rewrite bool_decide_eq_false_2 by done. cbn [orb negb].
  unfold Linux.new, Linux.name. rewrite Hfd. cbn [fst Linux.tun_fd]. destruct (set_non_blocking _ _ _).1; [|done..].
  unfold attempt, mbind, ST_bind. destruct (reg_event h fd HIface q) as [[r|e|] q1]; by intros [= <- <-].
Qed.

Lemma reg_periodic_wired h k sec nsec q r q' l :
  answers_ok h → wired q l → reg_periodic h k sec nsec q = (Ok r, q') → wired q' ((timer_fd h k, (k, false)) :: l).
Proof.
  intros A Hw. pose proof (an_timer _ A k) as Ht. unfold reg_periodic. unfold timer_fd in *.
  destruct (st_timerfd h k) as [[b m] armed]. intros (ctl & E)%reg_ok. unfold new_periodic_event in E.
  set (tfd := if b =? -1 then m else b) in *. destruct (Z.eqb_spec tfd (-1)); [done|]. destruct armed; [|done].
  destruct (register_event _ _ _) as [[r1 q1] ctl1] eqn:Er. injection E as -> -> <-.
  destruct (register_event_ok _ _ _ _ _ _ Er) as [-> ->]. destruct Ht as [?|Ht]; [done|].
  by apply (wired_register q l (mkEvent _ tfd k false true)).
Qed.

Lemma reg_notifier_wired h k q r q' l :
  answers_ok h → wired q l → reg_notifier h k q = (Ok r, q') →
  r = st_eventfd h k ∧ 0 ≤ r ∧ wired q' ((st_eventfd h k, (k, true)) :: l).
Proof.
  intros A Hw. pose proof (an_event _ A k) as Ht. unfold reg_notifier. intros (ctl & E)%reg_ok. unfold new_notifier in E.
  destruct (Z.eqb_spec (st_eventfd h k) (-1)); [done|]. destruct (register_event_ok _ _ _ _ _ _ E) as [-> ->].
  destruct Ht as [?|Ht]; [done|]. split_and!; [done|done|]. by apply (wired_register q l (mkEvent _ (st_eventfd h k) k true false)).
Qed.

Lemma reg_signal_wired h s q r q' l :
  answers_ok h → wired q l → reg_signal h s q = (Ok r, q') → wired q' ((st_signalfd h s, (HSignal, false)) :: l).
Proof.
  intros A Hw. pose proof (an_signal _ A s) as Ht. unfold reg_signal. intros (ctl & E)%reg_ok. unfold new_signal_event in E.
  destruct (Z.eqb_spec (st_signalfd h s) (-1)); [done|]. destruct (register_event_ok _ _ _ _ _ _ E) as [-> ->].
  destruct Ht as [?|Ht]; [done|]. by apply (wired_register q l (mkEvent _ (st_signalfd h s) HSignal false true)).
Qed.

Lemma st_bind_ok {S E A B} (m : ST S E A) (f : A → ST S E B) s b s' :
  (m ≫= f) s = (Ok b, s') → ∃ a s1, m s = (Ok a, s1) ∧ f a s1 = (Ok b, s').
Proof. unfold mbind, ST_bind. destruct (m s) as [[a| |] s1]; try done. intros E1. by exists a, s1. Qed.

Lemma register_api_wired h uapi_fd name cleanup q' :
  answers_ok h →
  (if 0 <=? uapi_fd then register_api_fd h uapi_fd else register_api_handler h name) [] = (Ok cleanup, q') →
  wired q' (api_wiring h uapi_fd name).
Proof.
  intros A. assert (W0 : wired [] []) by (intros fd Hfd; unfold handler_at, event_at; by rewrite lookup_nil).
  unfold api_wiring. destruct (Z.leb_spec 0 uapi_fd) as [Hu|Hu].
  - unfold register_api_fd. intros (r & q1 & E & [= _ <-])%st_bind_ok.
    by apply (reg_event_wired h uapi_fd HApi [] r _ [] Hu W0).
  - unfold register_api_handler. intros (fd & q1 & E1 & H)%st_bind_ok. unfold lift in E1.
    destruct (st_bind h (sock_path name)) as [listener|] eqn:Eb; [|done]. injection E1 as <- <-.
    apply st_bind_ok in H as (r1 & q1 & E1 & H). apply st_bind_ok in H as ([] & q2 & E2 & H). apply st_bind_ok in H as ([] & q3 & E3 & [= _ <-]).
    unfold register_monitor in E2. apply st_bind_ok in E2 as (r2 & q2' & E2 & [= <-]).
    unfold register_api_signal_handlers in E3. apply st_bind_ok in E3 as (r3 & q3' & E3 & H3). apply st_bind_ok in H3 as (r4 & q4 & E4 & [= <-]).
    eapply reg_signal_wired; [done| |exact E4]. eapply reg_signal_wired; [done| |exact E3].
    eapply reg_periodic_wired; [done| |exact E2]. eapply reg_event_wired; [by eapply an_bind|exact W0|exact E1].
Qed.

(** The whole of the registrations. *)
Lemma Device_start_wired h name use_connected uapi_fd lfsr st :
  answers_ok h → Device_start h name use_connected uapi_fd lfsr = Ok st → 0 ≤ Linux.tun_fd (sd_iface st) →
  sd_yield st = st_eventfd h HYield ∧ sd_exit st = st_eventfd h HExit ∧ 0 ≤ sd_yield st ∧ 0 ≤ sd_exit st
  ∧ (∃ mtu q, sd_device st = Device_new use_connected mtu lfsr q)
  ∧ wired (d_queue (sd_device st)) (wiring h uapi_fd (sd_iface st)).
Proof.
  intros A. unfold Device_start. intros (_ & _ & H)%bind_ok Hfd. apply bind_ok in H as (iface & Ei & H).
  destruct (register_all _ _ _ []) as [r queue] eqn:Er. unfold register_all in Er. apply bind_ok in H as (x & -> & [= <-]). cbn in Hfd |- *.
  apply st_bind_ok in Er as (cleanup & q1 & E1 & H). apply st_bind_ok in H as (r2 & q2 & E2 & H).
  apply st_bind_ok in H as (notices & q3 & E3 & H). apply st_bind_ok in H as ([] & q4 & E4 & [= <- <-]).
  pose proof (register_api_wired _ _ _ _ _ A E1) as W1.
  destruct (reg_event_wired _ _ _ _ _ _ _ Hfd W1 E2) as [_ W2].
  unfold register_notifiers in E3. apply st_bind_ok in E3 as (y & q3' & Ey & H3). apply st_bind_ok in H3 as (e & q3'' & Ee & [= <- <-]).
  destruct (reg_notifier_wired _ _ _ _ _ _ A W2 Ey) as (Hy & Hy0 & W3). destruct (reg_notifier_wired _ _ _ _ _ _ A W3 Ee) as (He & He0 & W4).
  unfold register_timers in E4. apply st_bind_ok in E4 as (t1 & q5 & Et1 & H4). apply st_bind_ok in H4 as (t2 & q6 & Et2 & [= <-]).
  split_and!; try done; [by eexists _, _|].
  eapply reg_periodic_wired; [done| |exact Et2]. by eapply reg_periodic_wired; [done| |exact Et1].
Qed.

Lemma assoc_NoDup l k v : NoDup l.*1 → (k, v) ∈ l → assoc k l = Some v.
Proof.
  induction l as [|[k' v'] l IH]; cbn; [by intros _ ?%elem_of_nil|]. intros [Hn Hd]%NoDup_cons Hin.
  apply elem_of_cons in Hin as [[= -> ->]|Hin]; [by rewrite decide_True|]. case_decide as Hk; [|by apply IH].
  subst. destruct Hn. apply list_elem_of_fmap. by exists (k', v).
Qed.

Lemma notifier_wired q fd k : 0 ≤ fd → handler_at q fd = Some (k, true) → notifier_at q fd = Ok tt.
Proof.
  intros Hfd. unfold handler_at, event_at, notifier_at. destruct (q !! Z.to_nat fd) as [[ev|]|]; cbn; try done.
  intros [= <- ->]. done.
Qed.

(** What the drop of the handle leaves: every worker is told to exit, and no path that
    the device made is left. *)
Lemma drop_cleans_up `{EF : EventFd CNT} st q (c c' : CNT) files files' :
  DeviceHandle_drop st q c files = Ok (c', files') → eventfd_readable c' = true ∧ ∀ p, p ∈ files' ↔ p ∈ files ∧ p ∉ sd_cleanup st.
Proof.
  unfold DeviceHandle_drop, Device_trigger_exit, trigger_notification. destruct (notifier_at q (sd_exit st)); cbn; [|done..].
  intros [= <- <-]. split; [apply eventfd_write_readable; unfold NOTIFY; lia|]. unfold DeviceHandle_clean. intros p.
  generalize (sd_cleanup st) as ps. intros ps. revert files. induction ps as [|p' ps IH]; intros files; cbn; [set_solver|].
  rewrite IH. set_solver.
Qed.

(** C25: A device that starts is wired up.  When Device::new returns a device, its
    registry holds, under every descriptor, exactly the handler that belongs there:
    the interface, the two notices, the two timers, and the API (with its monitor and
    signals, unless the API came as a descriptor).  As the system hands out distinct
    descriptors, the yield and exit notices can then be raised and stopped without a
    panic, and raising one makes it readable; and the device has no peers and no key
    and satisfies the invariant that every later operation keeps. *)
Theorem started_device_is_wired `{EF : EventFd CNT} h name use_connected uapi_fd draws lfsr st (c : CNT) (g : R) :
  answers_ok h → IndexLfsr_default draws = Some lfsr →
  Device_start h name use_connected uapi_fd lfsr = Ok st → 0 ≤ Linux.tun_fd (sd_iface st) →
  NoDup (wiring h uapi_fd (sd_iface st)).*1 →
  (∀ fd, 0 ≤ fd → handler_at (d_queue (sd_device st)) fd = assoc fd (wiring h uapi_fd (sd_iface st)))
  ∧ (∃ c', Device_trigger_yield st (d_queue (sd_device st)) c = Ok c' ∧ eventfd_readable c' = true)
  ∧ (∃ c', Device_cancel_yield st (d_queue (sd_device st)) c = Ok c' ∧ eventfd_readable c' = false)
  ∧ (∃ c', Device_trigger_exit st (d_queue (sd_device st)) c = Ok c' ∧ eventfd_readable c' = true)
  ∧ d_peers (sd_device st) = ∅ ∧ d_key_pair (sd_device st) = None
  ∧ device_reachable (mkDWorld (sd_device st) g).
Proof.
  intros A Hl E Hfd Hnd. destruct (Device_start_wired _ _ _ _ _ _ A E Hfd) as (Hy & He & Hy0 & He0 & (mtu & q & Hd) & W).
  assert (Ny : notifier_at (d_queue (sd_device st)) (sd_yield st) = Ok tt).
  { apply (notifier_wired _ _ HYield); [done|]. rewrite W by done. apply assoc_NoDup; [done|]. rewrite Hy. right. right. right. left. }
  assert (Ne : notifier_at (d_queue (sd_device st)) (sd_exit st) = Ok tt).
  { apply (notifier_wired _ _ HExit); [done|]. rewrite W by done. apply assoc_NoDup; [done|]. rewrite He. right. right. left. }
  unfold Device_trigger_yield, Device_cancel_yield, Device_trigger_exit, trigger_notification, stop_notification. rewrite Ny, Ne. cbn.
  assert (Hw : eventfd_readable (eventfd_write NOTIFY c) = true) by (apply eventfd_write_readable; unfold NOTIFY; lia).
  split_and!; [done|by eexists|eexists; split; [done|apply eventfd_read_quiet]|by eexists|by rewrite Hd|by rewrite Hd|].
  rewrite Hd. by eapply dr_new.
Qed.
End start.

Section sample.
#[local] Existing Instances sum_stream Rfc4648.engine HexDecode.engine ToyNoise.crypto ToyAead.cipher PrefixMap.trie Counter.eventfd.

(** A system that answers every call with a descriptor of its own. *)
Definition sample_start : StartHost :=
  mkStartHost 3 5 (λ _ _, 0) 2 (λ _, 0) 4 (λ _, Some 1420) (λ _, Some 6) (λ _, true)
    (λ k, match k with HMonitor => (9, -1, true) | HMaintenance => (-1, 10, true) | _ => (11, -1, true) end)
    (λ k, match k with HYield => 7 | _ => 8 end) (λ s, 20 + Z.max 0 s).

Lemma sample_answers : answers_ok sample_start.
Proof.
  split; [intros []|intros []|intros s; right; cbn|intros p fd [= <-]]; try lia; right; vm_compute; discriminate.
Qed.

Lemma started_device_is_wired_witness :
  ∃ st, Device_start sample_start (bs "wg0") false (-1) (mkIndexLfsr 1 1 7) = Ok st ∧
    handler_at (d_queue (sd_device st)) 7 = Some (HYield, true) ∧
    ∃ c', Device_trigger_yield st (d_queue (sd_device st)) eventfd_new = Ok c' ∧ eventfd_readable c' = true.
Proof.
  assert (Hi : match Device_start sample_start (bs "wg0") false (-1) (mkIndexLfsr 1 1 7) with Ok st => Some (sd_iface st) | _ => None end
    = Some (Linux.mkTun 5 (bs "wg0"))) by (vm_compute; reflexivity).
  destruct (Device_start sample_start (bs "wg0") false (-1) (mkIndexLfsr 1 1 7)) as [st|e|] eqn:E; [|discriminate Hi..].
  injection Hi as Hi. exists st. split; [reflexivity|].
  destruct (started_device_is_wired sample_start (bs "wg0") false (-1) [0x1000001; 7] (mkIndexLfsr 1 1 7)
    st eventfd_new counting_bytes sample_answers eq_refl E) as (H1 & H2 & _);
    [rewrite Hi; vm_compute; discriminate|rewrite Hi; apply (bool_decide_unpack _); vm_compute; exact I|].
  split; [|exact H2]. rewrite H1 by lia. rewrite Hi. vm_compute. reflexivity.
Defined.
End sample.
