(* ===== verification/DeviceSample.v ===== *)
(** * DeviceSample: a small device on which the theorems about devices apply

    A device with the toy ciphers of [Handshake] and [Session] and the prefix map
    of [AllowedIps] is configured through its own operations: a private key, then
    two peers.  Every theorem about devices that has hypotheses is applied to it. *)

From Stdlib Require Import ZArith Lia.
From stdpp Require Import base list option strings sets tactics countable gmap fin_maps.
From S2P Require Import Prelude Clock Text Random Codec Keys Lfsr Amnezia Cps Config Packet Ip AllowedIps.
From S2P Require Import Session Handshake RateLimiter Timers Tunnel EventPoll TunnelIdentity TunnelSafe.
From S2P Require Import Device DeviceInv DeviceData DeviceLife DeviceSpec DeviceApi.
Open Scope Z_scope.

Section sample.
#[local] Existing Instances sum_stream Rfc4648.engine HexDecode.engine ToyNoise.crypto ToyAead.cipher PrefixMap.trie.

(** Descriptors of listening sockets follow the port and the family; a clone is
    numbered from [base]. *)
Definition sample_host (base : Z) : Host :=
  mkHost map_to_list (λ _, sample_env) (λ i, mkSeed 1700000000000000000 (replicate 32 1) (replicate 24 2))
    (λ _, true)
    (λ v4 port, Ok (mkSocket (2 * port + if v4 then 0 else 1) 0))
    (λ _, Ok 7) (λ _ _ _, Ok (mkSocket 5 9)) (λ s, Some (base + Z.abs (s_fd s))) (λ _, true) (λ _ _, true).

Definition home : AllowedIP := mkAllowedIP (V4 [10; 0; 0; 0]) 24.
Definition office : AllowedIP := mkAllowedIP (V4 [10; 0; 0; 7]) 32.
Definition bob_key : bytes := x25519_public ToyNoise.bob.
Definition carol_key : bytes := x25519_public (replicate 32 7).

Definition sample_lfsr : IndexLfsr := mkIndexLfsr 1 1 7.
Definition world0 : DWorld (R := Pattern) := mkDWorld (Device_new false 1420 sample_lfsr []) counting_bytes.
Definition key_op : DevOp := SetKey (sample_host 100) ToyNoise.alice.
Definition world1 : DWorld (R := Pattern) := (run_op key_op world0).2.
Definition bob_op : DevOp :=
  UpdatePeer (sample_host 100) bob_key false false None [home] (Some 25) None None.
Definition world2 : DWorld (R := Pattern) := (run_op bob_op world1).2.
Definition carol_op : DevOp :=
  UpdatePeer (sample_host 100) carol_key false false None [office] None None None.
Definition world3 : DWorld (R := Pattern) := (run_op carol_op world2).2.

Lemma sample_host_ok base : host_ok (sample_host base).
Proof. by intros m. Qed.

Lemma world0_reachable : device_reachable world0.
Proof. by apply (dr_new false 1420 [0x1000001; 7]). Qed.

Lemma op_reachable o w :
  device_reachable w → op_fine o → (run_op o w).1 ≠ Panic → device_reachable (run_op o w).2.
Proof. intros Hw Ho Hr. eapply dr_step; [exact Hw|exact Ho|apply surjective_pairing|exact Hr]. Qed.

Lemma world1_reachable : device_reachable world1.
Proof. apply op_reachable; [apply world0_reachable|apply sample_host_ok|by vm_compute]. Qed.
Lemma world2_reachable : device_reachable world2.
Proof. apply op_reachable; [apply world1_reachable|done|by vm_compute]. Qed.
Lemma world3_reachable : device_reachable world3.
Proof. apply op_reachable; [apply world2_reachable|done|by vm_compute]. Qed.

(** What the device looks like with both peers. *)
Lemma world3_maps :
  d_peers (dev world3) !! bob_key = Some 0%nat ∧ d_peers (dev world3) !! carol_key = Some 1%nat
  ∧ d_key_pair (dev world3) = Some (ToyNoise.alice, x25519_public ToyNoise.alice)
  ∧ AllowedIps_find (d_peers_by_ip (dev world3)) (V4 [10; 0; 0; 7]) = Some 1%nat
  ∧ AllowedIps_find (d_peers_by_ip (dev world3)) (V4 [10; 0; 0; 8]) = Some 0%nat.
Proof. split_and!; vm_compute; reflexivity. Qed.

Lemma heap_at (w : DWorld (R := Pattern)) id :
  bool_decide (is_Some (d_heap (dev w) !! id)) = true → ∃ p, d_heap (dev w) !! id = Some p.
Proof. by intros [p H]%bool_decide_eq_true; exists p. Qed.

Lemma device_stays_consistent_witness :
  ∃ p sk pk, d_heap (dev world3) !! 0%nat = Some p
    ∧ keys_of (params (handshake (p_tunnel p))) = (pk, sk, bob_key, p_preshared_key p).
Proof.
  destruct (device_stays_consistent world3 world3_reachable) as [H _].
  destruct (H bob_key 0%nat (proj1 world3_maps)) as (p & sk & pk & Hp & _ & _ & _ & Hk & _).
  exists p, sk, pk. exact (conj Hp Hk).
Defined.

(** Bob's initiation for the device's key. *)
Definition bob_side : NoiseParams :=
  params (Handshake_new ToyNoise.bob bob_key (x25519_public ToyNoise.alice) 512 None 1700000000000000000 0).

Lemma inbound_reaches_its_peer_witness :
  find_peer (dev world3) ToyNoise.alice (x25519_public ToyNoise.alice)
    (PktInit (initiation_message bob_side 513 (replicate 32 8) (replicate 12 0)).1.1) = Some 0%nat.
Proof.
  destruct world3_maps as (Hb & _ & Hk & _).
  destruct (heap_at world3 0) as [p Hp]; [by vm_compute|].
  destruct (inbound_reaches_its_peer world3 bob_key 0%nat p _ _ world3_reachable Hb Hp Hk) as (_ & _ & H).
  apply H; [by split|done|done].
Defined.

Lemma bob_is_unreachable :
  ∃ w', remove_peer (sample_host 100) bob_key world3 = (Ok (), w')
    ∧ ∀ ip, AllowedIps_find (d_peers_by_ip (dev w')) ip ≠ Some 0%nat.
Proof.
  exists (remove_peer (sample_host 100) bob_key world3).2.
  assert (E : remove_peer (sample_host 100) bob_key world3
    = (Ok (), (remove_peer (sample_host 100) bob_key world3).2)).
  { rewrite (surjective_pairing (remove_peer _ _ _)) at 1. apply pair_equal_spec. split; [vm_compute; reflexivity|reflexivity]. }
  split; [exact E|].
  exact (proj1 (proj2 (proj2 (proj2 (remove_peer_unreachable _ _ 0%nat _ _
    (reachable_device_ok _ world3_reachable) (proj1 world3_maps) E))))).
Defined.

Lemma flush_terminates_witness :
  ∃ t g sent w', sample_new sample_config = Ok (t, g) ∧
    DeviceData.flush (λ _, sample_env) (mkWorld (set_queue [replicate 20 1] t) g) = (Ok sent, w')
    ∧ flushed (tunn w').
Proof.
  destruct sample_new_ok as (t & g & E).
  destruct (flush_terminates (λ _, sample_env) (mkWorld (set_queue [replicate 20 1] t) g))
    as (sent & w' & Hf & Hq); [|intros _; reflexivity|by exists t, g, sent, w'].
  unfold sample_new in E.
  destruct (tunn_new_ok _ _ _ _ _ _ _ _ _ _ _ _ _ _ usable_sample counting_bytes_ok E) as [Ht Hg].
  split; [|exact Hg]. apply ok_set_queue; [eapply tunn_ok_later; [exact Ht|cbn; lia]|].
  cbn. unfold MAX_QUEUE_DEPTH. lia.
Defined.

(** ** Adding a peer, listening *)
Lemma update_peer_adds_witness :
  ∃ w' id p, update_peer (sample_host 100) bob_key false false None [home] (Some 25) None None world1 = (Ok tt, w')
    ∧ d_heap (dev w') !! id = Some p
    ∧ (is_allowed_ip p (V4 [10; 0; 0; 9]) = true ↔ Exists (λ a, covers a (V4 [10; 0; 0; 9]) = true) [home]).
Proof.
  destruct (update_peer_adds (sample_host 100) bob_key false None [home] (Some 25) None None world1 [])
    as (w' & id & p & E & _ & _ & Hp & _ & _ & _ & _ & Hip & _).
  - exact (reachable_device_ok _ world1_reachable).
  - exists (ToyNoise.alice, x25519_public ToyNoise.alice). vm_compute. reflexivity.
  - vm_compute. reflexivity.
  - exists O. split; [|reflexivity]. split; [|split; [vm_compute; reflexivity|reflexivity]].
    split; [by vm_compute|]. split; [by vm_compute|]. exists O. split; [vm_compute; reflexivity|reflexivity].
  - constructor; [|constructor]. split; [|by vm_compute]. by apply (bool_decide_unpack _); vm_compute.
  - exact I.
  - exact simulates_new.
  - exists w', id, p. split; [exact E|]. split; [exact Hp|]. apply Hip.
    by apply (bool_decide_unpack _); vm_compute.
Defined.

Definition listening1 : DWorld (R := Pattern) := (open_listen_socket (sample_host 100) 7 world0).2.
Definition listening2 : DWorld (R := Pattern) := (open_listen_socket (sample_host 200) 8 listening1).2.

(** Every open succeeds with descriptors 14 and 15, then 16 and 17; the clones
    are 114, 115, then 216, 217. *)
Lemma listening_sockets :
  d_udp4 (dev listening1) = Some (mkSocket 14 0) ∧ d_udp6 (dev listening1) = Some (mkSocket 15 0)
  ∧ (open_listen_socket (sample_host 100) 7 world0).1 = Ok tt
  ∧ (open_listen_socket (sample_host 200) 8 listening1).1 = Ok tt.
Proof. split_and!; vm_compute; reflexivity. Qed.

Lemma listen_port_change_keeps_old_listener_witness :
  handles 114 (HUdp (mkSocket 114 0)) (dev listening2).
Proof.
  destruct listening_sockets as (H4 & H6 & R1 & R2).
  refine (listen_port_change_keeps_old_listener (sample_host 100) (sample_host 200) 7 8 world0 listening1 listening2
    (Ok tt) (mkSocket 14 0) (mkSocket 15 0) 114 _ _ _ H4 H6 _ _ _ _ _ _ _).
  - intros s c [= <-]. lia.
  - intros s c [= <-]. lia.
  - unfold listening1. rewrite <- R1. apply surjective_pairing.
  - reflexivity.
  - discriminate.
  - discriminate.
  - discriminate.
  - intros s [= ?]. lia.
  - unfold listening2. rewrite <- R2. apply surjective_pairing.
  - discriminate.
Defined.

(** ** Requests *)
Lemma api_set_keeps_device_witness :
  ∃ r w', api_set (λ _, sample_host 100) [request_line "jc" (bs "4"); blank_line] world3 = (r, w')
    ∧ device_ok (dev w').
Proof.
  destruct (api_set (λ _, sample_host 100) [request_line "jc" (bs "4"); blank_line] world3) as [r w'] eqn:E.
  exists r, w'. split; [reflexivity|].
  refine (proj1 (api_set_keeps_device _ _ _ _ _ _ _ E _)).
  - intros _. apply sample_host_ok.
  - exact (reachable_device_ok _ world3_reachable).
  - apply (f_equal fst) in E. cbn [fst] in E. rewrite <- E. by vm_compute.
Defined.

Lemma amnezia_block_overlays_witness :
  ∃ w', apply_amnezia_block (sample_host 100) (bs "jc=4") world3 = (Ok 0, w')
    ∧ junk_count (junk (d_amnezia (dev w'))) = 4 ∧ d_peers (dev w') = d_peers (dev world3).
Proof.
  destruct (apply_amnezia_block (sample_host 100) (bs "jc=4") world3) as [r w'] eqn:E.
  assert (Er : r = Ok 0) by (apply (f_equal fst) in E; cbn [fst] in E; rewrite <- E; vm_compute; reflexivity).
  exists w'. pose proof (amnezia_block_overlays (sample_host 100) (bs "jc=4") world3 w' r (sample_host_ok 100)
    (reachable_device_ok _ world3_reachable) ltac:(discriminate) E ltac:(by rewrite Er)) as H.
  assert (Hc : ∃ c, (st ← parse_lines (lines (bs "jc=4")) (state_of (d_amnezia (dev world3))); parse_finish st) = Ok c
    ∧ junk_count (junk c) = 4) by (eexists; split; [vm_compute; reflexivity|reflexivity]).
  destruct Hc as (c & Hc & Hj). rewrite Hc in H. destruct H as (_ & Hd & Hp & _).
  split; [by rewrite Er|]. split; [by rewrite Hd|exact Hp].
Defined.

Lemma set_existing_peer_panics_witness :
  api_set (λ _, sample_host 100) [request_line "public_key" (print_hex bob_key); blank_line] world3
  = (Panic, world3).
Proof.
  apply (set_existing_peer_panics _ bob_key 0%nat); [|exact (proj1 world3_maps)].
  by apply (bool_decide_unpack _); vm_compute.
Defined.

Definition remove_bob_then_carol : list (option bytes) :=
  [request_line "public_key" (print_hex bob_key); request_line "remove" (bs "true");
   request_line "public_key" (print_hex carol_key); blank_line].

Lemma remove_applies_to_next_peer_witness :
  ∃ w', api_set (λ _, sample_host 100) remove_bob_then_carol world3 = (Ok 0, w')
    ∧ d_peers (dev w') = delete carol_key (delete bob_key (d_peers (dev world3))).
Proof.
  destruct (api_set (λ _, sample_host 100) remove_bob_then_carol world3) as [r w'] eqn:E.
  exists w'. destruct world3_maps as (Hb & Hc & _).
  destruct (remove_applies_to_next_peer (λ _, sample_host 100) bob_key carol_key 0%nat 1%nat world3 w' r)
    as [Hr Hd]; [..|split; [by rewrite Hr|exact Hd]].
  - by apply (bool_decide_unpack _); vm_compute.
  - by apply (bool_decide_unpack _); vm_compute.
  - by vm_compute.
  - exact Hb.
  - exact Hc.
  - exact E.
  - apply (f_equal fst) in E. cbn [fst] in E. rewrite <- E. by vm_compute.
Defined.
End sample.
