(* ===== verification/DeviceTalk.v ===== *)
(** * DeviceTalk: a conversation between two small devices

    Two devices with the toy ciphers are configured through their own operations
    with the sample AmneziaWG configuration (junk, an I1 packet, paddings, header
    protection, random trailers).  A packet on Alice's interface starts a
    handshake; Bob answers it, Alice's tunnel sends the queued packet, and Bob's
    device writes it to his interface.  The theorems about traffic are applied to
    the states on the way. *)

From Stdlib Require Import ZArith Lia.
From stdpp Require Import base list option strings sets tactics countable gmap fin_maps.
From S2P Require Import DevLock.
From S2P Require Import Prelude Clock Text Random Codec Keys Lfsr Amnezia Cps Config Packet Ip AllowedIps.
From S2P Require Import Session Handshake RateLimiter Timers Tunnel EventPoll TunnelIdentity TunnelSafe TunnelDelivery.
From S2P Require Import EventLoop.
From S2P Require Import Device DeviceInv DeviceData DeviceLife DeviceSample DeviceRoute DeviceDelivery DeviceSafe DeviceServe DeviceSteps DeviceWorkers.
Open Scope Z_scope.

Section talk.
#[local] Existing Instances sum_stream Rfc4648.engine HexDecode.engine ToyNoise.crypto ToyAead.cipher PrefixMap.trie Counter.eventfd.

Definition alice_addr : SocketAddr := SockV4 [192; 0; 2; 1] 51820.
Definition bob_addr : SocketAddr := SockV4 [192; 0; 2; 2] 51820.
Definition alice_key : bytes := x25519_public ToyNoise.alice.
Definition listener : Socket := mkSocket 14 0.
Definition hosts (_ : nat) : Host := sample_host 100.

(** A private key, the sample configuration, sockets, one peer. *)
Definition setup (sk peer : bytes) (endpoint : option SocketAddr) : list DevOp :=
  [SetKey (sample_host 100) sk; SetAmnezia (sample_host 100) sample_config; Listen (sample_host 100) 7;
   UpdatePeer (sample_host 100) peer false false endpoint [home] None None None].
Fixpoint after (os : list DevOp) (w : DWorld (R := Pattern)) : DWorld (R := Pattern) :=
  match os with [] => w | o :: os => after os (run_op o w).2 end.

Definition alice0 : DWorld (R := Pattern) := after (setup ToyNoise.alice bob_key (Some bob_addr)) world0.
Definition bob0 : DWorld (R := Pattern) := after (setup ToyNoise.bob alice_key None) world0.

(** What a handler put on the wire. *)
Definition sent (r : result Error (list Output * Action) * DWorld (R := Pattern)) : list bytes :=
  match r.1 with
  | Ok (out, _) => omap (λ o, match o with SendTo _ d _ | Send _ d => Some d | _ => None end) out
  | _ => []
  end.

Definition read_op : DevOp := IfaceEvent hosts [ReadPacket sample_ipv4].
Definition from (addr : SocketAddr) (ds : list bytes) : DevOp := UdpEvent hosts listener ((λ d, (d, addr)) <$> ds).

(** I-packet, junk and initiation; response; keepalive and the queued packet. *)
Definition flight1 : list bytes := sent (iface_handler hosts [ReadPacket sample_ipv4] alice0).
Definition alice1 : DWorld (R := Pattern) := (run_op read_op alice0).2.
Definition flight2 : list bytes := sent (udp_handler hosts listener ((λ d, (d, alice_addr)) <$> flight1) bob0).
Definition bob1 : DWorld (R := Pattern) := (run_op (from alice_addr flight1) bob0).2.
Definition flight3 : list bytes := sent (udp_handler hosts listener ((λ d, (d, bob_addr)) <$> flight2) alice1).
Definition alice2 : DWorld (R := Pattern) := (run_op (from bob_addr flight2) alice1).2.

(** ** Every state is reachable *)
Definition clock0 : Z := now sample_env.

Lemma sample_clock : clock clock0 clock0 (h_env (sample_host 100)).
Proof. split; intros; reflexivity. Qed.
Lemma sample_works : host_works (sample_host 100).
Proof. by split; intros. Qed.
Lemma sample_clocks : clocks (λ _, clock0) hosts.
Proof. intros i. split; [apply sample_works|apply sample_clock]. Qed.
Lemma sample_serviceable : serviceable sample_config.
Proof. split; [apply usable_sample|]. intros r. discriminate. Qed.

Lemma timed_reaches o w :
  device_reaches clock0 w → op_timed clock0 clock0 o → (run_op o w).1 ≠ Panic → device_reaches clock0 (run_op o w).2.
Proof. intros Hw Ho Hr. eapply dt_step; [exact Hw|exact Ho|apply surjective_pairing|exact Hr]. Qed.

Lemma setup_reaches sk peer endpoint :
  let step n := after (take n (setup sk peer endpoint)) world0 in
  (∀ n o, setup sk peer endpoint !! n = Some o → (run_op o (step n)).1 ≠ Panic) →
  device_reaches clock0 (after (setup sk peer endpoint) world0).
Proof.
  intros step Hp. cbn [after setup].
  assert (H0 : device_reaches clock0 world0).
  { apply (dt_new false 1420 [0x1000001; 7]); [reflexivity|exact counting_bytes_ok]. }
  pose proof (timed_reaches (SetKey (sample_host 100) sk) _ H0 (conj (sample_host_ok 100) sample_clock) (Hp 0%nat _ eq_refl)) as H1.
  pose proof (timed_reaches (SetAmnezia (sample_host 100) sample_config) _ H1 (conj (sample_host_ok 100) (conj sample_serviceable sample_clock)) (Hp 1%nat _ eq_refl)) as H2.
  pose proof (timed_reaches (Listen (sample_host 100) 7) _ H2 (Z.le_refl _) (Hp 2%nat _ eq_refl)) as H3.
  exact (timed_reaches (UpdatePeer (sample_host 100) peer false false endpoint [home] None None None) _ H3 (conj sample_clock I) (Hp 3%nat _ eq_refl)).
Qed.

Lemma alice0_reaches : device_reaches clock0 alice0.
Proof.
  apply setup_reaches. intros [|[|[|[|n]]]] o Ho; [injection Ho as <-; by vm_compute..|].
  discriminate Ho.
Qed.
Lemma bob0_reaches : device_reaches clock0 bob0.
Proof.
  apply setup_reaches. intros [|[|[|[|n]]]] o Ho; [injection Ho as <-; by vm_compute..|].
  discriminate Ho.
Qed.

Lemma read_timed : op_timed clock0 clock0 read_op.
Proof. exists (λ _, clock0). split_and!; [reflexivity|reflexivity|apply sample_clocks]. Qed.
Lemma from_timed addr ds : Forall datagram_ok ds → op_timed clock0 clock0 (from addr ds).
Proof.
  intros Hds. exists (λ _, clock0). split_and!; [reflexivity|reflexivity|apply sample_clocks|].
  apply Forall_fmap. exact Hds.
Qed.

(** The datagrams of the conversation are bytes of a datagram's length. *)
Definition small (d : bytes) : bool := forallb (λ b, (0 <=? b) && (b <? 256)) d && (Z.of_nat (length d) <=? 65535).
Lemma small_ok ds : forallb small ds = true → Forall datagram_ok ds.
Proof.
  rewrite forallb_forall. intros H. apply list.Forall_forall. intros d Hd%list_elem_of_In.
  specialize (H d Hd). unfold small in H. apply andb_true_iff in H as [Hb Hl]. split.
  - apply list.Forall_forall. intros b Hin%list_elem_of_In. rewrite forallb_forall in Hb. specialize (Hb b Hin).
    apply andb_true_iff in Hb as [H1 H2]. apply Z.leb_le in H1. apply Z.ltb_lt in H2. widths. lia.
  - apply Z.leb_le in Hl. unfold MAX_UDP_SIZE. change (2 ^ 16 - 1) with 65535. lia.
Qed.

Lemma alice1_reaches : device_reaches clock0 alice1.
Proof. apply timed_reaches; [apply alice0_reaches|apply read_timed|by vm_compute]. Qed.
Lemma bob1_reaches : device_reaches clock0 bob1.
Proof.
  apply timed_reaches; [apply bob0_reaches|apply from_timed, small_ok; vm_compute; reflexivity|by vm_compute].
Qed.
Lemma alice2_reaches : device_reaches clock0 alice2.
Proof.
  apply timed_reaches; [apply alice1_reaches|apply from_timed, small_ok; vm_compute; reflexivity|by vm_compute].
Qed.

(** ** The theorems at work *)
Lemma traffic_never_panics_witness :
  ∃ w', run_op (from alice_addr flight3) bob1 = (Ok tt, w') ∧ device_reaches clock0 w'
    ∧ routes (dev w') = routes (dev bob1).
Proof.
  refine (traffic_never_panics clock0 clock0 (from alice_addr flight3) bob1 bob1_reaches _ _).
  - apply from_timed, small_ok. vm_compute. reflexivity.
  - split; [exists (ToyNoise.bob, bob_key)|exists O]; vm_compute; reflexivity.
Defined.

(** Two workers of one device, both in a handler under a read guard. *)
Definition both_in : list (nat * Act (DWorld (R := Pattern))) :=
  [(0, Enter); (1, Enter); (0, LockStep); (0, LockStep); (0, LockStep); (1, LockStep); (1, LockStep); (1, LockStep);
   (0, TakeEvent); (1, TakeEvent)]%nat.
Lemma both_in_run w :
  lrun both_in (loop_new w 2) = Some (mkLoop (mkLock false w [Reading; Reading]) [InHandler; InHandler] eventfd_new eventfd_new).
Proof. reflexivity. Qed.

(** One worker of Bob's device handles Alice's initiation, then the other one the
    packet that follows it. *)
Lemma workers_serve_witness :
  ∃ s s', working clock0 (loop_new bob0 2) clock0 s ∧ lstep 1 (Serve (effect (from alice_addr flight3))) s = Some s'
    ∧ inner (lk s) = bob1 ∧ (run_op (from alice_addr flight3) bob1).1 = Ok tt
    ∧ routes (dev (inner (lk s'))) = routes (dev bob1).
Proof.
  set (s := mkLoop (mkLock false bob1 [Reading; Reading]) [InHandler; InHandler] eventfd_new eventfd_new
    : Loop Counter.counter (DWorld (R := Pattern))).
  assert (Hk : working clock0 (loop_new bob0 2) clock0 s).
  { eapply (wk_step _ _ clock0 _ 0%nat (Serve (effect (from alice_addr flight1)))).
    - eapply quiet_working; [apply wk_here| |apply both_in_run]. repeat constructor.
    - exists (from alice_addr flight1). split; [reflexivity|]. split.
      + apply from_timed, small_ok. vm_compute. reflexivity.
      + split; [reflexivity|]. assert (E : (run_op (from alice_addr flight1) bob0).1 = Ok tt) by (vm_compute; reflexivity).
        cbn [lk inner]. intros H. pose proof (eq_trans (eq_sym E) H) as Hbad. discriminate Hbad.
    - reflexivity. }
  destruct (workers_serve clock0 bob0 2 clock0 s bob0_reaches Hk) as (_ & _ & _ & Hserve).
  destruct (Hserve 1%nat (from alice_addr flight3) clock0) as (s' & Hs & _ & Hok & _ & Hroutes & _); [reflexivity..| | |].
  - apply from_timed, small_ok. vm_compute. reflexivity.
  - split; [exists (ToyNoise.bob, bob_key)|exists O]; vm_compute; reflexivity.
  - exists s, s'. split; [exact Hk|]. split; [exact Hs|]. split; [reflexivity|]. split; [exact Hok|exact Hroutes].
Defined.

(** Two workers of Bob's device: one has Alice's initiation to handle, the other
    the timers.  Both start, in either order. *)
Definition bob_tasks : list Task := [UdpTask listener ((λ d, (d, alice_addr)) <$> flight1); TimersTask].

Lemma handlers_interleave_witness :
  ∃ s1 s2, pool_step 0 (sample_host 100) (mkPool (task_prog <$> bob_tasks) bob0) = Some (Ok tt, s1)
    ∧ pool_step 1 (sample_host 100) s1 = Some (Ok tt, s2)
    ∧ interleaved 2 clock0 (mkPool (task_prog <$> bob_tasks) bob0) clock0 s2
    ∧ routes (dev (pool_world s2)) = routes (dev bob0).
Proof.
  set (s0 := mkPool (task_prog <$> bob_tasks) bob0).
  assert (Hready : Forall (task_ready (dev bob0)) bob_tasks).
  { constructor; [|constructor; [exact I|constructor]].
    split; [exists (ToyNoise.bob, bob_key); vm_compute; reflexivity|]. split; [exists O; vm_compute; reflexivity|].
    apply Forall_fmap. apply small_ok. vm_compute. reflexivity. }
  assert (Hgo : ∀ n s k i m, interleaved n clock0 s0 clock0 s → pool_progs s !! k = Some (Sect i m) →
    ∃ s', pool_step k (sample_host 100) s = Some (Ok tt, s') ∧ interleaved (S n) clock0 s0 clock0 s'
      ∧ ∀ j, j ≠ k → pool_progs s' !! j = pool_progs s !! j).
  { intros n s k i m Hi Hk.
    destruct (handlers_interleave clock0 bob0 bob_tasks n clock0 s bob0_reaches Hready Hi) as (_ & _ & _ & Hnext).
    destruct (Hnext k (sample_host 100) clock0 (sample_host_ok 100) sample_works sample_clock)
      as [[a Ha]|[Hn|[s' Hs]]]; [congruence|congruence|].
    exists s'. split; [exact Hs|]. split.
    - eapply il_step; [exact Hi|exact (sample_host_ok 100)|exact sample_works|exact sample_clock|exact Hs].
    - intros j Hj. unfold pool_step in Hs. rewrite Hk in Hs. destruct (m (sample_host 100) (pool_world s)) as [[p|e|] w];
        [|discriminate Hs..]. injection Hs as <-. cbn [pool_progs]. apply list_lookup_insert_ne. congruence. }
  destruct (Hgo 0%nat s0 0%nat _ _ (il_none _ _) eq_refl) as (s1 & E1 & I1 & H1).
  edestruct (Hgo 1%nat s1 1%nat) as (s2 & E2 & I2 & _); [exact I1|rewrite H1 by discriminate; reflexivity|].
  destruct (handlers_interleave clock0 bob0 bob_tasks 2 clock0 s2 bob0_reaches Hready I2) as (_ & Hr & _).
  exists s1, s2. split; [exact E1|]. split; [exact E2|]. split; [exact I2|exact Hr].
Defined.

(** Bob writes the packet Alice's interface was given, for the last datagram of the
    flight. *)
Lemma interface_writes_are_admitted_witness :
  ∃ w', udp_handler hosts listener ((λ d, (d, alice_addr)) <$> flight3) bob1 = (Ok ([Write4 sample_ipv4], Continue), w')
    ∧ ∃ k src addr sent wk, ((λ d, (d, alice_addr)) <$> flight3) !! k = Some (src, addr)
      ∧ udp_handler hosts listener (take k ((λ d, (d, alice_addr)) <$> flight3)) bob1 = (Ok (sent, Continue), wk)
      ∧ udp_admits src wk (Write4 sample_ipv4).
Proof.
  destruct (udp_handler hosts listener ((λ d, (d, alice_addr)) <$> flight3) bob1) as [r w'] eqn:E.
  assert (Er : r = Ok ([Write4 sample_ipv4], Continue))
    by (apply (f_equal fst) in E; cbn [fst] in E; rewrite <- E; vm_compute; reflexivity).
  exists w'. rewrite Er in E. rewrite Er. split; [reflexivity|].
  exact (proj2 (proj1 (interface_writes_are_admitted bob1 w' [Write4 sample_ipv4] Continue (Write4 sample_ipv4)
    (list_elem_of_here _ _) eq_refl) _ _ _ E)).
Defined.

Lemma interface_reads_are_routed_witness :
  ∃ out w' o, iface_handler hosts [ReadPacket sample_ipv4] alice2 = (Ok (out, Continue), w') ∧ o ∈ out
    ∧ ∃ src, ReadPacket src ∈ [ReadPacket sample_ipv4] ∧ routed (dev alice2) src o.
Proof.
  destruct (iface_handler hosts [ReadPacket sample_ipv4] alice2) as [r w'] eqn:E.
  assert (Er : ∃ o, r = Ok ([o], Continue))
    by (apply (f_equal fst) in E; cbn [fst] in E; rewrite <- E; vm_compute; eexists; reflexivity).
  destruct Er as [o Er]. rewrite Er in E. exists [o], w', o. rewrite Er.
  assert (Ho : o ∈ [o]) by apply list_elem_of_here.
  split; [reflexivity|]. split; [exact Ho|].
  exact (proj2 (interface_reads_are_routed hosts [ReadPacket sample_ipv4] alice2 w' [o] Continue E) o Ho).
Defined.

(** ** The two ends of the conversation *)
Definition peer_of (w : DWorld (R := Pattern)) : option Peer := d_heap (dev w) !! 0%nat.
Definition current_session (w : DWorld (R := Pattern)) : option Session :=
  p ← peer_of w; session_at (p_tunnel p) (current (p_tunnel p)).
Definition session_named (i : Z) (w : DWorld (R := Pattern)) : option Session :=
  p ← peer_of w; session_at (p_tunnel p) i.
Definition alice_session : Session := default (Session_new 0 0 [] []) (current_session alice2).
Definition bob_session : Session :=
  default (Session_new 0 0 [] []) (session_named (sending_index alice_session) bob1).

Lemma session_in (w : DWorld (R := Pattern)) p i s :
  peer_of w = Some p → session_named i w = Some s → session_at (p_tunnel p) i = Some s.
Proof. unfold session_named. by intros ->. Qed.

Lemma sample_tunnel_ok (w : DWorld (R := Pattern)) p :
  device_reaches clock0 w → peer_of w = Some p → ok sample_env (mkWorld (load_tunnel (dev w) p) (drng w)).
Proof.
  intros Hw Hp. destruct (reaches_fit _ _ Hw) as [_ Hf]. destruct (ft_tunnels _ _ Hf 0%nat p Hp) as [Hok _].
  split; [|exact (ft_rng _ _ Hf)]. unfold load_tunnel. cbn [tunn].
  destruct (p_limiter p ≫= _); [apply ok_set_limiter; exact Hok|exact Hok].
Qed.

Lemma talk_linked pa pb :
  peer_of alice2 = Some pa → peer_of bob1 = Some pb →
  linked (sample_host 100) (sample_host 100) alice2 bob1 0 0 pa pb alice_session bob_session window_empty.
Proof.
  intros Ha Hb. split.
  - exact (proj1 (reaches_fit _ _ alice2_reaches)).
  - exact (proj1 (reaches_fit _ _ bob1_reaches)).
  - vm_compute. reflexivity.
  - left. vm_compute. reflexivity.
  - split; [exact Ha|]. exists bob_key. vm_compute. reflexivity.
  - split; [exact Hb|]. exists alice_key. vm_compute. reflexivity.
  - exact (sample_tunnel_ok alice2 pa alice2_reaches Ha).
  - exact (sample_tunnel_ok bob1 pb bob1_reaches Hb).
  - assert (E : current_session alice2 = Some alice_session) by (vm_compute; reflexivity).
    unfold current_session in E. rewrite Ha in E. exact E.
  - apply (session_in bob1); [exact Hb|]. vm_compute. reflexivity.
  - split; vm_compute; reflexivity.
  - vm_compute. split; congruence.
  - split; [|vm_compute; reflexivity].
    assert (E : receiving_key_counter bob_session = validator_default) by (vm_compute; reflexivity).
    rewrite E. exact refines_default.
Qed.

Lemma peer_in (w : DWorld (R := Pattern)) : bool_decide (is_Some (peer_of w)) = true → ∃ p, peer_of w = Some p.
Proof. intros [p Hp]%bool_decide_eq_true. by exists p. Qed.

(** What the peer's fields look like at each end. *)
Lemma alice_endpoint pa : peer_of alice2 = Some pa → p_endpoint pa = mkEndpoint (Some bob_addr) None.
Proof.
  intros Ha. assert (E : p_endpoint <$> peer_of alice2 = Some (mkEndpoint (Some bob_addr) None)) by (vm_compute; reflexivity).
  rewrite Ha in E. by injection E.
Qed.
Lemma bob_allows pb : peer_of bob1 = Some pb → is_allowed_ip pb (V4 [10; 0; 0; 1]) = true.
Proof.
  intros Hb. assert (E : (λ p, is_allowed_ip p (V4 [10; 0; 0; 1])) <$> peer_of bob1 = Some true) by (vm_compute; reflexivity).
  rewrite Hb in E. by injection E.
Qed.

Lemma device_delivery_witness :
  ∃ queued d wa' wb',
    iface_packet (sample_host 100) listener listener sample_ipv4 alice2
      = (Ok (map (λ b, SendTo listener b bob_addr) (queued ++ [d])), wa')
    ∧ udp_packet (sample_host 100) ToyNoise.bob bob_key 0 listener d alice_addr bob1
      = (Ok ([Write4 sample_ipv4], true), wb').
Proof.
  destruct (peer_in alice2) as [pa Ha]; [vm_compute; reflexivity|].
  destruct (peer_in bob1) as [pb Hb]; [vm_compute; reflexivity|].
  assert (Hl : ∃ rl, d_limiters (dev bob1) !! 0%nat = Some rl) by (eexists; vm_compute; reflexivity).
  destruct Hl as [rl Hl].
  destruct (device_delivery (sample_host 100) (sample_host 100) alice2 bob1 0 0 pa pb alice_session bob_session
    window_empty listener listener (λ b, SendTo listener b bob_addr) (V4 [10; 0; 0; 2]) sample_ipv4
    (WriteToTunnelV4 sample_ipv4 [10; 0; 0; 1]) ToyNoise.bob bob_key 0 rl listener alice_addr)
    as (queued & d & wa' & wb' & pb' & H1 & H2 & _).
  - exact (talk_linked pa pb Ha Hb).
  - reflexivity.
  - vm_compute. reflexivity.
  - rewrite (alice_endpoint pa Ha). reflexivity.
  - exact Hl.
  - vm_compute. reflexivity.
  - intros s. reflexivity.
  - by apply (bool_decide_eq_true_1 _).
  - apply ip_v4; [reflexivity|cbn; lia|reflexivity].
  - assert (E : Z.to_nat (s4 (paddings (d_amnezia (dev alice2)))) = 15%nat) by (vm_compute; reflexivity).
    rewrite E. cbn [length]. unfold MAX_UDP_SIZE. change (2 ^ 16 - 1) with 65535. cbn [length sample_ipv4 app replicate]. lia.
  - intros ip Hip. assert (ip = V4 [10; 0; 0; 1]) as -> by (by injection Hip). exact (bob_allows pb Hb).
  - exists queued, d, wa', wb'. exact (conj H1 H2).
Defined.
End talk.
