(* ===== verification/Ffi.v ===== *)
(** * Ffi: the C interface of a tunnel

    Models [awgtun-ffi/src/lib.rs]: the constructors that build a tunnel from C
    strings and a C configuration, the calls that drive it, and the helpers for
    keys.  A [*const c_char] is [None] when NULL and the bytes before the
    terminator otherwise; a [*mut Mutex<Tunn>] is [None] when NULL and a key of
    the heap of boxed tunnels otherwise.  Dereferencing a NULL string or a freed
    tunnel is undefined behaviour, the error of the monad [F]; the memory behind
    [dst] is its length, and the bytes a call writes there are returned.  What a
    constructor reads from outside (clocks, fresh keys) is an [Entropy]. *)

From Stdlib Require Import ZArith Lia.
From stdpp Require Import base list option strings sets tactics countable gmap fin_maps.
From S2P Require Import Prelude Clock Text Random Codec Keys Amnezia Cps Config Packet.
From S2P Require Import Session Handshake RateLimiter Timers Tunnel Loss.
Open Scope Z_scope.

(** ** Strings *)

(** A continuation byte. *)
Definition utf8_tail (b : Z) : bool := (0x80 <=? b) && (b <=? 0xBF).

(** [str::from_utf8]: the well-formed sequences of the Unicode standard. *)
Fixpoint utf8_valid (s : bytes) : bool :=
  match s with
  | [] => true
  | a :: s1 =>
      if a <=? 0x7F then utf8_valid s1 else
      match s1 with
      | [] => false
      | b :: s2 =>
          if (0xC2 <=? a) && (a <=? 0xDF) then utf8_tail b && utf8_valid s2 else
          match s2 with
          | [] => false
          | c :: s3 =>
              if (0xE0 <=? a) && (a <=? 0xEF) then
                utf8_tail b && (negb (a =? 0xE0) || (0xA0 <=? b)) && (negb (a =? 0xED) || (b <=? 0x9F))
                && utf8_tail c && utf8_valid s3
              else
              match s3 with
              | [] => false
              | d :: s4 =>
                  (0xF0 <=? a) && (a <=? 0xF4)
                  && utf8_tail b && (negb (a =? 0xF0) || (0x90 <=? b)) && (negb (a =? 0xF4) || (b <=? 0x8F))
                  && utf8_tail c && utf8_tail d && utf8_valid s4
              end
          end
      end
  end.

(** [CStr::to_str]. *)
Definition to_str (s : bytes) : result () bytes := if utf8_valid s then Ok s else Err ().

(** A NULL or dangling pointer was followed. *)
Inductive Undefined := NullString | DanglingTunnel.

(** ** Results *)
Inductive result_type :=
  WIREGUARD_DONE | WRITE_TO_NETWORK | WIREGUARD_ERROR | WRITE_TO_TUNNEL_IPV4 | WRITE_TO_TUNNEL_IPV6.

Record wireguard_result := mkResult { op : result_type; size : Z }.

(** [e as usize]: the position of the variant. *)
Definition error_code (e : WireGuardError) : Z :=
  match e with
  | DestinationBufferTooSmall => 0
  | IncorrectPacketLength => 1
  | UnexpectedPacket => 2
  | WrongPacketType => 3
  | WrongIndex => 4
  | WrongKey => 5
  | InvalidTai64nTimestamp => 6
  | WrongTai64nTimestamp => 7
  | InvalidMac => 8
  | InvalidAeadTag => 9
  | InvalidCounter => 10
  | DuplicateCounter => 11
  | InvalidPacket => 12
  | NoCurrentSession => 13
  | LockFailed => 14
  | ConnectionExpired => 15
  | UnderLoad => 16
  end.

Definition wireguard_result_from (res : TunnResult) : wireguard_result :=
  match res with
  | Done => mkResult WIREGUARD_DONE 0
  | TErr e => mkResult WIREGUARD_ERROR (error_code e)
  | WriteToNetwork b => mkResult WRITE_TO_NETWORK (Z.of_nat (length b))
  | WriteToTunnelV4 b _ => mkResult WRITE_TO_TUNNEL_IPV4 (Z.of_nat (length b))
  | WriteToTunnelV6 b _ => mkResult WRITE_TO_TUNNEL_IPV6 (Z.of_nat (length b))
  end.

(** The bytes at the start of [dst]. *)
Definition written (res : TunnResult) : bytes :=
  match res with
  | WriteToNetwork b | WriteToTunnelV4 b _ | WriteToTunnelV6 b _ => b
  | _ => []
  end.

(** ** The C structs *)
Record amnezia_config := mk_amnezia_config {
  h1_start : Z; h1_end : Z; h2_start : Z; h2_end : Z;
  h3_start : Z; h3_end : Z; h4_start : Z; h4_end : Z;
  c_s1 : Z; c_s2 : Z; c_s3 : Z; c_s4 : Z;
  c_jc : Z; c_jmin : Z; c_jmax : Z;
  c_i1 : option bytes; c_i2 : option bytes; c_i3 : option bytes; c_i4 : option bytes; c_i5 : option bytes
}.

(** A pair of bounds. *)
Record c_range := mk_c_range { c_min : Z; c_max : Z }.

Record amnezia3_config := mk_amnezia3_config {
  c_base : amnezia_config;
  c_header_protection_key : option bytes;
  c_content_padding : c_range;
  c_rekey_after_time : c_range;
  c_rekey_timeout : c_range;
  c_reject_after_time : c_range;
  c_keepalive_timeout : c_range;
  c_max_handshake_attempts : c_range;
  c_persistent_keepalive : c_range;
  c_mtu : Z;
  c_random_trailers : Z;
  c_disable_cookies : Z
}.

(** A struct cleared with [memset]. *)
Definition zeroed_config : amnezia_config :=
  mk_amnezia_config 0 0 0 0 0 0 0 0 0 0 0 0 0 0 0 None None None None None.
Definition zeroed_config3 : amnezia3_config :=
  let z := mk_c_range 0 0 in mk_amnezia3_config zeroed_config None z z z z z z z 0 0 0.

Record TunnelIdentity := mkTunnelIdentity {
  ti_private_key : bytes;
  ti_public_key : bytes;
  ti_preshared_key : option bytes;
  ti_keep_alive : option Z
}.

(** ** Logging *)

(** [FFIFunctionPointerWriter::write]: the text handed to the function pointer and
    the number of bytes taken; a text with a zero byte is an error.  [lossy] is
    [String::from_utf8_lossy]. *)
Definition log_write (lossy : bytes → bytes) (buf : bytes) : result () (bytes * nat) :=
  if decide (0 ∈ lossy buf) then Err () else Ok (lossy buf, length buf).
(** [set_logging_function]: [init] is the outcome of installing the subscriber. *)
Definition set_logging_function (init : result () ()) : bool := match init with Ok _ => true | _ => false end.

(** What a constructor reads from outside. *)
Record Entropy := mkEntropy { e_time : Z; e_now : Z; e_secret : bytes; e_nonce : bytes }.

Section ffi.
Context `{CC : ChaCha20} `{B64 : Base64} `{NC : NoiseCrypto} `{AE : Aead} `{RS : RandomSource R}.

(** ** Keys *)

(** [x25519_secret_key]: [drawn] is what the key crate draws. *)
Definition x25519_secret_key (drawn : bytes) : bytes := drawn.
Definition x25519_public_key (private_key : bytes) : bytes := x25519_public private_key.
Definition x25519_key_to_base64 (key : bytes) : bytes := b64_encode key.
Definition x25519_key_to_hex (key : bytes) : bytes := print_hex key.

Definition check_base64_encoded_x25519_key (key : bytes) : Z :=
  match to_str key with
  | Ok utf8_key =>
      match b64_decode utf8_key with
      | Some k =>
          if decide (length k = 32%nat ∧ foldl Z.lor 0 k ≠ 0) then 1 else 0
      | None => 0
      end
  | _ => 0
  end.

(** ** Configurations *)
Definition parse_optional_cps (ptr : option bytes) : result () (option CpsChain) :=
  match ptr with
  | None => Ok None
  | Some s =>
      s ← to_str s;
      if decide (s = []) then Ok None
      else chain ← map_err (λ _, tt) (CpsChain_parse s); Ok (Some chain)
  end.

Definition amnezia2_from_c (cfg : amnezia_config) : result () Amnezia2Config :=
  let header_bounds :=
    [h1_start cfg; h1_end cfg; h2_start cfg; h2_end cfg; h3_start cfg; h3_end cfg; h4_start cfg; h4_end cfg] in
  headers ←
    (if forallb (Z.eqb 0) header_bounds then Ok HeaderConfig_wireguard_compatible
     else map_err (λ _, tt)
       (HeaderConfig_new (mkHeaderRange (h1_start cfg) (h1_end cfg)) (mkHeaderRange (h2_start cfg) (h2_end cfg))
          (mkHeaderRange (h3_start cfg) (h3_end cfg)) (mkHeaderRange (h4_start cfg) (h4_end cfg))));
  paddings ← map_err (λ _, tt) (PaddingConfig_new (c_s1 cfg) (c_s2 cfg) (c_s3 cfg) (c_s4 cfg));
  junk ←
    (if c_jc cfg =? 0 then Ok JunkConfig_disabled
     else map_err (λ _, tt) (JunkConfig_new (c_jc cfg) (c_jmin cfg) (c_jmax cfg)));
  i1 ← parse_optional_cps (c_i1 cfg);
  i2 ← parse_optional_cps (c_i2 cfg);
  i3 ← parse_optional_cps (c_i3 cfg);
  i4 ← parse_optional_cps (c_i4 cfg);
  i5 ← parse_optional_cps (c_i5 cfg);
  Ok (mkConfig2 junk paddings headers (mkInitPackets i1 i2 i3 i4 i5)).

Definition range_from_c (r : c_range) : result () U32Range :=
  map_err (λ _, tt) (U32Range_new (c_min r) (c_max r)).

Definition header_protection_key_from_c (ptr : option bytes) : option bytes :=
  match ptr with
  | None => None
  | Some memory =>
      let key := take HEADER_PROTECTION_KEY_SIZE memory in
      if forallb (Z.eqb 0) key then None else Some key
  end.

(** The configuration [new_tunnel_amnezia3] builds before it looks at the keys. *)
Definition amnezia3_from_c (cfg : amnezia3_config) : result () Amnezia3Config :=
  base ← amnezia2_from_c (c_base cfg);
  padding ← range_from_c (c_content_padding cfg);
  let content_padding := if U32Range_is_zero padding then None else Some padding in
  rekey_after ← range_from_c (c_rekey_after_time cfg);
  rekey ← range_from_c (c_rekey_timeout cfg);
  reject ← range_from_c (c_reject_after_time cfg);
  keepalive ← range_from_c (c_keepalive_timeout cfg);
  attempts ← range_from_c (c_max_handshake_attempts cfg);
  persistent ← range_from_c (c_persistent_keepalive cfg);
  let a := Amnezia3Config_from_amnezia2 base in
  Ok (mkConfig (junk a) (paddings a) (headers a) (init_packets a)
        (header_protection_key_from_c (c_header_protection_key cfg)) content_padding
        (mkTimingRanges rekey_after rekey reject keepalive attempts persistent)
        (negb (c_random_trailers cfg =? 0)) (negb (c_disable_cookies cfg =? 0))
        (if c_mtu cfg =? 0 then mtu a else c_mtu cfg)).

(** ** Keys of a tunnel *)
Definition parse_key (s : bytes) : result () bytes :=
  s ← to_str s; map_err (λ _, tt) (KeyBytes_from_str s).

Definition parse_psk (ptr : option bytes) : result () (option bytes) :=
  match ptr with
  | None => Ok None
  | Some s => k ← parse_key s; Ok (Some k)
  end.

Definition keep_alive_from_c (keep_alive : Z) : option Z :=
  if keep_alive =? 0 then None else Some keep_alive.

Definition parse_tunnel_identity (static_private server_static_public preshared_key : option bytes)
    (keep_alive : Z) : result () TunnelIdentity :=
  match static_private, server_static_public with
  | Some sk, Some pk =>
      private_key ← parse_key sk;
      public_key ← parse_key pk;
      preshared_key ← parse_psk preshared_key;
      Ok (mkTunnelIdentity private_key public_key preshared_key (keep_alive_from_c keep_alive))
  | _, _ => Err ()
  end.

(** ** The heap of tunnels *)
Record FWorld := mkFWorld { tunnels : gmap nat Tunn; frng : R; panic_hook : bool }.
Definition F (A : Type) : Type := ST FWorld Undefined A.

(** [Box::into_raw(Box::new(Mutex::new(tunnel)))]. *)
Definition into_raw (t : Tunn) (g : R) : F (option nat) := λ w,
  let id := fresh (dom (tunnels w)) in
  (Ok (Some id), mkFWorld (<[id := t]> (tunnels w)) g (panic_hook w)).

Definition install_panic_hook : F () := modify (λ w, mkFWorld (tunnels w) (frng w) true).

(** [CStr::from_ptr]. *)
Definition from_ptr (ptr : option bytes) : F bytes :=
  match ptr with Some s => mret s | None => throw NullString end.

(** The result of a constructor of [Tunn]; NULL for an error. *)
Definition boxed (r : result ConfigError (Tunn * R)) : F (option nat) :=
  match r with
  | Ok (t, g) => into_raw t g
  | Err _ => mret None
  | Panic => panic
  end.

(** Continue with a value, return NULL on an error. *)
Definition or_null {A} (r : result () A) (k : A → F (option nat)) : F (option nat) :=
  match r with
  | Ok a => k a
  | Err _ => mret None
  | Panic => panic
  end.

Definition new_tunnel_unhooked (static_private server_static_public preshared_key : option bytes)
    (keep_alive index : Z) (e : Entropy) : F (option nat) :=
  sk ← from_ptr static_private;
  or_null (to_str sk) (λ sk,
  pk ← from_ptr server_static_public;
  or_null (to_str pk) (λ pk,
  or_null (parse_psk preshared_key) (λ psk,
  or_null (map_err (λ _, tt) (KeyBytes_from_str sk)) (λ private_key,
  or_null (map_err (λ _, tt) (KeyBytes_from_str pk)) (λ public_key,
  w ← gets id;
  boxed (Tunn_new private_key public_key psk (keep_alive_from_c keep_alive) index None
           (e_time e) (e_now e) (e_secret e) (e_nonce e) (frng w))))))).

(** [if !tunnel.is_null() { install_panic_hook() }]. *)
Definition hooked (m : F (option nat)) : F (option nat) :=
  tunnel ← m;
  match tunnel with
  | Some _ => _ ← install_panic_hook; mret tunnel
  | None => mret None
  end.

Definition new_tunnel (static_private server_static_public preshared_key : option bytes)
    (keep_alive index : Z) (e : Entropy) : F (option nat) :=
  hooked (new_tunnel_unhooked static_private server_static_public preshared_key keep_alive index e).

Definition new_tunnel_amnezia (static_private server_static_public preshared_key : option bytes)
    (keep_alive index : Z) (config : option amnezia_config) (e : Entropy) : F (option nat) :=
  match config with
  | None => new_tunnel static_private server_static_public preshared_key keep_alive index e
  | Some config =>
      or_null (amnezia2_from_c config) (λ amnezia,
      or_null (parse_tunnel_identity static_private server_static_public preshared_key keep_alive) (λ i,
      w ← gets id;
      hooked (boxed (new_with_amnezia (ti_private_key i) (ti_public_key i) (ti_preshared_key i)
        (ti_keep_alive i) index None amnezia (e_time e) (e_now e) (e_secret e) (e_nonce e) (frng w)))))
  end.

Definition build_amnezia3_tunnel (i : TunnelIdentity) (index : Z) (amnezia : Amnezia3Config) (e : Entropy)
    : F (option nat) :=
  w ← gets id;
  boxed (new_with_amnezia3 (ti_private_key i) (ti_public_key i) (ti_preshared_key i) (ti_keep_alive i)
           index None amnezia (e_time e) (e_now e) (e_secret e) (e_nonce e) (frng w)).

Definition new_tunnel_amnezia3 (static_private server_static_public preshared_key : option bytes)
    (keep_alive index : Z) (config : option amnezia3_config) (e : Entropy) : F (option nat) :=
  match config with
  | None => new_tunnel static_private server_static_public preshared_key keep_alive index e
  | Some cfg =>
      or_null (amnezia3_from_c cfg) (λ amnezia,
      or_null (parse_tunnel_identity static_private server_static_public preshared_key keep_alive) (λ i,
      hooked (build_amnezia3_tunnel i index amnezia e)))
  end.

(** ** Calls *)

(** A method of the tunnel behind a pointer: [tunnel.as_ref().unwrap().lock()]. *)
Definition on_ptr {A} (tunnel : option nat) (m : T (R := R) A) : F (result WireGuardError A) := λ w,
  match tunnel with
  | None => (Panic, w)
  | Some id =>
      match tunnels w !! id with
      | None => (Err DanglingTunnel, w)
      | Some t =>
          let '(r, tw) := m (mkWorld t (frng w)) in
          let w' := mkFWorld (<[id := tunn tw]> (tunnels w)) (rng tw) (panic_hook w) in
          match r with Panic => (Panic, w') | r => (Ok r, w') end
      end
  end.

Definition drive (tunnel : option nat) (m : T (R := R) TunnResult) : F (wireguard_result * bytes) :=
  r ← on_ptr tunnel m;
  match r with
  | Ok res => mret (wireguard_result_from res, written res)
  | Err e => mret (wireguard_result_from (TErr e), [])
  | Panic => panic
  end.

Definition wireguard_write (tunnel : option nat) (src : bytes) (dst_size : nat) (env : Env) :=
  drive tunnel (encapsulate env src dst_size).
Definition wireguard_read (tunnel : option nat) (src : bytes) (dst_size : nat) (env : Env) :=
  drive tunnel (decapsulate env None src dst_size).
Definition wireguard_tick (tunnel : option nat) (dst_size : nat) (env : Env) :=
  drive tunnel (update_timers env dst_size).
Definition wireguard_force_handshake (tunnel : option nat) (dst_size : nat) (env : Env) :=
  drive tunnel (Tunn_format_handshake_initiation env dst_size true).

Definition wireguard_poll_outgoing_packet (tunnel : option nat) (dst_size : nat) : F (Z * bytes) :=
  r ← on_ptr tunnel poll_outgoing_packet;
  match r with
  | Ok (Some packet) =>
      if decide (dst_size < length packet)%nat then mret (0, [])
      else mret (Z.of_nat (length packet), packet)
  | Ok None => mret (0, [])
  | _ => panic
  end.

(** [Box::from_raw] on anything but a live tunnel is undefined. *)
Definition tunnel_free (tunnel : option nat) : F () := λ w,
  match tunnel with
  | Some id =>
      match tunnels w !! id with
      | Some _ => (Ok tt, mkFWorld (delete id (tunnels w)) (frng w) (panic_hook w))
      | None => (Err DanglingTunnel, w)
      end
  | None => (Err DanglingTunnel, w)
  end.

(** The fields of the C [stats] but for its reserved bytes; [as i32] keeps the low
    32 bits. *)
Record stats := mkStats {
  st_time_since_last_handshake : Z;
  st_tx_bytes : Z;
  st_rx_bytes : Z;
  st_estimated_loss : option Z;
  st_estimated_rtt : Z
}.

Definition as_i32 (x : Z) : Z := if x <? 2 ^ 31 then x else x - 2 ^ 32.

Definition wireguard_stats (tunnel : option nat) (env : Env) : F stats :=
  r ← on_ptr tunnel (Loss.stats env);
  match r with
  | Ok (time, tx, rx, estimated_loss, estimated_rtt) =>
      mret (mkStats (from_option (λ ns, ns / SEC) (-1) time) tx rx estimated_loss
              (from_option as_i32 (-1) estimated_rtt))
  | _ => panic
  end.
End ffi.
