(* ===== verification/FfiSafe.v ===== *)
(** * FfiSafe: what the C interface guarantees its caller

    A struct of zeros gives the same tunnel as no struct; a tunnel built through
    the interface and driven within the caller's contract never panics, never
    reaches undefined behaviour and never reports more bytes than the buffer
    holds; and two cases in which the interface does not do what its header says. *)

From Stdlib Require Import ZArith Lia.
From stdpp Require Import base list option strings sets tactics countable gmap fin_maps.
From S2P Require Import Prelude Clock Text Random Codec Keys Amnezia Cps Config Packet.
From S2P Require Import Session Handshake RateLimiter Timers Tunnel Loss TunnelSafe Ffi.
Open Scope Z_scope.

Section ffi.
Context `{CC : ChaCha20} `{B64 : Base64} `{NC : NoiseCrypto} `{AE : Aead} `{RS : RandomSource R}.

(** ** A struct of zeros *)

(** A string that does not make the key parser slice inside a character. *)
Definition key_text_ok (s : bytes) : Prop := parse_key s ≠ Panic.

Lemma zeroed_base : amnezia2_from_c zeroed_config = Ok Amnezia2Config_default.
Proof. reflexivity. Qed.

Lemma zeroed_config3_default :
  amnezia3_from_c zeroed_config3 = Ok (Amnezia3Config_from_amnezia2 Amnezia2Config_default).
Proof. reflexivity. Qed.

(** [Tunn::new] does not fail. *)
Lemma Tunn_new_default sk pk psk keepalive index limiter t now secret nkey (g : R) :
  new_with_amnezia sk pk psk keepalive index limiter Amnezia2Config_default t now secret nkey g
  = Tunn_new sk pk psk keepalive index limiter t now secret nkey g.
Proof.
  unfold Tunn_new, new_with_amnezia, new_with_amnezia3.
  replace (Amnezia3Config_validate (Amnezia3Config_from_amnezia2 Amnezia2Config_default))
    with (@Ok ConfigError () ()) by (by vm_compute).
  cbn [mbind result_bind]. by destruct (Timers_new _ _ _ _ _).
Qed.

(** The keys in the two orders the constructors read them. *)
Lemma identity_orders sk pk psk keep_alive (k : TunnelIdentity → F (R := R) (option nat)) (w : FWorld) :
  key_text_ok sk → key_text_ok pk → from_option key_text_ok True psk →
  or_null (parse_tunnel_identity (Some sk) (Some pk) psk keep_alive) k w
  = or_null (to_str sk) (λ sk, or_null (to_str pk) (λ pk, or_null (parse_psk psk) (λ psk,
      or_null (map_err (λ _, tt) (KeyBytes_from_str sk)) (λ private_key,
      or_null (map_err (λ _, tt) (KeyBytes_from_str pk)) (λ public_key,
        k (mkTunnelIdentity private_key public_key psk (keep_alive_from_c keep_alive))))))) w.
Proof.
  intros Hsk Hpk Hpsk. assert (Hp : parse_psk psk ≠ Panic).
  { destruct psk as [s|]; [|done]. cbn [from_option] in Hpsk. unfold key_text_ok in Hpsk.
    unfold parse_psk. by destruct (parse_key s). }
  unfold key_text_ok, parse_tunnel_identity, parse_key in *.
  destruct (to_str sk) as [s|[]|]; cbn in Hsk |- *; [|done..].
  destruct (map_err _ (KeyBytes_from_str s)) as [a|[]|] eqn:Es; cbn in Hsk |- *; [| |done];
    (destruct (to_str pk) as [s'|[]|]; cbn in Hpk |- *; [|done..];
     destruct (parse_psk psk) as [x|[]|]; cbn; try done;
     destruct (map_err _ (KeyBytes_from_str s')) as [b|[]|]; cbn in Hpk |- *; rewrite ?Es; done).
Qed.

Lemma zeroed_same sk pk psk keep_alive index e (w : FWorld (R := R)) :
  key_text_ok sk → key_text_ok pk → from_option key_text_ok True psk →
  new_tunnel_amnezia3 (Some sk) (Some pk) psk keep_alive index (Some zeroed_config3) e w
  = new_tunnel (Some sk) (Some pk) psk keep_alive index e w
  ∧ new_tunnel_amnezia (Some sk) (Some pk) psk keep_alive index (Some zeroed_config) e w
  = new_tunnel (Some sk) (Some pk) psk keep_alive index e w.
Proof.
  intros Hsk Hpk Hpsk. unfold new_tunnel_amnezia3, new_tunnel_amnezia.
  rewrite zeroed_base, zeroed_config3_default. cbn [or_null]. rewrite !identity_orders by done.
  unfold new_tunnel, new_tunnel_unhooked, build_amnezia3_tunnel, hooked, from_ptr.
  unfold mbind, ST_bind, mret, ST_ret. cbv beta.
  destruct (to_str sk) as [s|[]|]; cbn [or_null]; [|done..].
  destruct (to_str pk) as [s'|[]|]; cbn [or_null]; [|done..].
  destruct (parse_psk psk) as [x|[]|]; cbn [or_null]; [|done..].
  destruct (map_err _ (KeyBytes_from_str s)) as [a|[]|]; cbn [or_null]; [|done..].
  destruct (map_err _ (KeyBytes_from_str s')) as [b|[]|]; cbn [or_null]; [|done..].
  unfold gets, id. cbv beta iota. rewrite <- Tunn_new_default. split; reflexivity.
Qed.

(** A configuration of zeros is standard WireGuard.  [new_tunnel_amnezia] and
    [new_tunnel_amnezia3] with a struct cleared to zero do exactly what
    [new_tunnel] does, the tunnel they build, the pointer they return and the
    panic hook included; a NULL configuration is [new_tunnel] by definition. *)
Lemma zeroed_config_is_wireguard sk pk psk keep_alive index e (w : FWorld (R := R)) :
  key_text_ok sk → key_text_ok pk → from_option key_text_ok True psk →
  new_tunnel_amnezia3 (Some sk) (Some pk) psk keep_alive index (Some zeroed_config3) e w
  = new_tunnel (Some sk) (Some pk) psk keep_alive index e w
  ∧ new_tunnel_amnezia (Some sk) (Some pk) psk keep_alive index (Some zeroed_config) e w
  = new_tunnel (Some sk) (Some pk) psk keep_alive index e w.
Proof. apply zeroed_same. Qed.

(** ** The configurations a caller may pass *)

(** A CPS string the parser takes or refuses, without a <dz n> beyond eight
    bytes. *)
Definition cps_text_ok (ptr : option bytes) : Prop :=
  match parse_optional_cps ptr with
  | Ok (Some c) => Forall tag_sized (tags c)
  | Ok None | Err _ => True
  | Panic => False
  end.

(** Fields within their C types, and header ranges in order. *)
Record base_fine (c : amnezia_config) : Prop := {
  bf_h1 : range_ok (mkHeaderRange (h1_start c) (h1_end c));
  bf_h2 : range_ok (mkHeaderRange (h2_start c) (h2_end c));
  bf_h3 : range_ok (mkHeaderRange (h3_start c) (h3_end c));
  bf_h4 : range_ok (mkHeaderRange (h4_start c) (h4_end c));
  bf_paddings : paddings_ok (mkPaddingConfig (c_s1 c) (c_s2 c) (c_s3 c) (c_s4 c));
  bf_junk : junk_ok (mkJunkConfig (c_jc c) (c_jmin c) (c_jmax c));
  bf_chains : Forall cps_text_ok [c_i1 c; c_i2 c; c_i3 c; c_i4 c; c_i5 c]
}.

Definition c_range_fine (r : c_range) : Prop := u32_ok (c_min r) ∧ u32_ok (c_max r).

Record config3_fine (c : amnezia3_config) : Prop := {
  cf_base : base_fine (c_base c);
  cf_key : opt_ok (λ m, (HEADER_PROTECTION_KEY_SIZE ≤ length m)%nat ∧ bytes_ok m) (c_header_protection_key c);
  cf_ranges : Forall c_range_fine
    [c_content_padding c; c_rekey_after_time c; c_rekey_timeout c; c_reject_after_time c;
     c_keepalive_timeout c; c_max_handshake_attempts c; c_persistent_keepalive c];
  cf_mtu : u32_ok (c_mtu c)
}.

(** A conversion that returns or refuses, and what it returns. *)
Definition good {A} (P : A → Prop) (r : result () A) : Prop :=
  match r with Ok a => P a | Err _ => True | Panic => False end.

Lemma good_bind {A B} (Q : A → Prop) (P : B → Prop) (r : result () A) (k : A → result () B) :
  good Q r → (∀ a, r = Ok a → Q a → good P (k a)) → good P (r ≫= k).
Proof. destruct r; cbn; eauto. Qed.

Lemma parse_optional_cps_ok ptr o :
  parse_optional_cps ptr = Ok o → opt_ok chain_ok o.
Proof.
  destruct ptr as [s|]; cbn; [|by intros <-%Ok_inj].
  intros (s' & _ & H)%bind_ok. case_decide; [by apply Ok_inj in H as <-|].
  apply bind_ok in H as (c & Hc%map_err_ok & <-%Ok_inj). by apply CpsChain_parse_ok in Hc.
Qed.

Lemma parse_optional_cps_good ptr : cps_text_ok ptr → good (λ _, True) (parse_optional_cps ptr).
Proof. unfold cps_text_ok, good. by destruct (parse_optional_cps ptr) as [[]| |]. Qed.

Lemma range_from_c_good r : c_range_fine r → good u32range_ok (range_from_c r).
Proof.
  intros [Hmin Hmax]. unfold range_from_c, U32Range_new.
  destruct (Z.ltb_spec (c_max r) (c_min r)); cbn; [done|]. split; [done|]. by split.
Qed.

(** What [amnezia2_from_c] accepts. *)
Definition base_good (a : Amnezia2Config) : Prop :=
  junk_ok (junk2 a) ∧ paddings_ok (paddings2 a) ∧ headers_ok (headers2 a)
  ∧ init_packets_ok (init_packets2 a)
  ∧ Forall (λ ch, Forall tag_sized (tags ch)) (InitPacketConfig_active_chains (init_packets2 a)).

Lemma init_packets_good p1 p2 p3 p4 p5 o1 o2 o3 o4 o5 :
  Forall cps_text_ok [p1; p2; p3; p4; p5] →
  Forall2 (λ p o, parse_optional_cps p = Ok o) [p1; p2; p3; p4; p5] [o1; o2; o3; o4; o5] →
  init_packets_ok (mkInitPackets o1 o2 o3 o4 o5)
  ∧ Forall (λ ch, Forall tag_sized (tags ch)) (InitPacketConfig_active_chains (mkInitPackets o1 o2 o3 o4 o5)).
Proof.
  unfold init_packets_ok, InitPacketConfig_active_chains, InitPacketConfig_chains. cbn [i1 i2 i3 i4 i5].
  generalize [o1; o2; o3; o4; o5] as os. intros os Ht Hp. revert Ht.
  induction Hp as [|p o ps os Ho _ IH]; intros Ht; [split; constructor|].
  apply Forall_cons in Ht as [Hs [IH1 IH2]%IH]. split; [constructor; [by eapply parse_optional_cps_ok|done]|].
  unfold cps_text_ok in Hs. rewrite Ho in Hs. destruct o as [c|]; cbn; [by constructor|done].
Qed.

Lemma no_overlap_total l : no_overlap l ≠ Panic.
Proof.
  assert (H : ∀ el rest, overlap_with el rest ≠ Panic).
  { intros el rest. induction rest as [|er rest IH]; cbn; [done|]. by destruct (HeaderRange_overlaps _ _). }
  induction l as [|el l IH]; cbn; [done|]. specialize (H el l). by destruct (overlap_with el l).
Qed.

Lemma headers_from_c_good c :
  base_fine c →
  good headers_ok (map_err (λ _, tt) (HeaderConfig_new (mkHeaderRange (h1_start c) (h1_end c))
    (mkHeaderRange (h2_start c) (h2_end c)) (mkHeaderRange (h3_start c) (h3_end c))
    (mkHeaderRange (h4_start c) (h4_end c)))).
Proof.
  intros [H1 H2 H3 H4 _ _ _]. unfold HeaderConfig_new, HeaderConfig_validate_no_overlap.
  pose proof (no_overlap_total (HeaderConfig_entries (mkHeaderConfig (mkHeaderRange (h1_start c) (h1_end c))
    (mkHeaderRange (h2_start c) (h2_end c)) (mkHeaderRange (h3_start c) (h3_end c))
    (mkHeaderRange (h4_start c) (h4_end c))))) as Ht.
  destruct (no_overlap _) as [[]|e|]; [|done..]. split; [done|]. split; [done|]. by split.
Qed.

Lemma amnezia2_from_c_good c : base_fine c → good base_good (amnezia2_from_c c).
Proof.
  intros Hc. unfold amnezia2_from_c.
  apply (good_bind headers_ok).
  { destruct (forallb _ _); [by apply default_headers_ok|by apply headers_from_c_good]. }
  intros hs _ Hhs. apply (good_bind paddings_ok); [exact (bf_paddings _ Hc)|].
  intros ps _ Hps. apply (good_bind junk_ok).
  { destruct (_ =? 0); [by apply (bool_decide_unpack _); vm_compute|].
    unfold JunkConfig_new, JunkConfig_validate. pose proof (bf_junk _ Hc).
    destruct (_ =? 0); cbn; [done|]. by destruct (_ <? _). }
  intros js _ Hjs. pose proof (bf_chains _ Hc) as Hch.
  assert (H5 := Hch). rewrite !Forall_cons in H5. destruct H5 as (P1 & P2 & P3 & P4 & P5 & _).
  apply (good_bind (λ _, True)); [by apply parse_optional_cps_good|]. intros o1 E1 _.
  apply (good_bind (λ _, True)); [by apply parse_optional_cps_good|]. intros o2 E2 _.
  apply (good_bind (λ _, True)); [by apply parse_optional_cps_good|]. intros o3 E3 _.
  apply (good_bind (λ _, True)); [by apply parse_optional_cps_good|]. intros o4 E4 _.
  apply (good_bind (λ _, True)); [by apply parse_optional_cps_good|]. intros o5 E5 _.
  destruct (init_packets_good _ _ _ _ _ o1 o2 o3 o4 o5 Hch) as [Hi Hs]; [by repeat constructor|].
  by split_and!.
Qed.

Lemma header_key_good ptr :
  opt_ok (λ m, (HEADER_PROTECTION_KEY_SIZE ≤ length m)%nat ∧ bytes_ok m) ptr →
  opt_ok key_ok (header_protection_key_from_c ptr).
Proof.
  destruct ptr as [m|]; [|done]. cbn [opt_ok]. intros [Hl Hb]. unfold header_protection_key_from_c.
  destruct (forallb _ _) eqn:E; [done|]. split; [by rewrite length_take, Nat.min_l|]. split; [by apply Forall_take|done].
Qed.

(** A configuration the parser of the struct accepts can be used, once the
    constructor has validated it. *)
Lemma amnezia3_from_c_good c :
  config3_fine c →
  good (λ a, Amnezia3Config_validate a = Ok () → usable a) (amnezia3_from_c c).
Proof.
  intros [Hb Hk Hr Hm]. rewrite !Forall_cons in Hr. destruct Hr as (R1 & R2 & R3 & R4 & R5 & R6 & R7 & _).
  unfold amnezia3_from_c. apply (good_bind base_good); [by apply amnezia2_from_c_good|].
  intros b _ (G1 & G2 & G3 & G4 & G5).
  apply (good_bind u32range_ok); [by apply range_from_c_good|]. intros r1 _ U1.
  apply (good_bind u32range_ok); [by apply range_from_c_good|]. intros r2 _ U2.
  apply (good_bind u32range_ok); [by apply range_from_c_good|]. intros r3 _ U3.
  apply (good_bind u32range_ok); [by apply range_from_c_good|]. intros r4 _ U4.
  apply (good_bind u32range_ok); [by apply range_from_c_good|]. intros r5 _ U5.
  apply (good_bind u32range_ok); [by apply range_from_c_good|]. intros r6 _ U6.
  apply (good_bind u32range_ok); [by apply range_from_c_good|]. intros r7 _ U7.
  intros Hv. split; [|exact G5]. split; [|exact Hv]. split;
    cbn [junk paddings headers init_packets header_protection_key content_padding_addition timing_ranges mtu
      Amnezia3Config_from_amnezia2]; try done.
  - by apply header_key_good.
  - destruct (U32Range_is_zero r1) eqn:E; by try split.
  - destruct (c_mtu c =? 0); [unfold AWG3_DEFAULT_MTU; width_lia|done].
Qed.

(** ** Sequences of calls *)
Inductive FfiCall :=
  | NewTunnel (sk pk : bytes) (psk : option bytes) (keep_alive index : Z) (e : Entropy)
  | NewTunnelAmnezia (sk pk psk : option bytes) (keep_alive index : Z) (c : amnezia_config) (e : Entropy)
  | NewTunnelAmnezia3 (sk pk psk : option bytes) (keep_alive index : Z) (c : amnezia3_config) (e : Entropy)
  | WireguardWrite (tunnel : nat) (src : bytes) (dst_size : nat) (env : Env)
  | WireguardRead (tunnel : nat) (src : bytes) (dst_size : nat) (env : Env)
  | WireguardTick (tunnel : nat) (dst_size : nat) (env : Env)
  | WireguardForceHandshake (tunnel : nat) (dst_size : nat) (env : Env)
  | WireguardPoll (tunnel : nat) (dst_size : nat)
  | WireguardStats (tunnel : nat) (env : Env)
  | TunnelFree (tunnel : nat).

Inductive Reply :=
  | Pointer (tunnel : option nat)
  | Operation (r : wireguard_result) (dst : bytes)
  | Size (n : Z) (dst : bytes)
  | Figures (s : stats)
  | Nothing.

Definition ffi_call (c : FfiCall) : F (R := R) Reply :=
  match c with
  | NewTunnel sk pk psk ka index e => p ← new_tunnel (Some sk) (Some pk) psk ka index e; mret (Pointer p)
  | NewTunnelAmnezia sk pk psk ka index c e =>
      p ← new_tunnel_amnezia sk pk psk ka index (Some c) e; mret (Pointer p)
  | NewTunnelAmnezia3 sk pk psk ka index c e =>
      p ← new_tunnel_amnezia3 sk pk psk ka index (Some c) e; mret (Pointer p)
  | WireguardWrite t src n env => '(r, dst) ← wireguard_write (Some t) src n env; mret (Operation r dst)
  | WireguardRead t src n env => '(r, dst) ← wireguard_read (Some t) src n env; mret (Operation r dst)
  | WireguardTick t n env => '(r, dst) ← wireguard_tick (Some t) n env; mret (Operation r dst)
  | WireguardForceHandshake t n env =>
      '(r, dst) ← wireguard_force_handshake (Some t) n env; mret (Operation r dst)
  | WireguardPoll t n => '(n, dst) ← wireguard_poll_outgoing_packet (Some t) n; mret (Size n dst)
  | WireguardStats t env => s ← wireguard_stats (Some t) env; mret (Figures s)
  | TunnelFree t => _ ← tunnel_free (Some t); mret Nothing
  end.

(** When the call happens. *)
Definition call_time (time : Z) (c : FfiCall) : Z :=
  match c with
  | NewTunnel _ _ _ _ _ e | NewTunnelAmnezia _ _ _ _ _ _ e | NewTunnelAmnezia3 _ _ _ _ _ _ e => e_now e
  | WireguardWrite _ _ _ env | WireguardRead _ _ _ env | WireguardTick _ _ env
  | WireguardForceHandshake _ _ env | WireguardStats _ env => now env
  | WireguardPoll _ _ | TunnelFree _ => time
  end.

Definition dst_size_of (c : FfiCall) : nat :=
  match c with
  | WireguardWrite _ _ n _ | WireguardRead _ _ n _ | WireguardTick _ n _ | WireguardForceHandshake _ n _
  | WireguardPoll _ n => n
  | _ => O
  end.

(** What the caller owes: key strings that can be sliced, structs whose fields
    are in range, live tunnels, and for a received datagram a buffer as long as
    it and as the padded keepalive that may answer it. *)
Definition call_fine (c : FfiCall) (w : FWorld (R := R)) : Prop :=
  match c with
  | NewTunnel sk pk psk _ _ _ => key_text_ok sk ∧ key_text_ok pk ∧ opt_ok key_text_ok psk
  | NewTunnelAmnezia sk pk psk _ _ c _ =>
      opt_ok key_text_ok sk ∧ opt_ok key_text_ok pk ∧ opt_ok key_text_ok psk ∧ base_fine c
  | NewTunnelAmnezia3 sk pk psk _ _ c _ =>
      opt_ok key_text_ok sk ∧ opt_ok key_text_ok pk ∧ opt_ok key_text_ok psk ∧ config3_fine c
  | WireguardRead t src n _ =>
      ∃ tn, tunnels w !! t = Some tn ∧ bytes_ok src ∧ (length src ≤ n)%nat ∧ keepalive_room (tc tn) n
  | WireguardWrite t _ _ _ | WireguardTick t _ _ | WireguardForceHandshake t _ _ | WireguardPoll t _
  | WireguardStats t _ | TunnelFree t => is_Some (tunnels w !! t)
  end.

(** The size reported is what was written, and fits; the time since the last
    handshake is a number of seconds or -1. *)
Definition reply_fits (n : nat) (r : Reply) : Prop :=
  match r with
  | Operation (mkResult WIREGUARD_ERROR _) dst => dst = []
  | Operation r dst => size r = Z.of_nat (length dst) ∧ (length dst ≤ n)%nat
  | Size s dst => s = Z.of_nat (length dst) ∧ (length dst ≤ n)%nat
  | Figures s => -1 ≤ st_time_since_last_handshake s
  | _ => True
  end.

Definition world_ok (time : Z) (w : FWorld (R := R)) : Prop :=
  rng_ok (frng w) ∧ ∀ id t, tunnels w !! id = Some t → tunn_ok time t.

Inductive ffi_reachable : Z → FWorld (R := R) → Prop :=
  | fr_start time g hook : rng_ok g → ffi_reachable time (mkFWorld ∅ g hook)
  | fr_call time w c r w' :
      ffi_reachable time w → time ≤ call_time time c → call_fine c w →
      ffi_call c w = (r, w') → ffi_reachable (call_time time c) w'.

(** What every call does. *)
Definition served (time : Z) (n : nat) (m : F (R := R) Reply) (w : FWorld) : Prop :=
  ∃ r w', m w = (Ok r, w') ∧ reply_fits n r ∧ world_ok time w'.

Lemma world_ok_later time time' w : world_ok time w → time ≤ time' → world_ok time' w.
Proof. intros [Hg Ht] Hle. split; [done|]. intros id t H. eapply tunn_ok_later; eauto. Qed.

Lemma world_ok_insert time w id t g hook :
  world_ok time w → tunn_ok time t → rng_ok g →
  world_ok time (mkFWorld (<[id := t]> (tunnels w)) g hook).
Proof.
  intros [_ Hw] Ht Hg. split; [done|]. cbn [tunnels].
  intros id' t' [[-> ->]|[_ H]]%lookup_insert_Some; [done|by eapply Hw].
Qed.

(** Validation does not panic. *)
Lemma bind_total {E A B} (r : result E A) (k : A → result E B) :
  r ≠ Panic → (∀ a, k a ≠ Panic) → (r ≫= k) ≠ Panic.
Proof. destruct r; cbn; auto. Qed.

Lemma U32Range_validate_total r f : U32Range_validate r f ≠ Panic.
Proof. unfold U32Range_validate. by destruct (_ <? _). Qed.

Lemma validate_total a : Amnezia3Config_validate a ≠ Panic.
Proof.
  unfold Amnezia3Config_validate. apply bind_total; [|intros _].
  { unfold JunkConfig_validate. destruct (_ =? 0); [done|]. by destruct (_ <? _). }
  apply bind_total; [done|intros _]. apply bind_total; [done|intros _].
  apply bind_total; [apply no_overlap_total|intros _].
  apply bind_total; [destruct (content_padding_addition a); [apply U32Range_validate_total|done]|intros _].
  apply bind_total; [|intros _].
  { unfold TimingRanges_validate. repeat (apply bind_total; [apply U32Range_validate_total|intros _]).
    apply U32Range_validate_total. }
  destruct (header_protection_key a); [|done]. cbn. by repeat destruct (_ <? _).
Qed.

(** Constructors. *)
Definition builds (time : Z) (m : F (R := R) (option nat)) (w : FWorld) : Prop :=
  ∃ p w', m w = (Ok p, w') ∧ world_ok time w'.

Lemma builds_or_null {A} (Q : A → Prop) time (r : result () A) k w :
  world_ok time w → good Q r → (∀ a, Q a → builds time (k a) w) → builds time (or_null r k) w.
Proof. intros Hw. destruct r as [a|e|]; cbn; [eauto| |done]. intros _ _. by exists None, w. Qed.

Lemma builds_hooked time m w : builds time m w → builds time (hooked m) w.
Proof.
  intros (p & w' & E & Hw). unfold builds, hooked, mbind, ST_bind. rewrite E.
  destruct p as [p|]; [|by exists None, w'].
  exists (Some p), (mkFWorld (tunnels w') (frng w') true). by split.
Qed.

Lemma builds_boxed e sk pk psk ka index a w :
  world_ok (e_now e) w → (Amnezia3Config_validate a = Ok () → usable a) →
  builds (e_now e) (boxed (new_with_amnezia3 sk pk psk ka index None a (e_time e) (e_now e)
    (e_secret e) (e_nonce e) (frng w))) w.
Proof.
  intros Hw Hu. unfold boxed.
  destruct (new_with_amnezia3 _ _ _ _ _ _ _ _ _ _ _ _) as [[t g]|err|] eqn:E; [|by exists None, w|].
  - assert (Hv : Amnezia3Config_validate a = Ok ())
      by (unfold new_with_amnezia3 in E; by apply bind_ok in E as ([] & H & _)).
    destruct (tunn_new_ok _ _ _ _ _ _ _ _ _ _ _ _ _ _ (Hu Hv) (proj1 Hw) E) as [Ht Hg].
    unfold into_raw. eexists _, _. split; [reflexivity|]. by apply world_ok_insert.
  - unfold new_with_amnezia3 in E. exfalso. revert E. pose proof (validate_total a) as Hn.
    destruct (Amnezia3Config_validate a) as [[]|x|]; [|done..]. cbn [mbind result_bind].
    by destruct (Timers_new _ _ _ _ _).
Qed.

Lemma default_usable : usable (Amnezia3Config_from_amnezia2 Amnezia2Config_default).
Proof. split; [|constructor]. split; [exact default_fields_ok|by vm_compute]. Qed.

Lemma parse_key_good s : key_text_ok s → good (λ _, True) (parse_key s).
Proof. unfold key_text_ok, good. by destruct (parse_key s). Qed.

Lemma parse_identity_good sk pk psk ka :
  opt_ok key_text_ok sk → opt_ok key_text_ok pk → opt_ok key_text_ok psk →
  good (λ _, True) (parse_tunnel_identity sk pk psk ka).
Proof.
  intros Hsk Hpk Hpsk. unfold parse_tunnel_identity. destruct sk as [sk|]; [|done]. destruct pk as [pk|]; [|done].
  apply (good_bind (λ _, True)); [by apply parse_key_good|intros ? _ _].
  apply (good_bind (λ _, True)); [by apply parse_key_good|intros ? _ _].
  apply (good_bind (λ _, True)); [|done]. destruct psk as [s|]; [|done].
  apply (good_bind (λ _, True)); [by apply parse_key_good|done].
Qed.

Lemma new_tunnel_builds sk pk psk ka index e w :
  world_ok (e_now e) w → key_text_ok sk → key_text_ok pk → opt_ok key_text_ok psk →
  builds (e_now e) (new_tunnel (Some sk) (Some pk) psk ka index e) w.
Proof.
  intros Hw Hsk Hpk Hpsk. unfold builds.
  destruct (zeroed_same sk pk psk ka index e w Hsk Hpk) as [<- _]; [by destruct psk|].
  unfold new_tunnel_amnezia3. rewrite zeroed_config3_default. cbn [or_null].
  apply (builds_or_null (λ _, True)); [done|by apply parse_identity_good|]. intros i _.
  apply builds_hooked, builds_boxed; [done|]. intros _. apply default_usable.
Qed.

Lemma new_tunnel_amnezia3_builds sk pk psk ka index c e w :
  world_ok (e_now e) w → opt_ok key_text_ok sk → opt_ok key_text_ok pk → opt_ok key_text_ok psk →
  config3_fine c → builds (e_now e) (new_tunnel_amnezia3 sk pk psk ka index (Some c) e) w.
Proof.
  intros Hw Hsk Hpk Hpsk Hc. unfold new_tunnel_amnezia3.
  apply (builds_or_null (λ a, Amnezia3Config_validate a = Ok () → usable a)); [done|by apply amnezia3_from_c_good|].
  intros a Ha. apply (builds_or_null (λ _, True)); [done|by apply parse_identity_good|]. intros i _.
  by apply builds_hooked, builds_boxed.
Qed.

Lemma base_usable a :
  base_good a → Amnezia3Config_validate (Amnezia3Config_from_amnezia2 a) = Ok () →
  usable (Amnezia3Config_from_amnezia2 a).
Proof.
  intros (G1 & G2 & G3 & G4 & G5) Hv. split; [|exact G5]. split; [|exact Hv].
  pose proof default_fields_ok as D. by split; try apply D.
Qed.

Lemma new_tunnel_amnezia_builds sk pk psk ka index c e w :
  world_ok (e_now e) w → opt_ok key_text_ok sk → opt_ok key_text_ok pk → opt_ok key_text_ok psk →
  base_fine c → builds (e_now e) (new_tunnel_amnezia sk pk psk ka index (Some c) e) w.
Proof.
  intros Hw Hsk Hpk Hpsk Hc. unfold new_tunnel_amnezia.
  apply (builds_or_null base_good); [done|by apply amnezia2_from_c_good|].
  intros a Ha. apply (builds_or_null (λ _, True)); [done|by apply parse_identity_good|]. intros i _.
  apply builds_hooked, builds_boxed; [done|]. by apply base_usable.
Qed.

(** Calls on a live tunnel. *)
Lemma result_fits n res : fits n res → reply_fits n (Operation (wireguard_result_from res) (written res)).
Proof. destruct res; cbn; intros; try done; split; try done; lia. Qed.

Lemma drive_served id t env (c : Call) w :
  world_ok (now env) w → tunnels w !! id = Some t → call_ok (tc t) c →
  served (now env) (call_room c) ('(r, dst) ← drive (Some id) (run_call env c); mret (Operation r dst)) w.
Proof.
  intros Hw Hid Hc. pose proof (run_call_ok env c (mkWorld t (frng w)) (conj (proj2 Hw id t Hid) (proj1 Hw)) Hc) as H.
  unfold served, drive, on_ptr, mbind, ST_bind, runs in *. rewrite Hid.
  destruct (run_call env c (mkWorld t (frng w))) as [[r|e|] tw]; [|done..]. destruct H as [[Ht Hg] Hf].
  eexists _, _. split; [reflexivity|]. split; [by apply result_fits|by apply world_ok_insert].
Qed.

Lemma poll_served id t time n w :
  world_ok time w → tunnels w !! id = Some t →
  served time n ('(n, dst) ← wireguard_poll_outgoing_packet (Some id) n; mret (Size n dst)) w.
Proof.
  intros Hw Hid. pose proof (proj2 Hw id t Hid) as Ht.
  unfold served, wireguard_poll_outgoing_packet, on_ptr, poll_outgoing_packet, mbind, ST_bind, get, gets. rewrite Hid.
  cbn [tunn rng]. destruct (network_outgoing t) as [|packet rest].
  - eexists _, _. split; [reflexivity|]. split; [split; [done|cbn; lia]|]. apply world_ok_insert; [done|done|apply Hw].
  - unfold upd_tunn, modify. cbn [tunn rng]. unfold mret, ST_ret. case_decide.
    + eexists _, _. split; [reflexivity|]. split; [split; [done|cbn; lia]|].
      apply world_ok_insert; [done|by apply ok_set_outgoing|apply Hw].
    + eexists _, _. split; [reflexivity|]. split; [split; [done|cbn; lia]|].
      apply world_ok_insert; [done|by apply ok_set_outgoing|apply Hw].
Qed.

Lemma stats_served id t env w :
  world_ok (now env) w → tunnels w !! id = Some t →
  served (now env) 0 (s ← wireguard_stats (Some id) env; mret (Figures s)) w.
Proof.
  intros Hw Hid. pose proof (proj2 Hw id t Hid) as Ht.
  pose proof (timer_get_bound (tunn_timers t) TimeSessionEstablished (ok_timers _ _ Ht)) as Hb.
  pose proof (ok_now _ _ Ht) as Hn.
  unfold served, wireguard_stats, on_ptr, Loss.stats, time_since_last_handshake, mbind, ST_bind, get, gets, dsub. rewrite Hid.
  cbn [tunn rng]. destruct (session_at t (current t)).
  - rewrite (proj2 (Z.ltb_ge _ _)) by lia.
    eexists _, _. split; [reflexivity|]. split; [|apply world_ok_insert; [done|done|apply Hw]].
    cbn [reply_fits st_time_since_last_handshake from_option]. etrans; [|apply Z.div_pos; [|done]]; lia.
  - eexists _, _. split; [reflexivity|]. split; [done|]. apply world_ok_insert; [done|done|apply Hw].
Qed.

Lemma call_served time c w :
  world_ok time w → time ≤ call_time time c → call_fine c w →
  served (call_time time c) (dst_size_of c) (ffi_call c) w.
Proof.
  intros Hw Hle Hc. apply (world_ok_later _ (call_time time c)) in Hw; [|done].
  assert (B : ∀ m, builds (call_time time c) m w →
    served (call_time time c) (dst_size_of c) (p ← m; mret (Pointer p)) w).
  { intros m (p & w' & E & Hw'). unfold served, mbind, ST_bind. rewrite E. by exists (Pointer p), w'. }
  destruct c as [sk pk psk ka index e|sk pk psk ka index c e|sk pk psk ka index c e|id src n env|id src n env
                |id n env|id n env|id n|id env|id]; cbn [call_time dst_size_of call_fine ffi_call] in *.
  - destruct Hc as (? & ? & ?). by apply B, new_tunnel_builds.
  - destruct Hc as (? & ? & ? & ?). by apply B, new_tunnel_amnezia_builds.
  - destruct Hc as (? & ? & ? & ?). by apply B, new_tunnel_amnezia3_builds.
  - destruct Hc as [t Ht]. by apply (drive_served id t env (CEncapsulate src n)).
  - destruct Hc as (t & Ht & ? & ? & ?). by apply (drive_served id t env (CDecapsulate None src n)).
  - destruct Hc as [t Ht]. by apply (drive_served id t env (CUpdateTimers n)).
  - destruct Hc as [t Ht]. by apply (drive_served id t env (CInitiate n true)).
  - destruct Hc as [t Ht]. by apply (poll_served id t).
  - destruct Hc as [t Ht]. by apply (stats_served id t).
  - destruct Hc as [t Ht]. unfold served, tunnel_free, mbind, ST_bind. rewrite Ht.
    eexists _, _. split; [reflexivity|]. split; [done|]. split; [apply Hw|].
    intros id' t'. cbn [tunnels]. intros [_ H]%lookup_delete_Some. by eapply Hw.
Qed.

Lemma ffi_reachable_ok time w : ffi_reachable time w → world_ok time w.
Proof.
  induction 1 as [time g hook Hg|time w c r w' _ IH Hle Hc E].
  - split; [done|]. intros id t. cbn. by rewrite lookup_empty.
  - destruct (call_served time c w IH Hle Hc) as (r' & w2 & E' & _ & Hw). rewrite E in E'.
    by apply pair_equal_spec in E' as [_ ->].
Qed.


(** ** Where the interface differs from its header *)

(** A packet that does not fit [dst] is dropped, and the 0 returned is what the
    header gives as the end of the queue: whatever follows it looks drained. *)
Lemma poll_drops_packet id t packet rest n (w : FWorld (R := R)) :
  tunnels w !! id = Some t → network_outgoing t = packet :: rest → (n < length packet)%nat →
  wireguard_poll_outgoing_packet (Some id) n w
  = (Ok (0, []), mkFWorld (<[id := set_outgoing rest t]> (tunnels w)) (frng w) (panic_hook w)).
Proof.
  intros Ht Ho Hn. unfold wireguard_poll_outgoing_packet, on_ptr, poll_outgoing_packet, mbind, ST_bind, get, gets.
  rewrite Ht. cbn [tunn rng]. rewrite Ho. unfold upd_tunn, modify, mret, ST_ret. cbn [tunn rng].
  by rewrite decide_True.
Qed.

(** A range of initiation types whose end is below its start is accepted: the
    struct does not go through [HeaderRange::new].  The tunnel then sends every
    initiation with the start, which no end configured the same way recognises. *)
Lemma inverted_header_accepted c a :
  0 ≤ h1_end c < h1_start c → amnezia2_from_c c = Ok a →
  (∀ g : R, (HeaderRange_generate (hc_init (headers2 a)) g).1 = h1_start c)
  ∧ ∀ v, HeaderRange_contains (hc_init (headers2 a)) v = false.
Proof.
  intros Hr Hc.
  assert (Hi : hc_init (headers2 a) = mkHeaderRange (h1_start c) (h1_end c)).
  { unfold amnezia2_from_c in Hc. apply bind_ok in Hc as (hs & Hh & Hc). cbn [forallb] in Hh.
    rewrite (proj2 (Z.eqb_neq 0 (h1_start c))) in Hh by lia. cbn [andb] in Hh.
    apply map_err_ok, bind_ok in Hh as (? & _ & <-%Ok_inj).
    do 7 (apply bind_ok in Hc as (? & _ & Hc)). by apply Ok_inj in Hc as <-. }
  rewrite Hi. split.
  - intros g. unfold HeaderRange_generate, gen_range_u32. cbn [hr_start hr_end].
    by rewrite (proj2 (Z.leb_le _ _)) by lia.
  - intros v. unfold HeaderRange_contains. cbn [hr_start hr_end].
    destruct (Z.leb_spec (h1_start c) v); [|done]. apply Z.leb_gt. lia.
Qed.
End ffi.

(** ** A concrete caller *)
Section sample.
#[local] Existing Instances sum_stream Rfc4648.engine ToyNoise.crypto ToyAead.cipher.

Definition alice_text : bytes := print_hex ToyNoise.alice.
Definition bob_text : bytes := print_hex (x25519_public ToyNoise.bob).
Definition sample_entropy : Entropy := mkEntropy 1700000000000000000 0 (replicate 32 1) (replicate 24 2).
Definition no_tunnels : FWorld (R := Pattern) := mkFWorld ∅ counting_bytes false.

Definition sample_new_call : FfiCall := NewTunnel alice_text bob_text None 25 1 sample_entropy.
Definition one_tunnel : FWorld (R := Pattern) := (ffi_call sample_new_call no_tunnels).2.

Lemma one_tunnel_reachable : ffi_reachable 0 one_tunnel.
Proof.
  refine (fr_call 0 no_tunnels sample_new_call (ffi_call sample_new_call no_tunnels).1 _ _ _ _ _).
  - constructor. apply counting_bytes_ok.
  - done.
  - split; [by vm_compute|]. split; [by vm_compute|exact I].
  - apply surjective_pairing.
Qed.


(** An inverted H1 range: the constructor returns a tunnel. *)
Definition inverted_config : amnezia_config :=
  mk_amnezia_config 9 5 20 20 30 30 40 40 0 0 0 0 0 0 0 None None None None None.
Example inverted_tunnel :
  (new_tunnel_amnezia (Some alice_text) (Some bob_text) None 25 1 (Some inverted_config) sample_entropy no_tunnels).1
  = Ok (Some 0%nat).
Proof. vm_compute. reflexivity. Qed.
End sample.
