(* ===== verification/Jni.v ===== *)
(** * Jni: the Java interface of a tunnel

    Models [awgtun-ffi/src/jni.rs].  A direct [ByteBuffer] is its address and its
    capacity, [None] when the argument is not a direct buffer; a Java [byte[]] is
    its signed bytes, a Java string its modified UTF-8 bytes, [None] when null; a
    handle is the pointer of [Ffi], [None] for 0.  An export catches what its body
    fails with, a panic included, and returns the default of its type: only
    undefined behaviour is left as an error of the export. *)

From Stdlib Require Import ZArith Lia.
From stdpp Require Import base list option strings sets tactics countable gmap fin_maps.
From S2P Require Import Prelude Clock Text Random Codec Keys Amnezia Cps Config Packet.
From S2P Require Import Session Handshake RateLimiter Timers Tunnel TunnelSafe Ffi FfiSafe.
Open Scope Z_scope.

(** [Undefined] is not a [BindingError] of the source: it is the undefined
    behaviour of a call into [Ffi]. *)
Inductive BindingError :=
  | JniError | NegativeSize | BufferTooSmall | OverlappingBuffers | NullTunnel
  | UndefinedBehaviour (u : Undefined).

Record JByteBuffer := mkBuffer { jb_address : Z; jb_capacity : nat }.

(** [usize::try_from(len)]. *)
Definition size_of (len : Z) : result BindingError nat :=
  if len <? 0 then Err NegativeSize else Ok (Z.to_nat len).

Record Region := mkRegion { rg_ptr : Z; rg_len : nat }.

Definition Region_new (buf : option JByteBuffer) (len : Z) : result BindingError Region :=
  len ← size_of len;
  match buf with
  | None => Err JniError
  | Some b =>
      if decide (jb_capacity b < len)%nat then Err BufferTooSmall
      else Ok (mkRegion (jb_address b) len)
  end.

Definition Region_overlaps (a b : Region) : bool :=
  (rg_ptr a <? rg_ptr b + Z.of_nat (rg_len b)) && (rg_ptr b <? rg_ptr a + Z.of_nat (rg_len a)).

Definition dst_and_op (dst : option JByteBuffer) (dst_size : Z) (op : option JByteBuffer)
    : result BindingError (Region * Region) :=
  dst ← Region_new dst dst_size;
  op ← Region_new op 1;
  if Region_overlaps dst op then Err OverlappingBuffers else Ok (dst, op).

(** [b as u8] on a Java byte. *)
Definition read_key (array : list Z) : result BindingError bytes :=
  if decide (length array < KEY_SIZE)%nat then Err JniError
  else Ok (wrap 8 <$> take KEY_SIZE array).

(** The discriminants of [result_type]. *)
Definition op_code (t : result_type) : Z :=
  match t with
  | WIREGUARD_DONE => 0
  | WRITE_TO_NETWORK => 1
  | WIREGUARD_ERROR => 2
  | WRITE_TO_TUNNEL_IPV4 => 4
  | WRITE_TO_TUNNEL_IPV6 => 6
  end.

(** [as jint]. *)
Definition as_jint (n : Z) : Z :=
  let m := wrap 32 n in if 2 ^ 31 <=? m then m - 2 ^ 32 else m.

Inductive Direction := Encapsulate | Decapsulate.

(** What an export leaves behind: the value returned, the byte stored in [op]
    (none when it was not reached) and the bytes at the start of [dst]. *)
Record Export := mkExport { ex_ret : Z; ex_op : option Z; ex_dst : bytes }.
Definition Export_default : Export := mkExport 0 None [].

Section jni.
Context `{CC : ChaCha20} `{B64 : Base64} `{HX : Hex} `{NC : NoiseCrypto} `{AE : Aead} `{RS : RandomSource R}.

Definition J (A : Type) : Type := ST (FWorld (R := R)) BindingError A.

(** A call into the C interface. *)
Definition ffi {A} (m : F (R := R) A) : J A := λ w,
  match m w with
  | (Ok a, w') => (Ok a, w')
  | (Err u, w') => (Err (UndefinedBehaviour u), w')
  | (Panic, w') => (Panic, w')
  end.

(** [env.with_env(..).resolve::<LogErrorAndDefault>()]. *)
Definition with_env {A} (default : A) (body : J A) : J A := λ w,
  match body w with
  | (Err (UndefinedBehaviour u), w') => (Err (UndefinedBehaviour u), w')
  | (Ok a, w') => (Ok a, w')
  | (_, w') => (Ok default, w')
  end.

(** ** Keys *)
Definition generate_secret_key (drawn : bytes) : J (option bytes) := with_env None (mret (Some (x25519_secret_key drawn))).
Definition generate_public_key1 (secret : list Z) : J (option bytes) :=
  with_env None (k ← lift (read_key secret); mret (Some (x25519_public_key k))).
Definition convert_x25519_key_to_hex (key : list Z) : J (option bytes) :=
  with_env None (k ← lift (read_key key); mret (Some (x25519_key_to_hex k))).
Definition convert_x25519_key_to_base64 (key : list Z) : J (option bytes) :=
  with_env None (k ← lift (read_key key); mret (Some (x25519_key_to_base64 k))).

(** ** Tunnels *)

(** [mutf8_chars] of a null string is an error. *)
Definition chars (s : option bytes) : J bytes := lift (match s with Some s => Ok s | None => Err JniError end).

Definition create_new_tunnel (secret_key public_key preshared_key : option bytes) (keep_alive index : Z)
    (e : Entropy) : J (option nat) :=
  with_env None (
    sk ← chars secret_key;
    pk ← chars public_key;
    ffi (new_tunnel_unhooked (Some sk) (Some pk) preshared_key (wrap 16 keep_alive) (wrap 32 index) e)).

Definition create_new_amnezia3_tunnel (secret_key public_key preshared_key : option bytes)
    (keep_alive index : Z) (config : option bytes) (e : Entropy) : J (option nat) :=
  with_env None (
    sk ← chars secret_key;
    pk ← chars public_key;
    match Amnezia3Config_parse (default [] config) with
    | Ok amnezia =>
        match parse_tunnel_identity (Some sk) (Some pk) preshared_key (wrap 16 keep_alive) with
        | Ok who => ffi (build_amnezia3_tunnel who (wrap 32 index) amnezia e)
        | Err _ => mret None
        | Panic => panic
        end
    | Err _ => mret None
    | Panic => panic
    end).

(** [tunnel(handle)?]. *)
Definition tunnel_handle (handle : option nat) : J (option nat) :=
  match handle with Some _ => mret handle | None => throw NullTunnel end.

Definition jni_poll_outgoing_packet (handle : option nat) (dst : option JByteBuffer) (dst_size : Z) : J Export :=
  with_env Export_default (
    dst ← lift (Region_new dst dst_size);
    tunnel ← tunnel_handle handle;
    r ← ffi (on_ptr tunnel poll_outgoing_packet);
    match r with
    | Ok (Some packet) =>
        if decide (length packet ≤ rg_len dst)%nat
        then mret (mkExport (as_jint (Z.of_nat (length packet))) None packet)
        else mret Export_default
    | Ok None => mret Export_default
    | _ => panic
    end).

Definition free_tunnel (handle : option nat) : J () :=
  match handle with None => mret tt | Some _ => ffi (tunnel_free handle) end.

Definition run_direction (d : Direction) (src : bytes) (dst_len : nat) (env : Env) : T (R := R) TunnResult :=
  match d with
  | Encapsulate => encapsulate env src dst_len
  | Decapsulate => decapsulate env None src dst_len
  end.

Definition transform_packet (handle : option nat) (src : option (list Z)) (src_size : Z)
    (dst : option JByteBuffer) (dst_size : Z) (op : option JByteBuffer) (direction : Direction) (env : Env)
    : J Export :=
  with_env Export_default (
    src_len ← lift (size_of src_size);
    '(dst, _) ← lift (dst_and_op dst dst_size op);
    src ← lift (match src with Some s => Ok (wrap 8 <$> s) | None => Err JniError end);
    let src := take (src_len `min` length src) src in
    tunnel ← tunnel_handle handle;
    '(output, data) ← ffi (drive tunnel (run_direction direction src (rg_len dst) env));
    mret (mkExport (as_jint (Ffi.size output)) (Some (op_code (Ffi.op output))) data)).

Definition encrypt_raw_packet handle src src_size dst dst_size op env : J Export :=
  transform_packet handle src src_size dst dst_size op Encapsulate env.
Definition decrypt_to_raw_packet handle src src_size dst dst_size op env : J Export :=
  transform_packet handle src src_size dst dst_size op Decapsulate env.

Definition run_periodic_task (handle : option nat) (dst : option JByteBuffer) (dst_size : Z)
    (op : option JByteBuffer) (env : Env) : J Export :=
  with_env Export_default (
    '(dst, _) ← lift (dst_and_op dst dst_size op);
    tunnel ← tunnel_handle handle;
    '(output, data) ← ffi (drive tunnel (update_timers env (rg_len dst)));
    mret (mkExport (as_jint (Ffi.size output)) (Some (op_code (Ffi.op output))) data)).

(** ** What a packet call does *)
Lemma as_jint_small n : 0 ≤ n < 2 ^ 31 → as_jint n = n.
Proof.
  intros H. unfold as_jint. cbv zeta. unfold wrap. rewrite Z.mod_small by lia.
  destruct (Z.leb_spec (2 ^ 31) n); lia.
Qed.

Lemma Region_new_ok buf len r :
  Region_new buf len = Ok r →
  ∃ b, buf = Some b ∧ 0 ≤ len ∧ len = Z.of_nat (rg_len r) ∧ rg_ptr r = jb_address b
    ∧ (rg_len r ≤ jb_capacity b)%nat.
Proof.
  unfold Region_new, size_of. destruct (Z.ltb_spec len 0); [done|]. cbn.
  destruct buf as [b|]; [|done]. case_decide; [done|]. intros <-%Ok_inj. exists b. cbn. split_and!; lia || done.
Qed.

Lemma dst_and_op_ok dst dst_size op d o :
  dst_and_op dst dst_size op = Ok (d, o) →
  Region_new dst dst_size = Ok d ∧ Region_new op 1 = Ok o ∧ Region_overlaps d o = false.
Proof.
  unfold dst_and_op. intros (d' & Hd & H)%bind_ok. apply bind_ok in H as (o' & Ho & H).
  destruct (Region_overlaps d' o') eqn:E; [done|]. by apply Ok_inj, pair_equal_spec in H as [<- <-].
Qed.

Lemma take_bytes n (s : list Z) : take (n `min` length (wrap 8 <$> s)) (wrap 8 <$> s) = wrap 8 <$> take n s.
Proof.
  rewrite <- fmap_take, length_fmap. destruct (Nat.le_gt_cases n (length s)).
  - by rewrite Nat.min_l.
  - by rewrite Nat.min_r, !take_ge by lia.
Qed.

Lemma wrapped_bytes (s : list Z) : bytes_ok (wrap 8 <$> s).
Proof. apply Forall_fmap, Forall_true. intros x. cbn. widths. apply Z.mod_pos_bound. lia. Qed.

(** Checks of the arguments return or give an error of the binding. *)
Definition plain {A} (r : result BindingError A) : Prop :=
  match r with Err (UndefinedBehaviour _) | Panic => False | _ => True end.

Lemma plain_bind {A B} (r : result BindingError A) (k : A → result BindingError B) :
  plain r → (∀ a, plain (k a)) → plain (r ≫= k).
Proof. destruct r; cbn; auto. Qed.

Lemma Region_new_plain buf len : plain (Region_new buf len).
Proof.
  apply plain_bind; [unfold size_of; by destruct (_ <? _)|]. intros n. destruct buf; [|done]. by case_decide.
Qed.

Lemma dst_and_op_plain dst dst_size op : plain (dst_and_op dst dst_size op).
Proof.
  apply plain_bind; [apply Region_new_plain|intros d]. apply plain_bind; [apply Region_new_plain|intros o].
  by destruct (Region_overlaps d o).
Qed.

(** Driving a live tunnel from Java. *)
Lemma direction_served time id t d s n env w :
  world_ok time w → time ≤ now env → tunnels w !! id = Some t → bytes_ok s →
  (d = Decapsulate → (length s ≤ n)%nat ∧ keepalive_room (tc t) n) →
  ∃ r data w', drive (Some id) (run_direction d s n env) w = (Ok (r, data), w')
    ∧ (length data ≤ n)%nat ∧ 0 ≤ Ffi.size r ≤ Z.max 16 (Z.of_nat n).
Proof.
  intros Hw Hle Ht Hs Hd. apply (world_ok_later _ (now env)) in Hw; [|done].
  set (c := match d with Encapsulate => CEncapsulate s n | Decapsulate => CDecapsulate None s n end).
  assert (Hc : call_ok (tc t) c).
  { destruct d; [done|]. destruct Hd as [? ?]; [done|]. by split. }
  pose proof (run_call_ok env c (mkWorld t (frng w)) (conj (proj2 Hw id t Ht) (proj1 Hw)) Hc) as H.
  assert (Er : run_direction d s n env = run_call env c) by (by destruct d). rewrite Er.
  assert (En : call_room c = n) by (by destruct d). rewrite En in H.
  unfold drive, on_ptr, mbind, ST_bind, runs in *. rewrite Ht.
  destruct (run_call env c (mkWorld t (frng w))) as [[r|e|] tw]; [|done..]. destruct H as [_ Hf].
  eexists _, _, _. split; [reflexivity|].
  destruct r as [|err|b|b a|b a]; cbn in Hf |- *; try (split; lia). split; [lia|]. destruct err; cbn; lia.
Qed.

(** C37: A packet call of the Java interface is checked before it has an effect.
    Whatever array, buffers and sizes are passed, [wireguard_write] and
    [wireguard_read] either refuse, returning 0 with the tunnels and both buffers
    untouched, or do what the C call does on the given bytes: the direct buffer
    holds [dst_size] bytes, what is written fits them and does not touch the [op]
    byte, the value returned is the size and [op] the operation.  This is for
    tunnels that meet the tunnel's invariant, which a tunnel built from a default
    configuration, or from an accepted one whose I-packets have no [<dz n>] with n
    above 8, has and keeps; for a handle that is 0 or live; and for a received
    datagram when the buffer is as long as the datagram and as the padded
    keepalive.  Outside of these the C call can panic after it has changed the
    tunnel, and Java gets the same 0. *)
Theorem jni_packet_contract time handle src src_size dst dst_size op direction env (w : FWorld (R := R)) :
  world_ok time w → time ≤ now env → - 2 ^ 31 ≤ dst_size < 2 ^ 31 →
  (∀ id, handle = Some id → ∃ t, tunnels w !! id = Some t ∧
     (direction = Decapsulate → src_size ≤ dst_size ∧ keepalive_room (tc t) (Z.to_nat dst_size))) →
  transform_packet handle src src_size dst dst_size op direction env w = (Ok Export_default, w)
  ∨ ∃ id b ob s r data w',
      handle = Some id ∧ dst = Some b ∧ op = Some ob ∧ src = Some s
      ∧ drive (Some id) (run_direction direction (wrap 8 <$> take (Z.to_nat src_size) s) (Z.to_nat dst_size) env) w
        = (Ok (r, data), w')
      ∧ transform_packet handle src src_size dst dst_size op direction env w
        = (Ok (mkExport (Ffi.size r) (Some (op_code (Ffi.op r))) data), w')
      ∧ (length data ≤ Z.to_nat dst_size ≤ jb_capacity b)%nat ∧ (1 ≤ jb_capacity ob)%nat
      ∧ (jb_address ob < jb_address b ∨ jb_address b + dst_size ≤ jb_address ob).
Proof.
  intros Hw Hle Hj Hh. unfold transform_packet, with_env, lift, mbind, ST_bind.
  unfold size_of. destruct (Z.ltb_spec src_size 0) as [|Hn]; [by left|].
  pose proof (dst_and_op_plain dst dst_size op) as Hp.
  destruct (dst_and_op dst dst_size op) as [[d o]|e|] eqn:Ed; [|left; by destruct e|done].
  apply dst_and_op_ok in Ed as (Hd & Ho & Hov).
  apply Region_new_ok in Hd as (b & -> & Hd0 & Hd & Hdp & Hdc), Ho as (ob & -> & _ & Ho & Hop & Hoc).
  destruct src as [s|]; [|by left]. destruct handle as [id|]; [|by left].
  destruct (Hh id eq_refl) as (t & Ht & Hdec). right.
  assert (En : rg_len d = Z.to_nat dst_size) by lia. rewrite En in *.
  edestruct (direction_served time id t direction (wrap 8 <$> take (Z.to_nat src_size) s) (Z.to_nat dst_size) env w)
    as (r & data & w' & E & Hl & Hsz); [done|done|done|apply wrapped_bytes| |].
  { intros [H1 H2]%Hdec. split; [|done]. rewrite length_fmap, length_take. lia. }
  exists id, b, ob, s, r, data, w'. do 4 (split; [done|]). split; [exact E|]. split.
  - rewrite take_bytes. unfold tunnel_handle, mret, ST_ret, ffi. rewrite E.
    by rewrite as_jint_small by lia.
  - split; [lia|]. split; [lia|]. unfold Region_overlaps in Hov. rewrite Hdp, Hop, En in Hov.
    apply andb_false_iff in Hov as [H%Z.ltb_ge|H%Z.ltb_ge]; [left|right]; lia.
Qed.

(** The Java constructors keep the heap of tunnels sound, whatever strings they
    are given, provided no CPS chain has a <dz n> beyond eight bytes. *)
Lemma with_env_world {A} (d : A) (m : J A) w : (with_env d m w).2 = (m w).2.
Proof. unfold with_env. by destruct (m w) as [[a|[]|] w']. Qed.

Lemma ffi_world {A} (m : F (R := R) A) w : (ffi m w).2 = (m w).2.
Proof. unfold ffi. by destruct (m w) as [[a|u|] w']. Qed.

Lemma create_new_tunnel_keeps sk pk psk ka index e (w : FWorld (R := R)) :
  world_ok (e_now e) w → world_ok (e_now e) (create_new_tunnel sk pk psk ka index e w).2.
Proof.
  intros Hw. unfold create_new_tunnel. rewrite with_env_world. unfold chars, lift, mbind, ST_bind.
  destruct sk as [sk|]; [|done]. destruct pk as [pk|]; [|done]. rewrite ffi_world.
  unfold new_tunnel_unhooked, from_ptr, mbind, ST_bind, mret, ST_ret.
  destruct (to_str sk) as [s|[]|]; cbn [or_null]; [|done..].
  destruct (to_str pk) as [s'|[]|]; cbn [or_null]; [|done..].
  destruct (parse_psk psk) as [x|[]|]; cbn [or_null]; [|done..].
  destruct (map_err _ (KeyBytes_from_str s)) as [a|[]|]; cbn [or_null]; [|done..].
  destruct (map_err _ (KeyBytes_from_str s')) as [b|[]|]; cbn [or_null]; [|done..].
  unfold gets. rewrite <- Tunn_new_default.
  edestruct (builds_boxed e a b x (keep_alive_from_c (wrap 16 ka)) (wrap 32 index)
    (Amnezia3Config_from_amnezia2 Amnezia2Config_default) w) as (p & w' & E & Hw'); [done|intros _; apply default_usable|].
  unfold new_with_amnezia, id. by rewrite E.
Qed.

Lemma create_new_amnezia3_tunnel_keeps sk pk psk ka index config e (w : FWorld (R := R)) :
  world_ok (e_now e) w →
  (∀ a, Amnezia3Config_parse (default [] config) = Ok a →
     Forall (λ ch, Forall tag_sized (tags ch)) (InitPacketConfig_active_chains (init_packets a))) →
  world_ok (e_now e) (create_new_amnezia3_tunnel sk pk psk ka index config e w).2.
Proof.
  intros Hw Hs. unfold create_new_amnezia3_tunnel. rewrite with_env_world. unfold chars, lift, mbind, ST_bind.
  destruct sk as [sk|]; [|done]. destruct pk as [pk|]; [|done].
  destruct (Amnezia3Config_parse (default [] config)) as [a|err|] eqn:Ea; [|done..].
  destruct (parse_tunnel_identity _ _ _ _) as [i|err|]; [|done..]. rewrite ffi_world.
  edestruct (builds_boxed e (ti_private_key i) (ti_public_key i) (ti_preshared_key i) (ti_keep_alive i)
    (wrap 32 index) a w) as (p & w' & E & Hw'); [done| |].
  - intros _. split; [by eapply Amnezia3Config_parse_ok|by apply Hs].
  - unfold build_amnezia3_tunnel, mbind, ST_bind, gets, id. by rewrite E.
Qed.
End jni.

(** ** A concrete caller *)
Section sample.
#[local] Existing Instances sum_stream Rfc4648.engine HexDecode.engine ToyNoise.crypto ToyAead.cipher.

Definition sample_dst : JByteBuffer := mkBuffer 1000 200.

Lemma one_tunnel_live : is_Some (tunnels one_tunnel !! 0%nat).
Proof. apply (bool_decide_unpack _). vm_compute. exact I. Qed.

(** The first packet of an idle tunnel, with the [op] byte behind the buffer. *)
Definition sample_java_write : J (R := Pattern) Export :=
  transform_packet (Some 0%nat) (Some (replicate 20 69)) 20 (Some sample_dst) 200 (Some (mkBuffer 1500 1))
    Encapsulate sample_env.

(** With [op] inside the buffer the call is refused. *)
Example overlap_refused :
  (transform_packet (Some 0%nat) (Some (replicate 20 69)) 20 (Some sample_dst) 200 (Some (mkBuffer 1100 1))
     Encapsulate sample_env one_tunnel).1 = Ok Export_default.
Proof. vm_compute. reflexivity. Qed.

Lemma jni_packet_contract_witness :
  ∃ r data w',
    drive (Some 0%nat) (run_direction Encapsulate (wrap 8 <$> take (Z.to_nat 20) (replicate 20 69)) (Z.to_nat 200)
      sample_env) one_tunnel = (Ok (r, data), w')
    ∧ sample_java_write one_tunnel = (Ok (mkExport (Ffi.size r) (Some (op_code (Ffi.op r))) data), w').
Proof.
  destruct (jni_packet_contract 0 (Some 0%nat) (Some (replicate 20 69)) 20 (Some sample_dst) 200
    (Some (mkBuffer 1500 1)) Encapsulate sample_env one_tunnel)
    as [H|(id & b & ob & s & r & data & w' & [= <-] & _ & _ & [= <-] & Hd & Ht & _)].
  - exact (ffi_reachable_ok _ _ one_tunnel_reachable).
  - cbn. lia.
  - lia.
  - intros id [= <-]. destruct one_tunnel_live as [t Ht]. exists t. split; [exact Ht|discriminate].
  - exfalso. apply (f_equal (λ x, match x.1 with Ok e => ex_op e | _ => None end)) in H. revert H. vm_compute. discriminate.
  - exists r, data, w'. exact (conj Hd Ht).
Defined.
End sample.
