(* ===== verification/Phobos.v ===== *)
(** * Phobos: configuration and payload encoding of the outer obfuscation

    Models the first half of [awgtun/src/phobos/mod.rs]: the configuration
    ([Masking], [MediaParams], [PhobosConfig] with [set] and [validate]), the
    CRC tables, the keystream, and [encode] / [decode] of one payload.  The
    frames and the codec object are in [PhobosCodec].

    The wire format is documented in [docs/phobos.md]; [stream] is that
    document's keystream, and [apply_keystream_stream] shows the loop of the
    source computes it. *)

From Stdlib Require Import ZArith Lia.
From stdpp Require Import base list option strings sets tactics.
From S2P Require Import Prelude Text Random Amnezia.
Open Scope Z_scope.

(** ** Constants *)
Definition MAX_KEY_LEN : nat := 255.
Definition DEFAULT_MAX_DUMMY : Z := 4.
Definition DUMMY_LIMIT : Z := 1024.
Definition HANDSHAKE_DUMMY_LIMIT : Z := 512.
Definition MEDIA_DEFAULT_OBFUSCATE_BYTES : Z := 16.
Definition STUN_HEADER_LEN : nat := 20.
Definition STUN_DATA_HEADER_LEN : nat := 24.
Definition RTP_HEADER_LEN : nat := 12.
Definition i32_max : Z := 2147483647.

(** ** Configuration *)
Inductive Masking := MaskNone | MaskStun | MaskMedia.

#[export] Instance Masking_eq_dec : EqDecision Masking.
Proof. solve_decision. Defined.

Definition Masking_parse (value : bytes) : result ConfigError Masking :=
  let v := to_ascii_lowercase (trim value) in
  if decide (v = bs "none" ∨ v = bs "auto" ∨ v = bs "tls") then Ok MaskNone
  else if decide (v = bs "stun") then Ok MaskStun
  else if decide (v = bs "media") then Ok MaskMedia
  else Err (InvalidFieldValue (bs "masking") "expected none, stun, media, auto or tls").

Definition Masking_overhead (m : Masking) : nat :=
  match m with
  | MaskNone => 0
  | MaskStun => STUN_DATA_HEADER_LEN
  | MaskMedia => RTP_HEADER_LEN
  end.

(** In nanoseconds. *)
Definition Masking_control_interval (m : Masking) : option Z :=
  match m with
  | MaskNone => None
  | MaskStun => Some (10 * 1000000000)
  | MaskMedia => Some (5 * 1000000000)
  end.

Definition Masking_max_message_len (m : Masking) : option nat :=
  match m with
  | MaskStun => Some (Z.to_nat u16_max)
  | MaskNone | MaskMedia => None
  end.

Record MediaParams := mkMediaParams {
  mp_payload_type : Z;
  mp_ssrc : Z;
  mp_timestamp_step : Z
}.
Definition MediaParams_default : MediaParams := mkMediaParams 0 0 0.

Record PhobosConfig := mkPhobosConfig {
  pc_key : bytes;
  pc_masking : Masking;
  pc_max_dummy : Z;
  pc_obfuscate_bytes : Z;
  pc_media : MediaParams
}.

Definition validate_key (key : bytes) : result ConfigError () :=
  if decide (key = []) then Err (InvalidFieldValue (bs "key") "must not be empty")
  else if decide (MAX_KEY_LEN < length key)%nat
  then Err (InvalidFieldValue (bs "key") "must be at most 255 bytes")
  else Ok tt.

Definition PhobosConfig_new (key : bytes) : result ConfigError PhobosConfig :=
  _ ← validate_key key;
  Ok (mkPhobosConfig key MaskNone DEFAULT_MAX_DUMMY 0 MediaParams_default).

Definition with_key (c : PhobosConfig) (v : bytes) : PhobosConfig :=
  mkPhobosConfig v (pc_masking c) (pc_max_dummy c) (pc_obfuscate_bytes c) (pc_media c).
Definition with_masking (c : PhobosConfig) (v : Masking) : PhobosConfig :=
  mkPhobosConfig (pc_key c) v (pc_max_dummy c) (pc_obfuscate_bytes c) (pc_media c).
Definition with_max_dummy (c : PhobosConfig) (v : Z) : PhobosConfig :=
  mkPhobosConfig (pc_key c) (pc_masking c) v (pc_obfuscate_bytes c) (pc_media c).
Definition with_obfuscate_bytes (c : PhobosConfig) (v : Z) : PhobosConfig :=
  mkPhobosConfig (pc_key c) (pc_masking c) (pc_max_dummy c) v (pc_media c).
Definition with_media (c : PhobosConfig) (v : MediaParams) : PhobosConfig :=
  mkPhobosConfig (pc_key c) (pc_masking c) (pc_max_dummy c) (pc_obfuscate_bytes c) v.

Definition PhobosConfig_set_key (key : bytes) : ST PhobosConfig ConfigError () :=
  lift (validate_key key);;
  modify (λ c, with_key c key).

Definition parse_int (name value : bytes) (min max : Z) : result ConfigError Z :=
  match parse_i64 value with
  | Ok v =>
      if (min <=? v) && (v <=? max) then Ok v
      else Err (InvalidFieldValue (trim name) "out of range")
  | Err _ => Err (InvalidFieldValue (trim name) "must be an integer")
  | Panic => Panic
  end.

Definition parse_ssrc (value : bytes) : result ConfigError Z :=
  let parsed :=
    match match strip_prefix (bs "0x") value with
          | Some hex => Some hex
          | None => strip_prefix (bs "0X") value
          end with
    | Some hex => from_str_radix 16 u32_max hex
    | None =>
        if bool_decide (1 < length value)%nat && bool_decide (value !! 0%nat = Some 48)
        then from_str_radix 8 u32_max (drop 1 value)
        else parse_u32 value
    end in
  map_err (λ _, InvalidFieldValue (bs "media-ssrc") "must be a 32-bit unsigned integer")
    parsed.

(** [PhobosConfig::set]; the [bool] is false for a name the codec does not
    use. *)
Definition PhobosConfig_set (name value : bytes) : ST PhobosConfig ConfigError bool :=
  let value := trim value in
  let key := trim name in
  if decide (key = bs "key") then PhobosConfig_set_key value;; mret true
  else if decide (key = bs "masking") then
    m ← lift (Masking_parse value);
    modify (λ c, with_masking c m);; mret true
  else if decide (key = bs "max-dummy") then
    v ← lift (parse_int name value 0 DUMMY_LIMIT);
    modify (λ c, with_max_dummy c (wrap 16 v));; mret true
  else if decide (key = bs "obfuscate-bytes") then
    v ← lift (parse_int name value 0 i32_max);
    modify (λ c, with_obfuscate_bytes c (wrap 32 v));; mret true
  else if decide (key = bs "media-pt") then
    v ← lift (parse_int name value 0 127);
    modify (λ c, with_media c
      (mkMediaParams (wrap 8 v) (mp_ssrc (pc_media c)) (mp_timestamp_step (pc_media c))));;
    mret true
  else if decide (key = bs "media-ssrc") then
    v ← lift (parse_ssrc value);
    modify (λ c, with_media c
      (mkMediaParams (mp_payload_type (pc_media c)) v (mp_timestamp_step (pc_media c))));;
    mret true
  else if decide (key = bs "media-clock") then
    fps ← lift (parse_int name value 0 1000);
    modify (λ c, with_media c
      (mkMediaParams (mp_payload_type (pc_media c)) (mp_ssrc (pc_media c))
         (if fps =? 0 then 0 else wrap 16 (90000 / fps))));;
    mret true
  else mret false.

Definition PhobosConfig_validate (c : PhobosConfig) : result ConfigError () :=
  _ ← validate_key (pc_key c);
  if DUMMY_LIMIT <? pc_max_dummy c then
    Err (InvalidFieldValue (bs "max-dummy") "must be between 0 and 1024")
  else if i32_max <? pc_obfuscate_bytes c then
    Err (InvalidFieldValue (bs "obfuscate-bytes") "must be between 0 and 2147483647")
  else if 127 <? mp_payload_type (pc_media c) then
    Err (InvalidFieldValue (bs "media-pt") "must be between 0 and 127")
  else Ok tt.

Definition effective_obfuscate_bytes (c : PhobosConfig) : Z :=
  if (pc_obfuscate_bytes c =? 0) && bool_decide (pc_masking c = MaskMedia)
  then MEDIA_DEFAULT_OBFUSCATE_BYTES
  else pc_obfuscate_bytes c.

(** ** CRC tables *)
Fixpoint crc8_bits (n : nat) (crc byte : Z) : Z :=
  match n with
  | O => crc
  | S n' =>
      let mix := Z.land (Z.lxor crc byte) 1 in
      let crc := Z.shiftr crc 1 in
      let crc := if mix =? 0 then crc else Z.lxor crc 0x8C in
      crc8_bits n' crc (Z.shiftr byte 1)
  end.
Definition CRC8 : list Z := (λ i, crc8_bits 8 0 (Z.of_nat i)) <$> seq 0 256.

Fixpoint crc32_bits (n : nat) (crc : Z) : Z :=
  match n with
  | O => crc
  | S n' =>
      crc32_bits n'
        (if Z.land crc 1 =? 0 then Z.shiftr crc 1
         else Z.lxor (Z.shiftr crc 1) 0xEDB88320)
  end.
Definition CRC32 : list Z := (λ i, crc32_bits 8 (Z.of_nat i)) <$> seq 0 256.

(** Indexing a 256-entry table with a byte is always in range. *)
Definition table_at (t : list Z) (i : Z) : Z := default 0 (t !! Z.to_nat i).

Definition crc32 (data : bytes) : Z :=
  Z.lxor u32_max
    (foldl (λ crc b,
        Z.lxor (table_at CRC32 (Z.land (Z.lxor crc b) 0xFF)) (Z.shiftr crc 8))
       u32_max data).

(** ** Keystream

    [buf.iter_mut().zip(adjusted.iter().cycle())]: [cur] is what is left of the
    current pass over [adjusted]. *)
Fixpoint keystream_loop (adjusted cur buf : bytes) (crc : Z) : bytes :=
  match buf with
  | [] => []
  | byte :: buf' =>
      match match cur with [] => adjusted | _ => cur end with
      | [] => byte :: buf'
      | a :: cur' =>
          let crc := table_at CRC8 (Z.lxor crc a) in
          Z.lxor byte crc :: keystream_loop adjusted cur' buf' crc
      end
  end.

Definition apply_keystream {E} (buf key : bytes) : result E bytes :=
  if decide (key = [] ∨ (MAX_KEY_LEN < length key)%nat) then Panic else
  let base := wrap 8 (Z.of_nat (length buf) + Z.of_nat (length key)) in
  let adjusted := (λ k, wrap 8 (k + base)) <$> key in
  Ok (keystream_loop adjusted adjusted buf 0).

(** ** Payloads *)
Definition looks_plain (buf : bytes) : bool :=
  match buf with
  | b0 :: b1 :: b2 :: b3 :: _ =>
      (1 <=? b0) && (b0 <=? 4) && (b1 =? 0) && (b2 =? 0) && (b3 =? 0)
  | _ => false
  end.

(** The exclusive bound on the random tail of a message of [len] bytes and
    type [msg_type] (0: no tail is drawn). *)
Definition dummy_bound (len ob : nat) (msg_type max_dummy : Z) : Z :=
  let room := DUMMY_LIMIT - Z.of_nat len in
  let room :=
    if (0 <? Z.of_nat ob) then
      let partial_room := Z.of_nat ob - Z.of_nat len + 1 in
      if partial_room <? room then wrap 16 partial_room else room
    else room in
  if (msg_type =? 1) || (msg_type =? 2) then Z.min room HANDSHAKE_DUMMY_LIMIT
  else if ((msg_type =? 3) || (msg_type =? 4)) && (0 <? max_dummy)
  then Z.min room max_dummy
  else 0.

(** The length of the tail. *)
Definition draw_dummy `{RandomSource R} (partial : bool) (len ob : nat)
    (msg_type max_dummy : Z) (rng : R) : Z * R :=
  if negb partial && (Z.of_nat len <? DUMMY_LIMIT) then
    let bound := dummy_bound len ob msg_type max_dummy in
    if 0 <? bound then gen_range_u16 0 (bound - 1) rng else (0, rng)
  else (0, rng).

(** [encode]: rewrites the message at [buf[start..]] in place and appends its
    tail.  The indexing [buf[start + 3]] panics on a shorter message. *)
Definition encode {E} `{RandomSource R} (buf : bytes) (start : nat) (key : bytes)
    (max_dummy obfuscate_bytes : Z) (rng : R) : result E (bytes * R) :=
  match drop start buf with
  | b0 :: b1 :: b2 :: b3 :: rest =>
      let len := (length buf - start)%nat in
      let ob := Z.to_nat obfuscate_bytes in
      let partial := bool_decide (0 < ob)%nat && bool_decide (ob < len)%nat in
      let msg_type := from_le [b0; b1; b2; b3] in
      let '(r, rng) := gen_range_u32 1 255 rng in
      let r := wrap 8 r in
      let '(dummy, rng) := draw_dummy partial len ob msg_type max_dummy rng in
      let '(tail, rng) :=
        if 0 <? dummy then fill_bytes (Z.to_nat dummy) rng else ([], rng) in
      let payload := Z.lxor b0 r :: r :: to_le 2 dummy ++ rest ++ tail in
      let masked := if partial then ob else length payload in
      x ← apply_keystream (take masked payload) key;
      Ok (take start buf ++ x ++ drop masked payload, rng)
  | _ => Panic
  end.

(** [decode]: the payload as it is left in the buffer, and the length of the
    message at its front. *)
Definition decode {E} (payload key : bytes) (obfuscate_bytes : Z)
    : result E (bytes * option nat) :=
  let len := length payload in
  if decide (len < 4)%nat then Ok (payload, None) else
  let ob := Z.to_nat obfuscate_bytes in
  let masked := if bool_decide (0 < ob)%nat && bool_decide (ob < len)%nat then ob else len in
  x ← apply_keystream (take masked payload) key;
  let payload := x ++ drop masked payload in
  if looks_plain payload then Ok (payload, Some len) else
  match payload with
  | b0 :: b1 :: b2 :: b3 :: rest =>
      let dummy := Z.to_nat (from_le [b2; b3]) in
      Ok (Z.lxor b0 b1 :: 0 :: 0 :: 0 :: rest,
          n ← checked_sub len dummy; if decide (4 ≤ n)%nat then Some n else None)
  | _ => Panic
  end.

(** ** The tables

    CRC-8/MAXIM and CRC-32/IEEE of the customary check string. *)
Example crc8_check :
  foldl (λ crc b, table_at CRC8 (Z.lxor crc b)) 0 (bs "123456789") = 0xA1.
Proof. vm_compute. reflexivity. Qed.
Example crc32_check : crc32 (bs "123456789") = 0xCBF43926.
Proof. vm_compute. reflexivity. Qed.

Lemma CRC8_ok : bytes_ok CRC8.
Proof. apply (bool_decide_unpack _). vm_compute. exact I. Qed.

Lemma table_at_CRC8_ok i : u8_ok (table_at CRC8 i).
Proof.
  unfold table_at. destruct (CRC8 !! Z.to_nat i) eqn:E; cbn; [|width_lia].
  by eapply Forall_lookup_1 in E; [|apply CRC8_ok].
Qed.

(** ** The keystream as documented

    [adj] and the recurrence for [c] of [docs/phobos.md]: [stream key n i] is
    [c] before step [i], so the mask byte at [i] is [stream key n (S i)]. *)
Definition adj (key : bytes) (n j : nat) : Z :=
  wrap 8 (default 0 (key !! j) + wrap 8 (Z.of_nat n + Z.of_nat (length key))).
Fixpoint stream (key : bytes) (n i : nat) : Z :=
  match i with
  | O => 0
  | S i' => table_at CRC8 (Z.lxor (stream key n i') (adj key n (i' mod length key)))
  end.
Definition mask (key : bytes) (n : nat) : bytes := (λ i, stream key n (S i)) <$> seq 0 n.
#[global] Arguments stream : simpl never.

Definition key_ok (key : bytes) : Prop := (1 ≤ length key ≤ MAX_KEY_LEN)%nat.
#[export] Instance key_ok_dec key : Decision (key_ok key).
Proof. unfold key_ok. apply _. Defined.

Lemma length_mask key n : length (mask key n) = n.
Proof. unfold mask. by rewrite length_fmap, length_seq. Qed.
Lemma bytes_ok_mask key n : bytes_ok (mask key n).
Proof. apply Forall_fmap, Forall_true. intros i. apply table_at_CRC8_ok. Qed.
#[export] Hint Resolve bytes_ok_mask : awg.
#[export] Hint Rewrite length_mask : len.

(** What is left of a pass over the key after [i] bytes. *)
Lemma cycle_left {A} (l : list A) i j :
  (0 < length l)%nat → (j = i mod length l ∨ j = length l ∧ i mod length l = 0)%nat →
  match drop j l with [] => l | _ => drop j l end = drop (i mod length l) l.
Proof.
  intros Hl [->|[-> ->]].
  - destruct (drop (i mod length l) l) eqn:E; [|done].
    apply (f_equal length) in E. rewrite length_drop in E. cbn in E.
    pose proof (Nat.mod_upper_bound i (length l)). lia.
  - by rewrite drop_all, drop_0.
Qed.

Lemma mod_succ i k :
  (0 < k)%nat → (S (i mod k) = S i mod k ∨ S (i mod k) = k ∧ S i mod k = 0)%nat.
Proof.
  intros Hk. pose proof (Nat.mod_upper_bound i k ltac:(lia)).
  rewrite <- (Nat.add_1_r i), <- Nat.Div0.add_mod_idemp_l, Nat.add_1_r.
  destruct (decide (S (i mod k) = k)) as [E|].
  - right. rewrite E. split; [done|]. apply Nat.Div0.mod_same.
  - left. symmetry. apply Nat.mod_small. lia.
Qed.

Section keystream.
Context (key : bytes) (Hkey : key_ok key) (n : nat).
Definition adjusted : bytes :=
  (λ k, wrap 8 (k + wrap 8 (Z.of_nat n + Z.of_nat (length key)))) <$> key.

Lemma length_adjusted : length adjusted = length key.
Proof. apply length_fmap. Qed.
Lemma adjusted_lookup j : (j < length key)%nat → adjusted !! j = Some (adj key n j).
Proof.
  intros Hj. unfold adjusted, adj. rewrite list_lookup_fmap.
  by destruct (lookup_lt_is_Some_2 key j Hj) as [x ->].
Qed.

Lemma keystream_loop_stream buf i j :
  (j = i mod length key ∨ j = length key ∧ i mod length key = 0)%nat →
  keystream_loop adjusted (drop j adjusted) buf (stream key n i)
  = xor_into buf ((λ i, stream key n (S i)) <$> seq i (length buf)).
Proof.
  destruct Hkey as [Hk _]. pose proof length_adjusted as La.
  revert i j. induction buf as [|b buf IH]; intros i j Hj; [done|].
  cbn [keystream_loop]. rewrite (cycle_left _ i) by (rewrite La; auto). rewrite La.
  pose proof (Nat.mod_upper_bound i (length key) ltac:(lia)) as Hi.
  rewrite (drop_S _ _ _ (adjusted_lookup _ Hi)).
  cbn [length seq fmap list_fmap]. rewrite xor_into_cons. f_equal.
  apply (IH (S i) (S (i mod length key))), mod_succ. lia.
Qed.
End keystream.

Lemma apply_keystream_stream {E} buf key :
  key_ok key → apply_keystream (E := E) buf key = Ok (xor_into buf (mask key (length buf))).
Proof.
  intros Hk. unfold apply_keystream. rewrite decide_False; cycle 1.
  { destruct Hk. intros [->|]; cbn in *; lia. }
  f_equal. apply (keystream_loop_stream key Hk (length buf) buf 0 0).
  left. symmetry. apply Nat.Div0.mod_0_l.
Qed.

(** ** Encoding and decoding

    The region a receiver unmasks in a payload of [n] bytes. *)
Definition region (ob n : nat) : nat :=
  if bool_decide (0 < ob)%nat && bool_decide (ob < n)%nat then ob else n.
Definition mask_region (key : bytes) (ob : nat) (p : bytes) : bytes :=
  let m := region ob (length p) in xor_into (take m p) (mask key m) ++ drop m p.

Lemma region_le ob n : (region ob n ≤ n)%nat.
Proof. unfold region. repeat case_bool_decide; cbn; lia. Qed.

Lemma length_mask_region key ob p : length (mask_region key ob p) = length p.
Proof. unfold mask_region. pose proof (region_le ob (length p)). len. lia. Qed.
#[export] Hint Rewrite length_mask_region : len.

Lemma bytes_ok_mask_region key ob p : bytes_ok p → bytes_ok (mask_region key ob p).
Proof. intros. apply bytes_ok_app. auto with awg. Qed.

Lemma apply_region {E} key ob p :
  key_ok key →
  (x ← apply_keystream (E := E) (take (region ob (length p)) p) key;
   Ok (x ++ drop (region ob (length p)) p)) = Ok (mask_region key ob p).
Proof.
  intros Hk. rewrite apply_keystream_stream by done. cbn. do 2 f_equal.
  unfold mask_region. do 2 f_equal. pose proof (region_le ob (length p)). len.
  f_equal. lia.
Qed.

Lemma mask_region_involutive key ob p : mask_region key ob (mask_region key ob p) = p.
Proof.
  unfold mask_region at 1. rewrite length_mask_region.
  set (m := region ob (length p)).
  assert (Hm : (m ≤ length p)%nat) by apply region_le.
  unfold mask_region. fold m.
  rewrite take_app_exact, drop_app_exact by (len; lia).
  by rewrite xor_into_involutive, take_drop.
Qed.

(** The bounds on a tail of [d] bytes. *)
Definition tail_ok (len ob : nat) (msg_type max_dummy d : Z) : Prop :=
  d = 0 ∨
  (0 ≤ d ∧ region ob len = len ∧ Z.of_nat len + d < DUMMY_LIMIT
   ∧ ((0 < ob)%nat → Z.of_nat len + d ≤ Z.of_nat ob)
   ∧ (((msg_type = 1 ∨ msg_type = 2) ∧ d < HANDSHAKE_DUMMY_LIMIT)
      ∨ ((msg_type = 3 ∨ msg_type = 4) ∧ d < max_dummy))).

Lemma dummy_bound_ok len ob msg_type max_dummy :
  let b := dummy_bound len ob msg_type max_dummy in
  (ob = 0 ∨ len ≤ ob)%nat → Z.of_nat len < DUMMY_LIMIT → 0 < b →
  b ≤ DUMMY_LIMIT - Z.of_nat len
  ∧ ((0 < ob)%nat → b ≤ Z.of_nat ob - Z.of_nat len + 1)
  ∧ (((msg_type = 1 ∨ msg_type = 2) ∧ b ≤ HANDSHAKE_DUMMY_LIMIT)
     ∨ ((msg_type = 3 ∨ msg_type = 4) ∧ b ≤ max_dummy)).
Proof.
  unfold dummy_bound, DUMMY_LIMIT, HANDSHAKE_DUMMY_LIMIT. cbv zeta. intros Hob Hlen.
  set (room := if 0 <? Z.of_nat ob then _ else _).
  assert (room ≤ 1024 - Z.of_nat len
          ∧ ((0 < ob)%nat → room ≤ Z.of_nat ob - Z.of_nat len + 1)) as [Hr1 Hr2].
  { unfold room. destruct (Z.ltb_spec 0 (Z.of_nat ob)); [|lia].
    destruct (Z.ltb_spec (Z.of_nat ob - Z.of_nat len + 1) (1024 - Z.of_nat len)); [|lia].
    rewrite wrap_small by width_lia. lia. }
  clearbody room.
  destruct (Z.eqb_spec msg_type 1), (Z.eqb_spec msg_type 2), (Z.eqb_spec msg_type 3),
    (Z.eqb_spec msg_type 4), (Z.ltb_spec 0 max_dummy); cbn; lia.
Qed.

Lemma region_full ob len :
  bool_decide (0 < ob)%nat && bool_decide (ob < len)%nat = false →
  (ob = 0 ∨ len ≤ ob)%nat ∧ region ob len = len.
Proof. unfold region. repeat case_bool_decide; cbn; intros; try done; lia. Qed.

Section encode.
Context `{RandomSource R}.

Lemma draw_dummy_inv partial len ob t md (g : R) :
  rng_ok g → rng_ok (draw_dummy partial len ob t md g).2.
Proof.
  intros. unfold draw_dummy. destruct (_ && _); [|done].
  cbv zeta. destruct (_ <? _); auto with awg.
Qed.

Lemma draw_dummy_ok len ob t md (g : R) :
  rng_ok g →
  tail_ok len ob t md
    (draw_dummy (bool_decide (0 < ob)%nat && bool_decide (ob < len)%nat) len ob t md g).1.
Proof.
  intros Hg. unfold draw_dummy.
  destruct (bool_decide _ && _) eqn:Hp; [by left|]. apply region_full in Hp as [Hob Hreg].
  cbn [negb andb]. destruct (Z.ltb_spec (Z.of_nat len) DUMMY_LIMIT); [|by left].
  cbv zeta. destruct (Z.ltb_spec 0 (dummy_bound len ob t md)) as [Hb|]; [|by left].
  right. pose proof (dummy_bound_ok len ob t md Hob) as (H1 & H2 & H3); [done..|].
  pose proof (gen_range_u16_in 0 (dummy_bound len ob t md - 1) g Hg) as Hd.
  unfold DUMMY_LIMIT in *. widths. lia.
Qed.

Lemma tail_ok_range len ob t md d : tail_ok len ob t md d → 0 ≤ d < DUMMY_LIMIT.
Proof. unfold tail_ok, DUMMY_LIMIT. lia. Qed.

(** The masked region is the one the receiver computes from the length it
    sees. *)
Lemma region_tail len ob t md d :
  tail_ok len ob t md d →
  (if bool_decide (0 < ob)%nat && bool_decide (ob < len)%nat then ob
   else (len + Z.to_nat d)%nat) = region ob (len + Z.to_nat d).
Proof.
  intros [->|(? & Hr & ? & Hob & _)].
  - cbn. rewrite Nat.add_0_r. done.
  - unfold region in *. repeat case_bool_decide; cbn in *; lia.
Qed.

Lemma encode_shape {E} pre b0 b1 b2 b3 rest key md ob (g : R) :
  rng_ok g → key_ok key →
  let len := length (b0 :: b1 :: b2 :: b3 :: rest) in
  ∃ r d tail g',
    encode (E := E) (pre ++ b0 :: b1 :: b2 :: b3 :: rest) (length pre) key md ob g
    = Ok (pre ++ mask_region key (Z.to_nat ob)
                   (Z.lxor b0 r :: r :: to_le 2 d ++ rest ++ tail), g')
    ∧ rng_ok g' ∧ 1 ≤ r ≤ 255 ∧ bytes_ok tail ∧ length tail = Z.to_nat d
    ∧ tail_ok len (Z.to_nat ob) (from_le [b0; b1; b2; b3]) md d.
Proof.
  intros Hg Hk len. unfold encode. rewrite drop_app_length. cbv zeta.
  rewrite length_app, Nat.add_comm, Nat.add_sub. fold len.
  pose proof (gen_range_u32_in 1 255 g Hg) as Hr.
  pose proof (gen_range_u32_inv 1 255 g Hg) as Hg1.
  destruct (gen_range_u32 1 255 g) as [r g1]. cbn [fst snd] in Hr, Hg1.
  rewrite wrap_small by width_lia.
  pose proof (draw_dummy_ok len (Z.to_nat ob) (from_le [b0; b1; b2; b3]) md g1 Hg1) as Hd.
  pose proof (draw_dummy_inv (bool_decide (0 < Z.to_nat ob)%nat
    && bool_decide (Z.to_nat ob < len)%nat) len (Z.to_nat ob)
    (from_le [b0; b1; b2; b3]) md g1 Hg1) as Hg2.
  destruct (draw_dummy _ _ _ _ _ _) as [d g2]. cbn [fst snd] in Hd, Hg2.
  pose proof (tail_ok_range _ _ _ _ _ Hd) as Hdr.
  assert (∃ tail g3, (if 0 <? d then fill_bytes (Z.to_nat d) g2 else ([], g2)) = (tail, g3)
    ∧ rng_ok g3 ∧ bytes_ok tail ∧ length tail = Z.to_nat d)
    as (tail & g3 & -> & Hg3 & Ht & Hlt).
  { destruct (Z.ltb_spec 0 d).
    - exists (fill_bytes (Z.to_nat d) g2).1, (fill_bytes (Z.to_nat d) g2).2.
      rewrite <- surjective_pairing. auto using fill_bytes_length, fill_bytes_ok with awg.
    - exists [], g2. split_and!; [done..|constructor|]. cbn. lia. }
  exists r, d, tail, g3. split; [|split_and!; try done; width_lia].
  set (p := Z.lxor b0 r :: r :: to_le 2 d ++ rest ++ tail).
  assert (Hp : length p = (len + Z.to_nat d)%nat) by (unfold p, len; cbn; len; cbn; lia).
  rewrite Hp, (region_tail _ _ _ _ _ Hd), <- Hp.
  rewrite take_app_length. pose proof (@apply_region E key (Z.to_nat ob) p Hk) as Ha.
  destruct (apply_keystream _ _) as [x| |]; cbn in Ha |- *; try done.
  apply Ok_inj in Ha. by rewrite Ha.
Qed.
End encode.

(** A plain WireGuard message: bytes 1 to 3 are zero. *)
Definition plain_wg (m : bytes) : bool :=
  match m with
  | _ :: b1 :: b2 :: b3 :: _ => (b1 =? 0) && (b2 =? 0) && (b3 =? 0)
  | _ => false
  end.
Lemma plain_wg_inv m : plain_wg m = true → ∃ t rest, m = t :: 0 :: 0 :: 0 :: rest.
Proof.
  destruct m as [|t [|b1 [|b2 [|b3 rest]]]]; cbn; try done.
  rewrite !andb_true_iff, !Z.eqb_eq. intros [[-> ->] ->]. eauto.
Qed.

Lemma decode_region {E} p key ob :
  key_ok key → (4 ≤ length p)%nat →
  decode (E := E) (mask_region key (Z.to_nat ob) p) key ob =
  if looks_plain p then Ok (p, Some (length p)) else
  match p with
  | b0 :: b1 :: b2 :: b3 :: rest =>
      Ok (Z.lxor b0 b1 :: 0 :: 0 :: 0 :: rest,
          n ← checked_sub (length p) (Z.to_nat (from_le [b2; b3]));
          if decide (4 ≤ n)%nat then Some n else None)
  | _ => Panic
  end.
Proof.
  intros Hk Hl. unfold decode. cbv zeta. rewrite length_mask_region.
  rewrite decide_False by lia. fold (region (Z.to_nat ob) (length p)).
  pose proof (@apply_region E key (Z.to_nat ob) (mask_region key (Z.to_nat ob) p) Hk) as Ha.
  rewrite length_mask_region, mask_region_involutive in Ha.
  destruct (apply_keystream _ _) as [x| |]; cbn in Ha |- *; try done.
  apply Ok_inj in Ha. by rewrite Ha.
Qed.

(** [decode] undoes the masking and the header rewrite of one encoded
    payload. *)
Lemma decode_encoded {E} t rest tail r d key ob :
  key_ok key → 1 ≤ r ≤ 255 → 0 ≤ d < DUMMY_LIMIT → length tail = Z.to_nat d →
  decode (E := E) (mask_region key (Z.to_nat ob)
    (Z.lxor t r :: r :: to_le 2 d ++ rest ++ tail)) key ob
  = Ok (t :: 0 :: 0 :: 0 :: rest ++ tail, Some (4 + length rest)%nat).
Proof.
  intros Hk Hr Hd Ht. pose proof (length_to_le 2 d) as Hl2.
  pose proof (from_to_le16 d) as Hf. unfold DUMMY_LIMIT in Hd.
  rewrite decode_region by (done || (cbn [length]; rewrite !length_app; lia)).
  destruct (to_le 2 d) as [|d0 [|d1 [|]]]; cbn in Hl2; try lia.
  cbn [app looks_plain]. replace (r =? 0) with false by lia.
  rewrite andb_false_r. cbn [andb]. rewrite Hf by width_lia. do 2 f_equal.
  - by rewrite lxor_cancel.
  - unfold checked_sub. cbn [length]. rewrite length_app, Ht.
    rewrite decide_True by lia. cbn. rewrite decide_True by lia. f_equal. lia.
Qed.

Lemma decode_total {E} p key ob :
  key_ok key → bytes_ok p →
  ∃ p' o, decode (E := E) p key ob = Ok (p', o) ∧ length p' = length p ∧ bytes_ok p'
    ∧ ∀ n, o = Some n → (4 ≤ n ≤ length p)%nat.
Proof.
  intros Hk Hp. destruct (decide (length p < 4)%nat) as [Hs|Hl].
  { exists p, None. unfold decode. by rewrite decide_True by done. }
  pose proof (mask_region_involutive key (Z.to_nat ob) p) as Hpq.
  pose proof (bytes_ok_mask_region key (Z.to_nat ob) p Hp) as Hq.
  pose proof (length_mask_region key (Z.to_nat ob) p) as Hlq.
  set (q := mask_region key (Z.to_nat ob) p) in *. clearbody q.
  pose proof (decode_region (E := E) q key ob Hk ltac:(lia)) as Hdec.
  rewrite Hpq in Hdec. rewrite Hdec. clear Hdec Hpq.
  destruct (looks_plain q).
  - exists q, (Some (length q)). split_and!; [done..|]. intros n [= <-]. lia.
  - destruct q as [|b0 [|b1 [|b2 [|b3 rest]]]]; cbn [length] in Hlq; try lia.
    eexists _, _. split_and!; [done|done| |].
    + unfold bytes_ok in *. rewrite !list.Forall_cons in Hq |- *.
      destruct Hq as (H0 & H1 & _ & _ & Hr). split_and!; [|width_lia..|done].
      by apply lxor_ok.
    + intros n. unfold checked_sub. case_decide; cbn; [|done].
      case_decide; [|done]. intros [= <-]. lia.
Qed.

(** ** The configuration *)
Definition config_typed (c : PhobosConfig) : Prop :=
  bytes_ok (pc_key c) ∧ u16_ok (pc_max_dummy c) ∧ u32_ok (pc_obfuscate_bytes c)
  ∧ u8_ok (mp_payload_type (pc_media c)) ∧ u32_ok (mp_ssrc (pc_media c))
  ∧ u16_ok (mp_timestamp_step (pc_media c)).
#[export] Instance config_typed_dec c : Decision (config_typed c).
Proof. unfold config_typed, u8_ok, u16_ok, u32_ok. apply _. Defined.

Lemma validate_key_iff key : validate_key key = Ok tt ↔ key_ok key.
Proof.
  unfold validate_key, key_ok, MAX_KEY_LEN. destruct key as [|b key].
  - split; [done|cbn [length]; lia].
  - rewrite decide_False by done. case_decide; cbn [length] in *; split; try done; lia.
Qed.

Lemma validate_iff c :
  PhobosConfig_validate c = Ok tt ↔
  key_ok (pc_key c) ∧ pc_max_dummy c ≤ DUMMY_LIMIT ∧ pc_obfuscate_bytes c ≤ i32_max
  ∧ mp_payload_type (pc_media c) ≤ 127.
Proof.
  unfold PhobosConfig_validate. rewrite <- validate_key_iff.
  destruct (validate_key (pc_key c)) as [[]|e|]; cbn; [|split; [done|naive_solver]..].
  destruct (Z.ltb_spec DUMMY_LIMIT (pc_max_dummy c)); [split; [done|lia]|].
  destruct (Z.ltb_spec i32_max (pc_obfuscate_bytes c)); [split; [done|lia]|].
  destruct (Z.ltb_spec 127 (mp_payload_type (pc_media c))); [split; [done|lia]|].
  naive_solver.
Qed.

Lemma parse_int_range name value min max v :
  parse_int name value min max = Ok v → min ≤ v ≤ max.
Proof.
  unfold parse_int. destruct (parse_i64 value) as [x| |]; [|done..].
  destruct (_ && _) eqn:E; [|done]. intros [= <-]. lia.
Qed.
Lemma parse_int_no_panic name value min max : parse_int name value min max ≠ Panic.
Proof.
  unfold parse_int. pose proof (parse_i64_no_panic value).
  destruct (parse_i64 value); [|done..]. by destruct (_ && _).
Qed.

Lemma map_err_no_panic {E F A} (f : E → F) (r : result E A) :
  is_panic r = false → map_err f r ≠ Panic.
Proof. by destruct r. Qed.

Lemma parse_ssrc_spec value :
  parse_ssrc value ≠ Panic ∧ ∀ v, parse_ssrc value = Ok v → u32_ok v.
Proof.
  unfold parse_ssrc. cbv zeta.
  match goal with |- context [map_err _ ?p] => set (parsed := p) end.
  assert (∃ radix s, 0 ≤ radix ∧ parsed = from_str_radix radix u32_max s)
    as (radix & s & Hr & ->).
  { unfold parsed, parse_u32. repeat case_match; eexists _, _; (split; [|done]); lia. }
  split; [apply map_err_no_panic, from_str_radix_no_panic|].
  intros v H%map_err_ok%from_str_radix_range; width_lia.
Qed.

Definition known_names : list bytes :=
  [bs "key"; bs "masking"; bs "max-dummy"; bs "obfuscate-bytes"; bs "media-pt";
   bs "media-ssrc"; bs "media-clock"].

Ltac known_name := apply (bool_decide_unpack _); vm_compute; exact I.

Lemma Masking_parse_no_panic value : Masking_parse value ≠ Panic.
Proof. unfold Masking_parse. by repeat case_decide. Qed.

(** A branch of [set]: a parsed value with range [P] updates one field. *)
Lemma set_field_runs {A} (r : result ConfigError A) (P : A → Prop)
    (upd : A → PhobosConfig → PhobosConfig) c (Q : bool → PhobosConfig → Prop) :
  r ≠ Panic → (∀ v, r = Ok v → P v) → (∀ v, P v → Q true (upd v c)) →
  runs (v ← lift r; modify (upd v);; mret true) c (λ c', c' = c) Q.
Proof.
  intros Hn HP HQ. apply runs_bind, runs_lift; [done..|].
  intros v Hv. apply runs_bind, runs_modify, runs_ret. auto.
Qed.

Lemma set_int_runs name value min max upd c (Q : bool → PhobosConfig → Prop) :
  (∀ v, min ≤ v ≤ max → Q true (upd v c)) →
  runs (v ← lift (parse_int name value min max); modify (upd v);; mret true) c
    (λ c', c' = c) Q.
Proof.
  intros HQ. eapply set_field_runs; [apply parse_int_no_panic| |exact HQ].
  intros v. apply parse_int_range.
Qed.

(** [PhobosConfig::set] keeps a configuration valid: from a configuration
    that passes [validate], applying any line never panics; an error leaves the
    configuration as it was; and on success the new one passes [validate] again
    with every field inside its type.  It returns [false], changing nothing,
    exactly for the names it does not know. *)
Lemma phobos_set_keeps_valid name value c :
  config_typed c → PhobosConfig_validate c = Ok tt → bytes_ok value →
  runs (PhobosConfig_set name value) c (λ c', c' = c)
    (λ known c', config_typed c' ∧ PhobosConfig_validate c' = Ok tt
       ∧ known = bool_decide (trim name ∈ known_names) ∧ (known = false → c' = c)).
Proof.
  intros Ht Hv%validate_iff Hb%Forall_trim.
  match goal with |- runs _ _ _ ?Q0 => set (Q := Q0) end.
  assert (∀ c', trim name ∈ known_names → config_typed c' →
    key_ok (pc_key c') ∧ pc_max_dummy c' ≤ DUMMY_LIMIT
    ∧ pc_obfuscate_bytes c' ≤ i32_max ∧ mp_payload_type (pc_media c') ≤ 127 →
    Q true c') as Hdone.
  { intros c' ? ? ?%validate_iff. split_and!; [done..| |done].
    symmetry. by apply bool_decide_true. }
  assert (trim name ∉ known_names → Q false c) as Hskip.
  { intros Hn. split_and!; [done|by apply validate_iff| |done].
    symmetry. by apply bool_decide_false. }
  clearbody Q. unfold PhobosConfig_set. cbv zeta.
  set (value' := trim value) in *. clearbody value'.
  destruct Ht as (T1 & T2 & T3 & T4 & T5 & T6), Hv as (V1 & V2 & V3 & V4).
  unfold config_typed, DUMMY_LIMIT, i32_max in *.
  repeat case_decide; [..|apply runs_ret, Hskip; unfold known_names; rewrite !not_elem_of_cons;
    split_and!; try done; apply not_elem_of_nil];
    match goal with Hname : trim name = _ |- _ =>
      specialize (λ c', Hdone c' ltac:(rewrite Hname; known_name)) end.
  - apply runs_bind, runs_bind, runs_lift; [done|unfold validate_key; by repeat case_decide|].
    intros [] Hkey%validate_key_iff. apply runs_modify, runs_ret, Hdone; done.
  - apply set_field_runs with (P := λ _, True); [apply Masking_parse_no_panic|done|].
    intros m _. by apply Hdone.
  - apply set_int_runs. intros v Hr. rewrite wrap_small by width_lia.
    apply Hdone; split_and!; cbn; try done; width_lia.
  - apply set_int_runs. intros v Hr. rewrite wrap_small by width_lia.
    apply Hdone; split_and!; cbn; try done; width_lia.
  - apply set_int_runs. intros v Hr. rewrite wrap_small by width_lia.
    apply Hdone; split_and!; cbn; try done; width_lia.
  - eapply set_field_runs; [apply parse_ssrc_spec..|].
    intros v Hr. by apply Hdone.
  - apply set_int_runs. intros v Hr. apply Hdone; [|done]. split_and!; cbn; try done.
    destruct (v =? 0); [width_lia|by apply wrap_range].
Qed.

Definition sample_phobos : PhobosConfig :=
  mkPhobosConfig (bs "phobos") MaskNone DEFAULT_MAX_DUMMY 0 MediaParams_default.

(** [media-clock = 1] asks for a step of 90000; the field is a [u16]. *)
Lemma media_clock_truncates c :
  PhobosConfig_set (bs "media-clock") (bs "1") c
  = (Ok true, with_media c (mkMediaParams (mp_payload_type (pc_media c))
                              (mp_ssrc (pc_media c)) 24464)).
Proof. vm_compute. reflexivity. Qed.

(** [apply_keystream] computes the documented keystream: byte [i] of the
    region is XORed with [c] after [i + 1] steps of the recurrence
    [c = table[c XOR adj[i mod k]]], where [adj] depends on the key and the
    region's length; and applying it again restores the region. *)
Lemma keystream_as_documented buf key :
  key_ok key →
  ∃ out, apply_keystream (E := ()) buf key = Ok out
    ∧ length out = length buf
    ∧ (∀ i b, buf !! i = Some b → out !! i = Some (Z.lxor b (stream key (length buf) (S i))))
    ∧ apply_keystream (E := ()) out key = Ok buf.
Proof.
  intros Hk. exists (xor_into buf (mask key (length buf))).
  rewrite !apply_keystream_stream by done. len.
  split_and!; [done..| |by rewrite xor_into_involutive].
  intros i b Hi. apply xor_into_lookup; [done|].
  apply lookup_lt_Some in Hi. unfold mask.
  by rewrite list_lookup_fmap, lookup_seq_lt.
Qed.

(** A payload survives the obfuscation: for any WireGuard message (at least
    4 bytes, bytes 1 to 3 zero), any valid key, any [max_dummy] and
    [obfuscate_bytes], [encode] does not panic, [decode] with the same key and
    [obfuscate_bytes] finds a message of the original length, and that message
    is the original, whatever random byte and tail were drawn.  The encoded
    payload is exactly as long as the message, or under 1024 bytes, in which
    case a non-zero [obfuscate_bytes] bounds it too. *)
Lemma payload_round_trip `{RandomSource R} (m key : bytes) (md ob : Z) (g : R) :
  rng_ok g → key_ok key → plain_wg m = true →
  ∃ buf g' payload,
    encode (E := ()) m 0 key md ob g = Ok (buf, g') ∧ rng_ok g'
    ∧ decode (E := ()) buf key ob = Ok (payload, Some (length m))
    ∧ take (length m) payload = m
    ∧ (length buf = length m
       ∨ Z.of_nat (length buf) < DUMMY_LIMIT
         ∧ (0 < ob → Z.of_nat (length buf) ≤ ob)).
Proof.
  intros Hg Hk (t & rest & ->)%plain_wg_inv.
  pose proof (encode_shape (E := ()) [] t 0 0 0 rest key md ob g Hg Hk)
    as (r & d & tail & g' & He & Hg' & Hr & Ht & Hlt & Hd). cbn [app length] in He.
  pose proof (tail_ok_range _ _ _ _ _ Hd).
  eexists _, g', _. split; [exact He|]. split; [done|].
  split; [by apply decode_encoded|]. split.
  - by apply (take_app_exact (t :: 0 :: 0 :: 0 :: rest) tail).
  - rewrite length_mask_region. cbn [length] in Hd |- *.
    rewrite !length_app, length_to_le, Hlt.
    destruct Hd as [->|(? & _ & ? & ? & _)]; lia.
Qed.
