(* ===== verification/PhobosCodec.v ===== *)
(** * PhobosCodec: STUN and RTP frames, and the codec object

    Models the second half of [awgtun/src/phobos/mod.rs]: the STUN frames
    ([write_stun_header], [finish_with_fingerprint], the Binding exchange,
    [handle_stun]), the RTP stream, and [PhobosCodec] with [wrap], [unwrap] and
    [binding_request].

    [unwrap] decodes inside the datagram buffer and returns a slice of it; here
    it returns the bytes of that slice. *)

From Stdlib Require Import ZArith Lia.
From stdpp Require Import base list option strings sets tactics.
From S2P Require Import Prelude Text Random Codec Amnezia Packet Ip Phobos.
Open Scope Z_scope.

(** ** Constants *)
Definition BINDING_REQUEST_LEN : nat := 28.
Definition BINDING_SUCCESS_LEN : nat := 40.
Definition STUN_COOKIE : bytes := [0x21; 0x12; 0xA4; 0x42].
Definition STUN_BINDING_REQUEST : Z := 0x0001.
Definition STUN_BINDING_SUCCESS : Z := 0x0101.
Definition STUN_DATA_INDICATION : Z := 0x0115.
Definition STUN_ATTR_XOR_MAPPED_ADDRESS : Z := 0x0020.
Definition STUN_ATTR_FINGERPRINT : Z := 0x8028.
Definition STUN_ATTR_DATA : Z := 0x0013.
Definition STUN_FINGERPRINT_XOR : Z := 0x5354554E.
Definition WG_HANDSHAKE_INITIATION : Z := 1.

Definition MEDIA_PRESETS : list (Z * Z) :=
  [(96, 3000); (96, 3600); (96, 3750); (96, 1500); (96, 6000);
   (97, 3000); (97, 3600); (97, 4500); (97, 9000); (97, 18000);
   (98, 3000); (98, 3600); (98, 3750); (98, 1500); (98, 6000);
   (99, 3000); (99, 3600); (100, 3000); (100, 1500); (100, 3750);
   (102, 3000); (102, 1500); (102, 3600); (104, 3000); (104, 1500);
   (106, 3000); (106, 3750); (108, 3000); (108, 1500); (110, 3000);
   (112, 3000); (112, 3600); (114, 3000); (114, 1500); (116, 3000);
   (118, 3000); (119, 3000); (120, 3000); (122, 3000); (123, 3000);
   (124, 3000); (125, 3000); (125, 1500); (126, 3000); (127, 3000);
   (127, 1500); (127, 3750); (96, 1502); (96, 3003); (97, 3753)].

(** [l[i]]: panics out of range. *)
Definition index {E A} (l : list A) (i : nat) : result E A := ok_or_panic (l !! i).

(** ** STUN *)
Definition write_stun_header {E} (out : bytes) (msg_type msg_len : Z) (txid : bytes)
    : result E bytes :=
  out ← write_at out 0 (to_be 2 msg_type);
  out ← write_at out 2 (to_be 2 msg_len);
  out ← write_at out 4 STUN_COOKIE;
  write_at out 8 txid.

Definition finish_with_fingerprint {E} (packet : bytes) (at_ : nat) : result E bytes :=
  packet ← write_at packet 2 [0; 0];
  head ← slice_chk packet 0 at_;
  let fp := Z.lxor (crc32 head) STUN_FINGERPRINT_XOR in
  packet ← write_at packet at_ (to_be 2 STUN_ATTR_FINGERPRINT);
  packet ← write_at packet (at_ + 2) (to_be 2 4);
  packet ← write_at packet (at_ + 4) (to_be 4 fp);
  let msg_len := wrap 16 (Z.of_nat at_ + 8 - Z.of_nat STUN_HEADER_LEN) in
  write_at packet 2 (to_be 2 msg_len).

Definition build_binding_request {E} (txid : bytes) : result E bytes :=
  let out := replicate BINDING_REQUEST_LEN 0 in
  out ← write_stun_header out STUN_BINDING_REQUEST 0 txid;
  finish_with_fingerprint out STUN_HEADER_LEN.

Definition build_binding_success {E} (txid : bytes) (source : SocketAddr)
    : result E (option bytes) :=
  match match source with
        | SockV4 ip _ => Some ip
        | SockV6 ip _ _ _ => to_ipv4_mapped ip
        end with
  | None => Ok None
  | Some ip =>
      let out := replicate BINDING_SUCCESS_LEN 0 in
      out ← write_stun_header out STUN_BINDING_SUCCESS 0 txid;
      out ← write_at out 20 (to_be 2 STUN_ATTR_XOR_MAPPED_ADDRESS);
      out ← write_at out 22 (to_be 2 8);
      out ← write_at out 24 [0];
      out ← write_at out 25 [0x01];
      out ← write_at out 26 (xor_into (to_be 2 (sock_port source)) STUN_COOKIE);
      out ← write_at out 28 (xor_into ip STUN_COOKIE);
      out ← finish_with_fingerprint out 32;
      Ok (Some out)
  end.

Inductive StunOutcome :=
  | StunData (len : nat)
  | StunReply (reply : bytes)
  | StunDrop.

Definition handle_stun {E} (datagram : bytes) (source : SocketAddr) : result E StunOutcome :=
  let n := length datagram in
  b0 ← index datagram 0;
  b1 ← index datagram 1;
  let kind := from_be [b0; b1] in
  if kind =? STUN_BINDING_REQUEST then
    if decide (n < STUN_HEADER_LEN)%nat then Ok StunDrop else
    txid ← slice_chk datagram 8 20;
    reply ← build_binding_success txid source;
    Ok match reply with Some r => StunReply r | None => StunDrop end
  else if kind =? STUN_DATA_INDICATION then
    if decide (n < STUN_DATA_HEADER_LEN)%nat then Ok StunDrop else
    ml ← slice_chk datagram 2 4;
    at_ ← slice_chk datagram 20 22;
    dl ← slice_chk datagram 22 24;
    let msg_len := Z.to_nat (from_be ml) in
    let attr := from_be at_ in
    let data_len := Z.to_nat (from_be dl) in
    if bool_decide (n < msg_len + STUN_HEADER_LEN)%nat || negb (attr =? STUN_ATTR_DATA)
       || bool_decide (n < data_len + STUN_DATA_HEADER_LEN)%nat
    then Ok StunDrop
    else Ok (StunData data_len)
  else Ok StunDrop.

Definition has_stun_cookie (datagram : bytes) : bool :=
  bool_decide (8 ≤ length datagram)%nat && bool_decide (slice datagram 4 8 = STUN_COOKIE).

(** ** RTP *)
Record RtpStream := mkRtpStream {
  rtp_sequence : Z;
  rtp_timestamp : Z;
  rtp_ssrc : Z;
  rtp_timestamp_step : Z;
  rtp_payload_type : Z
}.

Definition RtpStream_new `{RandomSource R} (params : MediaParams) (rng : R) : RtpStream * R :=
  let '(sequence, rng) := gen_range_u16 0 u16_max rng in
  let '(timestamp, rng) := gen_range_u32 0 u32_max rng in
  let '(ssrc, rng) :=
    if mp_ssrc params =? 0 then gen_range_u32 1 u32_max rng else (mp_ssrc params, rng) in
  let '(i, rng) := gen_range_u32 0 (Z.of_nat (length MEDIA_PRESETS) - 1) rng in
  let '(preset_pt, preset_step) := default (0, 0) (MEDIA_PRESETS !! Z.to_nat i) in
  (mkRtpStream sequence timestamp ssrc
     (if mp_timestamp_step params =? 0 then preset_step else mp_timestamp_step params)
     (if mp_payload_type params =? 0 then preset_pt else mp_payload_type params),
   rng).

Definition RtpStream_write_header {E} (s : RtpStream) (out : bytes)
    : result E (bytes * RtpStream) :=
  out ← write_at out 0 [0x80];
  out ← write_at out 1 [Z.lor 0x80 (Z.land (rtp_payload_type s) 0x7F)];
  out ← write_at out 2 (to_be 2 (rtp_sequence s));
  out ← write_at out 4 (to_be 4 (rtp_timestamp s));
  out ← write_at out 8 (to_be 4 (rtp_ssrc s));
  Ok (out, mkRtpStream (wrap 16 (rtp_sequence s + 1))
             (wrap 32 (rtp_timestamp s + rtp_timestamp_step s))
             (rtp_ssrc s) (rtp_timestamp_step s) (rtp_payload_type s)).

(** ** The codec *)
Inductive WrapError := TooShort | TooLong.
Inductive Unwrapped :=
  | WireGuard (m : bytes)
  | Reply (r : bytes)
  | Drop.

Record PhobosCodec (R : Type) := mkPhobosCodec {
  cd_config : PhobosConfig;
  cd_obfuscate_bytes : Z;
  cd_rng : R;
  cd_rtp : option RtpStream
}.
Arguments mkPhobosCodec {R}.
Arguments cd_config {R}.
Arguments cd_obfuscate_bytes {R}.
Arguments cd_rng {R}.
Arguments cd_rtp {R}.

Section codec.
Context `{RandomSource R}.
Abbreviation PhobosCodec := (@PhobosCodec R).

Definition PhobosCodec_with_rng (config : PhobosConfig) (rng : R)
    : result ConfigError PhobosCodec :=
  _ ← PhobosConfig_validate config;
  Ok (mkPhobosCodec config (effective_obfuscate_bytes config) rng None).

Definition PhobosCodec_control_interval (c : PhobosCodec) : option Z :=
  Masking_control_interval (pc_masking (cd_config c)).

Definition with_cd_rng (c : PhobosCodec) (g : R) : PhobosCodec :=
  mkPhobosCodec (cd_config c) (cd_obfuscate_bytes c) g (cd_rtp c).
Definition with_cd_rtp (c : PhobosCodec) (s : RtpStream) : PhobosCodec :=
  mkPhobosCodec (cd_config c) (cd_obfuscate_bytes c) (cd_rng c) (Some s).

Definition PhobosCodec_binding_request {E} : ST PhobosCodec E bytes := λ c,
  let '(txid, rng) := fill_bytes 12 (cd_rng c) in
  (build_binding_request txid, with_cd_rng c rng).

(** The frame in front of an encoded payload: the [match masking] that ends
    [wrap]. *)
Definition write_frame {E} (header : nat) (out : bytes) : ST PhobosCodec E bytes := λ c,
  let payload_len := (length out - header)%nat in
  match pc_masking (cd_config c) with
  | MaskNone => (Ok out, c)
  | MaskStun =>
      let '(txid, rng) := fill_bytes 12 (cd_rng c) in
      (out ← write_stun_header out STUN_DATA_INDICATION 0 txid;
       out ← write_at out 20 (to_be 2 STUN_ATTR_DATA);
       write_at out 22 (to_be 2 (wrap 16 (Z.of_nat payload_len))),
       with_cd_rng c rng)
  | MaskMedia =>
      let '(s, rng) :=
        match cd_rtp c with
        | Some s => (s, cd_rng c)
        | None => RtpStream_new (pc_media (cd_config c)) (cd_rng c)
        end in
      match RtpStream_write_header s out with
      | Ok (out, s') => (Ok out, with_cd_rtp (with_cd_rng c rng) s')
      | Err e => (Err e, with_cd_rtp (with_cd_rng c rng) s)
      | Panic => (Panic, with_cd_rtp (with_cd_rng c rng) s)
      end
  end.

(** [wrap]: the state is the codec; the value is the Binding Request to send
    first, if any, and the new contents of [out], which an error leaves
    alone. *)
Definition PhobosCodec_wrap (datagram : bytes) : ST PhobosCodec WrapError (option bytes * bytes) :=
  if decide (length datagram < 4)%nat then throw TooShort else
  masking ← gets (λ c, pc_masking (cd_config c));
  let header := Masking_overhead masking in
  if match Masking_max_message_len masking with
     | Some max => bool_decide (max < length datagram)%nat
     | None => false
     end
  then throw TooLong else
  let is_initiation := from_le (take 4 datagram) =? WG_HANDSHAKE_INITIATION in
  preamble ←
    (if is_initiation && bool_decide (is_Some (Masking_control_interval masking))
     then b ← PhobosCodec_binding_request; mret (Some b)
     else mret None);
  let out := replicate header 0 ++ datagram in
  out ← (λ c,
    match encode out header (pc_key (cd_config c)) (pc_max_dummy (cd_config c))
            (cd_obfuscate_bytes c) (cd_rng c) with
    | Ok (out, rng) => (Ok out, with_cd_rng c rng)
    | Err e => (Err e, c)
    | Panic => (Panic, c)
    end);
  out ← write_frame header out;
  mret (preamble, out).

(** Where the payload is in a datagram, or what to answer instead. *)
Definition deframe {E} (c : PhobosCodec) (datagram : bytes) (source : SocketAddr)
    : result E (Unwrapped + nat * nat) :=
  let n := length datagram in
  let stun :=
    o ← handle_stun datagram source;
    Ok match o with
       | StunData len => inr (STUN_DATA_HEADER_LEN, len)
       | StunReply reply => inl (Reply reply)
       | StunDrop => inl Drop
       end in
  match pc_masking (cd_config c) with
  | MaskNone => Ok (inr (0%nat, n))
  | MaskStun => if has_stun_cookie datagram then stun else Ok (inl Drop)
  | MaskMedia =>
      if has_stun_cookie datagram then stun else
      let media := pc_media (cd_config c) in
      if decide (n < RTP_HEADER_LEN + 4)%nat then Ok (inl Drop) else
      b0 ← index datagram 0;
      b1 ← index datagram 1;
      ssrc ← slice_chk datagram 8 12;
      if negb (Z.land b0 0xC0 =? 0x80)
         || (negb (mp_payload_type media =? 0)
             && negb (Z.land b1 0x7F =? mp_payload_type media))
         || (negb (mp_ssrc media =? 0)
             && bool_decide (ssrc ≠ to_be 4 (mp_ssrc media)))
      then Ok (inl Drop)
      else Ok (inr (RTP_HEADER_LEN, (n - RTP_HEADER_LEN)%nat))
  end.

Definition PhobosCodec_unwrap {E} (c : PhobosCodec) (datagram : bytes) (source : SocketAddr)
    : result E Unwrapped :=
  if bool_decide (length datagram < 4)%nat || looks_plain datagram then Ok Drop else
  d ← deframe c datagram source;
  match d with
  | inl u => Ok u
  | inr (offset, len) =>
      if decide (len < 4)%nat then Ok Drop else
      payload ← slice_chk datagram offset (offset + len);
      '(payload, m) ← decode payload (pc_key (cd_config c)) (cd_obfuscate_bytes c);
      Ok match m with
         | Some m => WireGuard (take m payload)
         | None => Drop
         end
  end.
End codec.

(** ** Reference vectors

    Binding Success Responses and decoded payloads of
    [awgtun/src/phobos/test_vectors.rs]. *)
Definition unhex (s : string) : bytes := default [] (HexDecode.decode (bs s)).

Example binding_success_vector :
  build_binding_success (E := ()) (unhex "54474dcb862aae68a083d6a5")
    (SockV4 [127; 0; 0; 1] 51820)
  = Ok (Some (unhex "010100142112a44254474dcb862aae68a083d6a5002000080001eb7e5e12a4438028000403a1e129")).
Proof. vm_compute. reflexivity. Qed.

Example decode_vector_partial :
  (x ← decode (E := ()) (unhex "30016a2192a970d441a01223891667f712034062dfc3063a7a6862b0fef10529")
         (bs "phobos") 16; Ok (default [] ((λ n, take n x.1) <$> x.2)))
  = Ok (unhex "020000005c6cd4fd4d392c92b4b21ac812034062dfc3063a7a6862b0fef10529").
Proof. vm_compute. reflexivity. Qed.

Example decode_vector_full :
  (x ← decode (E := ()) (unhex "65d571e8d76516a55260138f8a0e8d899627ba50abf4f48d3c5299831b779b62b3b6f6")
         (bs "phobos") 0; Ok (default [] ((λ n, take n x.1) <$> x.2)))
  = Ok (unhex "030000002f61faa0be86f457921ec37c0e460cf0d703d07dc5f5661a45013340").
Proof. vm_compute. reflexivity. Qed.

(** ** Frames in closed form *)
Definition stun_header (msg_type msg_len : Z) (txid : bytes) : bytes :=
  to_be 2 msg_type ++ to_be 2 msg_len ++ STUN_COOKIE ++ txid.
Definition fingerprint (head : bytes) : bytes :=
  to_be 2 STUN_ATTR_FINGERPRINT ++ to_be 2 4
  ++ to_be 4 (Z.lxor (crc32 head) STUN_FINGERPRINT_XOR).

Lemma length_stun_header t l txid : length txid = 12%nat → length (stun_header t l txid) = 20%nat.
Proof. intros. unfold stun_header. len. cbn. lia. Qed.
Lemma length_fingerprint head : length (fingerprint head) = 8%nat.
Proof. unfold fingerprint. by len. Qed.

Lemma write_stun_header_eq {E} out t l txid :
  (20 ≤ length out)%nat → length txid = 12%nat →
  write_stun_header (E := E) out t l txid = Ok (stun_header t l txid ++ drop 20 out).
Proof.
  intros Ho Ht. unfold write_stun_header.
  rewrite (write_at_next [] out) by (len; lia). cbn [mbind result_bind app].
  rewrite write_at_next by (len; lia). cbn [mbind result_bind].
  rewrite write_at_next by (len; cbn; lia). cbn [mbind result_bind].
  rewrite write_at_next by (len; cbn; lia).
  rewrite !drop_drop, Ht. len. unfold stun_header. by rewrite <- !app_assoc.
Qed.

(** The fingerprint covers the packet with its length field zeroed. *)
Lemma finish_with_fingerprint_eq {E} ty ln body old :
  length ty = 2%nat → length ln = 2%nat → length old = 8%nat →
  finish_with_fingerprint (E := E) (ty ++ ln ++ body ++ old) (4 + length body)
  = Ok (ty ++ to_be 2 (wrap 16 (Z.of_nat (4 + length body) + 8 - 20)) ++ body
        ++ fingerprint (ty ++ [0; 0] ++ body)).
Proof.
  intros Hty Hln Hold. unfold finish_with_fingerprint.
  rewrite (write_at_app ty ln) by done. cbn [mbind result_bind].
  replace (slice_chk (ty ++ [0; 0] ++ body ++ old) 0 (4 + length body))
    with (@Ok E _ (ty ++ [0; 0] ++ body)); cycle 1.
  { unfold slice_chk. rewrite decide_True by (len; lia). f_equal.
    replace (ty ++ [0; 0] ++ body ++ old) with ([] ++ (ty ++ [0; 0] ++ body) ++ old)
      by (cbn [app]; by rewrite <- !app_assoc).
    symmetry. apply slice_app_mid; [done|]. len. lia. }
  cbn [mbind result_bind].
  replace (ty ++ [0; 0] ++ body ++ old) with ((ty ++ [0; 0] ++ body) ++ old)
    by (by rewrite <- !app_assoc).
  rewrite write_at_next by (len; lia). cbn [mbind result_bind].
  rewrite write_at_next by (len; lia). cbn [mbind result_bind].
  rewrite write_at_next by (len; lia). cbn [mbind result_bind].
  rewrite !drop_drop. len. rewrite (drop_ge old) by lia. rewrite app_nil_r.
  rewrite <- !app_assoc. rewrite (write_at_app ty [0; 0]) by (len; done). done.
Qed.

Lemma build_binding_request_eq {E} txid :
  length txid = 12%nat →
  build_binding_request (E := E) txid
  = Ok (stun_header STUN_BINDING_REQUEST 8 txid
        ++ fingerprint (stun_header STUN_BINDING_REQUEST 0 txid)).
Proof.
  intros Ht. unfold build_binding_request.
  rewrite write_stun_header_eq by (cbn; lia || done). cbn [mbind result_bind].
  unfold stun_header at 1.
  pose proof (@finish_with_fingerprint_eq E (to_be 2 STUN_BINDING_REQUEST) (to_be 2 0)
    (STUN_COOKIE ++ txid) (drop 20 (replicate BINDING_REQUEST_LEN 0))) as Hf.
  rewrite length_app, Ht in Hf. cbn [length STUN_COOKIE Nat.add] in Hf.
  rewrite <- !app_assoc in Hf. rewrite <- !app_assoc. unfold STUN_HEADER_LEN.
  rewrite Hf by done.
  unfold stun_header. by rewrite <- !app_assoc.
Qed.

(** The Binding Success Response to [txid] for the IPv4 address [ip]. *)
Definition success_body (txid ip : bytes) (port : Z) : bytes :=
  STUN_COOKIE ++ txid ++ to_be 2 STUN_ATTR_XOR_MAPPED_ADDRESS ++ to_be 2 8 ++ [0; 1]
  ++ xor_into (to_be 2 port) STUN_COOKIE ++ xor_into ip STUN_COOKIE.
Definition binding_success (txid ip : bytes) (port : Z) : bytes :=
  to_be 2 STUN_BINDING_SUCCESS ++ to_be 2 20 ++ success_body txid ip port
  ++ fingerprint (to_be 2 STUN_BINDING_SUCCESS ++ [0; 0] ++ success_body txid ip port).

Definition sock_ipv4 (s : SocketAddr) : option bytes :=
  match s with SockV4 ip _ => Some ip | SockV6 ip _ _ _ => to_ipv4_mapped ip end.

Lemma sock_ipv4_length s ip : sock_ok s → sock_ipv4 s = Some ip → length ip = 4%nat.
Proof.
  intros [_ Hs]. destruct s as [a p|a p fl sc]; cbn in *; destruct Hs as [Hl _].
  { by intros [= <-]. }
  unfold to_ipv4_mapped. case_decide; [|done]. intros [= <-]. len. lia.
Qed.

Lemma length_success_body txid ip port :
  length txid = 12%nat → length ip = 4%nat → length (success_body txid ip port) = 28%nat.
Proof. intros. unfold success_body. len. cbn. lia. Qed.

Lemma build_binding_success_eq {E} txid source :
  length txid = 12%nat → sock_ok source →
  build_binding_success (E := E) txid source
  = Ok ((λ ip, binding_success txid ip (sock_port source)) <$> sock_ipv4 source).
Proof.
  intros Ht Hs. unfold build_binding_success. fold (sock_ipv4 source).
  destruct (sock_ipv4 source) as [ip|] eqn:Hip; [|done].
  apply sock_ipv4_length in Hip; [|done].
  rewrite write_stun_header_eq by (done || (cbn; lia)). cbn [mbind result_bind].
  pose proof (length_stun_header STUN_BINDING_SUCCESS 0 txid Ht).
  change (drop 20 (replicate BINDING_SUCCESS_LEN 0)) with (replicate 20 0).
  do 6 (rewrite write_at_next by (len; cbn; lia); cbn [mbind result_bind]).
  rewrite !drop_drop. len. rewrite Hip. cbn [Nat.add drop replicate].
  pose proof (@finish_with_fingerprint_eq E (to_be 2 STUN_BINDING_SUCCESS) (to_be 2 0)
    (success_body txid ip (sock_port source)) (replicate 8 0)) as Hf.
  rewrite length_success_body in Hf by done. unfold stun_header, success_body in *.
  rewrite <- !app_assoc in Hf. rewrite <- !app_assoc. cbn [app] in Hf |- *.
  cbn [Nat.add replicate] in Hf. rewrite Hf by done. cbn [mbind result_bind].
  unfold binding_success, success_body. cbn [fmap option_fmap option_map].
  rewrite <- ?app_assoc. reflexivity.
Qed.

Lemma slice_chk_mid {E A} (l k r : list A) i j :
  i = length l → j = (length l + length k)%nat → slice_chk (E := E) (l ++ k ++ r) i j = Ok k.
Proof.
  intros Hi Hj. unfold slice_chk. rewrite decide_True by (len; lia).
  by rewrite slice_app_mid.
Qed.

(** ** Receiving a STUN frame *)
Section stun.
Context (ty l : Z) (txid rest : bytes) (Hty : u16_ok ty) (Htx : length txid = 12%nat).
Definition frame : bytes := stun_header ty l txid ++ rest.

Lemma frame_length : length frame = (20 + length rest)%nat.
Proof. unfold frame. rewrite length_app, length_stun_header by done. done. Qed.

Lemma frame_cookie : has_stun_cookie frame = true.
Proof.
  unfold has_stun_cookie. rewrite frame_length, bool_decide_true by lia.
  apply bool_decide_true. unfold frame, stun_header.
  replace ((to_be 2 ty ++ to_be 2 l ++ STUN_COOKIE ++ txid) ++ rest)
    with ((to_be 2 ty ++ to_be 2 l) ++ STUN_COOKIE ++ (txid ++ rest)) by (by rewrite <- !app_assoc).
  apply slice_app_mid; len; cbn; lia.
Qed.

Lemma frame_kind {E} :
  ∃ b0 b1, index (E := E) frame 0 = Ok b0 ∧ index (E := E) frame 1 = Ok b1
    ∧ from_be [b0; b1] = ty.
Proof.
  pose proof (from_to_be16 ty Hty) as Hf. pose proof (length_to_be 2 ty) as Hl.
  unfold frame, stun_header. destruct (to_be 2 ty) as [|b0 [|b1 [|]]]; cbn in Hl; try lia.
  by exists b0, b1.
Qed.

Lemma frame_txid {E} : slice_chk (E := E) frame 8 20 = Ok txid.
Proof.
  unfold frame, stun_header.
  replace ((to_be 2 ty ++ to_be 2 l ++ STUN_COOKIE ++ txid) ++ rest)
    with ((to_be 2 ty ++ to_be 2 l ++ STUN_COOKIE) ++ txid ++ rest) by (by rewrite <- !app_assoc).
  apply slice_chk_mid; len; cbn; lia.
Qed.

Lemma frame_msg_len {E} : slice_chk (E := E) frame 2 4 = Ok (to_be 2 l).
Proof.
  unfold frame, stun_header. rewrite <- !app_assoc. apply slice_chk_mid; by len.
Qed.
End stun.

Lemma handle_stun_request {E} l txid rest source :
  length txid = 12%nat → sock_ok source →
  handle_stun (E := E) (frame STUN_BINDING_REQUEST l txid rest) source
  = Ok match sock_ipv4 source with
       | Some ip => StunReply (binding_success txid ip (sock_port source))
       | None => StunDrop
       end.
Proof.
  intros Ht Hs. unfold handle_stun.
  destruct (frame_kind (E := E) STUN_BINDING_REQUEST l txid rest ltac:(by vm_compute) Ht)
    as (b0 & b1 & -> & -> & Hk).
  cbn [mbind result_bind]. rewrite Hk. cbn [Z.eqb STUN_BINDING_REQUEST Pos.eqb]. rewrite frame_length by done.
  rewrite decide_False by (unfold STUN_HEADER_LEN; lia).
  rewrite frame_txid by done. cbn [mbind result_bind].
  rewrite build_binding_success_eq by done. cbn [mbind result_bind].
  by destruct (sock_ipv4 source).
Qed.

(** A Data Indication as [wrap] writes it. *)
Lemma handle_stun_data {E} txid payload source :
  length txid = 12%nat → Z.of_nat (length payload) ≤ u16_max →
  handle_stun (E := E) (frame STUN_DATA_INDICATION 0 txid
    (to_be 2 STUN_ATTR_DATA ++ to_be 2 (Z.of_nat (length payload)) ++ payload)) source
  = Ok (StunData (length payload)).
Proof.
  intros Ht Hp. unfold handle_stun.
  destruct (frame_kind (E := E) STUN_DATA_INDICATION 0 txid (to_be 2 STUN_ATTR_DATA
    ++ to_be 2 (Z.of_nat (length payload)) ++ payload) ltac:(by vm_compute) Ht)
    as (b0 & b1 & -> & -> & Hk).
  cbn [mbind result_bind]. rewrite Hk. cbn [Z.eqb STUN_BINDING_REQUEST STUN_DATA_INDICATION Pos.eqb].
  rewrite frame_length by done. unfold STUN_DATA_HEADER_LEN, STUN_HEADER_LEN.
  rewrite decide_False by (len; lia). rewrite frame_msg_len. cbn [mbind result_bind].
  unfold frame.
  rewrite (slice_chk_mid _ (to_be 2 STUN_ATTR_DATA) _ 20 22) by
    (rewrite ?length_stun_header by done; len; lia). cbn [mbind result_bind].
  rewrite (app_assoc _ (to_be 2 STUN_ATTR_DATA)).
  rewrite (slice_chk_mid _ (to_be 2 (Z.of_nat (length payload))) _ 22 24) by
    (rewrite ?length_app, ?length_stun_header by done; len; lia). cbn [mbind result_bind].
  rewrite !from_to_be16 by (unfold STUN_ATTR_DATA; width_lia). rewrite Nat2Z.id.
  rewrite !bool_decide_false by (len; lia). done.
Qed.

Lemma slice_chk_ok {E A} (l : list A) i j :
  (i ≤ j ≤ length l)%nat → slice_chk (E := E) l i j = Ok (slice l i j).
Proof. intros. unfold slice_chk. by rewrite decide_True by lia. Qed.

Lemma length_binding_success txid ip port :
  length txid = 12%nat → length ip = 4%nat →
  length (binding_success txid ip port) = BINDING_SUCCESS_LEN.
Proof.
  intros. unfold binding_success. len.
  by rewrite length_success_body, length_fingerprint.
Qed.

(** Whatever the datagram, [handle_stun] returns; data it announces is inside
    the datagram. *)
Lemma handle_stun_total {E} datagram source :
  (8 ≤ length datagram)%nat → sock_ok source →
  ∃ o, handle_stun (E := E) datagram source = Ok o
    ∧ (∀ n, o = StunData n → (STUN_DATA_HEADER_LEN + n ≤ length datagram)%nat)
    ∧ (∀ r, o = StunReply r → length r = BINDING_SUCCESS_LEN).
Proof.
  intros Hl Hs. unfold handle_stun, index. cbv zeta.
  destruct datagram as [|b0 [|b1 rest]]; cbn [length] in Hl; try lia.
  set (d := b0 :: b1 :: rest) in *. change (d !! 0%nat) with (Some b0).
  change (d !! 1%nat) with (Some b1). cbn [ok_or_panic mbind result_bind].
  clearbody d. unfold STUN_HEADER_LEN, STUN_DATA_HEADER_LEN.
  destruct (_ =? STUN_BINDING_REQUEST); [|destruct (_ =? STUN_DATA_INDICATION)].
  - case_decide; [by exists StunDrop|].
    rewrite slice_chk_ok by lia. cbn [mbind result_bind].
    rewrite build_binding_success_eq by (done || (rewrite length_slice; lia)).
    cbn [mbind result_bind]. eexists. split; [done|].
    destruct (sock_ipv4 source) as [ip|] eqn:Hip; cbn; split; intros ? [= <-].
    apply length_binding_success; [rewrite length_slice; lia|].
    by eapply sock_ipv4_length.
  - case_decide; [by exists StunDrop|].
    rewrite !slice_chk_ok by lia. cbn [mbind result_bind].
    destruct (_ || _) eqn:Hbad; [by exists StunDrop|]. eexists. split; [done|].
    split; [|done]. intros n [= <-].
    apply orb_false_iff in Hbad as [_ Hbad]. apply bool_decide_eq_false in Hbad. lia.
  - by exists StunDrop.
Qed.

(** ** RTP streams *)
Definition rtp_header (s : RtpStream) : bytes :=
  [0x80; Z.lor 0x80 (Z.land (rtp_payload_type s) 0x7F)] ++ to_be 2 (rtp_sequence s)
  ++ to_be 4 (rtp_timestamp s) ++ to_be 4 (rtp_ssrc s).
Definition rtp_next (s : RtpStream) : RtpStream :=
  mkRtpStream (wrap 16 (rtp_sequence s + 1))
    (wrap 32 (rtp_timestamp s + rtp_timestamp_step s))
    (rtp_ssrc s) (rtp_timestamp_step s) (rtp_payload_type s).

Lemma length_rtp_header s : length (rtp_header s) = 12%nat.
Proof. unfold rtp_header. by len. Qed.

Lemma RtpStream_write_header_eq {E} s out :
  (12 ≤ length out)%nat →
  RtpStream_write_header (E := E) s out = Ok (rtp_header s ++ drop 12 out, rtp_next s).
Proof.
  intros Ho. unfold RtpStream_write_header.
  rewrite (write_at_next [] out) by (len; lia). cbn [mbind result_bind].
  do 4 (rewrite write_at_next by (len; lia); cbn [mbind result_bind]).
  rewrite !drop_drop. len. unfold rtp_header. by rewrite <- !app_assoc.
Qed.

(** A stream of the right types, whose payload type and SSRC are the configured
    ones where those are set. *)
Definition stream_ok (p : MediaParams) (s : RtpStream) : Prop :=
  u16_ok (rtp_sequence s) ∧ u32_ok (rtp_timestamp s) ∧ u32_ok (rtp_ssrc s)
  ∧ u16_ok (rtp_timestamp_step s) ∧ 0 ≤ rtp_payload_type s ≤ 127
  ∧ (mp_payload_type p ≠ 0 → rtp_payload_type s = mp_payload_type p)
  ∧ (mp_ssrc p ≠ 0 → rtp_ssrc s = mp_ssrc p).

Lemma presets_ok : Forall (λ x, 96 ≤ x.1 ≤ 127 ∧ u16_ok x.2) MEDIA_PRESETS.
Proof. apply (bool_decide_unpack _). vm_compute. exact I. Qed.

Lemma preset_ok i :
  0 ≤ i ≤ Z.of_nat (length MEDIA_PRESETS) - 1 →
  let x := default (0, 0) (MEDIA_PRESETS !! Z.to_nat i) in 96 ≤ x.1 ≤ 127 ∧ u16_ok x.2.
Proof.
  intros Hi. destruct (lookup_lt_is_Some_2 MEDIA_PRESETS (Z.to_nat i)) as [x Hx]; [lia|].
  rewrite Hx. exact (Forall_lookup_1 _ _ _ _ presets_ok Hx).
Qed.

Lemma rtp_next_ok p s : stream_ok p s → stream_ok p (rtp_next s).
Proof. intros (?&?&?&?&?&?&?). unfold stream_ok. split_and!; cbn; first [lia | assumption | by apply wrap_range]. Qed.

Lemma RtpStream_new_ok `{RandomSource R} p (g : R) :
  rng_ok g → mp_payload_type p ≤ 127 → u8_ok (mp_payload_type p) → u32_ok (mp_ssrc p) →
  u16_ok (mp_timestamp_step p) →
  stream_ok p (RtpStream_new p g).1 ∧ rng_ok (RtpStream_new p g).2.
Proof.
  intros Hg Hpt Hpt' Hss Hts. unfold RtpStream_new.
  pose proof (gen_range_u16_in 0 u16_max g Hg) as H1.
  pose proof (gen_range_u16_inv 0 u16_max g Hg) as G1.
  destruct (gen_range_u16 0 u16_max g) as [seq g1]. cbn [fst snd] in *.
  pose proof (gen_range_u32_in 0 u32_max g1 G1) as H2.
  pose proof (gen_range_u32_inv 0 u32_max g1 G1) as G2.
  destruct (gen_range_u32 0 u32_max g1) as [ts g2]. cbn [fst snd] in *.
  pose proof (gen_range_u32_in 1 u32_max g2 G2) as H3.
  pose proof (gen_range_u32_inv 1 u32_max g2 G2) as G3.
  assert (∃ ssrc g3, (if mp_ssrc p =? 0 then gen_range_u32 1 u32_max g2 else (mp_ssrc p, g2))
    = (ssrc, g3) ∧ rng_ok g3 ∧ u32_ok ssrc ∧ (mp_ssrc p ≠ 0 → ssrc = mp_ssrc p))
    as (ssrc & g3 & -> & G3' & S1 & S2).
  { destruct (gen_range_u32 1 u32_max g2) as [x g3]. cbn [fst snd] in *.
    destruct (Z.eqb_spec (mp_ssrc p) 0); eexists _, _; split_and!; try done. width_lia. }
  pose proof (gen_range_u32_in 0 (Z.of_nat (length MEDIA_PRESETS) - 1) g3 G3') as H4.
  pose proof (gen_range_u32_inv 0 (Z.of_nat (length MEDIA_PRESETS) - 1) g3 G3') as G4.
  destruct (gen_range_u32 _ _ g3) as [i g4]. cbn [fst snd] in *.
  pose proof (preset_ok i) as Hp. destruct (default _ _) as [pt step]. cbn [fst snd] in *.
  assert (96 ≤ pt ≤ 127 ∧ u16_ok step) as [Hp1 Hp2]
    by (apply Hp, H4; cbn; width_lia). clear Hp H4.
  split; [|done]. repeat split; cbn; try apply S1; try done; try width_lia;
    destruct (Z.eqb_spec (mp_timestamp_step p) 0), (Z.eqb_spec (mp_payload_type p) 0);
    width_lia.
Qed.

(** ** The codec *)
Section codec_proofs.
Context `{RandomSource R}.
Abbreviation PhobosCodec := (@PhobosCodec R).
Implicit Types c : PhobosCodec.

Definition codec_ok c : Prop :=
  config_typed (cd_config c) ∧ PhobosConfig_validate (cd_config c) = Ok tt
  ∧ cd_obfuscate_bytes c = effective_obfuscate_bytes (cd_config c)
  ∧ rng_ok (cd_rng c)
  ∧ ∀ s, cd_rtp c = Some s → stream_ok (pc_media (cd_config c)) s.

(** The constructor establishes the invariant, or reports what [validate]
    reports. *)
Lemma with_rng_ok cfg (g : R) :
  config_typed cfg → rng_ok g →
  (PhobosConfig_validate cfg = Ok tt ∧
   ∃ c, PhobosCodec_with_rng cfg g = Ok c ∧ codec_ok c ∧ cd_config c = cfg)
  ∨ ∃ e, PhobosConfig_validate cfg = Err e ∧ PhobosCodec_with_rng cfg g = Err e.
Proof.
  intros Ht Hg. unfold PhobosCodec_with_rng.
  destruct (PhobosConfig_validate cfg) as [[]|e|] eqn:Hv; cbn.
  - left. split; [done|]. eexists. split; [done|]. split; [|done]. by split_and!.
  - right. eauto.
  - exfalso. unfold PhobosConfig_validate, validate_key in Hv.
    repeat (case_decide || case_match || cbn in Hv); done.
Qed.

Lemma codec_key_ok c : codec_ok c → key_ok (pc_key (cd_config c)).
Proof. intros (_ & Hv%validate_iff & _). tauto. Qed.

Lemma codec_ok_rng c g : codec_ok c → rng_ok g → codec_ok (with_cd_rng c g).
Proof. intros (?&?&?&?&?) ?. by split_and!. Qed.
Lemma codec_ok_rtp c s :
  codec_ok c → stream_ok (pc_media (cd_config c)) s → codec_ok (with_cd_rtp c s).
Proof. intros (?&?&?&?&?) ?. split_and!; try done. by intros s' [= <-]. Qed.

(** Same configuration, so the same keys and bounds. *)
Definition same_config c c' : Prop :=
  cd_config c' = cd_config c ∧ cd_obfuscate_bytes c' = cd_obfuscate_bytes c.

Definition request_frame (txid : bytes) : bytes :=
  frame STUN_BINDING_REQUEST 8 txid (fingerprint (stun_header STUN_BINDING_REQUEST 0 txid)).

Lemma binding_request_ok {E} c :
  codec_ok c →
  ∃ txid g, PhobosCodec_binding_request (E := E) c
            = (Ok (request_frame txid), with_cd_rng c g)
    ∧ length txid = 12%nat ∧ rng_ok g.
Proof.
  intros (_ & _ & _ & Hg & _). unfold PhobosCodec_binding_request.
  pose proof (fill_bytes_length 12 _ Hg) as Hl. pose proof (fill_bytes_inv 12 _ Hg) as Hi.
  destruct (fill_bytes 12 (cd_rng c)) as [txid g]. cbn [fst snd] in *.
  exists txid, g. by rewrite build_binding_request_eq.
Qed.

(** What the frame of a datagram is, and how the RTP stream moves. *)
Definition framed c c' (payload out : bytes) : Prop :=
  match pc_masking (cd_config c) with
  | MaskNone => out = payload
  | MaskStun => ∃ txid, length txid = 12%nat ∧
      out = frame STUN_DATA_INDICATION 0 txid
              (to_be 2 STUN_ATTR_DATA ++ to_be 2 (Z.of_nat (length payload)) ++ payload)
  | MaskMedia => ∃ s, stream_ok (pc_media (cd_config c)) s
      ∧ (∀ s0, cd_rtp c = Some s0 → s = s0)
      ∧ out = rtp_header s ++ payload ∧ cd_rtp c' = Some (rtp_next s)
  end.

Lemma write_frame_ok {E} c old payload :
  codec_ok c → length old = Masking_overhead (pc_masking (cd_config c)) →
  (pc_masking (cd_config c) = MaskStun → Z.of_nat (length payload) ≤ u16_max) →
  ∃ out c', write_frame (E := E) (length old) (old ++ payload) c = (Ok out, c')
    ∧ codec_ok c' ∧ same_config c c' ∧ framed c c' payload out.
Proof.
  intros Hc Ho Hp. pose proof Hc as (Ht & Hv & _ & Hg & Hs). unfold write_frame, framed.
  destruct (pc_masking (cd_config c)) eqn:Hm;
    cbn [Masking_overhead] in Ho; unfold STUN_DATA_HEADER_LEN, RTP_HEADER_LEN in Ho.
  - apply nil_length_inv in Ho as ->. by exists payload, c.
  - pose proof (fill_bytes_length 12 _ Hg) as Hl. pose proof (fill_bytes_inv 12 _ Hg) as Hi.
    destruct (fill_bytes 12 (cd_rng c)) as [txid g]. cbn [fst snd] in *.
    specialize (Hp eq_refl). cbv zeta.
    rewrite write_stun_header_eq by (done || (len; lia)). cbn [mbind result_bind].
    pose proof (length_stun_header STUN_DATA_INDICATION 0 txid Hl) as Hh.
    rewrite drop_app_le by lia.
    rewrite write_at_next by (len; lia). cbn [mbind result_bind].
    rewrite write_at_next by (len; lia).
    rewrite drop_drop. autorewrite with len. rewrite Nat.add_comm, Nat.add_sub.
    rewrite wrap_small by width_lia.
    rewrite drop_app_length' by (len; lia).
    eexists _, _. split; [done|]. split; [by apply codec_ok_rng|]. split; [done|].
    exists txid. split; [done|]. unfold frame. by rewrite <- !app_assoc.
  - destruct (match cd_rtp c with Some s => _ | None => _ end) as [s g] eqn:Hsg.
    assert (stream_ok (pc_media (cd_config c)) s ∧ rng_ok g
            ∧ ∀ s0, cd_rtp c = Some s0 → s = s0) as (Hso & Hgo & Heq).
    { destruct (cd_rtp c) as [s1|]; simplify_eq; [split_and!; auto; by intros ? [= <-]|].
      destruct Ht as (_ & _ & _ & T1 & T2 & T3). apply validate_iff in Hv as (_ & _ & _ & V).
      pose proof (RtpStream_new_ok _ _ Hg V T1 T2 T3) as [H1 H2].
      rewrite Hsg in H1, H2. by split_and!. }
    rewrite RtpStream_write_header_eq by (len; lia).
    rewrite drop_app_length' by done.
    eexists _, _. split; [done|]. split; [|split; [done|]].
    + apply codec_ok_rtp; [by apply codec_ok_rng|]. by apply rtp_next_ok.
    + by exists s.
Qed.

(** The message fits the frame's length field. *)
Definition fits (k : Masking) (m : bytes) : Prop :=
  k = MaskStun → Z.of_nat (length m) ≤ u16_max.

Lemma fits_check k m :
  fits k m →
  match Masking_max_message_len k with
  | Some max => bool_decide (max < length m)%nat
  | None => false
  end = false.
Proof.
  unfold fits. destruct k; try done. intros Hk. specialize (Hk eq_refl). cbn.
  apply bool_decide_false. lia.
Qed.

(** The payload [encode] makes of a message. *)
Definition encoded c (m payload : bytes) : Prop :=
  ∃ b0 b1 b2 b3 rest r d tail,
    m = b0 :: b1 :: b2 :: b3 :: rest
    ∧ payload = mask_region (pc_key (cd_config c)) (Z.to_nat (cd_obfuscate_bytes c))
                  (Z.lxor b0 r :: r :: to_le 2 d ++ rest ++ tail)
    ∧ 1 ≤ r ≤ 255 ∧ length tail = Z.to_nat d
    ∧ tail_ok (length m) (Z.to_nat (cd_obfuscate_bytes c)) (from_le (take 4 m))
        (pc_max_dummy (cd_config c)) d.

Lemma encoded_length c m payload :
  encoded c m payload →
  length payload = length m
  ∨ (length m ≤ length payload)%nat ∧ Z.of_nat (length payload) < DUMMY_LIMIT.
Proof.
  intros (b0 & b1 & b2 & b3 & rest & r & d & tail & -> & -> & Hr & Hl & Hd).
  rewrite length_mask_region. cbn [length] in *. rewrite !length_app, length_to_le, Hl.
  destruct Hd as [->|(? & _ & ? & _)]; lia.
Qed.

Lemma encoded_fits c m payload :
  encoded c m payload → fits (pc_masking (cd_config c)) m →
  fits (pc_masking (cd_config c)) payload.
Proof.
  intros He%encoded_length Hf Hm. specialize (Hf Hm). unfold DUMMY_LIMIT in He.
  width_lia.
Qed.

(** The Binding Request that goes first. *)
Definition preamble_ok c (m : bytes) (pre : option bytes) : Prop :=
  if (from_le (take 4 m) =? WG_HANDSHAKE_INITIATION)
     && bool_decide (pc_masking (cd_config c) ≠ MaskNone)
  then ∃ txid, length txid = 12%nat ∧ pre = Some (request_frame txid)
  else pre = None.

Lemma control_interval_masking k :
  bool_decide (is_Some (Masking_control_interval k)) = bool_decide (k ≠ MaskNone).
Proof. by destruct k. Qed.

Lemma preamble_runs {E} c m :
  codec_ok c →
  ∃ pre g,
    (if (from_le (take 4 m) =? WG_HANDSHAKE_INITIATION)
        && bool_decide (is_Some (Masking_control_interval (pc_masking (cd_config c))))
     then b ← PhobosCodec_binding_request; mret (Some b)
     else mret None : ST PhobosCodec E _) c = (Ok pre, with_cd_rng c g)
    ∧ rng_ok g ∧ preamble_ok c m pre.
Proof.
  intros Hc. rewrite control_interval_masking. unfold preamble_ok. destruct (_ && _).
  - destruct (binding_request_ok (E := E) c Hc) as (txid & g & Hb & Hl & Hg).
    exists (Some (request_frame txid)), g. unfold mbind, ST_bind. rewrite Hb. eauto.
  - exists None, (cd_rng c). destruct c, Hc as (_ & _ & _ & Hg & _). done.
Qed.

(** [wrap] on a message it accepts. *)
Lemma wrap_ok c m :
  codec_ok c → (4 ≤ length m)%nat → fits (pc_masking (cd_config c)) m →
  ∃ pre out payload c', PhobosCodec_wrap m c = (Ok (pre, out), c')
    ∧ codec_ok c' ∧ same_config c c' ∧ preamble_ok c m pre
    ∧ encoded c m payload ∧ framed c c' payload out.
Proof.
  intros Hc Hl Hf. unfold PhobosCodec_wrap. rewrite decide_False by lia.
  unfold mbind at 1, ST_bind at 1, gets. rewrite fits_check by done.
  destruct (preamble_runs (E := WrapError) c m Hc) as (pre & g & Hpre & Hg & Hpok).
  unfold mbind at 1, ST_bind at 1. rewrite Hpre. clear Hpre.
  pose proof (codec_ok_rng c g Hc Hg) as Hc1.
  destruct m as [|b0 [|b1 [|b2 [|b3 rest]]]]; cbn [length] in Hl; try lia.
  set (hdr := replicate (Masking_overhead (pc_masking (cd_config c))) 0).
  assert (Hh : length hdr = Masking_overhead (pc_masking (cd_config c))) by apply length_replicate.
  rewrite <- Hh.
  destruct (encode_shape (E := WrapError) hdr b0 b1 b2 b3 rest (pc_key (cd_config c))
    (pc_max_dummy (cd_config c)) (cd_obfuscate_bytes c) g Hg (codec_key_ok c Hc))
    as (r & d & tail & g' & He & Hg' & Hr & Ht & Hlt & Hd).
  unfold mbind at 1, ST_bind at 1. cbn [with_cd_rng cd_config cd_obfuscate_bytes cd_rng].
  rewrite He. clear He. set (payload := mask_region _ _ _).
  assert (Henc : encoded c (b0 :: b1 :: b2 :: b3 :: rest) payload).
  { exists b0, b1, b2, b3, rest, r, d, tail. do 2 (split; [done|]).
    split; [lia|]. split; [done|exact Hd]. }
  pose proof (codec_ok_rng _ g' Hc1 Hg') as Hc2.
  destruct (write_frame_ok (E := WrapError) _ hdr payload Hc2 Hh)
    as (out & c' & Hw & Hc' & Hs & Hfr); [by eapply encoded_fits|].
  unfold mbind, ST_bind. cbn [with_cd_rng cd_config cd_obfuscate_bytes cd_rng cd_rtp] in *.
  rewrite Hw. exists pre, out, payload, c'. by split_and!.
Qed.

(** The messages it refuses leave the codec as it was. *)
Lemma wrap_too_short c m : (length m < 4)%nat → PhobosCodec_wrap m c = (Err TooShort, c).
Proof. intros. unfold PhobosCodec_wrap. by rewrite decide_True. Qed.
Lemma wrap_too_long c m :
  (4 ≤ length m)%nat → ¬ fits (pc_masking (cd_config c)) m →
  PhobosCodec_wrap m c = (Err TooLong, c).
Proof.
  intros Hl Hf. unfold PhobosCodec_wrap. rewrite decide_False by lia.
  unfold mbind at 1, ST_bind at 1, gets.
  replace (match Masking_max_message_len (pc_masking (cd_config c)) with _ => _ end) with true;
    [done|].
  unfold fits in Hf. destruct (pc_masking (cd_config c)); try (exfalso; by apply Hf).
  cbn. symmetry. apply bool_decide_true. apply not_le. intros Hle. apply Hf. lia.
Qed.

(** ** Receiving what [wrap] wrote *)
Definition compatible c c' : Prop :=
  pc_key (cd_config c') = pc_key (cd_config c)
  ∧ pc_masking (cd_config c') = pc_masking (cd_config c)
  ∧ cd_obfuscate_bytes c' = cd_obfuscate_bytes c
  ∧ (mp_payload_type (pc_media (cd_config c')) ≠ 0 →
     mp_payload_type (pc_media (cd_config c)) = mp_payload_type (pc_media (cd_config c')))
  ∧ (mp_ssrc (pc_media (cd_config c')) ≠ 0 →
     mp_ssrc (pc_media (cd_config c)) = mp_ssrc (pc_media (cd_config c'))).

(** The datagrams a receiver takes for something else: without a frame, one
    that happens to look like a plain message; under RTP, one whose timestamp is
    the STUN cookie. *)
Definition mistaken (k : Masking) (out : bytes) : bool :=
  match k with
  | MaskNone => looks_plain out
  | MaskStun => false
  | MaskMedia => has_stun_cookie out
  end.

Lemma decode_of_encoded {E} c m payload :
  codec_ok c → plain_wg m = true → encoded c m payload →
  ∃ p, decode (E := E) payload (pc_key (cd_config c)) (cd_obfuscate_bytes c)
       = Ok (p, Some (length m)) ∧ take (length m) p = m.
Proof.
  intros Hc (t & r0 & ->)%plain_wg_inv
    (b0 & b1 & b2 & b3 & rest & r & d & tail & [= <- <- <- <- <-] & -> & Hr & Hl & Hd).
  apply tail_ok_range in Hd. eexists. split.
  - apply decode_encoded; try done. by apply codec_key_ok.
  - by apply (take_app_exact (t :: 0 :: 0 :: 0 :: r0) tail).
Qed.

(** Decoding the payload behind a frame that was recognised. *)
Lemma unwrap_deframed {E} c c2 m payload hdr source :
  codec_ok c → compatible c c2 → plain_wg m = true → encoded c m payload →
  looks_plain (hdr ++ payload) = false →
  deframe (E := E) c2 (hdr ++ payload) source = Ok (inr (length hdr, length payload)) →
  PhobosCodec_unwrap (E := E) c2 (hdr ++ payload) source = Ok (WireGuard m).
Proof.
  intros Hc (Hk & _ & Hob & _) Hm He Hplain Hd. unfold PhobosCodec_unwrap.
  assert (4 ≤ length payload)%nat as Hl.
  { pose proof (encoded_length _ _ _ He) as Hl.
    apply plain_wg_inv in Hm as (t & rest & ->). cbn [length] in Hl. lia. }
  rewrite bool_decide_false by (len; lia). rewrite Hplain. cbn [orb]. rewrite Hd.
  cbn [mbind result_bind]. rewrite decide_False by lia.
  replace (hdr ++ payload) with (hdr ++ payload ++ []) by (by rewrite app_nil_r).
  rewrite slice_chk_mid by done. cbn [mbind result_bind]. rewrite Hk, Hob.
  destruct (decode_of_encoded (E := E) c m payload Hc Hm He) as (p & -> & Hp).
  cbn [mbind result_bind]. by rewrite Hp.
Qed.

Lemma payload_type_bits pt :
  0 ≤ pt ≤ 127 → Z.land (Z.lor 0x80 (Z.land pt 0x7F)) 0x7F = pt.
Proof.
  intros Hpt. rewrite Z.land_lor_distr_l, <- Z.land_assoc, Z.land_diag.
  change (Z.land 0x80 0x7F) with 0. rewrite Z.lor_0_l.
  change 0x7F with (Z.ones 7). rewrite Z.land_ones by lia. apply Z.mod_small. lia.
Qed.

Lemma rtp_looks_plain s payload : looks_plain (rtp_header s ++ payload) = false.
Proof.
  unfold rtp_header. cbn [app].
  destruct (to_be 2 (rtp_sequence s)) as [|x [|y q]] eqn:E; [done| |done].
  apply (f_equal length) in E. by rewrite length_to_be in E.
Qed.

Lemma from_be2 a b : from_be [a; b] = b + 256 * (a + 256 * 0).
Proof. done. Qed.

(** An RTP datagram that carries the cookie is no STUN message either. *)
Lemma rtp_stun_drop {E} s payload source :
  handle_stun (E := E) (rtp_header s ++ payload) source = Ok StunDrop.
Proof.
  unfold handle_stun, rtp_header, index. cbn [app lookup list_lookup ok_or_panic mbind result_bind].
  assert (0 ≤ Z.lor 128 (Z.land (rtp_payload_type s) 127)).
  { apply Z.lor_nonneg. split; [lia|]. apply Z.land_nonneg. lia. }
  rewrite from_be2. unfold STUN_BINDING_REQUEST, STUN_DATA_INDICATION. by ifs_lia.
Qed.

Lemma deframe_rtp {E} c c2 s payload source :
  compatible c c2 → stream_ok (pc_media (cd_config c)) s →
  pc_masking (cd_config c2) = MaskMedia → (4 ≤ length payload)%nat →
  has_stun_cookie (rtp_header s ++ payload) = false →
  deframe (E := E) c2 (rtp_header s ++ payload) source
  = Ok (inr (length (rtp_header s), length payload)).
Proof.
  intros (_ & _ & _ & Hpt & Hssrc) (_ & _ & _ & _ & Hr & Spt & Sssrc) Hm Hl Hck.
  unfold deframe. rewrite Hm, Hck. rewrite length_app, length_rtp_header. cbv zeta.
  unfold RTP_HEADER_LEN. rewrite decide_False by lia.
  replace (slice_chk (rtp_header s ++ payload) 8 12) with (@Ok E _ (to_be 4 (rtp_ssrc s))); cycle 1.
  { unfold rtp_header. symmetry.
    rewrite !app_assoc, <- (app_assoc _ (to_be 4 (rtp_ssrc s))).
    apply slice_chk_mid; by len. }
  unfold rtp_header, index. cbn [app lookup list_lookup ok_or_panic mbind result_bind].
  rewrite payload_type_bits by done. cbn [Z.land Z.eqb negb orb].
  destruct (Z.eqb_spec (mp_payload_type (pc_media (cd_config c2))) 0) as [|Hn1];
    destruct (Z.eqb_spec (mp_ssrc (pc_media (cd_config c2))) 0) as [|Hn2]; cbn [negb andb orb].
  all: try specialize (Hpt Hn1); try specialize (Hssrc Hn2);
    try rewrite Sssrc by lia; try rewrite Spt by lia;
    rewrite ?Hpt, ?Hssrc, ?Z.eqb_refl; cbn [negb orb];
    rewrite ?bool_decide_false by (intros Hne; by apply Hne); f_equal; f_equal; f_equal; lia.
Qed.

Lemma encoded_min c m payload :
  plain_wg m = true → encoded c m payload → (4 ≤ length payload)%nat.
Proof.
  intros (t & rest & ->)%plain_wg_inv He%encoded_length. cbn [length] in He. lia.
Qed.

Lemma unwrap_framed {E} c c' c2 m payload out source :
  codec_ok c → compatible c c2 → plain_wg m = true → fits (pc_masking (cd_config c)) m →
  encoded c m payload → framed c c' payload out →
  PhobosCodec_unwrap (E := E) c2 out source
  = Ok (if mistaken (pc_masking (cd_config c)) out then Drop else WireGuard m).
Proof.
  intros Hc Hcomp Hm Hfit He Hf. pose proof Hcomp as (_ & Hk & _).
  pose proof (encoded_min _ _ _ Hm He) as Hl. pose proof (encoded_fits _ _ _ He Hfit) as Hfp.
  unfold framed in Hf. destruct (pc_masking (cd_config c)) eqn:Hmask; cbn [mistaken].
  - subst out. destruct (looks_plain payload) eqn:Hp.
    + unfold PhobosCodec_unwrap. by rewrite Hp, orb_true_r.
    + apply (unwrap_deframed c c2 m payload []); try done. unfold deframe. by rewrite Hk.
  - destruct Hf as (txid & Htx & ->). specialize (Hfp eq_refl).
    pose proof (length_stun_header STUN_DATA_INDICATION 0 txid Htx) as Hh.
    assert (Hd : deframe (E := E) c2 (frame STUN_DATA_INDICATION 0 txid (to_be 2 STUN_ATTR_DATA
        ++ to_be 2 (Z.of_nat (length payload)) ++ payload)) source
      = Ok (inr (24%nat, length payload))).
    { unfold deframe. by rewrite Hk, frame_cookie, handle_stun_data. }
    unfold frame in *. rewrite !app_assoc in Hd |- *.
    apply unwrap_deframed with (c := c); try done.
    rewrite Hd, !length_app, Hh. by len.
  - destruct Hf as (s & Hs & _ & -> & _).
    destruct (has_stun_cookie (rtp_header s ++ payload)) eqn:Hck.
    + unfold PhobosCodec_unwrap. rewrite rtp_looks_plain.
      rewrite bool_decide_false by (rewrite length_app; lia). cbn [orb].
      unfold deframe. by rewrite Hk, Hck, rtp_stun_drop.
    + apply unwrap_deframed with (c := c); try done.
      by eapply deframe_rtp.
Qed.

(** ** The Binding exchange *)
Lemma deframe_stun {E} c d source :
  has_stun_cookie d = true → pc_masking (cd_config c) ≠ MaskNone →
  deframe (E := E) c d source
  = (o ← handle_stun d source;
     Ok match o with
        | StunData len => inr (STUN_DATA_HEADER_LEN, len)
        | StunReply reply => inl (Reply reply)
        | StunDrop => inl Drop
        end).
Proof. intros Hck Hm. unfold deframe. rewrite Hck. by destruct (pc_masking _). Qed.

Lemma unwrap_request {E} c txid ip source :
  length txid = 12%nat → sock_ok source → sock_ipv4 source = Some ip →
  pc_masking (cd_config c) ≠ MaskNone →
  PhobosCodec_unwrap (E := E) c (request_frame txid) source
  = Ok (Reply (binding_success txid ip (sock_port source))).
Proof.
  intros Ht Hs Hip Hm. unfold PhobosCodec_unwrap, request_frame.
  rewrite bool_decide_false by (rewrite frame_length by done; lia).
  change (looks_plain (frame STUN_BINDING_REQUEST _ _ _)) with false. cbn [orb].
  rewrite deframe_stun by (done || by apply frame_cookie).
  rewrite handle_stun_request, Hip by done. done.
Qed.

(** A Binding Success Response carries nothing for WireGuard. *)
Lemma unwrap_success {E} c txid ip port source :
  length txid = 12%nat → length ip = 4%nat → pc_masking (cd_config c) ≠ MaskNone →
  PhobosCodec_unwrap (E := E) c (binding_success txid ip port) source = Ok Drop.
Proof.
  intros Ht Hl Hm. unfold PhobosCodec_unwrap.
  rewrite bool_decide_false by (rewrite length_binding_success by done; unfold BINDING_SUCCESS_LEN; lia).
  change (looks_plain (binding_success _ _ _)) with false. cbn [orb].
  assert (Hf : ∃ rest, binding_success txid ip port = frame STUN_BINDING_SUCCESS 20 txid rest).
  { eexists. unfold binding_success, success_body, frame, stun_header.
    rewrite <- !app_assoc. reflexivity. }
  destruct Hf as [rest ->]. rewrite deframe_stun by (done || by apply frame_cookie).
  unfold handle_stun.
  destruct (frame_kind (E := E) STUN_BINDING_SUCCESS 20 txid rest ltac:(by vm_compute) Ht)
    as (b0 & b1 & -> & -> & Hk).
  cbn [mbind result_bind]. by rewrite Hk.
Qed.

(** ** Never panicking on what arrives *)
Lemma deframe_total {E} c datagram source :
  (4 ≤ length datagram)%nat → sock_ok source →
  ∃ d, deframe (E := E) c datagram source = Ok d
    ∧ match d with
      | inl (WireGuard _) => False
      | inl (Reply r) => length r = BINDING_SUCCESS_LEN ∧ pc_masking (cd_config c) ≠ MaskNone
      | inl Drop => True
      | inr (offset, len) => (offset + len ≤ length datagram)%nat
      end.
Proof.
  intros Hl Hs. unfold deframe. cbv zeta.
  set (stun := mbind (M := result E) _ _).
  assert (Hst : has_stun_cookie datagram = true → pc_masking (cd_config c) ≠ MaskNone →
    ∃ d, stun = Ok d ∧ match d with
      | inl (WireGuard _) => False
      | inl (Reply r) => length r = BINDING_SUCCESS_LEN ∧ pc_masking (cd_config c) ≠ MaskNone
      | inl Drop => True
      | inr (offset, len) => (offset + len ≤ length datagram)%nat
      end).
  { intros Hck Hm. unfold has_stun_cookie in Hck.
    apply andb_true_iff in Hck as [Hck%bool_decide_eq_true _].
    destruct (handle_stun_total (E := E) datagram source Hck Hs) as (o & Ho & H1 & H2).
    unfold stun. rewrite Ho. eexists. split; [done|]. destruct o; auto. }
  clearbody stun. destruct (pc_masking (cd_config c)) eqn:Hm.
  - eexists. split; [done|]. cbn. lia.
  - destruct (has_stun_cookie datagram); [by apply Hst|]. by exists (inl Drop).
  - destruct (has_stun_cookie datagram); [by apply Hst|].
    unfold RTP_HEADER_LEN. case_decide; [by exists (inl Drop)|].
    rewrite slice_chk_ok by lia. unfold index.
    destruct datagram as [|b0 [|b1 rest]]; cbn [length] in *; try lia.
    cbn [lookup list_lookup ok_or_panic mbind result_bind].
    destruct (_ || _); eexists; (split; [done|]); cbn; [done|lia].
Qed.

Lemma unwrap_total {E} c datagram source :
  codec_ok c → bytes_ok datagram → sock_ok source →
  ∃ u, PhobosCodec_unwrap (E := E) c datagram source = Ok u
    ∧ match u with
      | WireGuard m => (4 ≤ length m ≤ length datagram)%nat ∧ bytes_ok m
      | Reply r => length r = BINDING_SUCCESS_LEN ∧ pc_masking (cd_config c) ≠ MaskNone
      | Drop => True
      end.
Proof.
  intros Hc Hb Hs. unfold PhobosCodec_unwrap.
  destruct (bool_decide _ || _) eqn:Hx; [by exists Drop|].
  apply orb_false_iff in Hx as [Hl%bool_decide_eq_false _].
  destruct (deframe_total (E := E) c datagram source) as (d & -> & Hd); [lia|done|].
  cbn [mbind result_bind]. destruct d as [u|[offset len]].
  { exists u. split; [done|]. by destruct u. }
  case_decide; [by exists Drop|]. rewrite slice_chk_ok by lia. cbn [mbind result_bind].
  destruct (decode_total (E := E) (slice datagram offset (offset + len))
    (pc_key (cd_config c)) (cd_obfuscate_bytes c)) as (p & o & -> & Hlp & Hbp & Hn);
    [by apply codec_key_ok|auto with awg|].
  cbn [mbind result_bind]. rewrite length_slice in Hlp, Hn by lia.
  destruct o as [n|]; [|by exists Drop]. specialize (Hn n eq_refl).
  eexists. split; [done|]. cbn. rewrite length_take. split; [lia|auto with awg].
Qed.
End codec_proofs.

(** ** The promises of the codec *)
Definition sample_codec (k : Masking) : @PhobosCodec Pattern :=
  mkPhobosCodec (with_masking sample_phobos k)
    (effective_obfuscate_bytes (with_masking sample_phobos k)) counting_bytes None.
Definition sample_source : SocketAddr := SockV4 [203; 0; 113; 9] 51822.

Lemma sample_codec_ok k : codec_ok (sample_codec k).
Proof.
  unfold codec_ok. split; [destruct k; by apply (bool_decide_unpack _); vm_compute|].
  split; [by destruct k|]. split; [done|]. split; [apply counting_bytes_ok|done].
Qed.
Lemma sample_source_ok : sock_ok sample_source.
Proof. split; [by vm_compute|]. split; [done|]. by apply (bool_decide_unpack _); vm_compute. Qed.

(** C21: a Phobos datagram carries its WireGuard message: when two codecs agree
    on key, masking and obfuscated length (and the sender's RTP parameters are
    the ones the receiver enforces), [wrap] accepts every plain WireGuard
    message that fits the frame, and [unwrap] at the other end returns exactly
    that message, with the random tail gone.  The only exceptions are the two
    coincidences [mistaken] names, and then the datagram is dropped: an
    unframed datagram that looks like a plain message, and an RTP timestamp
    equal to the STUN cookie.  Under STUN framing there are none. *)
Theorem phobos_delivery `{RandomSource R} (c c2 : @PhobosCodec R) m source :
  codec_ok c → compatible c c2 → plain_wg m = true → fits (pc_masking (cd_config c)) m →
  ∃ pre out c', PhobosCodec_wrap m c = (Ok (pre, out), c')
    ∧ codec_ok c' ∧ same_config c c' ∧ preamble_ok c m pre
    ∧ PhobosCodec_unwrap (E := ()) c2 out source
      = Ok (if mistaken (pc_masking (cd_config c)) out then Drop else WireGuard m).
Proof.
  intros Hc Hcomp Hm Hf.
  assert (4 ≤ length m)%nat.
  { apply plain_wg_inv in Hm as (t & rest & ->). cbn [length]. lia. }
  destruct (wrap_ok c m) as (pre & out & payload & c' & Hw & Hc' & Hs & Hp & He & Hfr);
    [done..|].
  exists pre, out, c'. split_and!; try done. by eapply unwrap_framed.
Qed.

Lemma phobos_delivery_witness :
  (∃ pre out c', PhobosCodec_wrap [1; 0; 0; 0; 7] (sample_codec MaskMedia) = (Ok (pre, out), c')
    ∧ codec_ok c' ∧ same_config (sample_codec MaskMedia) c'
    ∧ preamble_ok (sample_codec MaskMedia) [1; 0; 0; 0; 7] pre
    ∧ PhobosCodec_unwrap (E := ()) (sample_codec MaskMedia) out sample_source
      = Ok (if mistaken MaskMedia out then Drop else WireGuard [1; 0; 0; 0; 7])).
Proof.
  apply (phobos_delivery (sample_codec MaskMedia) (sample_codec MaskMedia)
    [1; 0; 0; 0; 7] sample_source);
    [apply sample_codec_ok|by split_and!|done|done].
Defined.

(** C33: nothing a peer sends makes the codec panic: on any datagram from any
    source, [unwrap] returns; a WireGuard message it delivers is at least 4
    bytes and no longer than the datagram; a reply has the length of a Binding
    Success Response and comes only from a codec with a cover protocol. *)
Theorem phobos_unwrap_total `{RandomSource R} (c : @PhobosCodec R) datagram source :
  codec_ok c → bytes_ok datagram → sock_ok source →
  ∃ u, PhobosCodec_unwrap (E := ()) c datagram source = Ok u
    ∧ match u with
      | WireGuard m => (4 ≤ length m ≤ length datagram)%nat ∧ bytes_ok m
      | Reply r => length r = BINDING_SUCCESS_LEN ∧ pc_masking (cd_config c) ≠ MaskNone
      | Drop => True
      end.
Proof. apply unwrap_total. Qed.

Lemma phobos_unwrap_total_witness :
  ∃ u, PhobosCodec_unwrap (E := ()) (sample_codec MaskStun) [0; 1; 0; 0; 0x21; 0x12; 0xA4; 0x42]
         sample_source = Ok u
    ∧ match u with
      | WireGuard m => (4 ≤ length m ≤ 8)%nat ∧ bytes_ok m
      | Reply r => length r = BINDING_SUCCESS_LEN
          ∧ pc_masking (cd_config (sample_codec MaskStun)) ≠ MaskNone
      | Drop => True
      end.
Proof.
  apply (phobos_unwrap_total (sample_codec MaskStun) [0; 1; 0; 0; 0x21; 0x12; 0xA4; 0x42]
    sample_source); [apply sample_codec_ok|by apply (bool_decide_unpack _); vm_compute
    |apply sample_source_ok].
Defined.

(** *** A burst of datagrams under RTP *)
Fixpoint wrap_all `{RandomSource R} (ms : list bytes) : ST (@PhobosCodec R) WrapError (list bytes) :=
  match ms with
  | [] => mret []
  | m :: ms' =>
      x ← PhobosCodec_wrap m;
      outs ← wrap_all ms';
      mret (x.2 :: outs)
  end.

(** The stream after [i] frames. *)
Definition rtp_after (s : RtpStream) (i : Z) : RtpStream :=
  mkRtpStream (wrap 16 (rtp_sequence s + i))
    (wrap 32 (rtp_timestamp s + i * rtp_timestamp_step s))
    (rtp_ssrc s) (rtp_timestamp_step s) (rtp_payload_type s).

Lemma rtp_after_0 p s : stream_ok p s → rtp_after s 0 = s.
Proof.
  intros (H1 & H2 & _). unfold rtp_after. rewrite Z.mul_0_l, !Z.add_0_r, !wrap_small by done.
  by destruct s.
Qed.
Lemma rtp_after_next s i : rtp_after (rtp_next s) i = rtp_after s (i + 1).
Proof.
  unfold rtp_after, rtp_next. cbn. f_equal; unfold wrap; rewrite Zplus_mod_idemp_l;
    f_equal; lia.
Qed.

(** The frames of a burst, first to last. *)
Definition numbered (s : RtpStream) (outs : list bytes) : Prop :=
  ∀ i out, outs !! i = Some out → take 12 out = rtp_header (rtp_after s (Z.of_nat i)).

Lemma numbered_cons p s payload outs :
  stream_ok p s → numbered (rtp_next s) outs →
  numbered s ((rtp_header s ++ payload) :: outs).
Proof.
  intros Hs Hn [|i] out Ho; cbn [lookup list_lookup] in Ho.
  - apply (inj Some) in Ho as <-. change (Z.of_nat 0) with 0. rewrite (rtp_after_0 _ _ Hs).
    apply take_app_exact. by rewrite length_rtp_header.
  - apply Hn in Ho. rewrite Ho, rtp_after_next. do 2 f_equal. lia.
Qed.

Section burst.
Context `{RandomSource R}.

Lemma wrap_media (c : @PhobosCodec R) m :
  codec_ok c → pc_masking (cd_config c) = MaskMedia → (4 ≤ length m)%nat →
  ∃ pre s payload c', PhobosCodec_wrap m c = (Ok (pre, rtp_header s ++ payload), c')
    ∧ codec_ok c' ∧ pc_masking (cd_config c') = MaskMedia
    ∧ stream_ok (pc_media (cd_config c)) s
    ∧ (∀ s0, cd_rtp c = Some s0 → s = s0) ∧ cd_rtp c' = Some (rtp_next s).
Proof.
  intros Hc Hm Hl.
  destruct (wrap_ok c m) as (pre & out & payload & c' & Hw & Hc' & Hs & _ & _ & Hfr);
    [done..|by rewrite Hm|].
  unfold framed in Hfr. rewrite Hm in Hfr. destruct Hfr as (s & Hso & Heq & -> & Hr).
  exists pre, s, payload, c'. split_and!; try done. by destruct Hs as [-> _].
Qed.

Lemma wrap_all_media ms (c : @PhobosCodec R) s :
  codec_ok c → pc_masking (cd_config c) = MaskMedia →
  Forall (λ m : bytes, (4 ≤ length m)%nat) ms → cd_rtp c = Some s →
  ∃ outs c', wrap_all ms c = (Ok outs, c') ∧ length outs = length ms ∧ numbered s outs.
Proof.
  intros Hc Hm Hms. revert c s Hc Hm. induction Hms as [|m ms Hl _ IH]; intros c s Hc Hm Hs.
  { by exists [], c. }
  destruct (wrap_media c m Hc Hm Hl)
    as (pre & s1 & payload & c1 & Hw & Hc1 & Hm1 & Hso & Heq & Hr).
  rewrite (Heq s Hs) in *. clear Heq s1.
  destruct (IH c1 (rtp_next s) Hc1 Hm1 Hr) as (outs & c' & Ha & Hlen & Hi).
  exists ((rtp_header s ++ payload) :: outs), c'. cbn [wrap_all].
  unfold mbind, ST_bind. rewrite Hw, Ha. split_and!; [done|cbn; lia|].
  by eapply numbered_cons.
Qed.
End burst.

(** Under RTP framing the datagrams of a codec form one stream: over any
    burst of messages every [wrap] succeeds, and datagram [i] carries the
    sequence number [s0 + i] modulo 2^16 and the timestamp [t0 + i * step]
    modulo 2^32, with one SSRC, payload type and step for the whole burst, the
    configured ones where they are set.  A codec that has sent before continues
    its stream. *)
Lemma rtp_stream_numbering `{RandomSource R} (c : @PhobosCodec R) m ms :
  codec_ok c → pc_masking (cd_config c) = MaskMedia →
  Forall (λ m : bytes, (4 ≤ length m)%nat) (m :: ms) →
  ∃ s outs c', stream_ok (pc_media (cd_config c)) s ∧ (∀ s0, cd_rtp c = Some s0 → s = s0)
    ∧ wrap_all (m :: ms) c = (Ok outs, c') ∧ length outs = S (length ms)
    ∧ ∀ i out, outs !! i = Some out →
        take 12 out = rtp_header (rtp_after s (Z.of_nat i)).
Proof.
  intros Hc Hm [Hl Hms]%list.Forall_cons.
  destruct (wrap_media c m Hc Hm Hl)
    as (pre & s & payload & c1 & Hw & Hc1 & Hm1 & Hso & Heq & Hr).
  destruct (wrap_all_media ms c1 (rtp_next s)) as (outs & c' & Ha & Hlen & Hi); [done..|].
  exists s, ((rtp_header s ++ payload) :: outs), c'. cbn [wrap_all].
  unfold mbind, ST_bind. rewrite Hw, Ha. split_and!; [done..|cbn; lia|].
  by eapply (numbered_cons _ s payload outs).
Qed.

(** Where the fields of a Binding Success Response are. *)
Lemma binding_success_fields txid ip port :
  length txid = 12%nat → length ip = 4%nat →
  let reply := binding_success txid ip port in
  slice reply 4 20 = STUN_COOKIE ++ txid
  ∧ slice reply 26 28 = xor_into (to_be 2 port) STUN_COOKIE
  ∧ slice reply 28 32 = xor_into ip STUN_COOKIE
  ∧ slice reply 32 40 = fingerprint (take 2 reply ++ [0; 0] ++ slice reply 4 32).
Proof.
  intros Ht Hi reply. subst reply. unfold binding_success, success_body.
  pose proof (length_xor_into ip STUN_COOKIE) as Lx. rewrite Hi in Lx.
  pose proof (length_xor_into (to_be 2 port) STUN_COOKIE) as Lp. rewrite length_to_be in Lp.
  set (xi := xor_into ip STUN_COOKIE) in *. set (xp := xor_into (to_be 2 port) STUN_COOKIE) in *.
  clearbody xi xp.
  set (fp := fingerprint _). assert (Lf : length fp = 8%nat) by apply length_fingerprint.
  set (reply := to_be 2 STUN_BINDING_SUCCESS ++ _).
  assert (Hr : reply = (to_be 2 STUN_BINDING_SUCCESS ++ to_be 2 20) ++ (STUN_COOKIE ++ txid)
    ++ (to_be 2 STUN_ATTR_XOR_MAPPED_ADDRESS ++ to_be 2 8 ++ [0; 1]) ++ xp ++ xi ++ fp)
    by (unfold reply; by rewrite <- !app_assoc).
  split; [|split; [|split]].
  - rewrite Hr. apply slice_app_mid; len; cbn; lia.
  - rewrite Hr, !app_assoc, <- app_assoc, <- (app_assoc _ xp).
    apply slice_app_mid; len; cbn; lia.
  - rewrite Hr, !app_assoc, <- (app_assoc _ xi). apply slice_app_mid; len; cbn; lia.
  - assert (Hf : slice reply 32 40 = fp).
    { rewrite Hr, <- (app_nil_r fp) at 1. rewrite !app_assoc, <- (app_assoc _ fp []).
      apply slice_app_mid; len; cbn; lia. }
    assert (Ht2 : take 2 reply = to_be 2 STUN_BINDING_SUCCESS)
      by (unfold reply; by apply take_app_exact).
    rewrite Hf, Ht2. unfold fp. do 3 f_equal. symmetry. unfold reply.
    rewrite (app_assoc (to_be 2 _) (to_be 2 20)).
    apply slice_app_mid; len; cbn; lia.
Qed.

(** The Binding exchange tells a peer its own address: a codec with a cover
    protocol answers the Binding Request another codec sends, when it comes from
    an IPv4 or IPv4-mapped address, with a Binding Success Response of the same
    transaction, whose mapped port and address, unmasked with the cookie, are
    the source's; the FINGERPRINT is the CRC of the response with its length
    field zeroed; and the requester drops that response without delivering
    anything. *)
Lemma binding_exchange `{RandomSource R} (c c2 : @PhobosCodec R) source ip source2 :
  codec_ok c → codec_ok c2 → pc_masking (cd_config c2) ≠ MaskNone →
  pc_masking (cd_config c) ≠ MaskNone →
  sock_ok source → sock_ipv4 source = Some ip →
  ∃ request c' reply,
    PhobosCodec_binding_request (E := ()) c = (Ok request, c') ∧ codec_ok c'
    ∧ length request = BINDING_REQUEST_LEN
    ∧ PhobosCodec_unwrap (E := ()) c2 request source = Ok (Reply reply)
    ∧ length reply = BINDING_SUCCESS_LEN
    ∧ slice reply 4 20 = slice request 4 20
    ∧ xor_into (slice reply 26 28) STUN_COOKIE = to_be 2 (sock_port source)
    ∧ xor_into (slice reply 28 32) STUN_COOKIE = ip
    ∧ slice reply 32 40 = fingerprint (take 2 reply ++ [0; 0] ++ slice reply 4 32)
    ∧ PhobosCodec_unwrap (E := ()) c reply source2 = Ok Drop.
Proof.
  intros Hc Hc2 Hk2 Hk Hs Hip. pose proof (sock_ipv4_length _ _ Hs Hip) as Hl.
  destruct (binding_request_ok (E := ()) c Hc) as (txid & g & Hb & Ht & Hg).
  set (reply := binding_success txid ip (sock_port source)).
  assert (Lr : length reply = BINDING_SUCCESS_LEN) by (by apply length_binding_success).
  destruct (binding_success_fields txid ip (sock_port source) Ht Hl) as (F1 & F2 & F3 & F4).
  fold reply in F1, F2, F3, F4.
  exists (request_frame txid), (with_cd_rng c g), reply. split; [done|].
  split; [by apply codec_ok_rng|].
  split; [unfold request_frame; by rewrite frame_length, length_fingerprint|].
  split; [by apply unwrap_request|]. split; [done|].
  split; [|split_and!; [by rewrite F2, xor_into_involutive|by rewrite F3, xor_into_involutive
    |done|by apply unwrap_success]].
  rewrite F1. symmetry. unfold request_frame, frame, stun_header.
  rewrite (app_assoc (to_be 2 _)), <- app_assoc. apply slice_app_mid; len; cbn; lia.
Qed.

